(* ===== verification/_CoqProject ===== *)
-Q . S2P
Prelude.v
Protocol.v
Size.v
Wire.v
Serialize.v
Deserialize.v
Codec.v
Typed.v
Server.v
NetworkServer.v
Client.v
ClientSafe.v
ClientProtocol.v
ClientSession.v
ClientTrace.v
Queue.v
Connection.v
ClientMt.v
ClientMtSession.v
ClientMtConnect.v
ClientMtSafe.v
ClientMtOrder.v
ClientMtRun.v
Main.v
MainRun.v
MainSafe.v
ClientTcp.v
Callbacks.v
Runner.v
TestCodec.v
TestClient.v
TestMt.v
TestMtRun.v
