(* ===== verification/Prelude.v ===== *)
(** A verification of small-mqtt-client-in-c, an MQTT 3.1 client library in C.

    * The program

    The program has three layers.  [libsmqttcore] holds the codec of the
    protocol's packets ([messages.c]) and the connection to a broker: an
    interface of four function pointers ([server.h], [server.c]) with a TCP
    implementation ([network_server.c]) and a placeholder ([local_server.c]).
    [libsmqttclient] is the blocking client ([smqttc.c]): every call writes a
    packet into a global buffer, sends it, and receives and checks the reply.
    [libsmqttclient_mt] is the client with a session thread ([connection.c],
    [smqttc_mt.c]), which talks to the calling threads through linked queues.
    [smqttc/main.c] is a command line program over the blocking client;
    [libtest] and [test_mt] hold the test runner, a monitor that hands what
    the callbacks receive to the test, and the tests of the multi-threaded client;
    [test] is the program of the tests of the codec and the blocking client.

    * How the code is modelled

    A C function is a Rocq function with the same name, in the [outcome] monad
    of this file: [Fault] is the point where the C abstract machine has no
    defined behaviour any more (a read or write outside an object, a null,
    freed or indeterminate pointer).  Objects are lists of byte values and
    pointers into them are offsets; every access is checked against the
    object's real size, whether or not the code checks it.  Machine integers
    are [Z] with the wrap-around written out ([u8], [u16], [u32], [u64]).
    [size_t] and [long] have 64 bits.  Console output is left out; the reads the
    trace messages make of a buffer are kept.

    * Files

    - [Prelude] (this file): faults, machine integers, buffers, C strings.
    - [Protocol]: the enumerations and structures of [inc/protocol.h],
      [inc/smqttc.h], [messages.h] and [server.h].
    - [Size]: [encode_size] and [decode_size] of [messages.c], the
      variable-length size field.  Round trip, exact failure condition,
      totality on any bytes, the truncated sizes that are accepted.
    - [Wire]: the MQTT 3.1 packets as byte strings.  Nothing in it is taken from
      the code: it is what the serializers are compared with.
    - [Serialize]: the cursor macros and every [make_..._message] of
      [messages.c].  A serializer is shown to emit a list of bytes ([emits]),
      step by step, and that list to be the packet of [Wire].
    - [Deserialize]: [deserialize_response] with each case of its switch and the
      array fillers; what it answers on the packets of [Wire].
    - [Codec]: both together.  The serializers write the protocol's packets and
      fault exactly where they do not fit; round trips for every packet that
      carries data; the deserializer on arbitrary bytes.
    - [Typed]: the responses of the deserializer are well typed ([response_typed]):
      the union member is the one of the tag, fields are within their types.
    - [Server]: the interface of [server.h], the dispatch functions of
      [server.c], the class [ServerLaws] of what a client may rely on, the
      local server, and a wrapper that records the traffic.
    - [NetworkServer]: [network_server.c] over the socket calls of the operating
      system, which are the class [Os].  [OsLaws] and [Stream] state what POSIX says
      of them (any call may fail, [recv] may give fewer bytes than it is asked for);
      two assumptions go further and are named where they are used: a descriptor
      that fits in an [fd_set] ([small_descriptor]), and reads that are whole
      ([WholeReads]).  [tcp] is an instance with whole reads, [segmented] one without.
      Memory safety of a session up to the first failed send ([ServerLaws] holds),
      what one receive takes from any stream, framing where reads are whole, error
      paths.
    - [Client]: [smqttc.c], every operation, in a state monad over the two global
      buffers, the count of live responses and the server's world.  [triple] is
      total correctness of a computation in it.
    - [ClientSafe], [ClientSession]: memory safety of every operation on any server
      that keeps [ServerLaws], and of whole sessions up to the first call that
      reports a failed send, after which the library leaves a freed connection
      behind; the calls that are not safe or never succeed.
    - [ClientProtocol]: conversations ([sends], [gets], [opens], [closes]) with
      a conforming broker and the operations' results on them.
    - [ClientTrace]: a publish that reports success was acknowledged.
    - [Queue]: the linked queues of [connection.c] on an explicit heap, their
      refinement of lists, and the search for a waiting acknowledgement.
    - [Connection]: the shared state of the multi-threaded client and the loop
      of [session_thread_loop], cut into steps ([session_step]) where it takes or
      releases the mutex or talks to the server; [act] is its switch.
    - [ClientMt]: ping, publish, subscribe and unsubscribe of [smqttc_mt.c] as
      steps of a calling thread ([api_step]), and the system of the session
      thread and any number of calls ([step]), with the mutex: a call in the loop
      of [get_buffer_slot] holds it, and then the steps that take it wait.
      [run_schedule] executes a schedule.  On every interleaving each slot has
      one owner and what is sent is a packet of a call; what a call leaves
      behind; the hang without a free slot; the race for identifiers.
    - [ClientMtSession]: [on_publish] and [on_ack] specify what the session
      thread does with a message over the list of what it waits for, and the
      loop is shown to do that; the messages it fails on.
    - [ClientMtConnect]: [smqtt_mt_connect] up to the start of the session thread
      (the initial state of [ClientMt]), and [smqtt_mt_disconnect] after its end.
    - [ClientMtSafe]: the invariant of the whole system ([system_ok]) under a
      conforming broker (class [Broker], packets [broker_packet]) and calls that
      fit ([call_fits]): on every interleaving the next step of every thread is
      defined, but for the session thread at a SUBACK when a subscribe or an
      unsubscribe was called ([awaits_suback], [handles_suback]); the session thread
      ends once it is told to ([session_rank] bounds its steps).
    - [ClientMtOrder]: the runs of that system with their traces ([traced]) refine a
      first-in first-out queue ([fifo_step]): packets leave in the order they were
      queued; queued packets go out, where no subscribe or unsubscribe was called, the
      client was not told to end and no call holds the mutex; calls that have their
      slot return.
    - [ClientMtRun]: iterations of the session thread after a call; a publish, a ping
      and a subscription from the call to the callback.
    - [Main]: [smqttc/main.c]: the walk of the argument vector, publishing, the
      loop of received messages; [spec_args] reads the same command lines as lists,
      and [parse_args_reference] shows the two agree.
    - [MainRun]: the command lines that are accepted, and runs of the program
      against a conforming broker: publishing, receiving without an end, and the
      packet that ends it.
    - [MainSafe]: memory safety of the whole program on any server, and the command
      lines that crash it.
    - [ClientTcp]: the blocking client and the program over [NetworkServer]: the
      conversations of [ClientProtocol] as bytes on one stream (class [Duplex], with
      [tcp] as its instance), where calls succeed and reads are whole, and what is left
      of them when the broker goes away.
    - [Callbacks]: the monitor of [test_mt/client.c], as steps of threads with a
      mutex and a condition variable ([cb_step]): messages are handed over in
      order, none is lost, and the hand-over ends.
    - [Runner]: [libtest/runner.c] and the assertion macros.
    - [TestCodec]: the tests of [test/encoding.c] and [test/serialization.c]; they
      pass whatever their buffers hold, because the deserializer looks at nothing
      after the packet ([Codec.below_response]).
    - [TestClient]: the tests of [test/client.c] and the program of [test/main.c]; with
      a broker that says what each test is written for ([all_expected], one
      conversation for each test) it reports that all pass.
    - [TestMt]: the test functions of [test_mt/client.c] as programs ([test]) over the
      calls of the client, the monitors and the assertions.
    - [TestMtRun]: such a program with the clients it connects and the monitors, in
      any interleaving ([execute], in which a move that must wait and one that faults
      are told apart); no test returns, because each disconnects; runs of all tests
      up to their disconnects with a broker that answers ([all_tests_disconnect]).

    * Bounds and fuel

    The loops over buffers are bounded by the code: [encode_size] and
    [decode_size] run at most 4 times and get fuel 5 ([encode_size_spec] and
    [decode_size_total] show it is enough), the array fillers at most
    [MAX_TOPICS] times and get one more ([fill_topic_arrays_bounds]); the search
    of a queue gets one more than the heap's size
    ([dequeue_by_type_and_id_first_match]).  A call of the multi-threaded client
    that finds a slot takes ten steps ([call_fuel], [call_queues_packet]), the
    session thread four from a message to the top of its loop ([session_fuel],
    [session_receives_publish]) and seven for a whole iteration
    ([iteration_fuel], [smqtt_mt_publish_completes]).  The option loop of [main]
    gets the number of arguments ([parse_args_reference] holds without a bound on
    them); the loop of received messages has no end of its own, and its fuel is the
    number of rounds that are followed: [main] gives the code it ended with, or [None]
    where it is running still, and what it printed so far.
    The test runner ends within the number of tests, where that is below 256
    ([run_tests_runs_each]), and else never ([run_tests_never_ends]).  A call that has
    a slot makes at most nine more steps ([call_with_slot_returns]).  [drive] runs all
    threads of a test in turn; [all_tests_disconnect] shows that 120 rounds are enough
    for every test to come to its disconnects.  The loop of [test/main.c] gets one more than
    its 26 tests ([main_reports]).  The
    theorems about packets ask for strings below 256 characters and identifiers
    below 256, because the code loses the high byte of sixteen-bit fields; those that say so are
    [packet_id_high_byte_lost], [short_from_buffer_truncates] and
    [publish_ids_exhausted].  For the same reason a keep-alive comes back modulo 256
    ([connect_roundtrip]).

    * Not modelled

    The multi-threaded client is modelled at the granularity of its steps:
    between two steps of a thread the others may run, inside one they may not.
    Reads and writes of the identifiers are separate steps; the writing of a
    packet into a slot and the handling of a received message outside the mutex
    are single ones, on memory the invariant shows to be private.  A callback
    that calls the client again is a call of another thread.  [pthread_create]
    and [pthread_join] are not steps: the session thread is there from the start,
    and [smqtt_mt_disconnect] begins where it has ended.  Of [join_session_thread]
    there is left that it frees the client and returns no value; the join and the
    frees of the slots are not modelled.

    What is not known of the operating system is a parameter: [socket], [connect],
    [send], [select] and [recv] are arbitrary functions of its state.  The theorems
    over sockets say which of [OsLaws], [Stream], [small_descriptor] and [WholeReads]
    they need; that large descriptors overflow the [fd_set] and short reads break the
    framing is stated by [network_receive_large_descriptor] and
    [network_receive_any_read].

    The C library ([strtoul], [strcmp], [strncmp], [strstr]) and the POSIX mutex and condition
    variable are modelled by what their documentation says.  In [TestMtRun] a call on
    a monitor is one move ([Callbacks] has its steps), a sleep takes no time, and a
    callback runs while other threads do but its session thread waits for it.  [malloc]
    succeeds, except for the client's own block in the two connect functions; memory
    that is never freed is not tracked in the multi-threaded client. *)

From Stdlib Require Import String.
From stdpp Require Export base tactics option numbers list.
From stdpp Require Import options.

#[export] Set Default Proof Using "Type".
#[local] Open Scope Z_scope.

(** * Outcomes *)

(** What the C abstract machine does when the program has no defined
    behaviour any more.  [OutOfFuel] is not a behaviour of the program: it is
    the answer of a loop that was given too little fuel, and the library proves
    that the fuel chosen is always enough. *)
Inductive fault :=
  | OobRead | OobWrite | NullDeref | Uninitialised | UseAfterFree | OutOfFuel.

#[export] Instance fault_eq_dec : EqDecision fault.
Proof. solve_decision. Defined.

Inductive outcome (A : Type) : Type :=
  | Ok (a : A)
  | Fault (f : fault).
Arguments Ok {A} a.
Arguments Fault {A} f.

#[export] Instance outcome_eq_dec `{EqDecision A} : EqDecision (outcome A).
Proof. solve_decision. Defined.

#[export] Instance outcome_ret : MRet outcome := @Ok.
#[export] Instance outcome_bind : MBind outcome :=
  λ A B f m, match m with Ok a => f a | Fault e => Fault e end.
#[export] Instance outcome_fmap : FMap outcome :=
  λ A B f m, match m with Ok a => Ok (f a) | Fault e => Fault e end.

Definition is_ok {A} (m : outcome A) : bool :=
  match m with Ok _ => true | Fault _ => false end.

Lemma bind_ok {A B} (a : A) (f : A → outcome B) : Ok a ≫= f = f a.
Proof. done. Qed.
Lemma bind_fault {A B} e (f : A → outcome B) : Fault e ≫= f = Fault e.
Proof. done. Qed.
Lemma bind_ret {A} (m : outcome A) : m ≫= Ok = m.
Proof. by destruct m. Qed.
Lemma bind_assoc {A B C} (m : outcome A) (f : A → outcome B) (g : B → outcome C) :
  (m ≫= f) ≫= g = m ≫= (λ x, f x ≫= g).
Proof. by destruct m. Qed.
Lemma bind_ok_inv {A B} (m : outcome A) (f : A → outcome B) b :
  m ≫= f = Ok b → ∃ a, m = Ok a ∧ f a = Ok b.
Proof. destruct m; [eauto|done]. Qed.

(** * Machine integers *)

Definition u8 (z : Z) : Z := z `mod` 2 ^ 8.
Definition u16 (z : Z) : Z := z `mod` 2 ^ 16.
Definition u32 (z : Z) : Z := z `mod` 2 ^ 32.
Definition u64 (z : Z) : Z := z `mod` 2 ^ 64.

(** A value that fits in [uint8_t]. *)
Definition byte_range (b : Z) : Prop := 0 ≤ b < 256.
Definition bytes (l : list Z) : Prop := Forall byte_range l.

#[export] Instance byte_range_dec b : Decision (byte_range b).
Proof. apply _. Defined.

Lemma u8_small b : byte_range b → u8 b = b.
Proof. intros [??]. apply Z.mod_small. lia. Qed.
Lemma u8_range z : byte_range (u8 z).
Proof. apply (Z.mod_pos_bound z (2 ^ 8)). lia. Qed.
Lemma u16_small z : 0 ≤ z < 65536 → u16 z = z.
Proof. intros ?. apply Z.mod_small. lia. Qed.
Lemma u16_range z : 0 ≤ u16 z < 65536.
Proof. apply (Z.mod_pos_bound z (2 ^ 16)). lia. Qed.
Lemma u32_small z : 0 ≤ z < 2 ^ 32 → u32 z = z.
Proof. intros ?. by apply Z.mod_small. Qed.
Lemma u32_range z : 0 ≤ u32 z < 2 ^ 32.
Proof. by apply Z.mod_pos_bound. Qed.
Lemma u64_small z : 0 ≤ z < 2 ^ 64 → u64 z = z.
Proof. intros ?. by apply Z.mod_small. Qed.

Lemma bytes_app a b : bytes (a ++ b) ↔ bytes a ∧ bytes b.
Proof. apply Forall_app. Qed.

(** * Buffers

    A buffer is the whole C object, a [list Z] of byte values; a pointer into
    it is an offset.  Every access is checked against the object's real size,
    whether or not the program checks it. *)

Definition zlen {A} (l : list A) : Z := Z.of_nat (length l).

Definition buf_read (m : list Z) (p : Z) : outcome Z :=
  if decide (0 ≤ p < zlen m) then
    match m !! Z.to_nat p with Some b => Ok b | None => Fault OobRead end
  else Fault OobRead.

Definition buf_write (m : list Z) (p : Z) (b : Z) : outcome (list Z) :=
  if decide (0 ≤ p < zlen m) then Ok (<[Z.to_nat p := b]> m)
  else Fault OobWrite.

(** The [n] bytes at offset [off]: what a (pointer, size) pair of the program
    denotes in a buffer. *)
Definition slice (m : list Z) (off n : Z) : list Z :=
  take (Z.to_nat n) (drop (Z.to_nat off) m).

(** [m] with the bytes from offset [off] on replaced by [bs]. *)
Definition splice (m : list Z) (off : Z) (bs : list Z) : list Z :=
  take (Z.to_nat off) m ++ bs ++ drop (Z.to_nat off + length bs)%nat m.

(** [fits m off n]: the [n] bytes at [off] lie inside [m]. *)
Definition fits (m : list Z) (off n : Z) : Prop := 0 ≤ off ∧ off + n ≤ zlen m.

#[export] Instance fits_dec m off n : Decision (fits m off n).
Proof. apply _. Defined.

Lemma zlen_app {A} (a b : list A) : zlen (a ++ b) = zlen a + zlen b.
Proof. unfold zlen. rewrite length_app. lia. Qed.
Lemma zlen_cons {A} (x : A) l : zlen (x :: l) = 1 + zlen l.
Proof. unfold zlen. simpl. lia. Qed.
Lemma zlen_nil {A} : zlen (@nil A) = 0.
Proof. done. Qed.
Create Rewrite HintDb zlen.
#[export] Hint Rewrite @zlen_app @zlen_cons @zlen_nil : zlen.

Lemma zlen_nonneg {A} (l : list A) : 0 ≤ zlen l.
Proof. unfold zlen. lia. Qed.
Lemma zlen_splice m off bs : fits m off (zlen bs) → zlen (splice m off bs) = zlen m.
Proof.
  intros [??]. unfold zlen, splice in *.
  rewrite !length_app, length_take, length_drop. lia.
Qed.
Lemma fits_splice m off bs off' n :
  fits m off (zlen bs) → fits (splice m off bs) off' n ↔ fits m off' n.
Proof. intros Hf. pose proof (zlen_splice _ _ _ Hf) as Hl. unfold fits. by rewrite Hl. Qed.
Lemma fits_app m off {A} (a b : list A) :
  fits m off (zlen (a ++ b)) ↔ fits m off (zlen a) ∧ fits m (off + zlen a) (zlen b).
Proof. unfold fits. rewrite zlen_app. pose proof (zlen_nonneg a). pose proof (zlen_nonneg b). lia. Qed.
Lemma zlen_insert (m : list Z) i b : zlen (<[i := b]> m) = zlen m.
Proof. unfold zlen. by rewrite length_insert. Qed.

Lemma splice_nil m off : splice m off [] = m.
Proof. unfold splice. simpl. rewrite Nat.add_0_r. apply take_drop. Qed.

Lemma splice_singleton m p b :
  fits m p 1 → <[Z.to_nat p := b]> m = splice m p [b].
Proof.
  intros [??]. unfold splice, zlen in *.
  rewrite insert_take_drop by lia. simpl. do 2 f_equal. f_equal. lia.
Qed.

Lemma splice_splice m off a b :
  fits m off (zlen a) →
  splice (splice m off a) (off + zlen a) b = splice m off (a ++ b).
Proof.
  intros [??]. unfold splice, zlen in *.
  rewrite !(app_assoc (take (Z.to_nat off) m) a).
  set (p := take (Z.to_nat off) m ++ a).
  assert (Hp : length p = (Z.to_nat off + length a)%nat)
    by (unfold p; rewrite length_app, length_take; lia).
  replace (Z.to_nat (off + Z.of_nat (length a))) with (length p) by lia.
  rewrite take_app_length, drop_app_ge, drop_drop by lia.
  rewrite <- !app_assoc. unfold p. rewrite <- !app_assoc.
  do 4 f_equal. fold p. rewrite length_app. lia.
Qed.

Lemma splice_0 m bs :
  zlen bs ≤ zlen m → splice m 0 bs = bs ++ drop (length bs) m.
Proof. done. Qed.

Lemma splice_bytes m off bs : bytes m → bytes bs → bytes (splice m off bs).
Proof.
  intros ??. apply Forall_app; split; [by apply Forall_take|].
  apply Forall_app; split; [done|by apply Forall_drop].
Qed.

Lemma buf_write_splice m p b :
  buf_write m p b =
    if decide (fits m p 1) then Ok (splice m p [b]) else Fault OobWrite.
Proof.
  unfold buf_write. destruct (decide (fits m p 1)) as [Hf|Hf].
  - pose proof Hf as [??]. rewrite decide_True by lia. by rewrite splice_singleton.
  - rewrite decide_False; [done|]. unfold fits in Hf. lia.
Qed.

(** ** Reading at a known suffix

    [at_off m off suf]: the object, from [off] on, reads [suf]. *)
Definition at_off (m : list Z) (off : Z) (suf : list Z) : Prop :=
  0 ≤ off ≤ zlen m ∧ drop (Z.to_nat off) m = suf.

Lemma at_off_0 m : at_off m 0 m.
Proof. split; [unfold zlen; lia|done]. Qed.

Lemma at_off_app m off a b :
  at_off m off (a ++ b) → at_off m (off + zlen a) b ∧ slice m off (zlen a) = a.
Proof.
  intros [? Hd].
  assert (Hl : length (drop (Z.to_nat off) m) = length (a ++ b)) by by rewrite Hd.
  rewrite length_drop, length_app in Hl. unfold at_off, slice, zlen in *. split_and!; try lia.
  - rewrite Z2Nat.inj_add, Nat2Z.id, <- drop_drop, Hd by lia. apply drop_app_length.
  - rewrite Hd, Nat2Z.id. apply take_app_length.
Qed.

Lemma at_off_app_at m off a b n :
  at_off m off (a ++ b) → n = zlen a → at_off m (off + n) b.
Proof. intros H ->. by apply at_off_app in H as [? _]. Qed.

Lemma at_off_app_slice m off a b n :
  at_off m off (a ++ b) → n = zlen a → slice m off n = a.
Proof. intros H ->. by apply at_off_app in H as [_ ?]. Qed.

Lemma at_off_cons m off b suf :
  at_off m off (b :: suf) → buf_read m off = Ok b ∧ at_off m (off + 1) suf.
Proof.
  intros H. pose proof (at_off_app m off [b] suf H) as [H' _].
  destruct H as [? Hd]. split; [|done].
  assert (Hl : m !! Z.to_nat off = Some b).
  { rewrite <- (Nat.add_0_r (Z.to_nat off)), <- lookup_drop, Hd. done. }
  unfold buf_read. rewrite Hl, decide_True; [done|].
  apply lookup_lt_Some in Hl. unfold zlen. lia.
Qed.

Lemma buf_read_ok m p : 0 ≤ p < zlen m → ∃ b, buf_read m p = Ok b.
Proof.
  intros ?. unfold buf_read. rewrite decide_True by lia.
  destruct (m !! Z.to_nat p) eqn:E; [eauto|].
  apply lookup_ge_None in E. unfold zlen in *. lia.
Qed.

Lemma buf_read_range m p b : bytes m → buf_read m p = Ok b → byte_range b.
Proof.
  unfold buf_read. intros Hm. case_decide; [|done].
  destruct (m !! _) eqn:E; [|done]. intros [= <-].
  eapply Forall_lookup_1 in Hm; eauto.
Qed.

Lemma buf_read_None m p : ¬ (0 ≤ p < zlen m) → buf_read m p = Fault OobRead.
Proof. intros ?. unfold buf_read. by rewrite decide_False. Qed.

Lemma buf_read_splice_out m off bs p :
  fits m off (zlen bs) → (p < off ∨ off + zlen bs ≤ p) →
  buf_read (splice m off bs) p = buf_read m p.
Proof.
  intros Hf Hp. unfold buf_read. rewrite zlen_splice by done.
  case_decide as Hr; [|done].
  assert (splice m off bs !! Z.to_nat p = m !! Z.to_nat p) as ->; [|done].
  destruct Hf as [? ?]. unfold splice, zlen in *. destruct Hp.
  - rewrite lookup_app_l by (rewrite length_take; lia). by rewrite lookup_take_lt by lia.
  - rewrite lookup_app_r by (rewrite length_take; lia).
    rewrite length_take, lookup_app_r by lia. rewrite lookup_drop. f_equal. lia.
Qed.

Lemma slice_splice_out m off bs p n :
  fits m off (zlen bs) → 0 ≤ p → off + zlen bs ≤ p →
  slice (splice m off bs) p n = slice m p n.
Proof.
  intros [? ?] ??. unfold slice, splice, zlen in *. f_equal.
  rewrite drop_app_ge by (rewrite length_take; lia).
  rewrite length_take, drop_app_ge by lia. rewrite drop_drop. f_equal. lia.
Qed.

Lemma drop_splice m off bs k :
  fits m off (zlen bs) → off + zlen bs ≤ k → drop (Z.to_nat k) (splice m off bs) = drop (Z.to_nat k) m.
Proof.
  intros [? ?] ?. unfold splice, zlen in *.
  rewrite drop_app_ge by (rewrite length_take; lia).
  rewrite length_take, drop_app_ge by lia. rewrite drop_drop. f_equal. lia.
Qed.

(** * C strings

    A [char *] argument is the list of its characters; the terminator is the
    end of the list, or the first NUL in it. *)

Fixpoint c_chars (s : list Z) : list Z :=
  match s with
  | [] => []
  | c :: s' => if decide (c = 0) then [] else c :: c_chars s'
  end.

(** The bytes of a literal, without a terminator. *)
Definition chars (s : String.string) : list Z := (λ c, Z.of_N (Ascii.N_of_ascii c)) <$> String.list_ascii_of_string s.

Definition strlen (s : list Z) : Z := zlen (c_chars s).

Definition nul_free (s : list Z) : Prop := Forall (λ c, c ≠ 0) s.

(** [strncpy(dst, src, n)]: the [n] bytes written to [dst], where [src] is the
    object from the source pointer on: the characters up to a NUL, then
    zero bytes. *)
Fixpoint strncpy_bytes (src : list Z) (n : nat) {struct n} : outcome (list Z) :=
  match n with
  | O => Ok []
  | S n' =>
      match src with
      | [] => Fault OobRead
      | c :: src' =>
          if decide (c = 0) then Ok (replicate n 0)
          else r ← strncpy_bytes src' n'; Ok (c :: r)
      end
  end.

(** The object a string argument points to. *)
Definition c_object (s : list Z) : list Z := c_chars s ++ [0].

Lemma c_chars_nul_free s : nul_free s → c_chars s = s.
Proof. induction 1; simpl; [done|]. rewrite decide_False by done. by f_equal. Qed.

Lemma nul_free_c_chars s : nul_free (c_chars s).
Proof. induction s; simpl; [constructor|]. case_decide; constructor; auto. Qed.

Lemma strlen_nul_free s : nul_free s → strlen s = zlen s.
Proof. intros ?. unfold strlen. by rewrite c_chars_nul_free. Qed.

Lemma strlen_nonneg s : 0 ≤ strlen s.
Proof. apply zlen_nonneg. Qed.

Lemma c_chars_bytes s : bytes s → bytes (c_chars s).
Proof.
  induction 1; simpl; [constructor|]. case_decide; [constructor|]. by constructor.
Qed.

Lemma strncpy_bytes_prefix s rest :
  nul_free s → strncpy_bytes (s ++ rest) (length s) = Ok s.
Proof.
  induction 1 as [|c s Hc _ IH]; [done|].
  simpl. rewrite decide_False by done. by rewrite IH.
Qed.

Lemma strncpy_bytes_string s :
  strncpy_bytes (c_object s) (Z.to_nat (strlen s)) = Ok (c_chars s).
Proof.
  unfold strlen, zlen, c_object. rewrite Nat2Z.id.
  apply strncpy_bytes_prefix, nul_free_c_chars.
Qed.
