(* ===== verification/Protocol.v ===== *)
(** Protocol: the data of [inc/protocol.h], [libsmqttcore/messages.h] and the
    status enumerations of [inc/smqttc.h] and [libsmqttcore/server.h]. *)

From S2P Require Import Prelude.

#[local] Open Scope Z_scope.

(** * Message types *)

Inductive message_type_t :=
  | CONNECT | CONNACK | PUBLISH | PUBACK | PUBREC | PUBREL | PUBCOMP
  | SUBSCRIBE | SUBACK | UNSUBSCRIBE | UNSUBACK | PINGREQ | PINGRESP
  | DISCONNECT.

#[export] Instance message_type_eq_dec : EqDecision message_type_t.
Proof. solve_decision. Defined.

(** The enumerator's integer value. *)
Definition message_type_val (t : message_type_t) : Z :=
  match t with
  | CONNECT => 1 | CONNACK => 2 | PUBLISH => 3 | PUBACK => 4 | PUBREC => 5
  | PUBREL => 6 | PUBCOMP => 7 | SUBSCRIBE => 8 | SUBACK => 9
  | UNSUBSCRIBE => 10 | UNSUBACK => 11 | PINGREQ => 12 | PINGRESP => 13
  | DISCONNECT => 14
  end.

Definition message_types : list message_type_t :=
  [CONNECT; CONNACK; PUBLISH; PUBACK; PUBREC; PUBREL; PUBCOMP; SUBSCRIBE;
   SUBACK; UNSUBSCRIBE; UNSUBACK; PINGREQ; PINGRESP; DISCONNECT].

(** The enumerator with a given value, if there is one. *)
Definition message_type_of (z : Z) : option message_type_t :=
  snd <$> list_find (λ t, message_type_val t = z) message_types.

Lemma message_type_of_val t : message_type_of (message_type_val t) = Some t.
Proof. by destruct t. Qed.

(** * Quality of service, connection results

    Both enumerations are stored from raw bytes by the deserializer, so the
    values outside the enumerators are reachable: they stay integers. *)

Definition QoS0 : Z := 0.
Definition QoS1 : Z := 1.
Definition QoS2 : Z := 2.

Definition Connection_Accepted : Z := 0.
Definition Connection_Refused_unacceptable_protocol_version : Z := 1.
Definition Connection_Refused_identifier_rejected : Z := 2.
Definition Connection_Refused_server_unavailable : Z := 3.
Definition Connection_Refused_bad_username_or_password : Z := 4.
Definition Connection_Refused_not_authorized : Z := 5.

Definition MAX_TOPICS : nat := 32.

(** * Responses

    A [char *] of a response points into the buffer it was read from: it is
    the offset into that buffer.  A field the deserializer leaves unwritten
    (the block comes from [malloc]) is [None]. *)

Record connect_data_t := mk_connect_data {
  name_size : Z;
  name : Z;
  version : Z;
  has_user : bool;
  has_pw : bool;
  has_will : bool;
  will_qos : Z;
  will_retain : bool;
  has_clean : bool;
  keep_alive : Z;
  client_id_size : Z;
  client_id : Z;
  will_topic_size : option Z;
  will_topic : option Z;
  will_message_size : option Z;
  will_message : option Z;
  user_size : option Z;
  user : option Z;
  pw_size : option Z;
  pw : option Z
}.

Record publish_data_t := mk_publish_data {
  pub_qos : Z;
  pub_retain : bool;
  pub_topic_size : Z;
  pub_topic : Z;
  pub_packet_id : Z;
  pub_message_size : Z;
  pub_message : Z
}.

(** One entry of the parallel arrays [topic_lengths], [topics] and [qoss] (the
    last is absent from [unsubscribe_data]). *)
Record topic_entry := mk_topic_entry {
  topic_length : Z;
  topic_ptr : Z;
  topic_qos : option Z
}.

(** One entry of the parallel arrays [success] and [qoss]. *)
Record sub_result := mk_sub_result {
  sub_success : bool;
  sub_qos : Z
}.

(** The union [body].  The arrays hold [topic_count] meaningful entries: the
    list is those entries, its length the count. *)
Inductive response_body :=
  | connect_data (d : connect_data_t)
  | connack_data (type : Z)
  | publish_data (d : publish_data_t)
  | puback_data (packet_id : Z)
  | pubrec_data (packet_id : Z)
  | pubrel_data (packet_id : Z)
  | pubcomp_data (packet_id : Z)
  | subscribe_data (packet_id : Z) (topics : list topic_entry)
  | suback_data (packet_id : Z) (results : list sub_result)
  | unsubscribe_data (packet_id : Z) (topics : list topic_entry)
  | unsuback_data (packet_id : Z)
  | no_data.

Record response_t := mk_response {
  type : message_type_t;
  body : response_body
}.

(** The [uint16_t] at the start of the union: [puback_data.packet_id],
    [pubrec_data.packet_id], ... and [suback_data.packet_id] all name these two
    bytes, whichever member was written ([smqttc.c] reads one through the name
    of another).  [None] where the bytes hold something else or nothing. *)
Definition body_packet_id (b : response_body) : option Z :=
  match b with
  | puback_data p | pubrec_data p | pubrel_data p | pubcomp_data p
  | subscribe_data p _ | suback_data p _ | unsuback_data p => Some p
  | _ => None
  end.

(** * Status codes *)

Inductive smqtt_net_status_t := SMQTT_NET_OK | SMQTT_NET_SOCKET.

#[export] Instance net_status_eq_dec : EqDecision smqtt_net_status_t.
Proof. solve_decision. Defined.

Inductive server_mode_t := LOCAL_SERVER | REMOTE_SERVER.

(** [SMQTT_raw z]: an integer returned as a status that is not an enumerator. *)
Inductive smqtt_status_t :=
  | SMQTT_OK | SMQTT_BAD_MESSAGE | SMQTT_NOACK | SMQTT_NOMESSAGE
  | SMQTT_NOT_CONNECTED | SMQTT_UNEXPECTED | SMQTT_INVALID
  | SMQTT_NOT_AUTHORIZED | SMQTT_SOCKET | SMQTT_PROTOCOL | SMQTT_IDENTIFIER
  | SMQTT_SERVER | SMQTT_NOT_AUTHENTICATED
  | SMQTT_raw (z : Z).

#[export] Instance status_eq_dec : EqDecision smqtt_status_t.
Proof. solve_decision. Defined.
