(* ===== verification/Size.v ===== *)
(** Size: the variable-length size field, [encode_size] and [decode_size] of
    [libsmqttcore/messages.c], against the byte list they stand for. *)

From S2P Require Import Prelude.

#[local] Open Scope Z_scope.

(** * Model *)

Module Encode.

(** The loop of [encode_size]: [used] and [remaining_size] are its variables,
    [mem] the object [buffer] points into. *)
Fixpoint loop (fuel : nat) (mem : list Z) (buffer used remaining_size : Z)
    : outcome (list Z * Z * Z) :=
  match fuel with
  | O => Fault OutOfFuel
  | S fuel' =>
      if decide (used < 4) then
        let digit := u8 (remaining_size `mod` 128) in
        let remaining_size := remaining_size `div` 128 in
        let digit := if decide (remaining_size > 0) then u8 (Z.lor digit 0x80) else digit in
        mem ← buf_write mem (buffer + used) digit;
        let used := u8 (used + 1) in
        if decide (remaining_size = 0) then Ok (mem, used, remaining_size)
        else loop fuel' mem buffer used remaining_size
      else Ok (mem, used, remaining_size)
  end.

(** Iterations the guard [used < 4] allows, and the one that fails it. *)
Definition fuel : nat := 5.

End Encode.

(** Result: the return value, [*bytes_used] and the memory. *)
Definition encode_size (size : Z) (mem : list Z) (buffer : Z)
    : outcome (bool * Z * list Z) :=
  '(mem, used, remaining_size) ← Encode.loop Encode.fuel mem buffer 0 size;
  Ok (if decide (remaining_size > 0) then false else true, used, mem).

Module Decode.

Record state := mk_state {
  buffer : Z; multiplier : Z; value : Z; used : Z; digit : Z
}.

Fixpoint loop (fuel : nat) (mem : list Z) (buffer_end : Z) (s : state)
    : outcome state :=
  match fuel with
  | O => Fault OutOfFuel
  | S fuel' =>
      if decide (buffer s ≤ buffer_end ∧ used s < 4) then
        d ← buf_read mem (buffer s);
        let s' := {| buffer := buffer s + 1;
                     value := u64 (value s + u64 (Z.land d 127 * multiplier s));
                     multiplier := u64 (multiplier s * 128);
                     used := u8 (used s + 1);
                     digit := d |} in
        if decide (Z.land d 0x80 = 0) then Ok s'
        else loop fuel' mem buffer_end s'
      else Ok s
  end.

Definition fuel : nat := 5.

End Decode.

(** Result: the return value, [*size] where it is assigned, [*bytes_used]. *)
Definition decode_size (mem : list Z) (buffer buffer_end : Z)
    : outcome (bool * option Z * Z) :=
  s ← Decode.loop Decode.fuel mem buffer_end
        {| Decode.buffer := buffer; Decode.multiplier := 1; Decode.value := 0;
           Decode.used := 0; Decode.digit := 0 |};
  if decide (Decode.used s = 4 ∧ Z.land (Decode.digit s) 0x80 ≠ 0)
  then Ok (false, None, Decode.used s)
  else Ok (true, Some (Decode.value s), Decode.used s).

(** * Specification

    The digits of [n] in base 128, least significant first, at most [k] of
    them; every digit but the last has its high bit set.  A number with more
    than [k] digits keeps the low ones. *)
Fixpoint digits (k : nat) (n : Z) : list Z :=
  match k with
  | O => []
  | S k' =>
      if decide (n < 128) then [n]
      else (n `mod` 128 + 128) :: digits k' (n `div` 128)
  end.

Definition size_bytes (n : Z) : list Z := digits 4 n.

(** The largest size the field can carry, plus one. *)
Definition size_limit : Z := 2 ^ 28.

(** The number a list of digits stands for. *)
Fixpoint undigits (l : list Z) : Z :=
  match l with
  | [] => 0
  | d :: l' => d `mod` 128 + 128 * undigits l'
  end.

(** * Digits *)

Lemma land_128_low d : 0 ≤ d < 128 → Z.land d 128 = 0.
Proof.
  intros ?. apply Z.bits_inj'. intros i ?.
  rewrite Z.land_spec, Z.bits_0. change 128 with (2 ^ 7).
  destruct (decide (i = 7)) as [->|].
  - assert (Z.testbit d 7 = false) as ->; [|done].
    apply Z.testbit_false; [lia|]. by rewrite Z.div_small by lia.
  - by rewrite Z.pow2_bits_false, andb_false_r by lia.
Qed.

Lemma lor_128 d : 0 ≤ d < 128 → Z.lor d 128 = d + 128.
Proof. intros ?. rewrite <- Z.add_lor_land, land_128_low by lia. lia. Qed.

Lemma land_127 d : Z.land d 127 = d `mod` 128.
Proof. apply (Z.land_ones d 7). lia. Qed.

Lemma land_128_high d : 128 ≤ d < 256 → Z.land d 128 = 128.
Proof.
  intros ?. replace d with (Z.lor (d - 128) 128) by (rewrite lor_128 by lia; lia).
  rewrite Z.land_lor_distr_l, land_128_low by lia. done.
Qed.

Lemma digits_length k n : (0 < k)%nat → (1 ≤ length (digits k n) ≤ k)%nat.
Proof.
  revert n. induction k as [|k IH]; intros n Hk; [lia|].
  simpl. case_decide; simpl; [lia|].
  destruct k; [simpl; lia|]. specialize (IH (n `div` 128)). lia.
Qed.

Lemma size_bytes_length n : 1 ≤ zlen (size_bytes n) ≤ 4.
Proof. pose proof (digits_length 4 n). unfold zlen, size_bytes. lia. Qed.

Lemma digits_bytes k n : 0 ≤ n → bytes (digits k n).
Proof.
  revert n. induction k as [|k IH]; intros n ?; [constructor|].
  simpl. case_decide; constructor.
  - unfold byte_range. lia.
  - constructor.
  - unfold byte_range. pose proof (Z.mod_pos_bound n 128). lia.
  - apply IH. by apply Z.div_pos.
Qed.

Lemma size_bytes_bytes n : 0 ≤ n → bytes (size_bytes n).
Proof. apply digits_bytes. Qed.

Lemma size_bytes_small n : 0 ≤ n < 128 → size_bytes n = [n].
Proof. intros ?. unfold size_bytes. simpl. by rewrite decide_True by lia. Qed.

Lemma size_bytes_medium n : 128 ≤ n < 16384 → zlen (size_bytes n) = 2.
Proof.
  intros ?. unfold size_bytes. simpl. rewrite decide_False by lia.
  rewrite decide_True; [done|]. apply Z.div_lt_upper_bound; lia.
Qed.

(** * The encoder writes the digits *)

Lemma encode_digit n : 0 ≤ n →
  (if decide (n `div` 128 > 0) then u8 (Z.lor (u8 (n `mod` 128)) 0x80)
   else u8 (n `mod` 128)) =
  if decide (n < 128) then n else n `mod` 128 + 128.
Proof.
  intros ?. pose proof (Z.mod_pos_bound n 128).
  rewrite (u8_small (n `mod` 128)) by (unfold byte_range; lia).
  destruct (decide (n < 128)).
  - rewrite Z.div_small, Z.mod_small by lia. by rewrite decide_False by lia.
  - pose proof (Z.div_le_mono 128 n 128). rewrite decide_True by (change (128 `div` 128) with 1 in *; lia).
    rewrite lor_128 by lia. apply u8_small. unfold byte_range. lia.
Qed.

Lemma encode_loop_spec k : ∀ fuel n mem buffer used,
  (k < fuel)%nat → 0 ≤ n → used = 4 - Z.of_nat k → (0 < k ≤ 4)%nat →
  Encode.loop fuel mem buffer used n =
    if decide (fits mem (buffer + used) (zlen (digits k n)))
    then Ok (splice mem (buffer + used) (digits k n),
             used + zlen (digits k n),
             n `div` 128 ^ zlen (digits k n))
    else Fault OobWrite.
Proof.
  induction k as [|k IH]; intros fuel n mem buffer used Hf Hn Hu Hk; [lia|].
  destruct fuel as [|fuel]; [lia|]. cbn [Encode.loop digits].
  rewrite decide_True by lia. rewrite encode_digit, buf_write_splice by done.
  rewrite u8_small by (unfold byte_range; lia).
  destruct (decide (n < 128)) as [Hs|Hl].
  { change (zlen [n]) with 1. destruct (decide (fits _ _ _)); [cbn|done].
    rewrite decide_True by (apply Z.div_small; lia). done. }
  assert (Hd : n `div` 128 ≠ 0) by (intros Hd; apply Z.div_small_iff in Hd; lia).
  pose proof (Z.div_pos n 128). rewrite zlen_cons.
  destruct (decide (fits mem (buffer + used) 1)) as [Hw|Hw]; simpl.
  2:{ rewrite decide_False; [done|]. pose proof (zlen_nonneg (digits k (n `div` 128))).
      unfold fits in *. lia. }
  rewrite decide_False by done. destruct k as [|k].
  { destruct fuel; [lia|]. cbn [Encode.loop]. rewrite decide_False by lia.
    simpl digits. rewrite zlen_nil, decide_True by done.
    replace (used + (1 + 0)) with (used + 1) by lia. by rewrite Z.pow_1_r. }
  rewrite (IH fuel) by lia.
  assert (Hfit : fits (splice mem (buffer + used) [n `mod` 128 + 128]) (buffer + (used + 1))
                  (zlen (digits (S k) (n `div` 128)))
          ↔ fits mem (buffer + used) (1 + zlen (digits (S k) (n `div` 128)))).
  { unfold fits in *. rewrite zlen_splice by done. lia. }
  case_decide as Ha; rewrite Hfit in Ha; [rewrite decide_True by done|by rewrite decide_False].
  replace (buffer + (used + 1)) with (buffer + used + zlen [n `mod` 128 + 128])
    by (unfold zlen; simpl; lia).
  rewrite splice_splice by done. simpl app. f_equal. f_equal; [f_equal; lia|].
  rewrite Z.div_div by (pose proof (zlen_nonneg (digits (S k) (n `div` 128)));
                        first [lia | apply Z.pow_pos_nonneg; lia]).
  f_equal. rewrite Z.pow_add_r by (first [lia|apply zlen_nonneg]). done.
Qed.

Lemma digits_full k n : 0 ≤ n → 128 ^ Z.of_nat k ≤ n → zlen (digits k n) = Z.of_nat k.
Proof.
  revert n. induction k as [|k IH]; intros n ? Hn; [done|].
  rewrite Nat2Z.inj_succ, Z.pow_succ_r in Hn by lia.
  assert (0 < 128 ^ Z.of_nat k) by (apply Z.pow_pos_nonneg; lia).
  simpl. rewrite decide_False by lia. rewrite zlen_cons, IH; [lia|by apply Z.div_pos|].
  apply Z.div_le_lower_bound; lia.
Qed.

Lemma digits_quotient k n :
  0 ≤ n < 128 ^ Z.of_nat k → (0 < k)%nat → n `div` 128 ^ zlen (digits k n) = 0.
Proof.
  revert n. induction k as [|k IH]; intros n Hn Hk; [lia|]. simpl.
  case_decide as Hs; [apply Z.div_small; change (128 ^ zlen [n]) with 128; lia|].
  rewrite Nat2Z.inj_succ, Z.pow_succ_r in Hn by lia. destruct k as [|k]; [lia|].
  specialize (IH (n `div` 128)). pose proof (zlen_nonneg (digits (S k) (n `div` 128))).
  rewrite zlen_cons. set (L := zlen _) in *.
  assert (0 < 128 ^ L) by (apply Z.pow_pos_nonneg; lia).
  rewrite Z.pow_add_r, Z.pow_1_r, <- Z.div_div by lia.
  apply IH; [|lia]. split; [apply Z.div_pos; lia|]. apply Z.div_lt_upper_bound; lia.
Qed.

Lemma encode_size_spec n mem p :
  0 ≤ n →
  encode_size n mem p =
    if decide (fits mem p (zlen (size_bytes n)))
    then Ok (bool_decide (n < size_limit), zlen (size_bytes n), splice mem p (size_bytes n))
    else Fault OobWrite.
Proof.
  intros Hn. unfold encode_size, Encode.fuel, size_bytes.
  rewrite (encode_loop_spec 4) by lia. rewrite Z.add_0_r, Z.add_0_l.
  case_decide; [|done]. rewrite bind_ok. cbv beta iota.
  assert ((if decide (n `div` 128 ^ zlen (digits 4 n) > 0) then false else true)
          = bool_decide (n < size_limit)) as ->; [|done].
  unfold size_limit in *. case_bool_decide as Hl.
  - by rewrite digits_quotient by lia.
  - rewrite digits_full by lia. apply decide_True, Z.lt_gt, Z.div_str_pos. lia.
Qed.

(** * The decoder reads the digits back *)

Lemma decode_digit d : byte_range d → Z.land d 127 = d `mod` 128.
Proof. intros _. apply land_127. Qed.

Lemma pow_128_u64 e : 0 ≤ e ≤ 4 → u64 (128 ^ e) = 128 ^ e.
Proof.
  intros ?. apply u64_small. split; [by apply Z.pow_nonneg|].
  apply Z.le_lt_trans with (128 ^ 4); [|done]. apply Z.pow_le_mono_r; lia.
Qed.

(** One iteration on a digit [d] that the buffer provides. *)
Lemma decode_loop_step fuel mem buffer_end s d e :
  buf_read mem (Decode.buffer s) = Ok d → byte_range d →
  Decode.buffer s ≤ buffer_end → Decode.used s = e → 0 ≤ e < 4 →
  Decode.multiplier s = 128 ^ e → 0 ≤ Decode.value s < 128 ^ e →
  let s' := {| Decode.buffer := Decode.buffer s + 1;
               Decode.multiplier := 128 ^ (e + 1);
               Decode.value := Decode.value s + d `mod` 128 * 128 ^ e;
               Decode.used := e + 1;
               Decode.digit := d |} in
  0 ≤ Decode.value s' < 128 ^ (e + 1) ∧
  Decode.loop (S fuel) mem buffer_end s =
    if decide (d < 128) then Ok s' else Decode.loop fuel mem buffer_end s'.
Proof.
  intros Hr Hd Hend Hu He Hm Hv s'.
  pose proof (Z.mod_pos_bound d 128 ltac:(lia)) as Hmod.
  assert (Hp : 0 < 128 ^ e) by (apply Z.pow_pos_nonneg; lia).
  assert (Hs : 128 ^ (e + 1) = 128 ^ e * 128) by (rewrite Z.pow_add_r by lia; done).
  assert (Hb : 128 ^ (e + 1) ≤ 128 ^ 4) by (apply Z.pow_le_mono_r; lia).
  assert (Hprod : 0 ≤ d `mod` 128 * 128 ^ e ≤ 127 * 128 ^ e) by nia.
  assert (Hv' : 0 ≤ Decode.value s' < 128 ^ (e + 1)) by (simpl; lia).
  split; [done|]. simpl in Hv'. change (128 ^ 4) with 268435456 in Hb.
  cbn [Decode.loop]. rewrite decide_True by lia. rewrite Hr. simpl mbind.
  rewrite decode_digit, Hm, Hu by done.
  rewrite (u64_small (d `mod` 128 * 128 ^ e)) by lia.
  rewrite (u64_small (Decode.value s + _)) by lia.
  rewrite <- Hs, pow_128_u64, u8_small by (unfold byte_range; lia). fold s'.
  destruct (decide (d < 128)) as [Hlt|Hge].
  - by rewrite (land_128_low d) by (unfold byte_range in Hd; lia).
  - by rewrite (land_128_high d) by (unfold byte_range in Hd; lia).
Qed.

Lemma decode_loop_digits k : ∀ fuel n mem buffer_end s rest e,
  (0 < k ≤ fuel)%nat → 0 ≤ n < 128 ^ Z.of_nat k → 0 ≤ e → e + Z.of_nat k ≤ 4 →
  at_off mem (Decode.buffer s) (digits k n ++ rest) →
  Decode.buffer s + zlen (digits k n) - 1 ≤ buffer_end →
  Decode.used s = e → Decode.multiplier s = 128 ^ e → 0 ≤ Decode.value s < 128 ^ e →
  ∃ d, 0 ≤ d < 128 ∧
    Decode.loop fuel mem buffer_end s =
      Ok {| Decode.buffer := Decode.buffer s + zlen (digits k n);
            Decode.multiplier := 128 ^ (e + zlen (digits k n));
            Decode.value := Decode.value s + n * 128 ^ e;
            Decode.used := e + zlen (digits k n);
            Decode.digit := d |}.
Proof.
  induction k as [|k IH]; intros fuel n mem buffer_end s rest e Hk Hn He Hek Hat Hend Hu Hm Hv;
    [lia|].
  destruct fuel as [|fuel]; [lia|]. pose proof (Z.mod_pos_bound n 128 ltac:(lia)) as Hmod.
  cbn [digits] in *. destruct (decide (n < 128)) as [Hs|Hl].
  - change (zlen [n]) with 1 in *. apply at_off_cons in Hat as [Hr _].
    pose proof (decode_loop_step fuel mem buffer_end s n e Hr) as [_ Hstep];
      [unfold byte_range; lia|lia..|]. exists n. split; [lia|].
    by rewrite Hstep, decide_True, Z.mod_small by lia.
  - rewrite zlen_cons in *. set (L := zlen (digits k (n `div` 128))) in *.
    assert (0 ≤ L) by apply zlen_nonneg.
    apply at_off_cons in Hat as [Hr Hat].
    pose proof (decode_loop_step fuel mem buffer_end s _ e Hr) as [Hv' Hstep];
      [unfold byte_range; lia|lia..|].
    rewrite Hstep, decide_False by lia. clear Hstep.
    assert (Hnk : 0 ≤ n `div` 128 < 128 ^ Z.of_nat k).
    { rewrite Nat2Z.inj_succ, Z.pow_succ_r in Hn by lia.
      split; [apply Z.div_pos; lia|apply Z.div_lt_upper_bound; lia]. }
    destruct k as [|k]; [change (128 ^ Z.of_nat 0) with 1 in Hnk; pose proof (Z.div_str_pos n 128); lia|].
    match goal with
    | |- context [Decode.loop fuel mem buffer_end ?s'] =>
        destruct (IH fuel (n `div` 128) mem buffer_end s' rest (e + 1)) as (d & Hd & ->);
          cbn [Decode.buffer Decode.used Decode.multiplier Decode.value]; fold L;
          try lia; try done
    end.
    exists d. split; [done|].
    do 2 f_equal; try lia; [f_equal; lia|].
    rewrite Z.add_mod, Z.mod_same, Z.add_0_r, !Z.mod_mod by lia.
    rewrite Z.pow_add_r by lia. pose proof (Z.div_mod n 128). nia.
Qed.

Lemma decode_size_digits n mem p buffer_end rest :
  0 ≤ n < size_limit → at_off mem p (size_bytes n ++ rest) →
  p + zlen (size_bytes n) - 1 ≤ buffer_end →
  decode_size mem p buffer_end = Ok (true, Some n, zlen (size_bytes n)).
Proof.
  intros Hn Hat Hend. unfold decode_size, Decode.fuel, size_bytes in *.
  match goal with
  | |- context [Decode.loop 5 mem buffer_end ?s] =>
      destruct (decode_loop_digits 4 5 n mem buffer_end s rest 0) as (d & Hd & ->);
        cbn [Decode.buffer Decode.used Decode.multiplier Decode.value];
        unfold size_limit in *; try lia; try done
  end.
  rewrite bind_ok. cbn [Decode.buffer Decode.used Decode.multiplier Decode.value Decode.digit].
  rewrite (land_128_low d), decide_False by (first [lia | intros [_ ?]; done]).
  by rewrite Z.mul_1_r, !Z.add_0_l.
Qed.

(** The state of the decoder's loop on arbitrary bytes. *)
Record decode_inv (p buffer_end : Z) (s : Decode.state) : Prop := {
  di_used : 0 ≤ Decode.used s ≤ 4;
  di_buffer : Decode.buffer s = p + Decode.used s;
  di_end : 0 < Decode.used s → Decode.buffer s ≤ buffer_end + 1;
  di_mult : Decode.multiplier s = 128 ^ Decode.used s;
  di_value : 0 ≤ Decode.value s < 128 ^ Decode.used s
}.

Lemma decode_loop_total mem p buffer_end fuel : ∀ s,
  bytes mem → 0 ≤ p → buffer_end < zlen mem →
  decode_inv p buffer_end s → 4 - Decode.used s < Z.of_nat fuel →
  ∃ s', Decode.loop fuel mem buffer_end s = Ok s' ∧ decode_inv p buffer_end s'.
Proof.
  induction fuel as [|fuel IH]; intros s Hm Hp Hend Hs Hf; [destruct Hs; lia|].
  destruct (decide (Decode.buffer s ≤ buffer_end ∧ Decode.used s < 4)) as [[Hb Hu]|Hstop].
  2:{ exists s. cbn [Decode.loop]. by rewrite decide_False. }
  destruct Hs as [Hs1 Hs2 Hs3 Hs4 Hs5].
  destruct (buf_read_ok mem (Decode.buffer s)) as [d Hd]; [lia|].
  pose proof (buf_read_range _ _ _ Hm Hd) as Hdr.
  pose proof (decode_loop_step fuel mem buffer_end s d (Decode.used s) Hd Hdr) as Hstep.
  destruct Hstep as [Hv ->]; [lia|done|lia|done|done|].
  match goal with
  | |- context [Decode.loop fuel mem buffer_end ?s'] =>
      assert (Hinv : decode_inv p buffer_end s')
        by (constructor; cbn [Decode.buffer Decode.used Decode.multiplier Decode.value]; lia || done);
      destruct (decide (d < 128)); [by exists s'|apply IH; try done]
  end.
  cbn [Decode.used]. lia.
Qed.

Lemma decode_loop_continuation l : ∀ fuel mem buffer_end s e,
  Forall (λ d, 128 ≤ d < 256) l → (length l < fuel)%nat →
  at_off mem (Decode.buffer s) l → buffer_end = Decode.buffer s + zlen l - 1 →
  0 ≤ e → e + zlen l < 4 →
  Decode.used s = e → Decode.multiplier s = 128 ^ e → 0 ≤ Decode.value s < 128 ^ e →
  ∃ s', Decode.loop fuel mem buffer_end s = Ok s' ∧ Decode.used s' = e + zlen l ∧
    Decode.value s' = Decode.value s + undigits l * 128 ^ e.
Proof.
  induction l as [|d l IH]; intros fuel mem buffer_end s e Hl Hf Hat Hend He Hel Hu Hm Hv;
    (destruct fuel as [|fuel]; [simpl in Hf; lia|]).
  - exists s. cbn [Decode.loop undigits]. rewrite zlen_nil in *.
    rewrite decide_False by lia. split_and!; [done|unfold zlen; simpl; lia|rewrite Z.mul_0_l; lia].
  - apply Forall_cons in Hl as [Hd Hl]. rewrite zlen_cons in *. pose proof (zlen_nonneg l).
    apply at_off_cons in Hat as [Hr Hat].
    pose proof (decode_loop_step fuel mem buffer_end s d e Hr) as [Hv' ->];
      [unfold byte_range; lia|lia..|]. rewrite decide_False by lia.
    match goal with
    | |- context [Decode.loop fuel mem buffer_end ?s'] =>
        destruct (IH fuel mem buffer_end s' (e + 1)) as (s'' & -> & Hu'' & Hv'');
          cbn [Decode.buffer Decode.used Decode.multiplier Decode.value] in *;
          simpl in Hf; try lia; try done
    end.
    exists s''. split_and!; [done|lia|]. rewrite Hv''. cbn [undigits].
    rewrite Z.pow_add_r by lia. lia.
Qed.

(** * Properties *)

(** C28. Round trip of the variable-length size: for every size the field can
    carry, [encode_size] succeeds wherever four bytes are available, and
    [decode_size] run on the result, with the end of the window anywhere at or
    after the last byte written, returns the size and the same byte count. *)
Theorem decode_encode_size n mem p :
  0 ≤ n < size_limit → fits mem p 4 →
  ∃ used mem',
    encode_size n mem p = Ok (true, used, mem') ∧ 1 ≤ used ≤ 4 ∧
    ∀ buffer_end, p + used - 1 ≤ buffer_end →
      decode_size mem' p buffer_end = Ok (true, Some n, used).
Proof.
  intros Hn [Hp Hf]. pose proof (size_bytes_length n) as Hl.
  assert (Hfit : fits mem p (zlen (size_bytes n))) by (split; lia).
  rewrite encode_size_spec, decide_True by (done || lia).
  rewrite bool_decide_eq_true_2 by lia. do 2 eexists. split; [done|]. split; [done|].
  intros buffer_end Hend.
  apply (decode_size_digits _ _ _ _ (drop (Z.to_nat p + length (size_bytes n)) mem));
    [done|split|done].
  - rewrite zlen_splice by done. lia.
  - unfold splice, zlen in *. by rewrite drop_app_length' by (rewrite length_take; lia).
Qed.

Lemma decode_encode_size_witness :
  ∃ used mem', encode_size 16384 (replicate 6 7) 1 = Ok (true, used, mem') ∧ 1 ≤ used ≤ 4 ∧
    ∀ buffer_end, 1 + used - 1 ≤ buffer_end →
      decode_size mem' 1 buffer_end = Ok (true, Some 16384, used).
Proof. apply (decode_encode_size 16384 (replicate 6 7) 1); vm_compute; intuition congruence. Defined.

Lemma digits_minimal k n :
  0 ≤ n → (0 < k)%nat → zlen (digits k n) = 1 ∨ 128 ^ (zlen (digits k n) - 1) ≤ n.
Proof.
  revert n. induction k as [|k IH]; intros n Hn Hk; [lia|]. simpl.
  case_decide as Hs; [by left|right]. rewrite zlen_cons.
  destruct k as [|k]; [change (128 ^ (1 + zlen (digits 0 (n `div` 128)) - 1)) with 1; lia|].
  set (L := zlen (digits (S k) (n `div` 128))) in *.
  assert (1 ≤ L) by (pose proof (digits_length (S k) (n `div` 128)); unfold L, zlen; lia).
  pose proof (Z.div_mod n 128 ltac:(lia)). pose proof (Z.mod_pos_bound n 128 ltac:(lia)).
  replace (1 + L - 1) with (Z.succ (L - 1)) by lia. rewrite Z.pow_succ_r by lia.
  destruct (IH (n `div` 128)) as [HL|HL]; [apply Z.div_pos; lia|lia| |]; fold L in HL; [|lia].
  rewrite HL. change (128 ^ (1 - 1)) with 1. lia.
Qed.

(** What [encode_size] does on every size: it returns [true] exactly for
    the sizes below [2 ^ 28], it reports one to four bytes and never more than
    the value needs, it writes those bytes at [buffer] (the base-128 digits,
    low first) and nothing else, whatever it returns. *)
Theorem encode_size_result n mem p :
  0 ≤ n → fits mem p 4 →
  ∃ used mem',
    encode_size n mem p = Ok (bool_decide (n < size_limit), used, mem') ∧
    1 ≤ used ≤ 4 ∧ (used = 1 ∨ 128 ^ (used - 1) ≤ n) ∧
    slice mem' p used = size_bytes n ∧ zlen mem' = zlen mem ∧
    ∀ q, q < p ∨ p + used ≤ q → buf_read mem' q = buf_read mem q.
Proof.
  intros Hn [Hp Hf]. pose proof (size_bytes_length n) as Hl.
  assert (Hfit : fits mem p (zlen (size_bytes n))) by (split; lia).
  rewrite encode_size_spec, decide_True by (done || lia). do 2 eexists. split; [done|].
  split_and!; try lia.
  - apply digits_minimal; lia.
  - unfold slice, splice, zlen in *. rewrite drop_app_length' by (rewrite length_take; lia).
    by rewrite take_app_length' by lia.
  - by apply zlen_splice.
  - intros q Hq. by apply buf_read_splice_out.
Qed.

Lemma encode_size_result_witness :
  ∃ used mem',
    encode_size (2 ^ 28 + 5) [1; 2; 3; 4; 5; 6] 1 =
      Ok (bool_decide (2 ^ 28 + 5 < size_limit), used, mem') ∧
    1 ≤ used ≤ 4 ∧ (used = 1 ∨ 128 ^ (used - 1) ≤ 2 ^ 28 + 5) ∧
    slice mem' 1 used = size_bytes (2 ^ 28 + 5) ∧ zlen mem' = zlen [1; 2; 3; 4; 5; 6] ∧
    ∀ q, q < 1 ∨ 1 + used ≤ q → buf_read mem' q = buf_read [1; 2; 3; 4; 5; 6] q.
Proof. apply encode_size_result; [lia|split; vm_compute; congruence]. Defined.

(** [decode_size] on arbitrary bytes: as long as the window ends inside the
    object it terminates without a fault, consumes at most four bytes and none
    past the window's end, and yields a value below [128 ^ used]; the one
    failure is a fourth byte that still announces a continuation. *)
Theorem decode_size_total mem p buffer_end :
  bytes mem → 0 ≤ p → buffer_end < zlen mem →
  ∃ ok size used,
    decode_size mem p buffer_end = Ok (ok, size, used) ∧
    0 ≤ used ≤ 4 ∧ (0 < used → p + used ≤ buffer_end + 1) ∧
    match ok, size with
    | true, Some v => 0 ≤ v < 128 ^ used
    | false, None => used = 4
    | _, _ => False
    end.
Proof.
  intros Hm Hp Hend. unfold decode_size, Decode.fuel.
  match goal with
  | |- context [Decode.loop 5 mem buffer_end ?s] =>
      destruct (decode_loop_total mem p buffer_end 5 s) as (s' & -> & Hs');
        try done; try (constructor; simpl; lia)
  end.
  destruct Hs' as [Hs1 Hs2 Hs3 Hs4 Hs5].
  rewrite bind_ok. cbv beta. case_decide as Hc.
  - do 3 eexists. split; [done|]. split_and!; lia.
  - do 3 eexists. split; [done|]. split_and!; lia.
Qed.

Lemma decode_size_total_witness :
  ∃ ok size used,
    decode_size [255; 255; 255; 255; 1] 0 4 = Ok (ok, size, used) ∧
    0 ≤ used ≤ 4 ∧ (0 < used → 0 + used ≤ 4 + 1) ∧
    match ok, size with
    | true, Some v => 0 ≤ v < 128 ^ used
    | false, None => used = 4
    | _, _ => False
    end.
Proof.
  apply decode_size_total; [|lia|by vm_compute].
  repeat constructor; unfold byte_range; lia.
Defined.

(** A truncated size is not detected: when the window holds fewer than four
    bytes and each of them announces a continuation, [decode_size] still
    returns [true], with the value of the digits it found. *)
Theorem decode_size_truncated l :
  Forall (λ d, 128 ≤ d < 256) l → zlen l < 4 →
  decode_size l 0 (zlen l - 1) = Ok (true, Some (undigits l), zlen l).
Proof.
  intros Hl Hn. unfold decode_size, Decode.fuel.
  match goal with
  | |- context [Decode.loop 5 l _ ?s] =>
      destruct (decode_loop_continuation l 5 l (zlen l - 1) s 0) as (s' & -> & Hu & Hv);
        cbn [Decode.buffer Decode.used Decode.multiplier Decode.value] in *;
        try done; try (unfold zlen in *; lia); try apply at_off_0
  end.
  rewrite bind_ok. cbv beta. rewrite decide_False by lia. rewrite Hu, Hv.
  by rewrite Z.mul_1_r, !Z.add_0_l.
Qed.

Lemma decode_size_truncated_witness :
  decode_size [129; 130] 0 (zlen [129; 130] - 1) = Ok (true, Some (undigits [129; 130]), zlen [129; 130]).
Proof. apply decode_size_truncated; [repeat constructor; lia|by vm_compute]. Defined.
