(* ===== verification/Wire.v ===== *)
(** Wire: the MQTT 3.1 control packets as byte strings, the reference the
    serializer and the deserializer of [messages.c] are compared with.  Nothing
    here is taken from the code. *)

From S2P Require Import Prelude Protocol Size.

#[local] Open Scope Z_scope.

(** Sixteen-bit quantities are big-endian; a string is prefixed by its length. *)
Definition mqtt_short (n : Z) : list Z := [n `div` 256; n `mod` 256].
Definition mqtt_string (s : list Z) : list Z := mqtt_short (zlen s) ++ s.

(** The fixed header: type and flags, then the size of what follows. *)
Definition mqtt_packet (t : message_type_t) (flags : Z) (body : list Z) : list Z :=
  (16 * message_type_val t + flags) :: size_bytes (zlen body) ++ body.

(** The packets whose body is a packet identifier. *)
Definition mqtt_ack (t : message_type_t) (flags packet_id : Z) : list Z :=
  mqtt_packet t flags (mqtt_short packet_id).

Definition mqtt_empty (t : message_type_t) : list Z := mqtt_packet t 0 [].

Definition mqtt_connack (return_code : Z) : list Z := mqtt_packet CONNACK 0 [0; return_code].

Definition mqtt_publish (topic : list Z) (packet_id qos : Z) (retain : bool) (msg : list Z)
    : list Z :=
  mqtt_packet PUBLISH (2 * qos + Z.b2z retain)
    (mqtt_string topic ++ (if decide (qos >= QoS1) then mqtt_short packet_id else []) ++ msg).

(** "MQIsdp", the protocol name of MQTT 3.1. *)
Definition mqtt_name : list Z := [77; 81; 73; 115; 100; 112].

Record connect_params := {
  cp_client_id : list Z;
  cp_user : option (list Z);
  cp_pw : option (list Z);
  cp_keep_alive : Z;
  cp_clean : bool;
  cp_will_qos : Z;
  cp_will_retain : bool;
  (** topic and message *)
  cp_will : option (list Z * list Z)
}.

Definition is_some {A} (o : option A) : bool := match o with Some _ => true | None => false end.
Definition opt_string (o : option (list Z)) : list Z := default [] (mqtt_string <$> o).

Definition connect_flags (c : connect_params) : Z :=
  128 * Z.b2z (is_some (cp_user c)) + 64 * Z.b2z (is_some (cp_pw c)) +
  32 * Z.b2z (cp_will_retain c) + 8 * cp_will_qos c +
  4 * Z.b2z (is_some (cp_will c)) + 2 * Z.b2z (cp_clean c).

Definition mqtt_connect (c : connect_params) : list Z :=
  mqtt_packet CONNECT 0
    (mqtt_string mqtt_name ++ [3; connect_flags c] ++ mqtt_short (cp_keep_alive c) ++
     mqtt_string (cp_client_id c) ++
     (match cp_will c with Some (t, m) => mqtt_string t ++ mqtt_string m | None => [] end) ++
     opt_string (cp_user c) ++ opt_string (cp_pw c)).

Definition mqtt_topic_qos (tq : list Z * Z) : list Z := mqtt_string tq.1 ++ [tq.2].

Definition mqtt_subscribe (packet_id : Z) (topics : list (list Z * Z)) : list Z :=
  mqtt_packet SUBSCRIBE 2 (mqtt_short packet_id ++ concat (mqtt_topic_qos <$> topics)).

Definition mqtt_unsubscribe (packet_id : Z) (topics : list (list Z)) : list Z :=
  mqtt_packet UNSUBSCRIBE 2 (mqtt_short packet_id ++ concat (mqtt_string <$> topics)).

(** A granted subscription is its QoS, a refused one 0x80. *)
Definition mqtt_result (r : sub_result) : Z := if sub_success r then sub_qos r else 128.

Definition mqtt_suback (packet_id : Z) (results : list sub_result) : list Z :=
  mqtt_packet SUBACK 0 (mqtt_short packet_id ++ (mqtt_result <$> results)).

(** A string the code handles without loss: characters other than NUL, at most
    255 of them. *)
Definition short_string (s : list Z) : Prop := bytes s ∧ nul_free s ∧ zlen s < 256.

(** The arguments of CONNECT the code handles without loss. *)
Definition opt_short (o : option (list Z)) : Prop :=
  match o with Some s => short_string s | None => True end.

Record connect_ok (c : connect_params) : Prop := {
  co_client_id : short_string (cp_client_id c);
  co_user : opt_short (cp_user c);
  co_pw : opt_short (cp_pw c);
  co_keep_alive : 0 ≤ cp_keep_alive c < 256;
  co_will_qos : 0 ≤ cp_will_qos c ≤ 2;
  co_will : match cp_will c with
            | Some (t, m) => short_string t ∧ short_string m
            | None => True
            end
}.

Lemma mqtt_short_small n : 0 ≤ n < 256 → mqtt_short n = [0; n].
Proof. intros ?. unfold mqtt_short. by rewrite Z.div_small, Z.mod_small by lia. Qed.

Lemma zlen_mqtt_string s : zlen (mqtt_string s) = 2 + zlen s.
Proof. unfold mqtt_string. by rewrite zlen_app. Qed.

Lemma zlen_mqtt_short n : zlen (mqtt_short n) = 2.
Proof. done. Qed.
#[export] Hint Rewrite zlen_mqtt_short zlen_mqtt_string : zlen.

Lemma zlen_mqtt_packet t flags bd : 2 ≤ zlen (mqtt_packet t flags bd).
Proof.
  unfold mqtt_packet. autorewrite with zlen. pose proof (size_bytes_length (zlen bd)). pose proof (zlen_nonneg bd). lia.
Qed.

Lemma mqtt_string_short s : short_string s → mqtt_string s = 0 :: zlen s :: s.
Proof.
  intros (_ & _ & ?). unfold mqtt_string.
  rewrite mqtt_short_small; [done|]. pose proof (zlen_nonneg s). lia.
Qed.
