(* ===== verification/Serialize.v ===== *)
(** Serialize: the cursor macros and the [make_..._message] functions of
    [libsmqttcore/messages.c]. *)

From S2P Require Import Prelude Protocol Size Wire.

#[local] Open Scope Z_scope.

(** * Model *)

(** ** Packing macros *)

Definition PACK_MESSAGE_TYPE (t : message_type_t) : Z := u8 (Z.shiftl (u8 (message_type_val t)) 4).

Definition BOOL_TO_BIT (b : bool) : Z := if b then 1 else 0.

Definition PACK_CONNECT_FLAGS (user pw will_flag : bool) (will_qos : Z)
    (will_retain clean : bool) : Z :=
  Z.lor (Z.lor (Z.lor (Z.lor (Z.lor
    (Z.shiftl (BOOL_TO_BIT user) 7)
    (Z.shiftl (BOOL_TO_BIT pw) 6))
    (Z.shiftl (BOOL_TO_BIT will_retain) 5))
    (Z.shiftl (Z.land will_qos 3) 3))
    (Z.shiftl (BOOL_TO_BIT will_flag) 2))
    (Z.shiftl (BOOL_TO_BIT clean) 1).

Definition MSB (a : Z) : Z := u8 (Z.shiftr (Z.land (u8 a) 0xFF00) 8).
Definition LSB (a : Z) : Z := u8 (Z.land (u8 a) 0x00FF).

(** ** The cursor

    [base] and [current] are offsets into the buffer, the first component of
    the serializer's state. *)
Record cursor_t := mk_cursor { base : Z; current : Z }.

Definition ser_state : Type := list Z * cursor_t.

Definition CURSOR_POSITION (c : cursor_t) : Z := current c - base c.
Definition CURSOR_INIT (origin : Z) : cursor_t := mk_cursor origin origin.

Definition advance (c : cursor_t) (n : Z) : cursor_t := mk_cursor (base c) (current c + n).

Definition SER_byte (b : Z) (s : ser_state) : outcome ser_state :=
  m ← buf_write s.1 (current s.2) (u8 b);
  Ok (m, advance s.2 1).

Definition SER_short (n : Z) (s : ser_state) : outcome ser_state :=
  m ← buf_write s.1 (current s.2) (MSB n);
  let c := advance s.2 1 in
  m ← buf_write m (current c) (LSB n);
  Ok (m, advance c 1).

(** The byte stores of one library call. *)
Fixpoint buf_write_bytes (m : list Z) (p : Z) (bs : list Z) : outcome (list Z) :=
  match bs with
  | [] => Ok m
  | b :: bs' => m' ← buf_write m p b; buf_write_bytes m' (p + 1) bs'
  end.

Definition SER_string (str : list Z) (s : ser_state) : outcome ser_state :=
  let len := strlen str in
  bs ← strncpy_bytes (c_object str) (Z.to_nat len);
  m ← buf_write_bytes s.1 (current s.2) bs;
  Ok (m, advance s.2 len).

(** The success of [encode_size] is not looked at. *)
Definition SER_len (len : Z) (s : ser_state) : outcome ser_state :=
  '(_, used, m) ← encode_size len s.1 (current s.2);
  Ok (m, advance s.2 used).

Definition finish (s : ser_state) : outcome (Z * list Z) := Ok (CURSOR_POSITION s.2, s.1).

(** [strlen] of a pointer that may be null. *)
Definition strlen_ptr (p : option (list Z)) : outcome Z :=
  match p with Some s => Ok (strlen s) | None => Fault NullDeref end.

Definition SER_string_ptr (p : option (list Z)) (s : ser_state) : outcome ser_state :=
  match p with Some str => SER_string str s | None => Fault NullDeref end.

(** [for (i = 0; i < n; i++)] *)
Fixpoint for_loop {A} (n i : nat) (f : nat → A → outcome A) (a : A) : outcome A :=
  match n with
  | O => Ok a
  | S n' => a' ← f i a; for_loop n' (S i) f a'
  end.

(** [a[i]] on an array argument. *)
Definition array_get {A} (a : list A) (i : nat) : outcome A :=
  match a !! i with Some x => Ok x | None => Fault OobRead end.

(** ** Messages

    [buffer] is the object the message is written to, from its start; the
    [length] argument is the size the caller claims for it.  Result: the value
    returned and the buffer's contents.  Sizes in [size_t] are sums of the
    sizes of objects that exist together, so they do not wrap. *)

Definition protocol_name : list Z := [77; 81; 73; 115; 100; 112].
Definition protocol_level : Z := 3.

Definition make_connect_message (buffer : list Z) (length : Z) (clientid : list Z)
    (user pw : option (list Z)) (keep_alive_sec : Z)
    (clean_session last_will_and_testament : bool) (will_qos : Z) (will_retain : bool)
    (will_topic will_message : option (list Z)) : outcome (Z * list Z) :=
  let keep_alive_sec := u8 keep_alive_sec in
  let protocol_name_len := strlen protocol_name in
  let client_id_len := strlen clientid in
  s ← SER_byte (PACK_MESSAGE_TYPE CONNECT) (buffer, CURSOR_INIT 0);
  let len := 8 + protocol_name_len + client_id_len in
  '(will_topic_len, will_message_len, len) ←
    (if last_will_and_testament then
       will_topic_len ← strlen_ptr will_topic;
       will_message_len ← strlen_ptr will_message;
       Ok (will_topic_len, will_message_len, len + (2 + will_topic_len + 2 + will_message_len))
     else Ok (0, 0, len));
  let '(user_len, len) :=
    match user with
    | Some user => (strlen user, len + (2 + strlen user))
    | None => (0, len)
    end in
  let '(pw_len, len) :=
    match pw with
    | Some pw => (strlen pw, len + (2 + strlen pw))
    | None => (0, len)
    end in
  s ← SER_len len s;
  s ← SER_short protocol_name_len s;
  s ← SER_string protocol_name s;
  s ← SER_byte protocol_level s;
  let connect_flags :=
    PACK_CONNECT_FLAGS (is_some user) (is_some pw) last_will_and_testament will_qos
      will_retain clean_session in
  s ← SER_byte connect_flags s;
  s ← SER_short keep_alive_sec s;
  s ← SER_short client_id_len s;
  s ← SER_string clientid s;
  s ← (if last_will_and_testament then
         s ← SER_short will_topic_len s;
         s ← SER_string_ptr will_topic s;
         s ← SER_short will_message_len s;
         SER_string_ptr will_message s
       else Ok s);
  s ← match user with
      | Some user => s ← SER_short user_len s; SER_string user s
      | None => Ok s
      end;
  s ← match pw with
      | Some pw => s ← SER_short pw_len s; SER_string pw s
      | None => Ok s
      end;
  finish s.

Definition make_connack_message (buffer : list Z) (length : Z) (type : Z)
    : outcome (Z * list Z) :=
  s ← SER_byte (PACK_MESSAGE_TYPE CONNACK) (buffer, CURSOR_INIT 0);
  s ← SER_len 2 s;
  s ← SER_byte 0 s;
  s ← SER_byte type s;
  finish s.

Definition make_disconnect_message (buffer : list Z) (length : Z) : outcome (Z * list Z) :=
  s ← SER_byte (PACK_MESSAGE_TYPE DISCONNECT) (buffer, CURSOR_INIT 0);
  s ← SER_byte 0 s;
  finish s.

Definition make_publish_message (buffer : list Z) (length : Z) (topic : list Z)
    (packet_id qos : Z) (retain : bool) (msg : option (list Z)) : outcome (Z * list Z) :=
  s ← SER_byte (Z.lor (Z.lor (PACK_MESSAGE_TYPE PUBLISH) (Z.shiftl qos 1))
                  (Z.land (Z.b2z retain) 1)) (buffer, CURSOR_INIT 0);
  let packet_id_len := if decide (qos >= QoS1) then 2 else 0 in
  let message_len := match msg with Some msg => u16 (strlen msg) | None => 0 end in
  s ← SER_len (2 + strlen topic + packet_id_len + message_len) s;
  s ← SER_short (strlen topic) s;
  s ← SER_string topic s;
  s ← (if decide (qos >= QoS1) then SER_short packet_id s else Ok s);
  s ← match msg with Some msg => SER_string msg s | None => Ok s end;
  finish s.

Definition make_puback_message (buffer : list Z) (length packet_id : Z) : outcome (Z * list Z) :=
  s ← SER_byte (PACK_MESSAGE_TYPE PUBACK) (buffer, CURSOR_INIT 0);
  s ← SER_len 2 s;
  s ← SER_short packet_id s;
  finish s.

Definition make_pubrec_message (buffer : list Z) (length packet_id : Z) : outcome (Z * list Z) :=
  s ← SER_byte (PACK_MESSAGE_TYPE PUBREC) (buffer, CURSOR_INIT 0);
  s ← SER_len 2 s;
  s ← SER_short packet_id s;
  finish s.

Definition make_pubrel_message (buffer : list Z) (length packet_id : Z) : outcome (Z * list Z) :=
  s ← SER_byte (Z.lor (PACK_MESSAGE_TYPE PUBREL) (Z.shiftl QoS1 1)) (buffer, CURSOR_INIT 0);
  s ← SER_len 2 s;
  s ← SER_short packet_id s;
  finish s.

Definition make_pubcomp_message (buffer : list Z) (length packet_id : Z) : outcome (Z * list Z) :=
  s ← SER_byte (PACK_MESSAGE_TYPE PUBCOMP) (buffer, CURSOR_INIT 0);
  s ← SER_len 2 s;
  s ← SER_short packet_id s;
  finish s.

Definition get_utf8_string_size (topic_count : Z) (topics : list (list Z)) (include_qos : bool)
    : outcome Z :=
  for_loop (Z.to_nat topic_count) 0
    (λ i total,
       topic ← array_get topics i;
       let total := u16 (total + (2 + strlen topic)) in
       Ok (if include_qos then u16 (total + 1) else total)) 0.

Definition make_subscribe_message (buffer : list Z) (length packet_id topic_count : Z)
    (topics : list (list Z)) (qoss : list Z) : outcome (Z * list Z) :=
  s ← SER_byte (Z.lor (PACK_MESSAGE_TYPE SUBSCRIBE) (Z.shiftl QoS1 1)) (buffer, CURSOR_INIT 0);
  size ← get_utf8_string_size topic_count topics true;
  s ← SER_len (2 + size) s;
  s ← SER_short packet_id s;
  s ← for_loop (Z.to_nat topic_count) 0
        (λ position s,
           topic ← array_get topics position;
           s ← SER_short (strlen topic) s;
           s ← SER_string topic s;
           qos ← array_get qoss position;
           SER_byte qos s) s;
  finish s.

Definition make_suback_message (buffer : list Z) (length packet_id topic_count : Z)
    (success : list bool) (qoss : list Z) : outcome (Z * list Z) :=
  s ← SER_byte (PACK_MESSAGE_TYPE SUBACK) (buffer, CURSOR_INIT 0);
  s ← SER_len (2 + topic_count) s;
  s ← SER_short packet_id s;
  s ← for_loop (Z.to_nat topic_count) 0
        (λ i s,
           ok ← array_get success i;
           b ← (if (ok : bool) then array_get qoss i else Ok 0x80);
           SER_byte b s) s;
  finish s.

Definition make_unsubscribe_message (buffer : list Z) (length packet_id topic_count : Z)
    (topics : list (list Z)) : outcome (Z * list Z) :=
  s ← SER_byte (Z.lor (PACK_MESSAGE_TYPE UNSUBSCRIBE) (Z.shiftl QoS1 1)) (buffer, CURSOR_INIT 0);
  size ← get_utf8_string_size topic_count topics false;
  s ← SER_len (2 + size) s;
  s ← SER_short packet_id s;
  s ← for_loop (Z.to_nat topic_count) 0
        (λ i s,
           topic ← array_get topics i;
           s ← SER_short (strlen topic) s;
           SER_string topic s) s;
  finish s.

Definition make_unsuback_message (buffer : list Z) (length packet_id : Z) : outcome (Z * list Z) :=
  s ← SER_byte (PACK_MESSAGE_TYPE UNSUBACK) (buffer, CURSOR_INIT 0);
  s ← SER_len 2 s;
  s ← SER_short packet_id s;
  finish s.

Definition make_pingreq_message (buffer : list Z) (length : Z) : outcome (Z * list Z) :=
  s ← SER_byte (PACK_MESSAGE_TYPE PINGREQ) (buffer, CURSOR_INIT 0);
  s ← SER_len 0 s;
  finish s.

Definition make_pingresp_message (buffer : list Z) (length : Z) : outcome (Z * list Z) :=
  s ← SER_byte (PACK_MESSAGE_TYPE PINGRESP) (buffer, CURSOR_INIT 0);
  s ← SER_len 0 s;
  finish s.

(** * Examples from [test/serialization.c] *)

Example publish_boo :
  (λ '(n, m), (n, take 12 m)) <$>
    make_publish_message (replicate 32 0) 32 [98; 111; 111] 55 QoS2 false
      (Some [104; 101; 108; 108; 111]) =
  Ok (14, [52; 12; 0; 3; 98; 111; 111; 0; 55; 104; 101; 108]).
Proof. vm_compute. reflexivity. Qed.

(** * What a serializer step emits *)

Definition valid (s : ser_state) : Prop := 0 ≤ current s.2 ≤ zlen s.1.

(** Writing [bs] at the cursor. *)
Definition emit (bs : list Z) (s : ser_state) : outcome ser_state :=
  if decide (fits s.1 (current s.2) (zlen bs))
  then Ok (splice s.1 (current s.2) bs, advance s.2 (zlen bs))
  else Fault OobWrite.

Definition emits (f : ser_state → outcome ser_state) (bs : list Z) : Prop :=
  ∀ s, valid s → f s = emit bs s.

Lemma advance_advance c a b : advance (advance c a) b = advance c (a + b).
Proof. unfold advance. simpl. f_equal. lia. Qed.

Lemma emit_valid bs s s' : valid s → emit bs s = Ok s' → valid s'.
Proof.
  unfold emit, valid. intros ?. case_decide as Hf; [|done]. intros [= <-]. simpl.
  pose proof (zlen_nonneg bs). rewrite zlen_splice by done. unfold fits in Hf. lia.
Qed.

Lemma emit_nil s : valid s → emit [] s = Ok s.
Proof.
  intros [??]. destruct s as [m [b c]]. unfold emit. simpl in *.
  rewrite zlen_nil, decide_True by (split; lia). rewrite splice_nil.
  unfold advance. simpl. by rewrite Z.add_0_r.
Qed.

(** A step after some emission extends it. *)
Lemma emit_chain f a b s :
  valid s → emits f b → emit a s ≫= f = emit (a ++ b) s.
Proof.
  intros Hs Hf. destruct (emit a s) as [s'|e] eqn:E.
  - rewrite bind_ok, Hf by (by eapply emit_valid). revert E.
    unfold emit. case_decide as Ha; [|done]. intros [= <-]. simpl.
    rewrite advance_advance, zlen_app.
    destruct (decide (fits s.1 (current s.2) (zlen a + zlen b))) as [Hab|Hab];
      rewrite <- zlen_app, fits_app in Hab.
    + rewrite decide_True by (rewrite fits_splice; tauto). by rewrite splice_splice.
    + by rewrite decide_False by (rewrite fits_splice; tauto).
  - rewrite bind_fault. revert E. unfold emit. case_decide as Ha; [done|]. intros [= <-].
    rewrite decide_False; [done|]. rewrite fits_app. tauto.
Qed.

Lemma emit_chain_bind f a b s (k : ser_state → outcome (Z * list Z)) :
  valid s → emits f b → emit a s ≫= (λ s', f s' ≫= k) = emit (a ++ b) s ≫= k.
Proof. intros ? ?. by rewrite <- (emit_chain f a b), bind_assoc. Qed.

Lemma emits_seq f g a b : emits f a → emits g b → emits (λ s, f s ≫= g) (a ++ b).
Proof. intros Hf Hg s Hs. rewrite Hf by done. by apply emit_chain. Qed.

Lemma emits_skip : emits Ok [].
Proof. intros s Hs. by rewrite emit_nil. Qed.

Lemma emits_if (c : bool) f g a b :
  emits f a → emits g b → emits (λ s, if c then f s else g s) (if c then a else b).
Proof. by destruct c. Qed.

Lemma emits_decide P `{Decision P} f g a b :
  emits f a → emits g b →
  emits (λ s, if decide P then f s else g s) (if decide P then a else b).
Proof. by destruct (decide P). Qed.

Lemma emits_option {A} (o : option A) f g (a : A → list Z) b :
  (∀ x, o = Some x → emits (f x) (a x)) → emits g b →
  emits (λ s, match o with Some x => f x s | None => g s end)
        (match o with Some x => a x | None => b end).
Proof. intros ??. destruct o; auto. Qed.

Lemma buf_write_emit b m c :
  (m' ← buf_write m (current c) b; Ok (m', advance c 1)) = emit [b] (m, c).
Proof.
  rewrite buf_write_splice. unfold emit. simpl. change (zlen [b]) with 1.
  by case_decide.
Qed.

Lemma emits_byte b : emits (SER_byte b) [u8 b].
Proof. intros [m c] _. apply buf_write_emit. Qed.

Lemma MSB_0 a : MSB a = 0.
Proof.
  unfold MSB. assert (Z.land (u8 a) 0xFF00 = 0) as ->; [|done].
  change 0xFF00 with (Z.shiftl 255 8). apply Z.bits_inj'. intros i ?.
  rewrite Z.land_spec, Z.bits_0, Z.shiftl_spec by lia.
  destruct (decide (i < 8)).
  - by rewrite (Z.testbit_neg_r 255) , andb_false_r by lia.
  - unfold u8. by rewrite Z.mod_pow2_bits_high by lia.
Qed.

Lemma LSB_u8 a : LSB a = u8 a.
Proof.
  unfold LSB, u8. change 0x00FF with (Z.ones 8). rewrite Z.land_ones by lia.
  by rewrite !Z.mod_mod by lia.
Qed.

(** The sixteen-bit serializer writes a zero byte and the low byte. *)
Definition ser_short (n : Z) : list Z := [0; u8 n].

Lemma ser_short_small n : 0 ≤ n < 256 → ser_short n = mqtt_short n.
Proof. intros ?. unfold ser_short. rewrite mqtt_short_small, u8_small; done. Qed.

Lemma emits_short n : emits (SER_short n) (ser_short n).
Proof.
  intros [m c] Hs. unfold SER_short. rewrite MSB_0, LSB_u8. simpl.
  rewrite <- (emit_chain (SER_byte n) [0] [u8 n]); [|done|apply emits_byte].
  rewrite <- buf_write_emit. simpl. by destruct (buf_write m (current c) 0).
Qed.

Lemma buf_write_bytes_emit bs : ∀ m c, valid (m, c) →
  (m' ← buf_write_bytes m (current c) bs; Ok (m', advance c (zlen bs))) = emit bs (m, c).
Proof.
  induction bs as [|b bs IH]; intros m c Hs.
  - rewrite emit_nil by done. destruct c. unfold advance. simpl. by rewrite Z.add_0_r.
  - cbn [buf_write_bytes]. rewrite <- (emit_chain
      (λ s, m' ← buf_write_bytes s.1 (current s.2) bs; Ok (m', advance s.2 (zlen bs))) [b] bs);
      [|done|by intros [m' c'] Hs'; apply IH].
    rewrite <- buf_write_emit, !bind_assoc, zlen_cons.
    destruct (buf_write m (current c) b) as [m'|]; [|done]. rewrite !bind_ok. simpl.
    by rewrite advance_advance.
Qed.

Lemma emits_string str : emits (SER_string str) (c_chars str).
Proof.
  intros [m c] Hs. unfold SER_string. rewrite strncpy_bytes_string, bind_ok.
  by apply buf_write_bytes_emit.
Qed.

Lemma emits_len n : 0 ≤ n → emits (SER_len n) (size_bytes n).
Proof.
  intros Hn [m c] Hs. unfold SER_len, emit. rewrite encode_size_spec by done.
  simpl. by case_decide.
Qed.

Lemma emits_for {A} (l : list A) (f : nat → ser_state → outcome ser_state) (w : A → list Z) :
  (∀ i x, l !! i = Some x → emits (f i) (w x)) →
  emits (for_loop (length l) 0 f) (concat (w <$> l)).
Proof.
  intros Hf.
  assert (∀ j l', (∀ i x, l' !! i = Some x → emits (f (j + i)%nat) (w x)) →
            emits (for_loop (length l') j f) (concat (w <$> l'))) as Hgen;
    [|by apply Hgen].
  clear. intros j l. revert j. induction l as [|x l IH]; intros j Hf; [apply emits_skip|].
  cbn [length for_loop fmap list_fmap concat]. apply emits_seq.
  - specialize (Hf O x eq_refl). by rewrite Nat.add_0_r in Hf.
  - apply IH. intros i y Hy. specialize (Hf (S i) y Hy). by rewrite Nat.add_succ_r in Hf.
Qed.

Create HintDb emits.
#[export] Hint Resolve emits_byte emits_short emits_string emits_skip emits_seq emits_if
  emits_decide : emits.

(** Sizes are sums of string lengths. *)
Ltac size_nonneg :=
  repeat case_match;
  repeat match goal with
  | |- context [strlen ?s] =>
      lazymatch goal with
      | _ : 0 ≤ strlen s |- _ => fail
      | _ => pose proof (strlen_nonneg s)
      end
  | |- context [u16 ?z] =>
      lazymatch goal with
      | _ : 0 ≤ u16 z < 65536 |- _ => fail
      | _ => pose proof (u16_range z)
      end
  end; lia.

#[export] Hint Extern 1 (emits (SER_len _) _) => apply emits_len; size_nonneg : emits.
#[export] Hint Extern 1 (emits (λ s, match ?o with Some _ => _ | None => _ end) _) =>
  apply emits_option; [intros ? ?|] : emits.

(** The serializer of a whole message, run from the start of a buffer. *)
Definition writes (bs buffer : list Z) : outcome (Z * list Z) :=
  if decide (zlen bs ≤ zlen buffer)
  then Ok (zlen bs, bs ++ drop (length bs) buffer)
  else Fault OobWrite.

Lemma valid_init buffer : valid (buffer, CURSOR_INIT 0).
Proof. split; simpl; [done|apply zlen_nonneg]. Qed.

Lemma emit_finish bs buffer : emit bs (buffer, CURSOR_INIT 0) ≫= finish = writes bs buffer.
Proof.
  unfold emit, writes, fits. simpl. case_decide as H1.
  - rewrite decide_True by lia. rewrite bind_ok. unfold finish, CURSOR_POSITION. simpl.
    by rewrite splice_0, Z.sub_0_r, Z.add_0_l by lia.
  - by rewrite decide_False by lia.
Qed.

(** A [make_..._message] body, step by step, as one emission. *)
Ltac message_steps :=
  rewrite emits_byte by apply valid_init;
  repeat (erewrite emit_chain_bind; [|apply valid_init|solve [eauto 8 with emits]]);
  rewrite emit_finish.

Lemma make_publish_writes buffer length topic packet_id qos retain msg :
  make_publish_message buffer length topic packet_id qos retain msg =
    writes ([u8 (Z.lor (Z.lor 48 (Z.shiftl qos 1)) (Z.land (Z.b2z retain) 1))] ++
            size_bytes (2 + strlen topic + (if decide (qos >= QoS1) then 2 else 0) +
                        match msg with Some m => u16 (strlen m) | None => 0 end) ++
            ser_short (strlen topic) ++ c_chars topic ++
            (if decide (qos >= QoS1) then ser_short packet_id else []) ++
            (match msg with Some m => c_chars m | None => [] end)) buffer.
Proof.
  unfold make_publish_message. message_steps. by rewrite <- !app_assoc.
Qed.

Lemma c_chars_short s : short_string s → c_chars s = s ∧ strlen s = zlen s ∧ 0 ≤ zlen s < 256.
Proof.
  intros (Hb & Hn & Hl). pose proof (zlen_nonneg s).
  by rewrite c_chars_nul_free, strlen_nul_free.
Qed.

(** The serializer's form of a length-prefixed string. *)
Lemma ser_string_short s :
  short_string s → ser_short (strlen s) ++ c_chars s = mqtt_string s.
Proof.
  intros (-> & -> & ?)%c_chars_short. unfold mqtt_string. by rewrite ser_short_small.
Qed.

(** ** Connect *)

(** The call of [make_connect_message] with the arguments of [c]. *)
Definition make_connect (c : connect_params) (buffer : list Z) (length : Z)
    : outcome (Z * list Z) :=
  make_connect_message buffer length (cp_client_id c) (cp_user c) (cp_pw c)
    (cp_keep_alive c) (cp_clean c) (is_some (cp_will c)) (cp_will_qos c) (cp_will_retain c)
    (fst <$> cp_will c) (snd <$> cp_will c).

Lemma pack_connect_flags c :
  0 ≤ cp_will_qos c ≤ 2 →
  u8 (PACK_CONNECT_FLAGS (is_some (cp_user c)) (is_some (cp_pw c)) (is_some (cp_will c))
        (cp_will_qos c) (cp_will_retain c) (cp_clean c)) = connect_flags c.
Proof.
  intros Hq. unfold connect_flags.
  assert (cp_will_qos c = 0 ∨ cp_will_qos c = 1 ∨ cp_will_qos c = 2) as [-> | [-> | ->]] by lia;
    destruct (is_some _), (is_some _), (is_some _), (cp_will_retain c), (cp_clean c);
    reflexivity.
Qed.

Lemma bind_ext {A B} (m : outcome A) (f g : A → outcome B) :
  (∀ x, f x = g x) → m ≫= f = m ≫= g.
Proof. intros Hfg. destruct m; [apply Hfg|done]. Qed.

Definition opt_strlen (o : option (list Z)) : Z :=
  match o with Some s => 2 + strlen s | None => 0 end.

Definition opt_ser (o : option (list Z)) : list Z :=
  match o with Some s => ser_short (strlen s) ++ c_chars s | None => [] end.

Lemma make_connect_writes c buffer length :
  make_connect c buffer length =
    writes ([u8 (PACK_MESSAGE_TYPE CONNECT)] ++
            size_bytes (14 + strlen (cp_client_id c) +
              (match cp_will c with
               | Some (t, m) => 2 + strlen t + 2 + strlen m
               | None => 0
               end) + opt_strlen (cp_user c) + opt_strlen (cp_pw c)) ++
            ser_short 6 ++ mqtt_name ++ [3] ++
            [u8 (PACK_CONNECT_FLAGS (is_some (cp_user c)) (is_some (cp_pw c))
                   (is_some (cp_will c)) (cp_will_qos c) (cp_will_retain c) (cp_clean c))] ++
            ser_short (u8 (cp_keep_alive c)) ++
            (ser_short (strlen (cp_client_id c)) ++ c_chars (cp_client_id c)) ++
            (match cp_will c with
             | Some (t, m) => (ser_short (strlen t) ++ c_chars t) ++ ser_short (strlen m) ++ c_chars m
             | None => []
             end) ++ opt_ser (cp_user c) ++ opt_ser (cp_pw c)) buffer.
Proof.
  destruct c as [cid user pw ka clean wq wr will].
  unfold make_connect, make_connect_message.
  cbn [cp_client_id cp_user cp_pw cp_keep_alive cp_clean cp_will_qos cp_will_retain cp_will].
  destruct will as [[t m]|], user as [user|], pw as [pw|];
    cbn [is_some fmap option_fmap option_map fst snd strlen_ptr SER_string_ptr opt_strlen opt_ser];
    (erewrite bind_ext; [|intros ?; rewrite ?bind_ok; cbv beta iota; reflexivity]);
    message_steps;
    change (strlen protocol_name) with 6; change (c_chars protocol_name) with mqtt_name;
    change (u8 protocol_level) with 3; rewrite <- ?app_assoc, ?app_nil_r;
    do 3 f_equal; f_equal; lia.
Qed.

Lemma opt_ser_short o : opt_short o → opt_ser o = opt_string o ∧ opt_strlen o = zlen (opt_string o).
Proof.
  destruct o as [s|]; [|done]. cbn [opt_short opt_ser opt_strlen].
  change (opt_string (Some s)) with (mqtt_string s). intros Hs. rewrite ser_string_short by done.
  split; [done|]. apply c_chars_short in Hs as (_ & -> & _). by rewrite zlen_mqtt_string.
Qed.

(** [make_connect_message] writes the MQTT 3.1 CONNECT packet of its
    arguments: flags, protocol name and level, keep-alive, and the strings
    present, in the order the protocol asks for; it writes exactly the packet's
    bytes from the start of the buffer, returns their number, and faults
    exactly when the packet does not fit (the [length] argument is not looked
    at).  Strings of at most 255 characters, keep-alive below 256. *)
Lemma make_connect_mqtt c buffer length :
  connect_ok c → make_connect c buffer length = writes (mqtt_connect c) buffer.
Proof.
  intros [Hc Hu Hp Hk Hq Hw]. rewrite make_connect_writes.
  apply (f_equal (λ l, writes l buffer)).
  rewrite pack_connect_flags, !u8_small, ser_short_small, ser_string_short by done.
  pose proof (opt_ser_short _ Hu) as [-> ->]. pose proof (opt_ser_short _ Hp) as [-> ->].
  unfold mqtt_connect, mqtt_packet. cbn [app]. f_equal.
  apply c_chars_short in Hc as (_ & -> & _).
  assert (Hwill : ∀ n, (match cp_will c with
           | Some (t, m) => (ser_short (strlen t) ++ c_chars t) ++ ser_short (strlen m) ++ c_chars m
           | None => []
           end) = (match cp_will c with Some (t, m) => mqtt_string t ++ mqtt_string m | None => [] end) ∧
         n + match cp_will c with Some (t, m) => 2 + strlen t + 2 + strlen m | None => 0 end =
         n + zlen (match cp_will c with Some (t, m) => mqtt_string t ++ mqtt_string m | None => [] end)).
  { intros n. destruct (cp_will c) as [[t m]|]; [|done]. destruct Hw as [Ht Hm].
    rewrite !ser_string_short by done. split; [done|]. rewrite zlen_app, !zlen_mqtt_string.
    apply c_chars_short in Ht as (_ & -> & _), Hm as (_ & -> & _). lia. }
  rewrite (proj1 (Hwill 0)), (proj2 (Hwill _)).
  f_equal; [f_equal|by rewrite ser_short_small].
  autorewrite with zlen. change (zlen mqtt_name) with 6. lia.
Qed.

(** ** Publish *)

Definition opt_message_ok (msg : option (list Z)) : Prop :=
  match msg with Some m => nul_free m ∧ zlen m < 65536 | None => True end.

(** [make_publish_message] writes the MQTT 3.1 PUBLISH packet of its
    arguments (a null message is an empty payload; the packet identifier is
    present from QoS 1 on), exactly its bytes, and faults exactly when the
    packet does not fit the buffer.  Topic of at most 255 characters, packet
    identifier below 256, message below 65536. *)
Lemma make_publish_mqtt buffer length topic packet_id qos retain msg :
  short_string topic → opt_message_ok msg → 0 ≤ packet_id < 256 → 0 ≤ qos ≤ 2 →
  make_publish_message buffer length topic packet_id qos retain msg =
    writes (mqtt_publish topic packet_id qos retain (default [] msg)) buffer.
Proof.
  intros Ht Hm Hp Hq. rewrite make_publish_writes.
  apply (f_equal (λ l, writes l buffer)).
  assert (Hmsg : match msg with Some m => c_chars m | None => [] end = default [] msg ∧
                 match msg with Some m => u16 (strlen m) | None => 0 end = zlen (default [] msg)).
  { destruct msg as [m|]; [|done]. destruct Hm as [Hn Hl]. pose proof (zlen_nonneg m). simpl.
    rewrite c_chars_nul_free, strlen_nul_free, u16_small by (done || lia). done. }
  destruct Hmsg as [-> ->]. rewrite (ser_short_small packet_id) by done.
  rewrite app_assoc, (app_assoc (ser_short _)), ser_string_short by done.
  apply c_chars_short in Ht as (_ & -> & Hl).
  unfold mqtt_publish, mqtt_packet. rewrite <- app_assoc. cbn [app]. f_equal.
  - assert (qos = 0 ∨ qos = 1 ∨ qos = 2) as [-> | [-> | ->]] by lia; by destruct retain.
  - f_equal. f_equal. autorewrite with zlen.
    case_decide; autorewrite with zlen; lia.
Qed.

(** ** Acknowledgements *)

Lemma make_ack_writes buffer length packet_id :
  make_puback_message buffer length packet_id = writes ([64; 2] ++ ser_short packet_id) buffer ∧
  make_pubrec_message buffer length packet_id = writes ([80; 2] ++ ser_short packet_id) buffer ∧
  make_pubrel_message buffer length packet_id = writes ([98; 2] ++ ser_short packet_id) buffer ∧
  make_pubcomp_message buffer length packet_id = writes ([112; 2] ++ ser_short packet_id) buffer ∧
  make_unsuback_message buffer length packet_id = writes ([176; 2] ++ ser_short packet_id) buffer.
Proof.
  unfold make_puback_message, make_pubrec_message, make_pubrel_message, make_pubcomp_message,
    make_unsuback_message.
  split_and!; message_steps; done.
Qed.

(** The packets that carry only a packet identifier, PUBACK, PUBREC, PUBREL
    (with the flags of a QoS 1 message), PUBCOMP and UNSUBACK: each serializer
    writes the four bytes of its MQTT packet, for identifiers below 256. *)
Lemma make_acks_mqtt buffer length packet_id :
  0 ≤ packet_id < 256 →
  make_puback_message buffer length packet_id = writes (mqtt_ack PUBACK 0 packet_id) buffer ∧
  make_pubrec_message buffer length packet_id = writes (mqtt_ack PUBREC 0 packet_id) buffer ∧
  make_pubrel_message buffer length packet_id = writes (mqtt_ack PUBREL 2 packet_id) buffer ∧
  make_pubcomp_message buffer length packet_id = writes (mqtt_ack PUBCOMP 0 packet_id) buffer ∧
  make_unsuback_message buffer length packet_id = writes (mqtt_ack UNSUBACK 0 packet_id) buffer.
Proof.
  intros Hp. pose proof (make_ack_writes buffer length packet_id) as (-> & -> & -> & -> & ->).
  by rewrite ser_short_small.
Qed.

Lemma make_empty_mqtt buffer length :
  make_pingreq_message buffer length = writes (mqtt_empty PINGREQ) buffer ∧
  make_pingresp_message buffer length = writes (mqtt_empty PINGRESP) buffer ∧
  make_disconnect_message buffer length = writes (mqtt_empty DISCONNECT) buffer.
Proof.
  unfold make_pingreq_message, make_pingresp_message, make_disconnect_message.
  split_and!; message_steps; done.
Qed.

Lemma make_connack_mqtt buffer length code :
  byte_range code → make_connack_message buffer length code = writes (mqtt_connack code) buffer.
Proof.
  intros Hc. unfold make_connack_message. message_steps. by rewrite (u8_small code).
Qed.

(** ** Topic lists *)

Lemma for_loop_fold {A B} (l : list A) (f : nat → B → outcome B) (g : B → A → B) b :
  (∀ i x b, l !! i = Some x → f i b = Ok (g b x)) →
  for_loop (length l) 0 f b = Ok (foldl g b l).
Proof.
  intros Hf.
  assert (∀ j l' b, (∀ i x b, l' !! i = Some x → f (j + i)%nat b = Ok (g b x)) →
            for_loop (length l') j f b = Ok (foldl g b l')) as Hgen; [|by apply Hgen].
  clear. intros j l. revert j. induction l as [|x l IH]; intros j b Hf; [done|].
  cbn [length for_loop foldl]. pose proof (Hf O x b eq_refl) as H0. rewrite Nat.add_0_r in H0.
  rewrite H0, bind_ok. apply IH. intros i y b' Hy. rewrite <- (Hf (S i) y b' Hy).
  by rewrite Nat.add_succ_r.
Qed.

Lemma array_get_lookup {A} (l : list A) i x : l !! i = Some x → array_get l i = Ok x.
Proof. unfold array_get. by intros ->. Qed.

Definition topics_size (include_qos : bool) (topics : list (list Z)) : Z :=
  foldr (λ t n, 2 + strlen t + Z.b2z include_qos + n) 0 topics.

Lemma u16_add a b : u16 (u16 a + b) = u16 (a + b).
Proof. apply Zplus_mod_idemp_l. Qed.

Lemma get_utf8_string_size_spec topics include_qos :
  get_utf8_string_size (zlen topics) topics include_qos =
    Ok (u16 (topics_size include_qos topics)).
Proof.
  unfold get_utf8_string_size, zlen. rewrite Nat2Z.id.
  rewrite (for_loop_fold topics _ (λ n t, u16 (n + (2 + strlen t + Z.b2z include_qos)))).
  - assert (∀ z, foldl (λ n t, u16 (n + (2 + strlen t + Z.b2z include_qos))) (u16 z) topics =
                 u16 (z + topics_size include_qos topics)) as Hgen;
      [|apply (f_equal Ok (Hgen 0))].
    induction topics as [|t topics IH]; intros z; simpl; [by rewrite Z.add_0_r|].
    rewrite u16_add, IH. f_equal. lia.
  - intros i t n Hi. rewrite (array_get_lookup _ _ _ Hi), bind_ok.
    destruct include_qos; simpl; rewrite ?u16_add; do 2 f_equal; lia.
Qed.

Lemma topics_size_nonneg q topics : 0 ≤ topics_size q topics.
Proof.
  induction topics as [|t topics IH]; simpl; [done|].
  pose proof (strlen_nonneg t). destruct q; simpl; lia.
Qed.

Lemma emits_for_zlen {A} (l : list A) n (f : nat → ser_state → outcome ser_state) w :
  n = zlen l → (∀ i x, l !! i = Some x → emits (f i) (w x)) →
  emits (for_loop (Z.to_nat n) 0 f) (concat (w <$> l)).
Proof. intros ->. unfold zlen. rewrite Nat2Z.id. apply emits_for. Qed.

Lemma emits_bind_ok {A} (m : outcome A) x (f : A → ser_state → outcome ser_state) bs :
  m = Ok x → emits (f x) bs → emits (λ s, y ← m; f y s) bs.
Proof. intros -> Hf s Hs. by rewrite bind_ok, Hf. Qed.

Lemma emits_get {A} (l : list A) i x (f : A → ser_state → outcome ser_state) bs :
  l !! i = Some x → emits (f x) bs → emits (λ s, y ← array_get l i; f y s) bs.
Proof. intros Hi. by apply emits_bind_ok, array_get_lookup. Qed.

Lemma get_utf8_string_size_fmap {A} (l : list A) g q :
  get_utf8_string_size (zlen l) (g <$> l) q = Ok (u16 (topics_size q (g <$> l))).
Proof. rewrite <- get_utf8_string_size_spec. unfold zlen. by rewrite length_fmap. Qed.

Lemma make_subscribe_writes buffer length packet_id tqs :
  make_subscribe_message buffer length packet_id (zlen tqs) (fst <$> tqs) (snd <$> tqs) =
    writes ([130] ++ size_bytes (2 + u16 (topics_size true (fst <$> tqs))) ++
            ser_short packet_id ++
            concat ((λ tq, ser_short (strlen tq.1) ++ c_chars tq.1 ++ [u8 tq.2]) <$> tqs)) buffer.
Proof.
  unfold make_subscribe_message.
  assert (Hfor : emits (for_loop (Z.to_nat (zlen tqs)) 0
     (λ position s, topic ← array_get (fst <$> tqs) position; s ← SER_short (strlen topic) s;
        s ← SER_string topic s; qos ← array_get (snd <$> tqs) position; SER_byte qos s))
     (concat ((λ tq, ser_short (strlen tq.1) ++ c_chars tq.1 ++ [u8 tq.2]) <$> tqs))).
  { apply emits_for_zlen; [done|]. intros i tq Hi.
    eapply emits_get; [by rewrite list_lookup_fmap, Hi|].
    apply emits_seq; [apply emits_short|]. apply emits_seq; [apply emits_string|].
    eapply emits_get; [by rewrite list_lookup_fmap, Hi|]. apply emits_byte. }
  erewrite bind_ext; [|intros ?; rewrite get_utf8_string_size_fmap, bind_ok; reflexivity].
  message_steps. by rewrite <- !app_assoc.
Qed.

Lemma make_unsubscribe_writes buffer length packet_id topics :
  make_unsubscribe_message buffer length packet_id (zlen topics) topics =
    writes ([162] ++ size_bytes (2 + u16 (topics_size false topics)) ++
            ser_short packet_id ++
            concat ((λ t, ser_short (strlen t) ++ c_chars t) <$> topics)) buffer.
Proof.
  unfold make_unsubscribe_message.
  assert (Hfor : emits (for_loop (Z.to_nat (zlen topics)) 0
     (λ i s, topic ← array_get topics i; s ← SER_short (strlen topic) s; SER_string topic s))
     (concat ((λ t, ser_short (strlen t) ++ c_chars t) <$> topics))).
  { apply emits_for_zlen; [done|]. intros i t Hi.
    eapply emits_get; [done|]. apply emits_seq; [apply emits_short|apply emits_string]. }
  erewrite bind_ext; [|intros ?; rewrite get_utf8_string_size_spec, bind_ok; reflexivity].
  message_steps. by rewrite <- !app_assoc.
Qed.

Lemma make_suback_writes buffer length packet_id results :
  make_suback_message buffer length packet_id (zlen results) (sub_success <$> results)
      (sub_qos <$> results) =
    writes ([144] ++ size_bytes (2 + zlen results) ++ ser_short packet_id ++
            ((λ r, u8 (mqtt_result r)) <$> results)) buffer.
Proof.
  unfold make_suback_message.
  assert (Hfor : emits (for_loop (Z.to_nat (zlen results)) 0
     (λ i s, ok ← array_get (sub_success <$> results) i;
        b ← (if (ok : bool) then array_get (sub_qos <$> results) i else Ok 0x80); SER_byte b s))
     ((λ r, u8 (mqtt_result r)) <$> results)).
  { replace ((λ r, u8 (mqtt_result r)) <$> results) with
      (concat ((λ r, [u8 (mqtt_result r)]) <$> results))
      by (induction results; simpl; [done|by f_equal]).
    apply emits_for_zlen; [done|]. intros i r Hi.
    eapply emits_get; [by rewrite list_lookup_fmap, Hi|].
    eapply emits_bind_ok; [|apply emits_byte]. unfold mqtt_result.
    destruct (sub_success r); [|done]. apply array_get_lookup. by rewrite list_lookup_fmap, Hi. }
  pose proof (zlen_nonneg results).
  message_steps. by rewrite <- !app_assoc.
Qed.

Lemma topics_size_cons q t ts :
  topics_size q (t :: ts) = 2 + strlen t + Z.b2z q + topics_size q ts.
Proof. done. Qed.

Lemma concat_topics_short (topics : list (list Z)) :
  Forall short_string topics →
  concat ((λ t, ser_short (strlen t) ++ c_chars t) <$> topics) = concat (mqtt_string <$> topics) ∧
  topics_size false topics = zlen (concat (mqtt_string <$> topics)).
Proof.
  induction 1 as [|t ts Ht _ [IH1 IH2]]; [done|].
  rewrite !fmap_cons, topics_size_cons. cbn [concat Z.b2z].
  rewrite IH1, IH2, ser_string_short by done. split; [done|].
  autorewrite with zlen. apply c_chars_short in Ht as (_ & -> & _). lia.
Qed.

Lemma concat_topic_qos_short (tqs : list (list Z * Z)) :
  Forall (λ tq, short_string tq.1 ∧ byte_range tq.2) tqs →
  concat ((λ tq, ser_short (strlen tq.1) ++ c_chars tq.1 ++ [u8 tq.2]) <$> tqs) =
    concat (mqtt_topic_qos <$> tqs) ∧
  topics_size true (fst <$> tqs) = zlen (concat (mqtt_topic_qos <$> tqs)).
Proof.
  induction 1 as [|[t q] tqs [Ht Hq] _ [IH1 IH2]]; [done|]. cbn [fst snd] in Ht, Hq.
  rewrite !fmap_cons, topics_size_cons. cbn [concat Z.b2z fst snd].
  rewrite IH1, IH2, u8_small, app_assoc, ser_string_short by done. split; [done|].
  rewrite zlen_app. change (mqtt_topic_qos (t, q)) with (mqtt_string t ++ [q]).
  autorewrite with zlen. apply c_chars_short in Ht as (_ & -> & _). lia.
Qed.

(** [make_subscribe_message] on parallel arrays of topics and QoS values
    writes the MQTT SUBSCRIBE packet, for any number of topics whose packet
    body stays within sixteen bits. *)
Lemma make_subscribe_mqtt buffer length packet_id tqs :
  Forall (λ tq, short_string tq.1 ∧ byte_range tq.2) tqs → 0 ≤ packet_id < 256 →
  zlen (concat (mqtt_topic_qos <$> tqs)) < 65536 →
  make_subscribe_message buffer length packet_id (zlen tqs) (fst <$> tqs) (snd <$> tqs) =
    writes (mqtt_subscribe packet_id tqs) buffer.
Proof.
  intros Ht Hp Hl. rewrite make_subscribe_writes.
  apply concat_topic_qos_short in Ht as [-> ->].
  rewrite u16_small, ser_short_small by (done || pose proof (zlen_nonneg (concat (mqtt_topic_qos <$> tqs))); lia).
  unfold mqtt_subscribe, mqtt_packet. by autorewrite with zlen.
Qed.

(** The same for [make_unsubscribe_message] and UNSUBSCRIBE. *)
Lemma make_unsubscribe_mqtt buffer length packet_id topics :
  Forall short_string topics → 0 ≤ packet_id < 256 →
  zlen (concat (mqtt_string <$> topics)) < 65536 →
  make_unsubscribe_message buffer length packet_id (zlen topics) topics =
    writes (mqtt_unsubscribe packet_id topics) buffer.
Proof.
  intros Ht Hp Hl. rewrite make_unsubscribe_writes.
  apply concat_topics_short in Ht as [-> ->].
  rewrite u16_small, ser_short_small by (done || pose proof (zlen_nonneg (concat (mqtt_string <$> topics))); lia).
  unfold mqtt_unsubscribe, mqtt_packet. by autorewrite with zlen.
Qed.

(** The same for [make_suback_message] and SUBACK: a granted QoS is
    written as it is, a refusal as 0x80. *)
Lemma make_suback_mqtt buffer length packet_id results :
  Forall (λ r, byte_range (sub_qos r)) results → 0 ≤ packet_id < 256 →
  make_suback_message buffer length packet_id (zlen results) (sub_success <$> results)
      (sub_qos <$> results) =
    writes (mqtt_suback packet_id results) buffer.
Proof.
  intros Hr Hp. rewrite make_suback_writes, ser_short_small by done.
  unfold mqtt_suback, mqtt_packet. autorewrite with zlen.
  assert ((λ r, u8 (mqtt_result r)) <$> results = mqtt_result <$> results) as ->.
  { apply list_fmap_ext. intros i r Hi. eapply Forall_lookup_1 in Hr; [|done].
    apply u8_small. unfold mqtt_result. destruct (sub_success r); [done|]. split; lia. }
  assert (zlen (mqtt_result <$> results) = zlen results) as ->; [|done].
  unfold zlen. by rewrite length_fmap.
Qed.

(** A sixteen-bit value loses its high byte on the way out: the serializers
    of the acknowledgements give the same bytes for a packet identifier and for
    the identifier reduced modulo 256. *)
Theorem packet_id_high_byte_lost buffer length packet_id :
  make_puback_message buffer length packet_id =
    make_puback_message buffer length (packet_id `mod` 256) ∧
  make_pubrec_message buffer length packet_id =
    make_pubrec_message buffer length (packet_id `mod` 256) ∧
  make_pubrel_message buffer length packet_id =
    make_pubrel_message buffer length (packet_id `mod` 256) ∧
  make_pubcomp_message buffer length packet_id =
    make_pubcomp_message buffer length (packet_id `mod` 256).
Proof.
  pose proof (make_ack_writes buffer length packet_id) as (-> & -> & -> & -> & _).
  pose proof (make_ack_writes buffer length (packet_id `mod` 256)) as (-> & -> & -> & -> & _).
  unfold ser_short, u8. change (2 ^ 8) with 256. by rewrite Z.mod_mod by lia.
Qed.
