(* ===== verification/Deserialize.v ===== *)
(** Deserialize: [short_from_buffer], the topic and result array fillers and
    [deserialize_response] of [libsmqttcore/messages.c]. *)

From S2P Require Import Prelude Protocol Size Wire.

#[local] Open Scope Z_scope.

(** * Model *)

Definition UNPACK_MESSAGE_TYPE (m : Z) : Z := Z.shiftr (u8 m) 4.

Definition FLAGS_UNPACK_USER (bits : Z) : bool := bool_decide (Z.shiftr (Z.land (u8 bits) 0x80) 7 ≠ 0).
Definition FLAGS_UNPACK_PW (bits : Z) : bool := bool_decide (Z.shiftr (Z.land bits 0x40) 6 ≠ 0).
Definition FLAGS_UNPACK_WILL_RETAIN (bits : Z) : bool := bool_decide (Z.shiftr (Z.land bits 0x20) 5 ≠ 0).
Definition FLAGS_UNPACK_WILL_QOS (bits : Z) : Z := Z.shiftr (Z.land bits 0x18) 3.
Definition FLAGS_UNPACK_WILL_FLAG (bits : Z) : bool := bool_decide (Z.shiftr (Z.land bits 0x04) 2 ≠ 0).
Definition FLAGS_UNPACK_CLEAN (bits : Z) : bool := bool_decide (Z.shiftr (Z.land bits 0x02) 1 ≠ 0).

Definition QOS_RETURN_OK (bits : Z) : bool := bool_decide (Z.land bits 0xFC = 0).
Definition QOS_RETURN_QOS (bits : Z) : Z := Z.land bits 0x3.

Definition no_packet_id : Z := 0.

Definition short_from_buffer (mem : list Z) (buffer : Z) : outcome Z :=
  b0 ← buf_read mem buffer;
  b1 ← buf_read mem (buffer + 1);
  Ok (u16 (Z.lor (u16 (Z.shiftl b0 16)) (u16 b1))).

(** The loop of [fill_topic_arrays]: [position] entries are in [acc]. *)
Fixpoint fill_topic_loop (fuel : nat) (mem : list Z) (with_qos : bool) (max curr : Z)
    (acc : list topic_entry) : outcome (list topic_entry) :=
  match fuel with
  | O => Fault OutOfFuel
  | S fuel' =>
      if decide (curr + 2 ≤ max ∧ (length acc < MAX_TOPICS)%nat) then
        length ← short_from_buffer mem curr;
        qos ← (if with_qos then Some <$> buf_read mem (curr + 2 + length) else Ok None);
        let entry := {| topic_length := length; topic_ptr := curr + 2; topic_qos := qos |} in
        let curr := curr + 2 + length in
        let curr := if with_qos then curr + 1 else curr in
        fill_topic_loop fuel' mem with_qos max curr (acc ++ [entry])
      else Ok acc
  end.

Definition fill_fuel : nat := S MAX_TOPICS.

(** [qoss != NULL] is [with_qos]; the arrays filled are the result. *)
Definition fill_topic_arrays (mem : list Z) (buffer bytecount : Z) (with_qos : bool)
    : outcome (list topic_entry) :=
  fill_topic_loop fill_fuel mem with_qos (buffer + bytecount) buffer [].

Fixpoint fill_subresult_loop (fuel : nat) (mem : list Z) (max curr : Z)
    (acc : list sub_result) : outcome (list sub_result) :=
  match fuel with
  | O => Fault OutOfFuel
  | S fuel' =>
      if decide (curr + 1 ≤ max ∧ (length acc < MAX_TOPICS)%nat) then
        b ← buf_read mem curr;
        fill_subresult_loop fuel' mem max (curr + 1)
          (acc ++ [{| sub_success := QOS_RETURN_OK b; sub_qos := QOS_RETURN_QOS b |}])
      else Ok acc
  end.

Definition fill_subresult_arrays (mem : list Z) (buffer bytecount : Z)
    : outcome (list sub_result) :=
  fill_subresult_loop fill_fuel mem (buffer + bytecount) buffer [].

(** A length-prefixed field: its size, the pointer to its bytes, the offset
    after it. *)
Definition string_field (buffer : list Z) (offset : Z) : outcome (Z * Z * Z) :=
  size ← short_from_buffer buffer offset;
  Ok (size, offset + 2, offset + (2 + size)).

(** The case [CONNECT] of the switch. *)
Definition deserialize_connect (buffer : list Z) (offset : Z) : outcome connect_data_t :=
  name_size ← short_from_buffer buffer offset;
  let offset := offset + 2 in
  let name := offset in
  let offset := offset + name_size in
  version ← buf_read buffer offset;
  let offset := offset + 1 in
  connect_flags ← buf_read buffer offset;
  let offset := offset + 1 in
  let has_user := FLAGS_UNPACK_USER connect_flags in
  let has_pw := FLAGS_UNPACK_PW connect_flags in
  let has_will := FLAGS_UNPACK_WILL_FLAG connect_flags in
  let will_qos := FLAGS_UNPACK_WILL_QOS connect_flags in
  let will_retain := FLAGS_UNPACK_WILL_RETAIN connect_flags in
  let has_clean := FLAGS_UNPACK_CLEAN connect_flags in
  keep_alive ← short_from_buffer buffer offset;
  let offset := offset + 2 in
  client_id_size ← short_from_buffer buffer offset;
  let offset := offset + 2 in
  let client_id := offset in
  let offset := offset + client_id_size in
  '(will_topic_size, will_topic, will_message_size, will_message, offset) ←
    (if has_will then
       '(will_topic_size, will_topic, offset) ← string_field buffer offset;
       '(will_message_size, will_message, offset) ← string_field buffer offset;
       Ok (Some will_topic_size, Some will_topic, Some will_message_size, Some will_message, offset)
     else Ok (None, None, None, None, offset));
  '(user_size, user, offset) ←
    (if has_user then
       '(user_size, user, offset) ← string_field buffer offset;
       Ok (Some user_size, Some user, offset)
     else Ok (None, None, offset));
  '(pw_size, pw) ←
    (if has_pw then
       '(pw_size, pw, _) ← string_field buffer offset;
       Ok (Some pw_size, Some pw)
     else Ok (None, None));
  Ok {| name_size := name_size; name := name; version := version;
        has_user := has_user; has_pw := has_pw; has_will := has_will;
        will_qos := will_qos; will_retain := will_retain; has_clean := has_clean;
        keep_alive := keep_alive; client_id_size := client_id_size; client_id := client_id;
        will_topic_size := will_topic_size; will_topic := will_topic;
        will_message_size := will_message_size; will_message := will_message;
        user_size := user_size; user := user; pw_size := pw_size; pw := pw |}.

(** The case [PUBLISH]; [first] is [buffer[0]]. *)
Definition deserialize_publish (buffer : list Z) (first total_size offset : Z)
    : outcome publish_data_t :=
  let saved_offset := offset in
  let qos := Z.land (Z.shiftr first 1) 0x03 in
  let retain := bool_decide (Z.land first 0x01 ≠ 0) in
  topic_size ← short_from_buffer buffer offset;
  let offset := offset + 2 in
  let topic := offset in
  let offset := offset + topic_size in
  '(packet_id, offset) ←
    (if decide (qos >= QoS1) then
       packet_id ← short_from_buffer buffer offset;
       Ok (packet_id, offset + 2)
     else Ok (no_packet_id, offset));
  Ok {| pub_qos := qos; pub_retain := retain; pub_topic_size := topic_size;
        pub_topic := topic; pub_packet_id := packet_id;
        pub_message_size := u16 (total_size - (offset - saved_offset));
        pub_message := offset |}.

(** The switch; [None] is the default case, which frees the response. *)
Definition deserialize_body (buffer : list Z) (first total_size offset : Z)
    : outcome (option response_t) :=
  match message_type_of (UNPACK_MESSAGE_TYPE first) with
  | Some CONNECT =>
      d ← deserialize_connect buffer offset;
      Ok (Some {| type := CONNECT; body := connect_data d |})
  | Some CONNACK =>
      t ← buf_read buffer (offset + 1);
      Ok (Some {| type := CONNACK; body := connack_data t |})
  | Some PUBLISH =>
      d ← deserialize_publish buffer first total_size offset;
      Ok (Some {| type := PUBLISH; body := publish_data d |})
  | Some PUBACK =>
      p ← short_from_buffer buffer offset;
      Ok (Some {| type := PUBACK; body := puback_data p |})
  | Some PUBREC =>
      p ← short_from_buffer buffer offset;
      Ok (Some {| type := PUBREC; body := pubrec_data p |})
  | Some PUBREL =>
      p ← short_from_buffer buffer offset;
      Ok (Some {| type := PUBREL; body := pubrel_data p |})
  | Some PUBCOMP =>
      p ← short_from_buffer buffer offset;
      Ok (Some {| type := PUBCOMP; body := pubcomp_data p |})
  | Some SUBSCRIBE =>
      p ← short_from_buffer buffer offset;
      let topic_segment_size := u32 (total_size - offset) in
      let offset := offset + 2 in
      topics ← fill_topic_arrays buffer offset topic_segment_size true;
      Ok (Some {| type := SUBSCRIBE; body := subscribe_data p topics |})
  | Some SUBACK =>
      p ← short_from_buffer buffer offset;
      let subresult_segment_size := u32 (total_size - offset) in
      let offset := offset + 2 in
      results ← fill_subresult_arrays buffer offset subresult_segment_size;
      Ok (Some {| type := SUBACK; body := suback_data p results |})
  | Some UNSUBSCRIBE =>
      p ← short_from_buffer buffer offset;
      let topic_segment_size := u32 (total_size - offset) in
      let offset := offset + 2 in
      topics ← fill_topic_arrays buffer offset topic_segment_size false;
      Ok (Some {| type := UNSUBSCRIBE; body := unsubscribe_data p topics |})
  | Some UNSUBACK =>
      p ← short_from_buffer buffer offset;
      Ok (Some {| type := UNSUBACK; body := unsuback_data p |})
  | Some PINGREQ => Ok (Some {| type := PINGREQ; body := no_data |})
  | Some PINGRESP => Ok (Some {| type := PINGRESP; body := no_data |})
  | Some DISCONNECT => Ok (Some {| type := DISCONNECT; body := no_data |})
  | None => Ok None
  end.

(** [buffer] is the object read from, from its start; [length] the number of
    bytes the caller received.  [None] is a null result. *)
Definition deserialize_response (buffer : list Z) (length : Z) : outcome (option response_t) :=
  first ← buf_read buffer 0;
  '(ret, total_size, bytes_used) ← decode_size buffer 1 length;
  match ret, total_size with
  | true, Some total_size => deserialize_body buffer first total_size (1 + bytes_used)
  | _, _ => Ok None
  end.

(** * Reading fields *)

(** The sixteen-bit reader drops the high byte: it is shifted out of the
    sixteen bits. *)
Lemma short_from_buffer_low m off b0 b1 :
  buf_read m off = Ok b0 → buf_read m (off + 1) = Ok b1 → byte_range b1 →
  short_from_buffer m off = Ok b1.
Proof.
  intros H0 H1 Hb. unfold short_from_buffer. rewrite H0, bind_ok, H1, bind_ok.
  assert (u16 (Z.shiftl b0 16) = 0) as ->.
  { unfold u16. rewrite Z.shiftl_mul_pow2 by lia. by rewrite Z.mod_mul by lia. }
  unfold byte_range in Hb. by rewrite Z.lor_0_l, !u16_small by (rewrite ?u16_small; lia).
Qed.

Lemma short_from_buffer_ok m off :
  bytes m → 0 ≤ off → off + 2 ≤ zlen m →
  ∃ b, short_from_buffer m off = Ok b ∧ byte_range b.
Proof.
  intros Hm ??. destruct (buf_read_ok m off) as [b0 Hr0]; [lia|].
  destruct (buf_read_ok m (off + 1)) as [b1 Hr1]; [lia|].
  pose proof (buf_read_range _ _ _ Hm Hr1).
  exists b1. split; [by eapply short_from_buffer_low|done].
Qed.

Lemma short_at m off n suf :
  0 ≤ n < 256 → at_off m off (mqtt_short n ++ suf) →
  short_from_buffer m off = Ok n ∧ at_off m (off + 2) suf.
Proof.
  intros Hn H. rewrite mqtt_short_small in H by done.
  apply at_off_cons in H as [H0 H]. apply at_off_cons in H as [H1 H].
  split; [by eapply short_from_buffer_low|]. by replace (off + 2) with (off + 1 + 1) by lia.
Qed.

Lemma string_at m off s suf :
  short_string s → at_off m off (mqtt_string s ++ suf) →
  short_from_buffer m off = Ok (zlen s) ∧ slice m (off + 2) (zlen s) = s ∧
  at_off m (off + 2 + zlen s) suf.
Proof.
  intros (_ & _ & Hl) H. unfold mqtt_string in H. rewrite <- app_assoc in H.
  pose proof (zlen_nonneg s). apply short_at in H as [-> H]; [|lia].
  apply at_off_app in H as [??]. done.
Qed.

Lemma string_field_at m off s suf :
  short_string s → at_off m off (mqtt_string s ++ suf) →
  string_field m off = Ok (zlen s, off + 2, off + 2 + zlen s) ∧
  slice m (off + 2) (zlen s) = s ∧ at_off m (off + 2 + zlen s) suf.
Proof.
  intros Hs H. destruct (string_at _ _ _ _ Hs H) as (Hl & ? & ?).
  unfold string_field. rewrite Hl, bind_ok. split; [do 2 f_equal; lia|done].
Qed.

(** The fixed header of a packet: what the deserializer computes before its
    switch. *)
Lemma deserialize_header t flags bd rest length :
  0 ≤ flags < 16 → zlen bd < size_limit → zlen (size_bytes (zlen bd)) ≤ length →
  let m := mqtt_packet t flags bd ++ rest in
  let off := 1 + zlen (size_bytes (zlen bd)) in
  at_off m off (bd ++ rest) ∧
  message_type_of (UNPACK_MESSAGE_TYPE (16 * message_type_val t + flags)) = Some t ∧
  deserialize_response m length =
    deserialize_body m (16 * message_type_val t + flags) (zlen bd) off.
Proof.
  intros Hf Hb Hl m off. pose proof (zlen_nonneg bd).
  assert (H0 : at_off m 0 ((16 * message_type_val t + flags) :: size_bytes (zlen bd) ++ bd ++ rest)).
  { unfold m, mqtt_packet. cbn [app]. rewrite <- app_assoc. apply at_off_0. }
  apply at_off_cons in H0 as [Hr H0]. rewrite Z.add_0_l in H0. split_and!.
  - by eapply at_off_app_at.
  - unfold UNPACK_MESSAGE_TYPE. rewrite u8_small by (destruct t; unfold byte_range; simpl; lia).
    rewrite Z.shiftr_div_pow2 by lia. change (2 ^ 4) with 16.
    rewrite (Z.mul_comm 16), Z.div_add_l, Z.div_small, Z.add_0_r by lia.
    apply message_type_of_val.
  - unfold deserialize_response. rewrite Hr, bind_ok.
    by erewrite decode_size_digits; [rewrite bind_ok|..]; [|split|done|lia].
Qed.

(** ** Reading the reference packets *)

Lemma header_length bd length t flags :
  zlen (mqtt_packet t flags bd) ≤ length → zlen (size_bytes (zlen bd)) ≤ length.
Proof.
  unfold mqtt_packet. autorewrite with zlen. pose proof (zlen_nonneg bd). lia.
Qed.

(** What a PUBLISH response says, as data of the buffer it points into. *)
Definition publish_reads (m : list Z) (d : publish_data_t) (topic : list Z)
    (packet_id qos : Z) (retain : bool) (msg : list Z) : Prop :=
  pub_qos d = qos ∧ pub_retain d = retain ∧
  pub_packet_id d = (if decide (qos >= QoS1) then packet_id else no_packet_id) ∧
  pub_topic_size d = zlen topic ∧ slice m (pub_topic d) (pub_topic_size d) = topic ∧
  pub_message_size d = zlen msg ∧ slice m (pub_message d) (pub_message_size d) = msg.

Lemma publish_first_byte qos retain :
  0 ≤ qos ≤ 2 →
  Z.land (Z.shiftr (16 * message_type_val PUBLISH + (2 * qos + Z.b2z retain)) 1) 3 = qos ∧
  bool_decide (Z.land (16 * message_type_val PUBLISH + (2 * qos + Z.b2z retain)) 1 ≠ 0) = retain.
Proof.
  intros ?. assert (qos = 0 ∨ qos = 1 ∨ qos = 2) as [-> | [-> | ->]] by lia;
    by destruct retain.
Qed.

Lemma deserialize_mqtt_publish topic packet_id qos retain msg rest length :
  short_string topic → zlen msg < 65536 → 0 ≤ packet_id < 256 → 0 ≤ qos ≤ 2 →
  zlen (mqtt_publish topic packet_id qos retain msg) ≤ length →
  ∃ d, let m := mqtt_publish topic packet_id qos retain msg ++ rest in
    deserialize_response m length = Ok (Some {| type := PUBLISH; body := publish_data d |}) ∧
    publish_reads m d topic packet_id qos retain msg ∧
    4 ≤ pub_topic d ∧ pub_topic d + zlen topic ≤ pub_message d.
Proof.
  intros Ht Hm Hp Hq Hl.
  assert (Hsh : 0 ≤ zlen topic < 256) by (destruct Ht as (_ & _ & ?); split; [apply zlen_nonneg|done]).
  unfold mqtt_publish in *. set (bd := mqtt_string topic ++ _) in *.
  assert (Hbd : zlen bd = 2 + zlen topic + (if decide (qos >= QoS1) then 2 else 0) + zlen msg)
    by (unfold bd; case_decide; autorewrite with zlen; lia).
  pose proof (deserialize_header PUBLISH (2 * qos + Z.b2z retain) bd rest length) as Hh.
  destruct Hh as (Hat & Htype & Hdes).
  { destruct retain; simpl; lia. }
  { unfold size_limit. case_decide; lia. }
  { by eapply header_length. }
  rewrite Hdes. unfold deserialize_body. rewrite Htype. clear Hdes Htype.
  pose proof (publish_first_byte qos retain Hq) as [Hfq Hfr].
  pose proof (size_bytes_length (zlen bd)) as Hsl.
  set (m := mqtt_packet _ _ _ ++ rest) in *. set (off := 1 + _) in *.
  unfold bd in Hat. rewrite <- !app_assoc in Hat.
  apply string_at in Hat as (Hts & Htopic & Hat); [|done].
  unfold deserialize_publish. rewrite Hfq, Hfr, Hts, bind_ok.
  assert (∃ off', (if decide (qos >= QoS1) then p ← short_from_buffer m (off + 2 + zlen topic);
             Ok (p, off + 2 + zlen topic + 2) else Ok (no_packet_id, off + 2 + zlen topic)) =
          Ok (if decide (qos >= QoS1) then packet_id else no_packet_id, off') ∧
          off' = off + 2 + zlen topic + (if decide (qos >= QoS1) then 2 else 0) ∧
          at_off m off' (msg ++ rest)) as (off' & -> & Hoff' & Hat').
  { case_decide; cbn [app] in Hat.
    - apply short_at in Hat as [-> Hat]; [|done]. by eexists.
    - eexists. rewrite Z.add_0_r. done. }
  rewrite !bind_ok. cbv beta iota. eexists. split; [done|].
  assert (u16 (zlen bd - (off' - off)) = zlen msg) as Hms.
  { rewrite Hbd, Hoff', u16_small; case_decide; pose proof (zlen_nonneg msg); lia. }
  unfold publish_reads. simpl. rewrite Hms. split_and!; try done.
  - by eapply at_off_app_slice.
  - lia.
  - rewrite Hoff'. case_decide; lia.
Qed.

(** The message types that carry a packet identifier only, and their bodies. *)
Definition is_ack (t : message_type_t) : bool :=
  match t with PUBACK | PUBREC | PUBREL | PUBCOMP | UNSUBACK => true | _ => false end.

Definition ack_body (t : message_type_t) (packet_id : Z) : response_body :=
  match t with
  | PUBACK => puback_data packet_id
  | PUBREC => pubrec_data packet_id
  | PUBREL => pubrel_data packet_id
  | PUBCOMP => pubcomp_data packet_id
  | UNSUBACK => unsuback_data packet_id
  | _ => no_data
  end.

Lemma deserialize_mqtt_ack t flags packet_id rest length :
  is_ack t = true → 0 ≤ flags < 16 → 0 ≤ packet_id < 256 → 1 ≤ length →
  deserialize_response (mqtt_ack t flags packet_id ++ rest) length =
    Ok (Some {| type := t; body := ack_body t packet_id |}).
Proof.
  intros Ha Hf Hp Hl. unfold mqtt_ack.
  destruct (deserialize_header t flags (mqtt_short packet_id) rest length)
    as (Hat & Htype & Hdes); [done|done|done|].
  apply short_at in Hat as [Hs _]; [|done].
  rewrite Hdes. unfold deserialize_body. rewrite Htype.
  destruct t; try done; by rewrite Hs.
Qed.

Lemma deserialize_mqtt_connack code rest length :
  1 ≤ length →
  deserialize_response (mqtt_connack code ++ rest) length =
    Ok (Some {| type := CONNACK; body := connack_data code |}).
Proof.
  intros Hl. destruct (deserialize_header CONNACK 0 [0; code] rest length) as (Hat & Htype & Hdes);
    [lia|done|done|].
  apply at_off_cons in Hat as [_ Hat]. apply at_off_cons in Hat as [Hr _].
  unfold mqtt_connack. rewrite Hdes. unfold deserialize_body. rewrite Htype. by rewrite Hr.
Qed.

Lemma deserialize_mqtt_empty t rest length :
  1 ≤ length → t = PINGREQ ∨ t = PINGRESP ∨ t = DISCONNECT →
  deserialize_response (mqtt_empty t ++ rest) length = Ok (Some {| type := t; body := no_data |}).
Proof.
  intros Hl Ht. destruct (deserialize_header t 0 [] rest length) as (_ & Htype & Hdes);
    [lia|done|done|].
  unfold mqtt_empty. rewrite Hdes. unfold deserialize_body. rewrite Htype.
  by destruct Ht as [-> | [-> | ->]].
Qed.

(** ** Connect *)

Definition opt_slice (m : list Z) (p size : option Z) : option (list Z) :=
  match p, size with Some p, Some size => Some (slice m p size) | _, _ => None end.

Definition connect_reads (m : list Z) (d : connect_data_t) (c : connect_params) : Prop :=
  slice m (name d) (name_size d) = mqtt_name ∧ version d = 3 ∧
  has_user d = is_some (cp_user c) ∧ has_pw d = is_some (cp_pw c) ∧
  has_will d = is_some (cp_will c) ∧ will_qos d = cp_will_qos c ∧
  will_retain d = cp_will_retain c ∧ has_clean d = cp_clean c ∧
  keep_alive d = cp_keep_alive c ∧
  slice m (client_id d) (client_id_size d) = cp_client_id c ∧
  opt_slice m (will_topic d) (will_topic_size d) = fst <$> cp_will c ∧
  opt_slice m (will_message d) (will_message_size d) = snd <$> cp_will c ∧
  opt_slice m (user d) (user_size d) = cp_user c ∧
  opt_slice m (pw d) (pw_size d) = cp_pw c.

Lemma unpack_connect_flags c :
  0 ≤ cp_will_qos c ≤ 2 →
  FLAGS_UNPACK_USER (connect_flags c) = is_some (cp_user c) ∧
  FLAGS_UNPACK_PW (connect_flags c) = is_some (cp_pw c) ∧
  FLAGS_UNPACK_WILL_FLAG (connect_flags c) = is_some (cp_will c) ∧
  FLAGS_UNPACK_WILL_QOS (connect_flags c) = cp_will_qos c ∧
  FLAGS_UNPACK_WILL_RETAIN (connect_flags c) = cp_will_retain c ∧
  FLAGS_UNPACK_CLEAN (connect_flags c) = cp_clean c.
Proof.
  intros Hq. unfold connect_flags.
  assert (cp_will_qos c = 0 ∨ cp_will_qos c = 1 ∨ cp_will_qos c = 2) as [-> | [-> | ->]] by lia;
    destruct (is_some _), (is_some _), (is_some _), (cp_will_retain c), (cp_clean c);
    vm_compute; split_and!; reflexivity.
Qed.

Lemma string_field_opt m off o suf :
  opt_short o → at_off m off (opt_string o ++ suf) →
  ∃ size p off',
    (if is_some o then
       '(size, p, off') ← string_field m off; Ok (Some size, Some p, off')
     else Ok (None, None, off)) = Ok (size, p, off') ∧
    opt_slice m p size = o ∧ at_off m off' suf.
Proof.
  intros Ho Hat. destruct o as [s|]; [|by exists None, None, off].
  change (opt_string (Some s)) with (mqtt_string s) in Hat.
  destruct (string_field_at _ _ _ _ Ho Hat) as (Hf & Hs & Hat').
  cbn [is_some]. rewrite Hf, bind_ok. do 3 eexists. split; [done|].
  cbn [opt_slice]. by rewrite Hs.
Qed.

Lemma deserialize_connect_reads m off c rest :
  connect_ok c →
  at_off m off (mqtt_string mqtt_name ++ [3; connect_flags c] ++ mqtt_short (cp_keep_alive c) ++
     mqtt_string (cp_client_id c) ++
     (match cp_will c with Some (t, m) => mqtt_string t ++ mqtt_string m | None => [] end) ++
     opt_string (cp_user c) ++ opt_string (cp_pw c) ++ rest) →
  ∃ d, deserialize_connect m off = Ok d ∧ connect_reads m d c.
Proof.
  intros [Hc Hu Hp Hk Hq Hw] Hat.
  destruct (unpack_connect_flags c Hq) as (Hfu & Hfp & Hfw & Hfq & Hfr & Hfc).
  apply string_at in Hat as (Hns & Hname & Hat);
    [|split_and!; [by repeat constructor|by repeat constructor|done]].
  cbn [app] in Hat. apply at_off_cons in Hat as [Hv Hat]. apply at_off_cons in Hat as [Hfl Hat].
  apply short_at in Hat as [Hka Hat]; [|done].
  apply string_at in Hat as (Hcs & Hcid & Hat); [|done].
  unfold deserialize_connect. rewrite Hns, bind_ok, Hv, bind_ok, Hfl, bind_ok, Hka, bind_ok, Hcs, bind_ok.
  rewrite Hfu, Hfp, Hfw, Hfq, Hfr, Hfc.
  set (off1 := _ + zlen (cp_client_id c)) in *.
  assert (∃ ts tp ms mp off2,
    (if is_some (cp_will c) then
       '(will_topic_size, will_topic, offset) ← string_field m off1;
       '(will_message_size, will_message, offset) ← string_field m offset;
       Ok (Some will_topic_size, Some will_topic, Some will_message_size, Some will_message, offset)
     else Ok (None, None, None, None, off1)) = Ok (ts, tp, ms, mp, off2) ∧
    opt_slice m tp ts = fst <$> cp_will c ∧ opt_slice m mp ms = snd <$> cp_will c ∧
    at_off m off2 (opt_string (cp_user c) ++ opt_string (cp_pw c) ++ rest))
    as (ts & tp & ms & mp & off2 & -> & Ht & Hm & Hat2).
  { destruct (cp_will c) as [[t w]|]; [|by exists None, None, None, None, off1].
    destruct Hw as [Ht Hm]. rewrite <- app_assoc in Hat. cbn [is_some].
    destruct (string_field_at _ _ _ _ Ht Hat) as (-> & Hst & Hat1). rewrite bind_ok.
    destruct (string_field_at _ _ _ _ Hm Hat1) as (-> & Hsm & Hat2). rewrite bind_ok.
    do 5 eexists. split; [done|]. cbn. by rewrite Hst, Hsm. }
  rewrite bind_ok. cbv beta iota.
  destruct (string_field_opt _ _ _ _ Hu Hat2) as (us & up & off3 & -> & Hus & Hat3).
  rewrite bind_ok. cbv beta iota.
  destruct (string_field_opt _ _ _ _ Hp Hat3) as (ps & pp & off4 & Hpf & Hps & _).
  assert ((if is_some (cp_pw c) then '(pw_size, pw, _) ← string_field m off3; Ok (Some pw_size, Some pw)
           else Ok (None, None)) = Ok (ps, pp)) as ->.
  { destruct (cp_pw c); cbn [is_some] in *; [|by simplify_eq/=].
    destruct (string_field m off3) as [[[??]?]|]; [|done]. rewrite !bind_ok in *. by simplify_eq/=. }
  rewrite bind_ok. cbv beta iota. eexists. split; [done|].
  unfold connect_reads. by simpl.
Qed.

Lemma deserialize_mqtt_connect c rest length :
  connect_ok c → zlen (mqtt_connect c) ≤ length →
  ∃ d, deserialize_response (mqtt_connect c ++ rest) length =
         Ok (Some {| type := CONNECT; body := connect_data d |}) ∧
       connect_reads (mqtt_connect c ++ rest) d c.
Proof.
  intros Hc Hl. unfold mqtt_connect in *. set (bd := mqtt_string mqtt_name ++ _) in *.
  destruct (deserialize_header CONNECT 0 bd rest length) as (Hat & Htype & Hdes).
  { lia. }
  { unfold bd, size_limit. destruct Hc as [(_ & _ & ?) Hu Hp _ _ Hw].
    assert (∀ o, opt_short o → zlen (opt_string o) < 258) as Ho.
    { intros [s|]; [|done]. intros (_ & _ & ?). change (opt_string (Some s)) with (mqtt_string s).
      rewrite zlen_mqtt_string. lia. }
    apply Ho in Hu, Hp. autorewrite with zlen. change (zlen mqtt_name) with 6.
    destruct (cp_will c) as [[t w]|]; [|autorewrite with zlen; lia].
    destruct Hw as [(_ & _ & ?) (_ & _ & ?)]. autorewrite with zlen. lia. }
  { by eapply header_length. }
  rewrite Hdes. unfold deserialize_body. rewrite Htype.
  set (m := mqtt_packet CONNECT 0 bd ++ rest) in *. set (off := 1 + _) in *.
  unfold bd in Hat. rewrite <- !app_assoc in Hat.
  destruct (deserialize_connect_reads _ _ c rest Hc Hat) as (d & -> & Hd).
  by exists d.
Qed.

(** ** Topic lists *)

(** The entry [e] of the filled arrays is the topic [t] with QoS [q]. *)
Definition topic_reads (m : list Z) (e : topic_entry) (t : list Z) (q : option Z) : Prop :=
  topic_length e = zlen t ∧ slice m (topic_ptr e) (topic_length e) = t ∧ topic_qos e = q.

Lemma short_string_zlen s : short_string s → 0 ≤ zlen s < 256.
Proof. intros (_ & _ & ?). split; [apply zlen_nonneg|done]. Qed.

(** The window may end up to one byte before or after the last topic: an entry
    with its QoS byte has at least three bytes. *)
Lemma fill_topic_loop_qos m tqs : ∀ fuel max curr acc rest,
  Forall (λ tq, short_string tq.1 ∧ byte_range tq.2) tqs →
  at_off m curr (concat (mqtt_topic_qos <$> tqs) ++ rest) →
  (length acc + length tqs ≤ MAX_TOPICS)%nat → (length tqs < fuel)%nat →
  curr + zlen (concat (mqtt_topic_qos <$> tqs)) - 1 ≤ max ≤
    curr + zlen (concat (mqtt_topic_qos <$> tqs)) + 1 →
  ∃ es, fill_topic_loop fuel m true max curr acc = Ok (acc ++ es) ∧
    Forall2 (λ e tq, topic_reads m e tq.1 (Some tq.2)) es tqs.
Proof.
  induction tqs as [|[t q] tqs IH]; intros fuel max curr acc rest Htq Hat Hn Hf Hmax;
    (destruct fuel as [|fuel]; [lia|]).
  { exists []. rewrite app_nil_r. cbn [fill_topic_loop]. split; [|constructor].
    rewrite decide_False; [done|]. simpl in Hmax. rewrite zlen_nil in Hmax. lia. }
  apply Forall_cons in Htq as [[Ht Hq] Htq]. cbn [fst snd] in Ht, Hq.
  rewrite fmap_cons in Hat, Hmax. cbn [concat] in Hat, Hmax.
  change (mqtt_topic_qos (t, q)) with (mqtt_string t ++ [q]) in Hat, Hmax.
  rewrite <- !app_assoc in Hat. autorewrite with zlen in Hmax.
  pose proof (short_string_zlen t Ht) as Htl.
  pose proof (zlen_nonneg (concat (mqtt_topic_qos <$> tqs))).
  apply string_at in Hat as (Hs & Hsl & Hat); [|done].
  cbn [app] in Hat. apply at_off_cons in Hat as [Hr Hat].
  cbn [fill_topic_loop]. simpl in Hn, Hf. rewrite decide_True by lia.
  rewrite Hs, bind_ok, Hr. cbn [fmap outcome_fmap]. rewrite bind_ok. cbv zeta.
  edestruct (IH fuel max) as (es & -> & Hes); [done|exact Hat|rewrite length_app; simpl; lia|lia|lia|].
  eexists. rewrite <- app_assoc. split; [done|]. constructor; [|done].
  by split_and!.
Qed.

Lemma fill_topic_loop_no_qos m ts : ∀ fuel max curr acc rest,
  Forall (λ t, short_string t ∧ t ≠ []) ts →
  at_off m curr (concat (mqtt_string <$> ts) ++ rest) →
  (length acc + length ts ≤ MAX_TOPICS)%nat → (length ts < fuel)%nat →
  curr + zlen (concat (mqtt_string <$> ts)) - 1 ≤ max ≤
    curr + zlen (concat (mqtt_string <$> ts)) + 1 →
  ∃ es, fill_topic_loop fuel m false max curr acc = Ok (acc ++ es) ∧
    Forall2 (λ e t, topic_reads m e t None) es ts.
Proof.
  induction ts as [|t ts IH]; intros fuel max curr acc rest Htq Hat Hn Hf Hmax;
    (destruct fuel as [|fuel]; [lia|]).
  { exists []. rewrite app_nil_r. cbn [fill_topic_loop]. split; [|constructor].
    rewrite decide_False; [done|]. simpl in Hmax. rewrite zlen_nil in Hmax. lia. }
  apply Forall_cons in Htq as [[Ht Hne] Htq].
  rewrite fmap_cons in Hat, Hmax. cbn [concat] in Hat, Hmax.
  rewrite <- !app_assoc in Hat. autorewrite with zlen in Hmax.
  assert (1 ≤ zlen t) by (destruct t; [done|rewrite zlen_cons; pose proof (zlen_nonneg t); lia]).
  pose proof (zlen_nonneg (concat (mqtt_string <$> ts))).
  apply string_at in Hat as (Hs & Hsl & Hat); [|done].
  cbn [fill_topic_loop]. simpl in Hn, Hf. rewrite decide_True by lia.
  rewrite Hs, !bind_ok. cbv zeta.
  edestruct (IH fuel max) as (es & -> & Hes); [done|exact Hat|rewrite length_app; simpl; lia|lia|lia|].
  eexists. rewrite <- app_assoc. split; [done|]. constructor; [|done].
  by split_and!.
Qed.

Lemma fill_subresult_loop_reads m rs : ∀ fuel curr acc rest,
  Forall (λ r, 0 ≤ sub_qos r ≤ 2) rs →
  at_off m curr ((mqtt_result <$> rs) ++ rest) →
  (length acc + length rs ≤ MAX_TOPICS)%nat → (length rs < fuel)%nat →
  fill_subresult_loop fuel m (curr + zlen rs) curr acc =
    Ok (acc ++ ((λ r, {| sub_success := sub_success r;
                         sub_qos := if sub_success r then sub_qos r else 0 |}) <$> rs)).
Proof.
  induction rs as [|[ok q] rs IH]; intros fuel curr acc rest Hr Hat Hn Hf;
    (destruct fuel as [|fuel]; [lia|]).
  { cbn [fill_subresult_loop]. rewrite zlen_nil, decide_False by lia. simpl. by rewrite app_nil_r. }
  apply Forall_cons in Hr as [Hq Hr]. cbn [sub_qos] in Hq.
  cbn [fmap list_fmap app] in Hat |- *.
  apply at_off_cons in Hat as [Hb Hat]. rewrite zlen_cons in *.
  cbn [fill_subresult_loop]. simpl in Hn, Hf. pose proof (zlen_nonneg rs).
  rewrite decide_True by lia. rewrite Hb, bind_ok.
  replace (curr + (1 + zlen rs)) with (curr + 1 + zlen rs) by lia.
  rewrite IH with (rest := rest) by (done || rewrite ?length_app; simpl; lia).
  rewrite <- app_assoc. do 2 f_equal. cbn [app]. f_equal. cbn [sub_success sub_qos].
  assert (q = 0 ∨ q = 1 ∨ q = 2) as [-> | [-> | ->]] by lia; by destruct ok.
Qed.

(** The window the deserializer computes for a topic list ([total_size] minus
    the header's size) is off by the number of size bytes beyond the first. *)
Lemma topic_window size :
  2 ≤ size < 16384 →
  let k := zlen (size_bytes size) in
  u32 (size - (1 + k)) = size - 1 - k ∧ 1 ≤ k ≤ 2.
Proof.
  intros Hs k. unfold k. destruct (decide (size < 128)) as [Hl|Hl].
  - rewrite size_bytes_small by lia. change (zlen [size]) with 1.
    split; [|lia]. unfold u32. destruct (decide (size = 2)) as [->|]; [done|].
    rewrite Z.mod_small by lia. lia.
  - rewrite size_bytes_medium by lia. rewrite u32_small by lia. lia.
Qed.

Lemma zlen_concat_le {A} (f : A → list Z) (l : list A) k n :
  Forall (λ x, zlen (f x) ≤ k) l → (length l ≤ n)%nat → 0 ≤ k →
  zlen (concat (f <$> l)) ≤ Z.of_nat n * k.
Proof.
  intros Hl Hn Hk. assert (zlen (concat (f <$> l)) ≤ Z.of_nat (length l) * k); [|nia].
  clear Hn. induction Hl as [|x l Hx _ IH]; [done|].
  rewrite fmap_cons. cbn [concat length]. rewrite zlen_app. lia.
Qed.

Lemma deserialize_mqtt_subscribe packet_id tqs rest length :
  Forall (λ tq, short_string tq.1 ∧ byte_range tq.2) tqs → 0 ≤ packet_id < 256 →
  (List.length tqs ≤ MAX_TOPICS)%nat → zlen (mqtt_subscribe packet_id tqs) ≤ length →
  ∃ es, let m := mqtt_subscribe packet_id tqs ++ rest in
    deserialize_response m length =
      Ok (Some {| type := SUBSCRIBE; body := subscribe_data packet_id es |}) ∧
    Forall2 (λ e tq, topic_reads m e tq.1 (Some tq.2)) es tqs.
Proof.
  intros Ht Hp Hn Hl. unfold mqtt_subscribe in *. set (bd := mqtt_short packet_id ++ _) in *.
  assert (zlen (concat (mqtt_topic_qos <$> tqs)) ≤ Z.of_nat MAX_TOPICS * 258) as Hc.
  { apply zlen_concat_le; [|done|done]. eapply Forall_impl; [exact Ht|].
    intros [t q] [Hs%short_string_zlen _]. change (mqtt_topic_qos (t, q)) with (mqtt_string t ++ [q]).
    autorewrite with zlen. simpl in Hs. lia. }
  change (Z.of_nat MAX_TOPICS) with 32 in Hc. pose proof (zlen_nonneg (concat (mqtt_topic_qos <$> tqs))).
  assert (Hbd : zlen bd = 2 + zlen (concat (mqtt_topic_qos <$> tqs))) by (unfold bd; by autorewrite with zlen).
  destruct (deserialize_header SUBSCRIBE 2 bd rest length) as (Hat & Htype & Hdes);
    [lia|unfold size_limit; lia|by eapply header_length|].
  rewrite Hdes. unfold deserialize_body. rewrite Htype. clear Hdes Htype.
  destruct (topic_window (zlen bd)) as [-> Hk]; [lia|].
  set (m := mqtt_packet _ _ bd ++ rest) in *. set (k := zlen (size_bytes (zlen bd))) in *.
  unfold bd in Hat. rewrite <- app_assoc in Hat.
  apply short_at in Hat as [-> Hat]; [|done]. rewrite bind_ok. cbv zeta. unfold fill_topic_arrays.
  destruct (fill_topic_loop_qos m tqs fill_fuel (1 + k + 2 + (zlen bd - 1 - k)) (1 + k + 2) [] rest)
    as (es & -> & Hes); [done|done|simpl; lia|unfold fill_fuel; lia|lia|].
  by exists es.
Qed.

Lemma deserialize_mqtt_unsubscribe packet_id ts rest length :
  Forall (λ t, short_string t ∧ t ≠ []) ts → 0 ≤ packet_id < 256 →
  (List.length ts ≤ MAX_TOPICS)%nat → zlen (mqtt_unsubscribe packet_id ts) ≤ length →
  ∃ es, let m := mqtt_unsubscribe packet_id ts ++ rest in
    deserialize_response m length =
      Ok (Some {| type := UNSUBSCRIBE; body := unsubscribe_data packet_id es |}) ∧
    Forall2 (λ e t, topic_reads m e t None) es ts.
Proof.
  intros Ht Hp Hn Hl. unfold mqtt_unsubscribe in *. set (bd := mqtt_short packet_id ++ _) in *.
  assert (zlen (concat (mqtt_string <$> ts)) ≤ Z.of_nat MAX_TOPICS * 258) as Hc.
  { apply zlen_concat_le; [|done|done]. eapply Forall_impl; [exact Ht|].
    intros t [Hs%short_string_zlen _]. rewrite zlen_mqtt_string. lia. }
  change (Z.of_nat MAX_TOPICS) with 32 in Hc. pose proof (zlen_nonneg (concat (mqtt_string <$> ts))).
  assert (Hbd : zlen bd = 2 + zlen (concat (mqtt_string <$> ts))) by (unfold bd; by autorewrite with zlen).
  destruct (deserialize_header UNSUBSCRIBE 2 bd rest length) as (Hat & Htype & Hdes);
    [lia|unfold size_limit; lia|by eapply header_length|].
  rewrite Hdes. unfold deserialize_body. rewrite Htype. clear Hdes Htype.
  destruct (topic_window (zlen bd)) as [-> Hk]; [lia|].
  set (m := mqtt_packet _ _ bd ++ rest) in *. set (k := zlen (size_bytes (zlen bd))) in *.
  unfold bd in Hat. rewrite <- app_assoc in Hat.
  apply short_at in Hat as [-> Hat]; [|done]. rewrite bind_ok. cbv zeta. unfold fill_topic_arrays.
  destruct (fill_topic_loop_no_qos m ts fill_fuel (1 + k + 2 + (zlen bd - 1 - k)) (1 + k + 2) [] rest)
    as (es & -> & Hes); [done|done|simpl; lia|unfold fill_fuel; lia|lia|].
  by exists es.
Qed.

(** A result as the array filler reports it: the QoS of a refusal is the low
    bits of 0x80. *)
Definition normal_result (r : sub_result) : sub_result :=
  {| sub_success := sub_success r; sub_qos := if sub_success r then sub_qos r else 0 |}.

Lemma deserialize_mqtt_suback packet_id rs rest length :
  Forall (λ r, 0 ≤ sub_qos r ≤ 2) rs → 0 ≤ packet_id < 256 →
  (List.length rs ≤ MAX_TOPICS)%nat → 1 ≤ length →
  deserialize_response (mqtt_suback packet_id rs ++ rest) length =
    Ok (Some {| type := SUBACK; body := suback_data packet_id (normal_result <$> rs) |}).
Proof.
  intros Hr Hp Hn Hl. unfold mqtt_suback in *. set (bd := mqtt_short packet_id ++ _) in *.
  assert (Hbd : zlen bd = 2 + zlen rs)
    by (unfold bd; autorewrite with zlen; unfold zlen; by rewrite length_fmap).
  assert (0 ≤ zlen rs ≤ 32) by (unfold zlen, MAX_TOPICS in *; lia).
  assert (size_bytes (zlen bd) = [zlen bd]) as Hsb by (apply size_bytes_small; lia).
  destruct (deserialize_header SUBACK 0 bd rest length) as (Hat & Htype & Hdes);
    [lia|unfold size_limit; lia|by rewrite Hsb|].
  rewrite Hdes. unfold deserialize_body. rewrite Htype. clear Hdes Htype.
  rewrite Hsb in *. change (1 + zlen [zlen bd]) with 2 in *.
  set (m := mqtt_packet _ _ bd ++ rest) in *.
  unfold bd in Hat. rewrite <- app_assoc in Hat.
  apply short_at in Hat as [-> Hat]; [|done]. rewrite bind_ok. cbv zeta.
  unfold fill_subresult_arrays. rewrite Hbd, u32_small by lia.
  replace (2 + 2 + (2 + zlen rs - 2)) with (2 + 2 + zlen rs) by lia.
  by rewrite (fill_subresult_loop_reads m rs) with (rest := rest)
    by (done || unfold fill_fuel, MAX_TOPICS in *; simpl; lia).
Qed.
