(* ===== verification/Codec.v ===== *)
(** Codec: the serializers and the deserializer of [messages.c] together.  Round
    trips through a buffer, and what the deserializer does on arbitrary bytes. *)

From S2P Require Import Prelude Protocol Size Wire Serialize Deserialize.

#[local] Open Scope Z_scope.

(** * Round trips

    Each theorem runs a [make_..._message] into a buffer the packet fits in and
    gives the buffer and the returned length to [deserialize_response], the way
    the tests of the repository do. *)

Lemma writes_ok bs buffer n m :
  writes bs buffer = Ok (n, m) → n = zlen bs ∧ m = bs ++ drop (length bs) buffer ∧ zlen bs ≤ zlen buffer.
Proof. unfold writes. case_decide; [|done]. by intros [= <- <-]. Qed.

Lemma writes_fits bs buffer :
  zlen bs ≤ zlen buffer → writes bs buffer = Ok (zlen bs, bs ++ drop (length bs) buffer).
Proof. intros ?. unfold writes. by rewrite decide_True. Qed.

(** What the packet carries: the keep-alive is written without its high byte. *)
Definition carried (c : connect_params) : connect_params := {|
  cp_client_id := cp_client_id c; cp_user := cp_user c; cp_pw := cp_pw c;
  cp_keep_alive := cp_keep_alive c `mod` 256; cp_clean := cp_clean c;
  cp_will_qos := cp_will_qos c; cp_will_retain := cp_will_retain c; cp_will := cp_will c
|}.

Lemma make_connect_carried c buffer length : make_connect c buffer length = make_connect (carried c) buffer length.
Proof.
  rewrite !make_connect_writes. cbn [carried cp_client_id cp_user cp_pw cp_keep_alive cp_clean cp_will_qos cp_will_retain cp_will].
  change (cp_keep_alive c `mod` 256) with (u8 (cp_keep_alive c)). by rewrite (u8_small (u8 _)) by apply u8_range.
Qed.

(** C19. CONNECT round trip.  With strings of less than 256 characters and none of
    them NUL, every argument of [make_connect_message] comes back from
    [deserialize_response]: the flags, the client identifier, and the user,
    password and will where there are any.  The keep-alive comes back modulo 256:
    as it is below 256, and wrong above. *)
Theorem connect_roundtrip c buffer length n m :
  connect_ok (carried c) → make_connect c buffer length = Ok (n, m) →
  ∃ d, deserialize_response m n = Ok (Some {| type := CONNECT; body := connect_data d |}) ∧
       connect_reads m d (carried c).
Proof.
  intros Hc. rewrite make_connect_carried, make_connect_mqtt by done. intros (-> & -> & _)%writes_ok.
  by apply deserialize_mqtt_connect.
Qed.

(** The arguments of [test_connect_message_mixed_v3]: "foo", no user, password
    "mysecret", will "willtopic" / "willmsg" at QoS 2. *)
Definition connect_sample : connect_params := {|
  cp_client_id := [102; 111; 111];
  cp_user := None;
  cp_pw := Some [109; 121; 115; 101; 99; 114; 101; 116];
  cp_keep_alive := 30;
  cp_clean := false;
  cp_will_qos := 2;
  cp_will_retain := false;
  cp_will := Some ([119; 105; 108; 108; 116; 111; 112; 105; 99], [119; 105; 108; 108; 109; 115; 103])
|}.

#[export] Instance short_string_dec s : Decision (short_string s).
Proof. unfold short_string, bytes, nul_free. apply _. Defined.

Lemma connect_sample_ok : connect_ok connect_sample.
Proof.
  constructor; cbn; try (by apply (bool_decide_unpack _); vm_compute); try lia; try done.
Qed.

(** The same with a keep-alive of 286 seconds, which comes back as 30. *)
Definition connect_late : connect_params := {|
  cp_client_id := cp_client_id connect_sample; cp_user := cp_user connect_sample; cp_pw := cp_pw connect_sample;
  cp_keep_alive := 286; cp_clean := cp_clean connect_sample; cp_will_qos := cp_will_qos connect_sample;
  cp_will_retain := cp_will_retain connect_sample; cp_will := cp_will connect_sample
|}.

Lemma connect_roundtrip_witness :
  ∃ d, deserialize_response (mqtt_connect connect_sample ++ []) (zlen (mqtt_connect connect_sample)) =
         Ok (Some {| type := CONNECT; body := connect_data d |}) ∧
       connect_reads (mqtt_connect connect_sample ++ []) d connect_sample.
Proof.
  apply (connect_roundtrip connect_late (replicate 49 0) 49 _ _ connect_sample_ok).
  vm_compute. reflexivity.
Defined.

(** C20. PUBLISH round trip, at every QoS, for a topic of less than 256 characters,
    an identifier below 256 and any payload of less than 65536 characters, none of
    them NUL: topic, payload, QoS, retain flag and (from QoS 1 on) packet
    identifier come back; without one the identifier reads as 0. *)
Theorem publish_roundtrip buffer length topic packet_id qos retain msg n m :
  short_string topic → opt_message_ok msg → 0 ≤ packet_id < 256 → 0 ≤ qos ≤ 2 →
  make_publish_message buffer length topic packet_id qos retain msg = Ok (n, m) →
  ∃ d, deserialize_response m n = Ok (Some {| type := PUBLISH; body := publish_data d |}) ∧
       publish_reads m d topic packet_id qos retain (default [] msg).
Proof.
  intros Ht Hm Hp Hq. rewrite make_publish_mqtt by done. intros (-> & -> & _)%writes_ok.
  destruct (deserialize_mqtt_publish topic packet_id qos retain (default [] msg)
              (drop (List.length (mqtt_publish topic packet_id qos retain (default [] msg))) buffer)
              (zlen (mqtt_publish topic packet_id qos retain (default [] msg))))
    as (d & Hd & Hr & _); try done.
  - destruct msg as [msg|]; [apply Hm|done].
  - by exists d.
Qed.

Lemma publish_roundtrip_witness :
  ∃ d, deserialize_response [52; 12; 0; 3; 98; 111; 111; 0; 55; 104; 101; 108; 108; 111; 9] 14 =
         Ok (Some {| type := PUBLISH; body := publish_data d |}) ∧
       publish_reads [52; 12; 0; 3; 98; 111; 111; 0; 55; 104; 101; 108; 108; 111; 9] d
         [98; 111; 111] 55 2 false (default [] (Some [104; 101; 108; 108; 111])).
Proof.
  apply (publish_roundtrip (replicate 15 9) 15 [98; 111; 111] 55 2 false (Some [104; 101; 108; 108; 111])).
  - by apply (bool_decide_unpack _); vm_compute.
  - split; [repeat constructor; lia|by vm_compute].
  - lia.
  - lia.
  - vm_compute. reflexivity.
Defined.

(** SUBSCRIBE and UNSUBSCRIBE round trips for up to [MAX_TOPICS] topics:
    each topic comes back in order with its QoS, also where the size field
    takes two bytes and the deserializer's window ends one byte early.  An
    empty topic is excluded for UNSUBSCRIBE: the last one would be dropped. *)
Theorem subscribe_roundtrip buffer length packet_id tqs n m :
  Forall (λ tq, short_string tq.1 ∧ byte_range tq.2) tqs → 0 ≤ packet_id < 256 →
  (List.length tqs ≤ MAX_TOPICS)%nat →
  make_subscribe_message buffer length packet_id (zlen tqs) (fst <$> tqs) (snd <$> tqs) = Ok (n, m) →
  ∃ es, deserialize_response m n =
          Ok (Some {| type := SUBSCRIBE; body := subscribe_data packet_id es |}) ∧
        Forall2 (λ e tq, topic_reads m e tq.1 (Some tq.2)) es tqs.
Proof.
  intros Ht Hp Hn. rewrite make_subscribe_mqtt; [|done|done|].
  - intros (-> & -> & _)%writes_ok. by apply deserialize_mqtt_subscribe.
  - apply Z.le_lt_trans with (Z.of_nat MAX_TOPICS * 258); [|done].
    apply zlen_concat_le; [|done|done]. eapply Forall_impl; [exact Ht|].
    intros [t q] [Hs%short_string_zlen _]. change (mqtt_topic_qos (t, q)) with (mqtt_string t ++ [q]).
    autorewrite with zlen. simpl in Hs. lia.
Qed.

Lemma subscribe_roundtrip_witness :
  ∃ es, deserialize_response [130; 10; 0; 88; 0; 1; 97; 2; 0; 1; 98; 1] 12 =
          Ok (Some {| type := SUBSCRIBE; body := subscribe_data 88 es |}) ∧
        Forall2 (λ e tq, topic_reads [130; 10; 0; 88; 0; 1; 97; 2; 0; 1; 98; 1] e tq.1 (Some tq.2))
          es [([97], 2); ([98], 1)].
Proof.
  apply (subscribe_roundtrip (replicate 12 0) 12 88 [([97], 2); ([98], 1)]).
  - repeat constructor; by vm_compute.
  - lia.
  - vm_compute. lia.
  - vm_compute. reflexivity.
Defined.

Theorem unsubscribe_roundtrip buffer length packet_id ts n m :
  Forall (λ t, short_string t ∧ t ≠ []) ts → 0 ≤ packet_id < 256 →
  (List.length ts ≤ MAX_TOPICS)%nat →
  make_unsubscribe_message buffer length packet_id (zlen ts) ts = Ok (n, m) →
  ∃ es, deserialize_response m n =
          Ok (Some {| type := UNSUBSCRIBE; body := unsubscribe_data packet_id es |}) ∧
        Forall2 (λ e t, topic_reads m e t None) es ts.
Proof.
  intros Ht Hp Hn. rewrite make_unsubscribe_mqtt; [|by eapply Forall_impl; [exact Ht|intros ? []]|done|].
  - intros (-> & -> & _)%writes_ok. by apply deserialize_mqtt_unsubscribe.
  - apply Z.le_lt_trans with (Z.of_nat MAX_TOPICS * 257); [|done].
    apply zlen_concat_le; [|done|done]. eapply Forall_impl; [exact Ht|].
    intros t [Hs%short_string_zlen _]. rewrite zlen_mqtt_string. lia.
Qed.

(** SUBACK round trip for up to [MAX_TOPICS] results. *)
Theorem suback_roundtrip buffer length packet_id rs n m :
  Forall (λ r, 0 ≤ sub_qos r ≤ 2) rs → 0 ≤ packet_id < 256 → (List.length rs ≤ MAX_TOPICS)%nat →
  make_suback_message buffer length packet_id (zlen rs) (sub_success <$> rs) (sub_qos <$> rs) = Ok (n, m) →
  deserialize_response m n =
    Ok (Some {| type := SUBACK; body := suback_data packet_id (normal_result <$> rs) |}).
Proof.
  intros Hr Hp Hn. rewrite make_suback_mqtt; [|by eapply Forall_impl; [exact Hr|intros ?; unfold byte_range; lia]|done].
  intros (-> & -> & _)%writes_ok. apply deserialize_mqtt_suback; try done.
  unfold mqtt_suback, mqtt_packet. rewrite zlen_cons.
  match goal with |- 1 ≤ 1 + zlen ?l => pose proof (zlen_nonneg l); lia end.
Qed.

Lemma suback_roundtrip_witness :
  deserialize_response [144; 4; 0; 99; 2; 128] 6 =
    Ok (Some {| type := SUBACK;
                body := suback_data 99 (normal_result <$> [mk_sub_result true 2; mk_sub_result false 0]) |}).
Proof.
  apply (suback_roundtrip (replicate 6 0) 6 99 [mk_sub_result true 2; mk_sub_result false 0]).
  - repeat constructor; simpl; lia.
  - lia.
  - vm_compute. lia.
  - vm_compute. reflexivity.
Defined.

Lemma unsubscribe_roundtrip_witness :
  ∃ es, deserialize_response [162; 8; 0; 88; 0; 1; 97; 0; 1; 98] 10 =
          Ok (Some {| type := UNSUBSCRIBE; body := unsubscribe_data 88 es |}) ∧
        Forall2 (λ e t, topic_reads [162; 8; 0; 88; 0; 1; 97; 0; 1; 98] e t None) es [[97]; [98]].
Proof.
  apply (unsubscribe_roundtrip (replicate 10 0) 10 88 [[97]; [98]]).
  - repeat constructor; by vm_compute.
  - lia.
  - vm_compute. lia.
  - vm_compute. reflexivity.
Defined.

(** * The serializers write the protocol's packets *)

(** CONNECT.  [make_connect_message] writes the MQTT 3.1 packet of its
    arguments, flags, protocol name and level, keep-alive and the strings
    present in the protocol's order, from the start of the buffer; it returns
    the packet's size, leaves the rest of the buffer alone and writes past the
    end exactly when the packet does not fit, whatever [length] says.  Strings of
    at most 255 characters, keep-alive below 256. *)
Theorem connect_bytes c buffer length :
  connect_ok c →
  make_connect c buffer length =
    let p := mqtt_connect c in
    if decide (zlen p ≤ zlen buffer) then Ok (zlen p, p ++ drop (List.length p) buffer) else Fault OobWrite.
Proof. apply make_connect_mqtt. Qed.

Lemma connect_bytes_witness : make_connect connect_sample [] 1024 = Fault OobWrite.
Proof. apply (connect_bytes connect_sample [] 1024 connect_sample_ok). Defined.

(** C25. PUBLISH.  [make_publish_message] writes the MQTT 3.1 packet of its
    arguments, a null message as an empty payload and the packet identifier
    from QoS 1 on, with the same behaviour at the end of the buffer.  Topic of
    at most 255 characters, identifier below 256, message below 65536. *)
Theorem publish_bytes buffer length topic packet_id qos retain msg :
  short_string topic → opt_message_ok msg → 0 ≤ packet_id < 256 → 0 ≤ qos ≤ 2 →
  make_publish_message buffer length topic packet_id qos retain msg =
    let p := mqtt_publish topic packet_id qos retain (default [] msg) in
    if decide (zlen p ≤ zlen buffer) then Ok (zlen p, p ++ drop (List.length p) buffer) else Fault OobWrite.
Proof. apply make_publish_mqtt. Qed.

Lemma publish_bytes_witness :
  make_publish_message (replicate 9 9) 9 [97] 5 1 true (Some [98]) = Ok (8, [51; 6; 0; 1; 97; 0; 5; 98; 9]).
Proof.
  apply (publish_bytes (replicate 9 9) 9 [97] 5 1 true (Some [98])).
  - by apply (bool_decide_unpack _); vm_compute.
  - split; [repeat constructor; lia|by vm_compute].
  - lia.
  - lia.
Defined.

(** SUBSCRIBE, UNSUBSCRIBE and SUBACK.  The serializers of topic lists write
    one MQTT packet with every topic (and QoS, or result) of the arrays, in
    order, for bodies within sixteen bits. *)
Theorem topic_list_bytes buffer length packet_id tqs rs :
  Forall (λ tq, short_string tq.1 ∧ byte_range tq.2) tqs → 0 ≤ packet_id < 256 →
  zlen (concat (mqtt_topic_qos <$> tqs)) < 65536 → Forall (λ r, byte_range (sub_qos r)) rs →
  make_subscribe_message buffer length packet_id (zlen tqs) (fst <$> tqs) (snd <$> tqs) =
    writes (mqtt_subscribe packet_id tqs) buffer ∧
  make_unsubscribe_message buffer length packet_id (zlen tqs) (fst <$> tqs) =
    writes (mqtt_unsubscribe packet_id (fst <$> tqs)) buffer ∧
  make_suback_message buffer length packet_id (zlen rs) (sub_success <$> rs) (sub_qos <$> rs) =
    writes (mqtt_suback packet_id rs) buffer.
Proof.
  intros Ht Hp Hl Hr. split_and!; [by apply make_subscribe_mqtt| |by apply make_suback_mqtt].
  replace (zlen tqs) with (zlen (fst <$> tqs)) by (unfold zlen; by rewrite length_fmap).
  apply make_unsubscribe_mqtt; [|done|].
  - apply Forall_fmap. eapply Forall_impl; [exact Ht|]. by intros ? [? _].
  - eapply Z.le_lt_trans; [|exact Hl]. clear. induction tqs as [|[t q] tqs IH]; [done|].
    rewrite !fmap_cons. cbn [concat]. rewrite !zlen_app. unfold mqtt_topic_qos at 1. rewrite zlen_app.
    pose proof (zlen_nonneg [(t, q).2]). cbn [fst]. lia.
Qed.

Lemma topic_list_bytes_witness :
  make_subscribe_message (replicate 9 9) 9 3 1 [[97]] [2] = writes (mqtt_subscribe 3 [([97], 2)]) (replicate 9 9) ∧
  make_unsubscribe_message (replicate 9 9) 9 3 1 [[97]] = writes (mqtt_unsubscribe 3 [[97]]) (replicate 9 9) ∧
  make_suback_message (replicate 9 9) 9 3 1 [true] [2] = writes (mqtt_suback 3 [mk_sub_result true 2]) (replicate 9 9).
Proof.
  apply (topic_list_bytes (replicate 9 9) 9 3 [([97], 2)] [mk_sub_result true 2]).
  - repeat constructor; by vm_compute.
  - lia.
  - by vm_compute.
  - repeat constructor; simpl; lia.
Defined.

(** PUBACK, PUBREC, PUBREL (with the flags of a QoS 1 message), PUBCOMP and
    UNSUBACK round trip: each serializer writes the four bytes of its MQTT
    packet, and the deserializer reads the type and the identifier back. *)
Theorem ack_roundtrip buffer length packet_id :
  0 ≤ packet_id < 256 → 4 ≤ zlen buffer →
  Forall (λ '(t, flags, make),
    ∃ m, make buffer length packet_id = Ok (4, m) ∧ take 4 m = mqtt_ack t flags packet_id ∧
      deserialize_response m 4 = Ok (Some {| type := t; body := ack_body t packet_id |}))
    [(PUBACK, 0, make_puback_message); (PUBREC, 0, make_pubrec_message); (PUBREL, 2, make_pubrel_message);
     (PUBCOMP, 0, make_pubcomp_message); (UNSUBACK, 0, make_unsuback_message)].
Proof.
  intros Hp Hb. pose proof (make_acks_mqtt buffer length packet_id Hp) as (H1 & H2 & H3 & H4 & H5).
  repeat constructor; rewrite ?H1, ?H2, ?H3, ?H4, ?H5, writes_fits by done;
    (eexists; split_and!; [done|done|by apply deserialize_mqtt_ack]).
Qed.

Lemma ack_roundtrip_witness :
  Forall (λ '(t, flags, make),
    ∃ m, make (replicate 8 0) 8 200 = Ok (4, m) ∧ take 4 m = mqtt_ack t flags 200 ∧
      deserialize_response m 4 = Ok (Some {| type := t; body := ack_body t 200 |}))
    [(PUBACK, 0, make_puback_message); (PUBREC, 0, make_pubrec_message); (PUBREL, 2, make_pubrel_message);
     (PUBCOMP, 0, make_pubcomp_message); (UNSUBACK, 0, make_unsuback_message)].
Proof. apply (ack_roundtrip (replicate 8 0) 8 200); [lia|by vm_compute]. Defined.

(** * Arbitrary bytes *)

Lemma buf_read_fault m p f : buf_read m p = Fault f → f = OobRead.
Proof.
  unfold buf_read. case_decide; [|by intros [= <-]]. destruct (m !! _); [done|by intros [= <-]].
Qed.

Lemma short_from_buffer_fault m p f : short_from_buffer m p = Fault f → f = OobRead.
Proof.
  unfold short_from_buffer. destruct (buf_read m p) eqn:E0; [rewrite bind_ok|].
  - destruct (buf_read m (p + 1)) eqn:E1; [done|]. intros [= <-]. by eapply buf_read_fault.
  - intros [= <-]. by eapply buf_read_fault.
Qed.

(** The loops of the array fillers end before their fuel does, whatever the
    bytes: the only fault is a read outside the buffer, and at most
    [MAX_TOPICS] entries are stored. *)
Lemma fill_topic_loop_bounds m q max fuel : ∀ curr acc,
  (length acc ≤ MAX_TOPICS)%nat → (MAX_TOPICS < fuel + length acc)%nat →
  match fill_topic_loop fuel m q max curr acc with
  | Ok es => (length es ≤ MAX_TOPICS)%nat
  | Fault f => f = OobRead
  end.
Proof.
  induction fuel as [|fuel IH]; intros curr acc Ha Hf; [lia|].
  cbn [fill_topic_loop]. case_decide as Hc; [|done].
  destruct (short_from_buffer m curr) as [len|f] eqn:E; [rewrite bind_ok|by eapply short_from_buffer_fault].
  destruct q; [|rewrite bind_ok; apply IH; rewrite length_app; simpl; lia].
  destruct (buf_read m _) as [b|f] eqn:E'; [|by eapply buf_read_fault].
  cbn [fmap outcome_fmap]. rewrite bind_ok. apply IH; rewrite length_app; simpl; lia.
Qed.

(** [fill_topic_arrays] on any bytes, window and mode terminates (its loop
    never exhausts the fuel of [MAX_TOPICS + 1] iterations), never stores more
    than [MAX_TOPICS] entries, and its only fault is an out-of-bounds read. *)
Theorem fill_topic_arrays_bounds m buffer bytecount with_qos :
  match fill_topic_arrays m buffer bytecount with_qos with
  | Ok es => (length es ≤ MAX_TOPICS)%nat
  | Fault f => f = OobRead
  end.
Proof. apply fill_topic_loop_bounds; unfold fill_fuel, MAX_TOPICS; simpl; lia. Qed.

Lemma fill_subresult_loop_ok m max fuel : ∀ curr acc,
  bytes m → 0 ≤ curr → (length acc ≤ MAX_TOPICS)%nat → (MAX_TOPICS < fuel + length acc)%nat →
  curr + Z.of_nat (MAX_TOPICS - length acc) ≤ zlen m →
  ∃ rs, fill_subresult_loop fuel m max curr acc = Ok rs ∧ (length rs ≤ MAX_TOPICS)%nat.
Proof.
  induction fuel as [|fuel IH]; intros curr acc Hm Hc Ha Hf Hl; [lia|].
  cbn [fill_subresult_loop]. case_decide as Hd; [|by exists acc].
  destruct (buf_read_ok m curr) as [b ->]; [lia|]. rewrite bind_ok.
  apply IH; rewrite ?length_app; simpl; try done; lia.
Qed.

(** The message types a broker sends to a client. *)
Definition to_client (t : message_type_t) : bool :=
  match t with CONNECT | SUBSCRIBE | UNSUBSCRIBE => false | _ => true end.

(** The bytes of a buffer a response to a client can depend on. *)
Definition safe_size : Z := 264.

Definition response_in_bounds (m : list Z) (r : response_t) : Prop :=
  match body r with
  | publish_data d =>
      0 ≤ pub_qos d ≤ 3 ∧ 3 ≤ pub_topic d ∧ pub_topic d + pub_topic_size d ≤ pub_message d ∧
      pub_message d ≤ safe_size ∧ 0 ≤ pub_topic_size d < 256 ∧
      byte_range (pub_packet_id d) ∧ 0 ≤ pub_message_size d < 65536
  | suback_data p rs => byte_range p ∧ (length rs ≤ MAX_TOPICS)%nat
  | puback_data p | pubrec_data p | pubrel_data p | pubcomp_data p | unsuback_data p => byte_range p
  | connack_data t => byte_range t
  | _ => True
  end.

Lemma deserialize_publish_safe m first total_size offset :
  bytes m → byte_range first → safe_size ≤ zlen m → 1 ≤ offset ≤ 5 →
  ∃ d, deserialize_publish m first total_size offset = Ok d ∧
    response_in_bounds m {| type := PUBLISH; body := publish_data d |}.
Proof.
  intros Hm Hf Hl Ho. unfold safe_size, byte_range in *. unfold deserialize_publish.
  destruct (short_from_buffer_ok m offset) as (ts & Hts & Htr); [done|lia|lia|].
  rewrite Hts, bind_ok. unfold byte_range in Htr.
  set (qos := Z.land _ 3).
  assert (0 ≤ qos ≤ 3) as Hq.
  { unfold qos. pose proof (Z.land_ones (Z.shiftr first 1) 2 ltac:(lia)) as Hq.
    change (Z.ones 2) with 3 in Hq. rewrite Hq.
    pose proof (Z.mod_pos_bound (Z.shiftr first 1) (2 ^ 2) ltac:(lia)). lia. }
  pose proof (u16_range (total_size - (offset + 2 + ts - offset))).
  pose proof (u16_range (total_size - (offset + 2 + ts + 2 - offset))).
  case_decide.
  - destruct (short_from_buffer_ok m (offset + 2 + ts)) as (p & Hp & Hpr); [done|lia|lia|].
    rewrite Hp, !bind_ok. cbv beta iota zeta. eexists. split; [done|].
    unfold response_in_bounds, safe_size. simpl. unfold byte_range in *. split_and!; lia.
  - rewrite bind_ok. cbv beta iota zeta. eexists. split; [done|].
    unfold response_in_bounds, safe_size. simpl. unfold byte_range, no_packet_id. split_and!; lia.
Qed.

(** C36. Memory safety of the deserializer on hostile input: for every message
    type a broker sends to a client, and on any bytes whatever, 264 bytes of
    buffer are enough for [deserialize_response] to return without reading
    outside it (the client's buffers have 1024).  It either gives a null
    result or a response whose topic lies in the buffer, whose payload pointer
    does, and whose arrays hold at most [MAX_TOPICS] entries. *)
Theorem deserialize_response_safe m length first :
  bytes m → safe_size ≤ zlen m → length < zlen m → buf_read m 0 = Ok first →
  match message_type_of (UNPACK_MESSAGE_TYPE first) with
  | Some t => to_client t = true
  | None => True
  end →
  ∃ r, deserialize_response m length = Ok r ∧
    match r with Some r => response_in_bounds m r | None => True end.
Proof.
  intros Hm Hl Hlen Hr Ht. unfold deserialize_response. rewrite Hr, bind_ok.
  pose proof (buf_read_range _ _ _ Hm Hr) as Hfirst.
  destruct (decode_size_total m 1 length Hm) as (ok & size & used & Hdec & Hu & _ & Hsz); [lia|done|].
  rewrite Hdec, bind_ok. cbv beta iota.
  destruct ok, size as [total_size|]; try done; [|by exists None].
  set (off := 1 + used). unfold deserialize_body, safe_size in *.
  assert (Hshort : ∀ off', 0 ≤ off' ≤ 5 → ∃ b, short_from_buffer m off' = Ok b ∧ byte_range b)
    by (intros; apply short_from_buffer_ok; [done|lia|lia]).
  destruct (Hshort off) as (p & Hp & Hpr); [lia|].
  destruct (message_type_of _) as [[]|]; try done;
    try (rewrite Hp, ?bind_ok; eexists; split; [done|]; done);
    try (eexists; split; [done|]; done).
  - destruct (buf_read_ok m (off + 1)) as [b Hb]; [lia|]. rewrite Hb, bind_ok.
    eexists. split; [done|]. by apply (buf_read_range _ _ _ Hm Hb).
  - destruct (deserialize_publish_safe m first total_size off) as (d & -> & Hd);
      [done|done|done|lia|]. rewrite bind_ok. by eexists.
  - rewrite Hp, bind_ok. cbv zeta. unfold fill_subresult_arrays.
    destruct (fill_subresult_loop_ok m (off + 2 + u32 (total_size - off)) fill_fuel (off + 2) [])
      as (rs & -> & Hrs); [done|lia|simpl; lia|unfold fill_fuel, MAX_TOPICS; simpl; lia| |].
    + unfold MAX_TOPICS. simpl. lia.
    + rewrite bind_ok. by eexists.
Qed.

Lemma deserialize_response_safe_witness :
  ∃ r, deserialize_response (48 :: replicate 263 255) 200 = Ok r ∧
    match r with Some r => response_in_bounds (48 :: replicate 263 255) r | None => True end.
Proof.
  apply (deserialize_response_safe (48 :: replicate 263 255) 200 48).
  - constructor; [by split; vm_compute|]. apply Forall_replicate. split; lia.
  - by vm_compute.
  - by vm_compute.
  - by vm_compute.
  - by vm_compute.
Defined.

(** The same function on the types a client sends has no such bound: a
    SUBSCRIBE of a thousand bytes, in the client's 1024-byte buffer, makes the
    topic loop read outside it. *)
Theorem deserialize_subscribe_overread :
  deserialize_response ([130; 255; 127; 0; 1] ++ replicate 1019 255) 1000 = Fault OobRead.
Proof. vm_compute. reflexivity. Qed.

(** A PUBLISH whose topic length exceeds the packet's remaining length is
    accepted, and the payload size wraps around: a seven-byte packet yields a
    payload of 65535 bytes starting inside the 1024-byte buffer, that is, one
    that ends far outside it. *)
Theorem publish_size_wraps :
  ∃ d, deserialize_response ([48; 4; 0; 3; 97; 98; 99] ++ replicate 1017 1) 7 =
         Ok (Some {| type := PUBLISH; body := publish_data d |}) ∧
       pub_message_size d = 65535 ∧ 1024 < pub_message d + pub_message_size d.
Proof. eexists. split; [vm_compute; reflexivity|]. by vm_compute. Qed.

(** Reading a sixteen-bit field ignores its high byte: on a packet
    identifier of 256 or more, the one conforming encoding is read back as the
    identifier modulo 256. *)
Theorem short_from_buffer_truncates m off n suf :
  0 ≤ n < 65536 → at_off m off (mqtt_short n ++ suf) →
  short_from_buffer m off = Ok (n `mod` 256).
Proof.
  intros Hn Hat. unfold mqtt_short in Hat. cbn [app] in Hat.
  apply at_off_cons in Hat as [H0 Hat]. apply at_off_cons in Hat as [H1 _].
  apply (short_from_buffer_low _ _ _ _ H0 H1). apply (Z.mod_pos_bound n 256). lia.
Qed.

Lemma short_from_buffer_truncates_witness : short_from_buffer [7; 1; 44; 9] 1 = Ok (300 `mod` 256).
Proof.
  apply (short_from_buffer_truncates [7; 1; 44; 9] 1 300 [9]); [lia|].
  split; [by split; vm_compute|]. vm_compute. reflexivity.
Defined.

(** * Bytes after the packet

    What a reader gives on a buffer it gives on any longer one. *)
Definition below {A} (o o' : outcome A) : Prop := ∀ a, o = Ok a → o' = Ok a.

Lemma below_refl {A} (o : outcome A) : below o o.
Proof. by intros a. Qed.

Lemma below_bind {A B} (o o' : outcome A) (f g : A → outcome B) :
  below o o' → (∀ a, below (f a) (g a)) → below (o ≫= f) (o' ≫= g).
Proof. intros Ho Hf b. destruct o as [a|]; [|done]. rewrite (Ho a) by done. rewrite !bind_ok. apply Hf. Qed.

Lemma below_fmap {A B} (f : A → B) (o o' : outcome A) : below o o' → below (f <$> o) (f <$> o').
Proof. intros Ho b. destruct o as [a|]; [|done]. by rewrite (Ho a). Qed.

Lemma below_read m rest p : below (buf_read m p) (buf_read (m ++ rest) p).
Proof.
  intros b. unfold buf_read. case_decide as Hp; [|done]. rewrite decide_True by (rewrite zlen_app; pose proof (zlen_nonneg rest); lia).
  destruct (m !! Z.to_nat p) as [x|] eqn:Hx; [|done]. by rewrite (lookup_app_l_Some _ _ _ _ Hx).
Qed.

Create HintDb below.
#[export] Hint Resolve below_read : below.

(** Both sides alike. *)
Ltac below :=
  repeat match goal with
    | |- below ?o ?o => apply below_refl
    | |- below (_ ≫= _) (_ ≫= _) => apply below_bind; [|intros ?]
    | |- below (match ?x with _ => _ end) (match ?x with _ => _ end) => destruct x
    | |- below (?f <$> _) (?f <$> _) => apply below_fmap
    | |- below _ _ => solve [auto 2 with below nocore]
    end.

Lemma below_short m rest p : below (short_from_buffer m p) (short_from_buffer (m ++ rest) p).
Proof. unfold short_from_buffer. below. Qed.
#[export] Hint Resolve below_short : below.

Lemma below_field m rest p : below (string_field m p) (string_field (m ++ rest) p).
Proof. unfold string_field. below. Qed.
#[export] Hint Resolve below_field : below.

Lemma below_topics rest q max fuel m curr acc :
  below (fill_topic_loop fuel m q max curr acc) (fill_topic_loop fuel (m ++ rest) q max curr acc).
Proof. revert curr acc. induction fuel as [|fuel IH]; intros curr acc; cbn [fill_topic_loop]; below. Qed.

Lemma below_results rest max fuel m curr acc :
  below (fill_subresult_loop fuel m max curr acc) (fill_subresult_loop fuel (m ++ rest) max curr acc).
Proof. revert curr acc. induction fuel as [|fuel IH]; intros curr acc; cbn [fill_subresult_loop]; below. Qed.

Lemma below_decode rest e fuel m s : below (Decode.loop fuel m e s) (Decode.loop fuel (m ++ rest) e s).
Proof. revert s. induction fuel as [|fuel IH]; intros s; cbn [Decode.loop]; below. Qed.
#[export] Hint Resolve below_topics below_results below_decode : below.

Lemma below_connect m rest p : below (deserialize_connect m p) (deserialize_connect (m ++ rest) p).
Proof. unfold deserialize_connect. below. Qed.

Lemma below_publish m rest first n p : below (deserialize_publish m first n p) (deserialize_publish (m ++ rest) first n p).
Proof. unfold deserialize_publish. below. Qed.
#[export] Hint Resolve below_connect below_publish : below.

Lemma below_body m rest first n p : below (deserialize_body m first n p) (deserialize_body (m ++ rest) first n p).
Proof. unfold deserialize_body, fill_topic_arrays, fill_subresult_arrays. below. Qed.
#[export] Hint Resolve below_body : below.

Lemma below_response m rest n : below (deserialize_response m n) (deserialize_response (m ++ rest) n).
Proof. unfold deserialize_response, decode_size. below. Qed.
