(* ===== verification/Typed.v ===== *)
(** Typed: every response of the deserializer is well typed, whatever the bytes:
    the member of the union is the one its tag names, each integer is within
    the type of its member, and the optional fields of a CONNECT are set exactly
    where its flags say so. *)

From S2P Require Import Prelude Protocol Size Wire Serialize Deserialize Codec.

#[local] Open Scope Z_scope.

(** * The types *)

(** [uint16_t] *)
Definition word (v : Z) : Prop := 0 ≤ v < 65536.

(** A [QoS] as the code extracts it: two bits. *)
Definition two_bits (v : Z) : Prop := 0 ≤ v ≤ 3.

(** A field that follows the fixed header: its length and its address. *)
Definition field (size p : Z) : Prop := word size ∧ 2 ≤ p.

(** An optional field: set where [present], to a field. *)
Definition optional_field (present : bool) (size p : option Z) : Prop :=
  match size, p with
  | Some size, Some p => present = true ∧ field size p
  | None, None => present = false
  | _, _ => False
  end.

Definition connect_typed (d : connect_data_t) : Prop :=
  field (name_size d) (name d) ∧ byte_range (version d) ∧ two_bits (will_qos d) ∧ word (keep_alive d) ∧
  field (client_id_size d) (client_id d) ∧
  optional_field (has_will d) (will_topic_size d) (will_topic d) ∧
  optional_field (has_will d) (will_message_size d) (will_message d) ∧
  optional_field (has_user d) (user_size d) (user d) ∧
  optional_field (has_pw d) (pw_size d) (pw d).

Definition publish_typed (d : publish_data_t) : Prop :=
  two_bits (pub_qos d) ∧ field (pub_topic_size d) (pub_topic d) ∧ word (pub_packet_id d) ∧
  field (pub_message_size d) (pub_message d) ∧ pub_topic d + pub_topic_size d ≤ pub_message d.

Definition topic_typed (with_qos : bool) (e : topic_entry) : Prop :=
  field (topic_length e) (topic_ptr e) ∧
  match topic_qos e with Some q => with_qos = true ∧ byte_range q | None => with_qos = false end.

Definition array_typed {A} (P : A → Prop) (l : list A) : Prop := (length l ≤ MAX_TOPICS)%nat ∧ Forall P l.

(** The tag and the union. *)
Definition response_typed (r : response_t) : Prop :=
  match type r, body r with
  | CONNECT, connect_data d => connect_typed d
  | CONNACK, connack_data t => byte_range t
  | PUBLISH, publish_data d => publish_typed d
  | PUBACK, puback_data p | PUBREC, pubrec_data p | PUBREL, pubrel_data p | PUBCOMP, pubcomp_data p
  | UNSUBACK, unsuback_data p => word p
  | SUBSCRIBE, subscribe_data p topics => word p ∧ array_typed (topic_typed true) topics
  | UNSUBSCRIBE, unsubscribe_data p topics => word p ∧ array_typed (topic_typed false) topics
  | SUBACK, suback_data p results => word p ∧ array_typed (λ e, two_bits (sub_qos e)) results
  | (PINGREQ | PINGRESP | DISCONNECT), no_data => True
  | _, _ => False
  end.

(** * Reading typed values *)

Section typed.
Context (m : list Z) (Hm : bytes m).

Lemma short_word p v : short_from_buffer m p = Ok v → word v.
Proof using Type.
  unfold short_from_buffer. intros H. apply bind_ok_inv in H as (b0 & _ & H).
  apply bind_ok_inv in H as (b1 & _ & [= <-]). apply u16_range.
Qed.

Lemma read_byte p v : buf_read m p = Ok v → byte_range v.
Proof using Type*. by apply buf_read_range. Qed.

Lemma two_bits_land v : two_bits (Z.land v 3).
Proof using Type.
  pose proof (Z.land_ones v 2 ltac:(lia)) as H. change (Z.ones 2) with 3 in H. rewrite H.
  pose proof (Z.mod_pos_bound v (2 ^ 2) ltac:(lia)). unfold two_bits. lia.
Qed.

Lemma two_bits_will flags : byte_range flags → two_bits (FLAGS_UNPACK_WILL_QOS flags).
Proof using Type.
  intros Hf. unfold FLAGS_UNPACK_WILL_QOS, two_bits. rewrite Z.shiftr_land. change (Z.shiftr 24 3) with 3.
  apply two_bits_land.
Qed.

Lemma string_field_typed off size p off' :
  2 ≤ off + 2 → string_field m off = Ok (size, p, off') → field size p ∧ off ≤ off'.
Proof using Type.
  intros Ho H. unfold string_field in H. apply bind_ok_inv in H as (v & Hv & [= <- <- <-]).
  apply short_word in Hv. unfold field, word in *. lia.
Qed.

Lemma optional_one (present : bool) off size p off' :
  0 ≤ off →
  (if present then
     '(size, p, o) ← string_field m off; Ok (Some size, Some p, o)
   else Ok (None, None, off)) = Ok (size, p, off') →
  optional_field present size p ∧ off ≤ off'.
Proof using Type.
  intros Ho H. destruct present; [|by injection H as <- <- <-].
  apply bind_ok_inv in H as ([[sz q] o] & Hs & [= <- <- <-]).
  destruct (string_field_typed off sz q o ltac:(lia) Hs). by split.
Qed.

Lemma optional_two (present : bool) off s1 p1 s2 p2 off' :
  0 ≤ off →
  (if present then
     '(s1, p1, o) ← string_field m off;
     '(s2, p2, o) ← string_field m o;
     Ok (Some s1, Some p1, Some s2, Some p2, o)
   else Ok (None, None, None, None, off)) = Ok (s1, p1, s2, p2, off') →
  optional_field present s1 p1 ∧ optional_field present s2 p2 ∧ off ≤ off'.
Proof using Type.
  intros Ho H. destruct present; [|by injection H as <- <- <- <- <-].
  apply bind_ok_inv in H as ([[sz q] o] & Hs & H). destruct (string_field_typed off sz q o ltac:(lia) Hs) as [Hf Hle].
  apply bind_ok_inv in H as ([[sz' q'] o'] & Hs' & [= <- <- <- <- <-]).
  destruct (string_field_typed o sz' q' o' ltac:(lia) Hs') as [Hf' Hle']. split_and!; [by split..|lia].
Qed.

Lemma optional_last (present : bool) off size p :
  0 ≤ off →
  (if present then '(size, p, _) ← string_field m off; Ok (Some size, Some p) else Ok (None, None)) = Ok (size, p) →
  optional_field present size p.
Proof using Type.
  intros Ho H. destruct present; [|by injection H as <- <-].
  apply bind_ok_inv in H as ([[sz q] o] & Hs & [= <- <-]).
  destruct (string_field_typed off sz q o ltac:(lia) Hs). by split.
Qed.

Lemma deserialize_connect_typed off d :
  0 ≤ off → deserialize_connect m off = Ok d → connect_typed d.
Proof using Type*.
  intros Ho H. unfold deserialize_connect in H. cbv zeta in H.
  apply bind_ok_inv in H as (ns & Hns & H). apply short_word in Hns as Hns'.
  apply bind_ok_inv in H as (v & Hv & H). apply bind_ok_inv in H as (flags & Hfl & H).
  apply bind_ok_inv in H as (ka & Hka & H). apply bind_ok_inv in H as (cs & Hcs & H). apply short_word in Hcs as Hcs'.
  unfold word in Hns', Hcs'.
  apply bind_ok_inv in H as ([[[[ts t] ms] mg] o1] & Hw & H). apply optional_two in Hw as (Ht & Hmg & Ho1); [|lia].
  apply bind_ok_inv in H as ([[us u] o2] & Hu & H). apply optional_one in Hu as (Hus & Ho2); [|lia].
  apply bind_ok_inv in H as ([ps p] & Hp & [= <-]). apply optional_last in Hp; [|lia].
  refine (conj _ (conj _ (conj _ (conj _ (conj _ (conj _ (conj _ (conj _ _)))))))); cbn;
    [unfold field, word; lia|by eapply read_byte|apply two_bits_will; by eapply read_byte|by eapply short_word
    |unfold field, word; lia|done..].
Qed.

Lemma deserialize_publish_typed first total_size off d :
  0 ≤ off → deserialize_publish m first total_size off = Ok d → publish_typed d.
Proof using Type*.
  intros Ho H. unfold deserialize_publish in H. cbv zeta in H.
  apply bind_ok_inv in H as (ts & Hts & H). apply short_word in Hts. unfold word in Hts.
  apply bind_ok_inv in H as ([pid o] & Hpid & [= <-]).
  assert (word pid ∧ off + 2 + ts ≤ o) as [Hw Hle].
  { case_decide; [|injection Hpid as <- <-; unfold word, no_packet_id; lia].
    apply bind_ok_inv in Hpid as (p & Hp & [= <- <-]). apply short_word in Hp. by split; [|lia]. }
  refine (conj _ (conj _ (conj _ (conj _ _)))); cbn;
    [apply two_bits_land|unfold field, word; lia|done| |lia].
  split; [apply u16_range|lia].
Qed.

(** ** Arrays *)

Lemma fill_topic_loop_typed q max fuel : ∀ curr acc es,
  0 ≤ curr → array_typed (topic_typed q) acc → fill_topic_loop fuel m q max curr acc = Ok es →
  array_typed (topic_typed q) es.
Proof using Type*.
  induction fuel as [|fuel IH]; intros curr acc es Hc [Hl Ha] H; [done|]. cbn [fill_topic_loop] in H.
  case_decide as Hd; [|injection H as <-; by split]. cbv zeta in H.
  apply bind_ok_inv in H as (n & Hn & H). apply short_word in Hn. apply bind_ok_inv in H as (o & Ho & H).
  eapply IH; [|split|exact H].
  - unfold word in Hn. destruct q; lia.
  - rewrite length_app. simpl. lia.
  - apply Forall_app. split; [done|]. constructor; [|constructor]. split; [split; [done|cbn; lia]|]. cbn.
    destruct q; [|by injection Ho as <-]. destruct (buf_read m (curr + 2 + n)) as [b|] eqn:Hb; [|done].
    injection Ho as <-. split; [done|]. by eapply read_byte.
Qed.

Lemma fill_subresult_loop_typed max fuel : ∀ curr acc es,
  array_typed (λ e, two_bits (sub_qos e)) acc → fill_subresult_loop fuel m max curr acc = Ok es →
  array_typed (λ e, two_bits (sub_qos e)) es.
Proof using Type.
  induction fuel as [|fuel IH]; intros curr acc es [Hl Ha] H; [done|]. cbn [fill_subresult_loop] in H.
  case_decide as Hd; [|injection H as <-; by split].
  apply bind_ok_inv in H as (b & _ & H). eapply IH; [split|exact H].
  - rewrite length_app. simpl. lia.
  - apply Forall_app. split; [done|]. constructor; [|constructor]. apply two_bits_land.
Qed.

Lemma array_nil {A} (P : A → Prop) : array_typed P [].
Proof using Type. split; [|constructor]. unfold MAX_TOPICS. simpl. lia. Qed.

(** ** The switch *)

Lemma deserialize_body_typed first total_size off r :
  0 ≤ off → deserialize_body m first total_size off = Ok (Some r) → response_typed r.
Proof using Type*.
  intros Ho H. unfold deserialize_body in H. destruct (message_type_of _) as [[]|]; try done;
    try (apply bind_ok_inv in H as (d & Hd & H); cbv zeta in H);
    try (injection H as <-; cbn; try done; by eapply short_word).
  - injection H as <-. by eapply deserialize_connect_typed.
  - injection H as <-. by eapply read_byte.
  - injection H as <-. by eapply deserialize_publish_typed.
  - apply bind_ok_inv in H as (ts & Hts & [= <-]). split; [by eapply short_word|].
    eapply fill_topic_loop_typed; [|apply array_nil|exact Hts]. lia.
  - apply bind_ok_inv in H as (rs & Hrs & [= <-]). split; [by eapply short_word|].
    eapply fill_subresult_loop_typed; [apply array_nil|exact Hrs].
  - apply bind_ok_inv in H as (ts & Hts & [= <-]). split; [by eapply short_word|].
    eapply fill_topic_loop_typed; [|apply array_nil|exact Hts]. lia.
Qed.

End typed.

Lemma decode_loop_used fuel mem e : ∀ s s',
  0 ≤ Decode.used s → Decode.loop fuel mem e s = Ok s' → 0 ≤ Decode.used s'.
Proof.
  induction fuel as [|fuel IH]; intros s s' Hu H; [done|]. cbn [Decode.loop] in H.
  case_decide; [|by injection H as <-]. apply bind_ok_inv in H as (d & _ & H). cbv zeta in H.
  case_decide; [injection H as <-; apply u8_range|]. eapply IH; [|exact H]. apply u8_range.
Qed.

Lemma decode_size_used mem p e r size used : decode_size mem p e = Ok (r, size, used) → 0 ≤ used.
Proof.
  intros H. unfold decode_size in H. apply bind_ok_inv in H as (s & Hs & H).
  apply decode_loop_used in Hs; [|done]. by case_decide; injection H as _ _ <-.
Qed.

(** C17. Responses are well typed.  Whatever the bytes and the length given, a
    response of [deserialize_response] has the union member its tag names
    written, every integer within its C type (a quality of service within its
    two bits), at most [MAX_TOPICS] entries in an array, and of the optional
    fields of a CONNECT exactly those written that its flags announce. *)
Theorem deserialize_response_typed m length r :
  bytes m → deserialize_response m length = Ok (Some r) → response_typed r.
Proof.
  intros Hm H. unfold deserialize_response in H. apply bind_ok_inv in H as (first & _ & H).
  apply bind_ok_inv in H as ([[ok size] used] & Hsz & H). destruct ok, size as [total|]; try done.
  apply decode_size_used in Hsz. eapply deserialize_body_typed; [done| |exact H]. lia.
Qed.

(** A CONNECT with a user name and a password, and a will. *)
Definition connect_bytes_sample : list Z :=
  [16; 20; 0; 1; 97; 3; 198; 0; 30; 0; 1; 99; 0; 1; 117; 0; 1; 112; 0; 1; 120; 0; 1; 121].

Lemma deserialize_response_typed_witness :
  ∃ r, deserialize_response connect_bytes_sample 24 = Ok (Some r) ∧ response_typed r ∧ type r = CONNECT.
Proof.
  assert (H : ∃ r, deserialize_response connect_bytes_sample 24 = Ok (Some r) ∧ type r = CONNECT)
    by (eexists; split; [vm_compute; reflexivity|done]).
  destruct H as (r & Hr & Ht). exists r. split; [exact Hr|]. split; [|exact Ht].
  apply (deserialize_response_typed connect_bytes_sample 24 r); [|exact Hr]. repeat constructor; by vm_compute.
Defined.
