(* ===== verification/Server.v ===== *)
(** Server: the connection interface of [libsmqttcore/server.h] and
    [server.c], its implementation of [local_server.c], and the wrapper that
    records what passes through a connection. *)

From S2P Require Import Prelude Protocol.

#[local] Open Scope Z_scope.

(** * The interface

    A [server_t] is a table of functions and the implementation's data; [W] is
    that data together with the outside world the functions act on. *)
Record server_t (W : Type) := mk_server {
  srv_connect : list Z → Z → Z → W → outcome (smqtt_net_status_t * W);
  srv_send : list Z → Z → W → outcome (smqtt_net_status_t * W);
  srv_receive : list Z → Z → W → outcome (Z * list Z * W);
  srv_disconnect : W → outcome (smqtt_net_status_t * W)
}.
Arguments mk_server {W} _ _ _ _.
Arguments srv_connect {W} _ _ _ _ _.
Arguments srv_send {W} _ _ _ _.
Arguments srv_receive {W} _ _ _ _.
Arguments srv_disconnect {W} _ _.

(** The conversions to [uint16_t] are those of the calls. *)
Definition server_connect {W} (server : server_t W) (hostname : list Z) (port timeout_msec : Z)
    (w : W) : outcome (smqtt_net_status_t * W) :=
  srv_connect server hostname (u16 port) (u16 timeout_msec) w.

Definition server_send {W} (server : server_t W) (buffer : list Z) (length : Z) (w : W)
    : outcome (smqtt_net_status_t * W) :=
  srv_send server buffer length w.

(** Result: the value returned and the buffer's contents. *)
Definition server_receive {W} (server : server_t W) (buffer : list Z) (length : Z) (w : W)
    : outcome (Z * list Z * W) :=
  srv_receive server buffer length w.

Definition server_disconnect {W} (server : server_t W) (w : W)
    : outcome (smqtt_net_status_t * W) :=
  srv_disconnect server w.

(** * What a client may rely on

    [live w] is the state of a connection that was opened and has not failed.
    The buffer a client receives into must have room for [max_receive] bytes;
    no receive writes beyond them. *)
Definition max_receive : Z := 257.

Class ServerLaws {W} (server : server_t W) := {
  fresh : W → Prop;
  live : W → Prop;
  law_connect hostname port timeout w :
    fresh w →
    ∃ st w', server_connect server hostname port timeout w = Ok (st, w') ∧
      (st = SMQTT_NET_OK → live w');
  law_send buffer length w :
    live w → 2 ≤ length ≤ zlen buffer →
    ∃ st w', server_send server buffer length w = Ok (st, w') ∧ (st = SMQTT_NET_OK → live w');
  law_receive buffer length w :
    live w → bytes buffer → max_receive ≤ zlen buffer →
    ∃ sz buffer' w', server_receive server buffer length w = Ok (sz, buffer', w') ∧
      live w' ∧ 0 ≤ sz ≤ max_receive ∧ bytes buffer' ∧ zlen buffer' = zlen buffer ∧
      drop (Z.to_nat max_receive) buffer' = drop (Z.to_nat max_receive) buffer;
  law_disconnect w :
    live w → ∃ st w', server_disconnect server w = Ok (st, w')
}.

(** * Sessions

    What a client does with an open connection: it sends and receives.  The
    status of a send does not stop it, and neither does it stop a program that
    uses [smqttc.c]: the client stays marked as connected. *)
Inductive session_op :=
  | OpSend (buffer : list Z) (length : Z)
  | OpReceive.

Fixpoint session {W} (s : server_t W) (ops : list session_op) (buffer : list Z) (w : W)
    : outcome (list Z * W) :=
  match ops with
  | [] => Ok (buffer, w)
  | OpSend b n :: ops' => '(_, w) ← server_send s b n w; session s ops' buffer w
  | OpReceive :: ops' =>
      '(_, buffer, w) ← server_receive s buffer (zlen buffer) w;
      session s ops' buffer w
  end.

Definition op_ok (op : session_op) : Prop :=
  match op with OpSend b n => 2 ≤ n ≤ zlen b | OpReceive => True end.

(** A send that is reported as failed, after operations without a fault: [w1] is
    the connection before it and [w'] what it leaves. *)
Definition failed_send {W} (s : server_t W) (ops1 : list session_op) (b : list Z) (n : Z)
    (buffer : list Z) (w : W) (buffer' : list Z) (w1 w' : W) : Prop :=
  session s ops1 buffer w = Ok (buffer', w1) ∧
  ∃ st, server_send s b n w1 = Ok (st, w') ∧ st ≠ SMQTT_NET_OK.

(** Whatever keeps the interface's laws runs a session without a fault, up to and
    with the first send that is reported as failed. *)
Lemma session_cases {W} (s : server_t W) `{!ServerLaws s} ops : ∀ buffer w,
  live w → Forall op_ok ops → bytes buffer → max_receive ≤ zlen buffer →
  (∃ buffer' w', session s ops buffer w = Ok (buffer', w') ∧ live w') ∨
  ∃ ops1 b n ops2 buffer' w1 w', ops = ops1 ++ OpSend b n :: ops2 ∧ op_ok (OpSend b n) ∧ live w1 ∧
    failed_send s ops1 b n buffer w buffer' w1 w' ∧ session s ops buffer w = session s ops2 buffer' w'.
Proof.
  induction ops as [|[b n|] ops IH]; intros buffer w Hw Hops Hb Hl; [left; by do 2 eexists|..];
    apply Forall_cons in Hops as [Hop Hops]; cbn [session].
  - destruct (law_send b n w Hw Hop) as (st & w' & Hs & Hst). rewrite Hs, bind_ok.
    destruct (decide (st = SMQTT_NET_OK)) as [E|E].
    + destruct (IH buffer w' (Hst E) Hops Hb Hl) as [Hok|(ops1 & b' & n' & ops2 & m & w1 & w2 & -> & Hop' & Hw1 & [H1 H2] & H3)];
        [by left|right].
      exists (OpSend b n :: ops1), b', n', ops2, m, w1, w2. split_and!; try done.
      split; [|done]. cbn [session]. by rewrite Hs, bind_ok.
    + right. exists [], b, n, ops, buffer, w, w'. split_and!; try done. split; [done|]. by exists st.
  - destruct (law_receive buffer (zlen buffer) w Hw Hb Hl) as (sz & m & w' & Hs & Hw' & _ & Hm & Hml & _).
    rewrite Hs, bind_ok. cbv beta iota.
    destruct (IH m w' Hw' Hops Hm) as [Hok|(ops1 & b' & n' & ops2 & m' & w1 & w2 & -> & Hop' & Hw1 & [H1 H2] & H3)];
      [lia|by left|right].
    exists (OpReceive :: ops1), b', n', ops2, m', w1, w2. split_and!; try done.
    split; [|done]. cbn [session]. by rewrite Hs, bind_ok.
Qed.

(** * The local server

    Its functions return [SMQTT_OK], the integer 0, which is [SMQTT_NET_OK]. *)

Definition local_connect {W} (hostname : list Z) (port timeout_msec : Z) (w : W)
    : outcome (smqtt_net_status_t * W) := Ok (SMQTT_NET_OK, w).
Definition local_send {W} (buffer : list Z) (length : Z) (w : W)
    : outcome (smqtt_net_status_t * W) := Ok (SMQTT_NET_OK, w).
Definition local_receive {W} (buffer : list Z) (length : Z) (w : W)
    : outcome (Z * list Z * W) := Ok (0, buffer, w).
Definition local_disconnect {W} (w : W) : outcome (smqtt_net_status_t * W) := Ok (SMQTT_NET_OK, w).

Definition create_local_server {W} : server_t W :=
  mk_server local_connect local_send local_receive local_disconnect.

#[export] Program Instance local_server_laws {W} : ServerLaws (@create_local_server W) :=
  {| fresh _ := True; live _ := True |}.
Next Obligation. by do 2 eexists. Qed.
Next Obligation. by do 2 eexists. Qed.
Next Obligation. intros W buffer length w _ Hb Hl. do 3 eexists. unfold max_receive in *. by split_and!. Qed.
Next Obligation. by do 2 eexists. Qed.

(** * Recording a connection

    [logged s] behaves as [s] and keeps the list of what was sent and received. *)

Inductive event :=
  | Opened (hostname : list Z) (port : Z)
  | Sent (bs : list Z)
  | Received (sz : Z) (buffer : list Z)
  | Closed.

#[export] Instance event_eq_dec : EqDecision event.
Proof. solve_decision. Defined.

Definition logged {W} (s : server_t W) : server_t (W * list event) := {|
  srv_connect hostname port timeout w :=
    '(st, w') ← srv_connect s hostname port timeout w.1;
    Ok (st, (w', w.2 ++ [Opened hostname port]));
  srv_send buffer length w :=
    '(st, w') ← srv_send s buffer length w.1;
    Ok (st, (w', w.2 ++ [Sent (slice buffer 0 length)]));
  srv_receive buffer length w :=
    '(sz, buffer', w') ← srv_receive s buffer length w.1;
    Ok (sz, buffer', (w', w.2 ++ [Received sz buffer']));
  srv_disconnect w :=
    '(st, w') ← srv_disconnect s w.1;
    Ok (st, (w', w.2 ++ [Closed]))
|}.
