(* ===== verification/NetworkServer.v ===== *)
(** NetworkServer: the TCP implementation of the connection interface,
    [libsmqttcore/network_server.c].  The socket calls are the operating
    system's: an instance of [Os] gives them.  [OsLaws] and [Stream] state what
    POSIX promises of [recv] and [select]; what the code needs beyond that is named
    where it is used: [small_descriptor], and [WholeReads]. *)

From S2P Require Import Prelude Protocol Size Wire Server.

#[local] Open Scope Z_scope.

(** * The operating system *)

(** [OS] is the state of everything outside the process.  [os_recv] gives the
    bytes received, or [None] for an error (the C result -1); [os_select]
    returns its result and the set of readable descriptors. *)
Class Os (OS : Type) := {
  os_socket : OS → Z * OS;
  os_connect : Z → Z * Z * Z → OS → Z * OS;
  os_setsockopt : Z → Z * Z → OS → Z * OS;
  os_send : Z → list Z → OS → Z * OS;
  os_select : Z → list Z → Z * Z → OS → Z * list Z * OS;
  os_recv : Z → Z → OS → option (list Z) * OS;
  os_close : Z → OS → OS;
  htons : Z → Z;
  inet_addr : list Z → Z
}.

(** The capacity of an [fd_set]. *)
Definition FD_SETSIZE : Z := 1024.
Definition AF_INET : Z := 2.

(** [recv] gives at most the number of bytes asked for.  POSIX does not promise
    that a descriptor is below [FD_SETSIZE]: where a theorem needs that, it is a
    hypothesis on the call of [socket]. *)
Class OsLaws (OS : Type) `{Os OS} := {
  law_recv fd n o :
    0 ≤ n →
    match (os_recv fd n o).1 with Some bs => bytes bs ∧ zlen bs ≤ n | None => True end
}.

(** * State *)

(** A member not yet written holds what [malloc] left there: [None]. *)
Record server_impl_t := mk_impl {
  socket : option Z;
  socket_address : option (Z * Z * Z);
  read_fds : option (list Z)
}.

(** [server->impl], null once freed, and the operating system. *)
Record net_state (OS : Type) := mk_net { impl : option server_impl_t; os : OS }.
Arguments mk_net {OS} _ _.
Arguments impl {OS} _.
Arguments os {OS} _.

Section network.
Context {OS : Type} `{Os OS}.

Local Abbreviation net := (net_state OS).

Definition deref_impl (w : net) : outcome server_impl_t :=
  match impl w with Some i => Ok i | None => Fault NullDeref end.

Definition get_socket (i : server_impl_t) : outcome Z :=
  match socket i with Some fd => Ok fd | None => Fault Uninitialised end.

(** [free(impl); server->impl = NULL;] *)
Definition free_impl (w : net) : net := mk_net None (os w).

Definition SetSocketTimeout (connectSocket milliseconds : Z) (o : OS) : Z * OS :=
  let tv_sec := Z.quot milliseconds 1000 in
  let tv_usec := Z.rem milliseconds 1000 * 1000 in
  os_setsockopt connectSocket (tv_sec, tv_usec) o.

Definition network_connect (hostname : list Z) (port timeout_msec : Z) (w : net)
    : outcome (smqtt_net_status_t * net) :=
  i ← deref_impl w;
  let '(fd, o) := os_socket (os w) in
  let i := mk_impl (Some fd) (socket_address i) (read_fds i) in
  if decide (fd < 0) then Ok (SMQTT_NET_SOCKET, free_impl (mk_net (Some i) o)) else
  let addr := (AF_INET, htons port, inet_addr hostname) in
  let i := mk_impl (socket i) (Some addr) (read_fds i) in
  let '(r, o) := os_connect fd addr o in
  if decide (r < 0) then Ok (SMQTT_NET_SOCKET, free_impl (mk_net (Some i) o)) else
  let o := if decide (timeout_msec ≠ 0) then (SetSocketTimeout fd timeout_msec o).2 else o in
  Ok (SMQTT_NET_OK, mk_net (Some i) o).

(** The trace reads [buffer[i]] for [i] from [i] on, [n] times. *)
Fixpoint trace_bytes (buffer : list Z) (i : Z) (n : nat) : outcome unit :=
  match n with
  | O => Ok tt
  | S n' => _ ← buf_read buffer i; trace_bytes buffer (i + 1) n'
  end.

(** The bytes a library call reads at a pointer. *)
Definition read_bytes (buffer : list Z) (off n : Z) : outcome (list Z) :=
  if decide (fits buffer off n) then Ok (slice buffer off n) else Fault OobRead.

(** [send] returns a signed size, [length] is an unsigned one: the comparison
    converts the former. *)
Definition network_send (buffer : list Z) (length : Z) (w : net)
    : outcome (smqtt_net_status_t * net) :=
  i ← deref_impl w;
  fd ← get_socket i;
  _ ← buf_read buffer 0;
  _ ← buf_read buffer 1;
  _ ← trace_bytes buffer 2 (Z.to_nat (length - 2));
  bs ← read_bytes buffer 0 length;
  let '(r, o) := os_send fd bs (os w) in
  if decide (u64 r < length) then Ok (SMQTT_NET_SOCKET, free_impl (mk_net (Some i) o))
  else Ok (SMQTT_NET_OK, mk_net (Some i) o).

(** [recv(fd, buffer + off, n, 0)]: the caller must own all [n] bytes. *)
Definition recv (fd : Z) (buffer : list Z) (off n : Z) (o : OS) : outcome (Z * list Z * OS) :=
  if decide (fits buffer off n) then
    match os_recv fd n o with
    | (Some bs, o) => Ok (zlen bs, splice buffer off bs, o)
    | (None, o) => Ok (-1, buffer, o)
    end
  else Fault OobWrite.

(** [FD_SET(fd, fds)]: a bit array of [FD_SETSIZE] bits. *)
Definition FD_SET (fd : Z) (fds : list Z) : outcome (list Z) :=
  if decide (0 ≤ fd < FD_SETSIZE) then Ok (fd :: fds) else Fault OobWrite.

Definition network_receive (buffer : list Z) (length : Z) (w : net)
    : outcome (Z * list Z * net) :=
  i ← deref_impl w;
  fd ← get_socket i;
  fds ← FD_SET fd [];
  let '(ret, fds, o) := os_select (fd + 1) fds (0, 1000) (os w) in
  let i := mk_impl (socket i) (socket_address i) (Some fds) in
  if decide (ret < 0) then Ok (0, buffer, mk_net (Some i) o) else
  '(sz, buffer, o) ← recv fd buffer 0 2 o;
  if decide (sz < 0) then Ok (0, buffer, mk_net (Some i) o) else
  _ ← buf_read buffer 0;
  remaining ← buf_read buffer 1;
  let consumed := 2 in
  if decide (remaining > 0) then
    '(sz, buffer, o) ← recv fd buffer 2 remaining o;
    if decide (sz < 0) then Ok (0, buffer, mk_net (Some i) o) else
    let length := sz + consumed in
    _ ← trace_bytes buffer 2 (Z.to_nat (length - 2));
    Ok (length, buffer, mk_net (Some i) o)
  else Ok (consumed, buffer, mk_net (Some i) o).

Definition network_disconnect (w : net) : outcome (smqtt_net_status_t * net) :=
  i ← deref_impl w;
  fd ← get_socket i;
  Ok (SMQTT_NET_OK, free_impl (mk_net (Some i) (os_close fd (os w)))).

Definition create_network_server : server_t net :=
  mk_server network_connect network_send network_receive network_disconnect.

(** The implementation data [create_network_server] allocates. *)
Definition new_impl : server_impl_t := mk_impl None None None.

(** * The interface holds *)

(** Before [connect], with an operating system about to give a descriptor that
    fits in an [fd_set] (with the usual limit of 1024 files they all do). *)
Definition small_descriptor (o : OS) : Prop := (os_socket o).1 < FD_SETSIZE.
Definition net_fresh (w : net) : Prop := is_Some (impl w) ∧ small_descriptor (os w).
Definition net_live (w : net) : Prop :=
  ∃ i fd, impl w = Some i ∧ socket i = Some fd ∧ 0 ≤ fd < FD_SETSIZE.

Lemma net_live_deref w :
  net_live w → ∃ i fd, deref_impl w = Ok i ∧ socket i = Some fd ∧ get_socket i = Ok fd ∧ 0 ≤ fd < FD_SETSIZE.
Proof.
  intros (i & fd & Hi & Hs & Hfd). exists i, fd. unfold deref_impl, get_socket. by rewrite Hi, Hs.
Qed.

Lemma trace_bytes_ok buffer n : ∀ i,
  0 ≤ i → i + Z.of_nat n ≤ zlen buffer → trace_bytes buffer i n = Ok tt.
Proof.
  induction n as [|n IH]; intros i Hi Hn; [done|]. cbn [trace_bytes].
  destruct (buf_read_ok buffer i) as [b ->]; [lia|]. rewrite bind_ok. apply IH; lia.
Qed.

Context `{!OsLaws OS}.

(** [recv] inside the buffer: at most [n] bytes, the rest of the buffer kept. *)
Lemma recv_ok fd buffer off n o :
  bytes buffer → fits buffer off n → 0 ≤ n →
  ∃ sz buffer' o', recv fd buffer off n o = Ok (sz, buffer', o') ∧
    sz ≤ n ∧ bytes buffer' ∧ zlen buffer' = zlen buffer ∧
    (∀ k, off + n ≤ k → drop (Z.to_nat k) buffer' = drop (Z.to_nat k) buffer).
Proof using Type*.
  intros Hb Hf Hn. unfold recv. rewrite decide_True by done.
  pose proof (law_recv fd n o Hn) as Hl.
  destruct (os_recv fd n o) as [[bs|] o']; simpl in Hl; do 3 eexists; (split; [done|]).
  - destruct Hl. assert (fits buffer off (zlen bs)) by (unfold fits in *; lia).
    split_and!; [done|by apply splice_bytes|by apply zlen_splice|]. intros k ?. apply drop_splice; [done|lia].
  - split_and!; [lia|done..].
Qed.

Lemma network_connect_law hostname port timeout w :
  net_fresh w →
  ∃ st w', network_connect hostname port timeout w = Ok (st, w') ∧ (st = SMQTT_NET_OK → net_live w').
Proof using Type.
  intros [[i Hi] Hl]. unfold network_connect, deref_impl, small_descriptor in *. rewrite Hi, bind_ok.
  destruct (os_socket (os w)) as [fd o]. simpl in Hl.
  case_decide; [by do 2 eexists|].
  destruct (os_connect fd _ o) as [r o']. case_decide; [by do 2 eexists|].
  do 2 eexists. split; [done|]. intros _. do 2 eexists. split_and!; [done|done|lia|lia].
Qed.

(** A send answers [SMQTT_NET_SOCKET] exactly where it frees the implementation. *)
Lemma network_send_cases buffer length w :
  net_live w → 2 ≤ length ≤ zlen buffer →
  ∃ st w', network_send buffer length w = Ok (st, w') ∧
    (st = SMQTT_NET_OK → net_live w') ∧ (st ≠ SMQTT_NET_OK → impl w' = None).
Proof using Type.
  intros (i & fd & Hi & Hs & Hfd & ?)%net_live_deref Hl.
  unfold network_send. rewrite Hi, bind_ok, Hfd, bind_ok.
  destruct (buf_read_ok buffer 0) as [b0 ->]; [lia|]. rewrite bind_ok.
  destruct (buf_read_ok buffer 1) as [b1 ->]; [lia|]. rewrite bind_ok.
  rewrite trace_bytes_ok, bind_ok by lia.
  unfold read_bytes. rewrite decide_True, bind_ok by (unfold fits; lia).
  destruct (os_send fd _ _) as [r o]. case_decide; [by do 2 eexists|].
  do 2 eexists. split; [done|]. split; [|done]. intros _. by exists i, fd.
Qed.

Lemma network_send_law buffer length w :
  net_live w → 2 ≤ length ≤ zlen buffer →
  ∃ st w', network_send buffer length w = Ok (st, w') ∧ (st = SMQTT_NET_OK → net_live w').
Proof using Type.
  intros Hw Hl. destruct (network_send_cases buffer length w Hw Hl) as (st & w' & Hs & Hst & _). by exists st, w'.
Qed.

Lemma network_receive_law buffer length w :
  net_live w → bytes buffer → max_receive ≤ zlen buffer →
  ∃ sz buffer' w', network_receive buffer length w = Ok (sz, buffer', w') ∧
    net_live w' ∧ 0 ≤ sz ≤ max_receive ∧ bytes buffer' ∧ zlen buffer' = zlen buffer ∧
    drop (Z.to_nat max_receive) buffer' = drop (Z.to_nat max_receive) buffer.
Proof using Type*.
  intros (i & fd & Hi & Hs & Hfd & Hr)%net_live_deref Hb Hl. unfold max_receive in *.
  assert (Hlive : ∀ sa fds (o : OS), net_live (mk_net (Some (mk_impl (socket i) sa fds)) o))
    by (intros sa fds o; by exists (mk_impl (socket i) sa fds), fd).
  unfold network_receive, FD_SET. rewrite Hi, bind_ok, Hfd, bind_ok, decide_True, bind_ok by done.
  destruct (os_select _ _ _ _) as [[ret fds] o].
  destruct (decide (ret < 0)); [do 3 eexists; split; [done|]; split_and!; solve [done | lia | by apply Hd]|].
  destruct (recv_ok fd buffer 0 2 o) as (sz & m & o1 & -> & Hsz & Hm & Hml & Hd);
    [done|unfold fits; lia|lia|]. rewrite bind_ok. cbv beta iota.
  destruct (decide (sz < 0)); [do 3 eexists; split; [done|]; split_and!; solve [done | lia | by apply Hd]|].
  destruct (buf_read_ok m 0) as [b0 ->]; [lia|]. rewrite bind_ok.
  destruct (buf_read_ok m 1) as [b1 Hb1]; [lia|]. rewrite Hb1, bind_ok.
  apply buf_read_range in Hb1; [|done]. unfold byte_range in Hb1.
  destruct (decide (b1 > 0)); [|do 3 eexists; split; [done|]; split_and!; solve [done | lia | by apply Hd]].
  destruct (recv_ok fd m 2 b1 o1) as (sz' & m' & o2 & -> & Hsz' & Hm' & Hml' & Hd');
    [done|unfold fits; lia|lia|]. rewrite bind_ok. cbv beta iota.
  destruct (decide (sz' < 0)); [do 3 eexists; split; [done|]; split_and!; solve [done | lia | rewrite Hd'; [by apply Hd | lia]]|].
  rewrite trace_bytes_ok, bind_ok by lia.
  do 3 eexists. split; [done|]. split_and!; solve [done | lia | rewrite Hd'; [by apply Hd | lia]].
Qed.

Lemma network_disconnect_law w :
  net_live w → ∃ st w', network_disconnect w = Ok (st, w').
Proof using Type.
  intros (i & fd & Hi & Hs & Hfd & _)%net_live_deref. unfold network_disconnect.
  rewrite Hi, bind_ok, Hfd, bind_ok. by do 2 eexists.
Qed.

(** What [server.h] promises to a client, for the network server. *)
#[export] Instance network_server_laws : ServerLaws create_network_server.
Proof using Type*.
  refine {| fresh := net_fresh; live := net_live |}.
  - intros h p t w. apply network_connect_law.
  - exact network_send_law.
  - exact network_receive_law.
  - exact network_disconnect_law.
Defined.

(** A session over TCP: connect, the operations, disconnect. *)
Definition tcp_session (hostname : list Z) (port timeout_msec : Z) (ops : list session_op)
    (buffer : list Z) (o : OS) : outcome (smqtt_net_status_t * net) :=
  '(st, w) ← server_connect create_network_server hostname port timeout_msec (mk_net (Some new_impl) o);
  if decide (st = SMQTT_NET_OK) then
    '(_, w) ← session create_network_server ops buffer w;
    server_disconnect create_network_server w
  else Ok (st, w).

(** Without the implementation the first operation dereferences a null pointer;
    and if there is none, the disconnect does. *)
Lemma session_poisoned ops buffer (w : net) :
  impl w = None →
  ('(_, w) ← session create_network_server ops buffer w; server_disconnect create_network_server w) = Fault NullDeref.
Proof using Type.
  intros Hw. destruct ops as [|[b n|] ops]; cbn [session]; rewrite ?bind_ok;
    unfold server_disconnect, server_send, server_receive; cbn [srv_disconnect srv_send srv_receive create_network_server];
    unfold network_disconnect, network_send, network_receive, deref_impl; by rewrite Hw.
Qed.


(** ** What a receive does to the operating system *)

(** Nothing but [select] and [recv]. *)
Lemma network_receive_keeps (φ : OS → Prop) buffer length w sz buffer' w' :
  (∀ nfds fds tv o, φ o → φ (os_select nfds fds tv o).2) → (∀ fd n o, φ o → φ (os_recv fd n o).2) →
  network_receive buffer length w = Ok (sz, buffer', w') → φ (os w) → φ (os w').
Proof using Type.
  intros Hsel Hrecv Hx Hw.
  assert (Hr : ∀ fd b off n o sz b' o', recv fd b off n o = Ok (sz, b', o') → φ o → φ o').
  { intros fd b off n o z b' o' Hr Ho. unfold recv in Hr. case_decide; [|done]. specialize (Hrecv fd n o Ho).
    destruct (os_recv fd n o) as [[bs|] o1]; by injection Hr as _ _ <-. }
  unfold network_receive in Hx. apply bind_ok_inv in Hx as (i & _ & Hx). apply bind_ok_inv in Hx as (fd & _ & Hx).
  apply bind_ok_inv in Hx as (fds & _ & Hx). specialize (Hsel (fd + 1) fds (0, 1000) (os w) Hw).
  destruct (os_select _ _ _ _) as [[ret fds'] o]. cbn [snd] in Hsel.
  case_decide; [by injection Hx as _ _ <-|].
  apply bind_ok_inv in Hx as ([[sz1 b1] o1] & H1 & Hx). apply Hr in H1; [|done].
  case_decide; [by injection Hx as _ _ <-|].
  apply bind_ok_inv in Hx as (_ & _ & Hx). apply bind_ok_inv in Hx as (remaining & _ & Hx).
  case_decide; [|by injection Hx as _ _ <-].
  apply bind_ok_inv in Hx as ([[sz2 b2] o2] & Hx2 & Hx). apply Hr in Hx2; [|done].
  case_decide; [by injection Hx as _ _ <-|].
  apply bind_ok_inv in Hx as (_ & _ & Hx). by injection Hx as _ _ <-.
Qed.

(** ** What a send reports *)

Lemma network_send_outcomes buffer length w i fd r o :
  impl w = Some i → socket i = Some fd → 2 ≤ length ≤ zlen buffer → length < 2 ^ 63 →
  os_send fd (slice buffer 0 length) (os w) = (r, o) → -1 ≤ r ≤ length →
  network_send buffer length w =
    if decide (0 ≤ r < length) then Ok (SMQTT_NET_SOCKET, mk_net None o)
    else Ok (SMQTT_NET_OK, mk_net (Some i) o).
Proof using Type.
  intros Hi Hs Hl Hmax Hr Hrange. unfold network_send, deref_impl, get_socket. rewrite Hi, bind_ok, Hs, bind_ok.
  destruct (buf_read_ok buffer 0) as [b0 ->]; [lia|]. rewrite bind_ok.
  destruct (buf_read_ok buffer 1) as [b1 ->]; [lia|]. rewrite bind_ok.
  rewrite trace_bytes_ok, bind_ok by lia.
  unfold read_bytes. rewrite decide_True, bind_ok by (unfold fits; lia). rewrite Hr.
  assert (u64 r = if decide (r < 0) then 2 ^ 64 - 1 else r) as ->.
  { case_decide; [|apply u64_small; lia]. assert (r = -1) as -> by lia. done. }
  repeat case_decide; try done; lia.
Qed.

(** A send that writes part of the packet is reported, the implementation is
    freed, and every later call on the connection dereferences a null pointer. *)
Theorem network_partial_send_poisons buffer length w i fd r o :
  impl w = Some i → socket i = Some fd → 2 ≤ length ≤ zlen buffer → length < 2 ^ 63 →
  os_send fd (slice buffer 0 length) (os w) = (r, o) → 0 ≤ r < length →
  ∃ w', network_send buffer length w = Ok (SMQTT_NET_SOCKET, w') ∧
    (∀ b n, network_send b n w' = Fault NullDeref) ∧
    (∀ b n, network_receive b n w' = Fault NullDeref) ∧
    network_disconnect w' = Fault NullDeref.
Proof using Type.
  intros Hi Hs Hl Hmax Hr Hrange. exists (mk_net None o).
  rewrite (network_send_outcomes _ _ _ _ _ _ _ Hi Hs Hl Hmax Hr), decide_True by lia. by split_and!.
Qed.

(** A send that fails outright is not: [send] returns -1, the comparison with
    the unsigned length turns it into the largest [size_t], and the call
    answers [SMQTT_NET_OK] with the connection still in use. *)
Theorem network_send_error_unnoticed buffer length w i fd o :
  impl w = Some i → socket i = Some fd → 2 ≤ length ≤ zlen buffer → length < 2 ^ 63 →
  os_send fd (slice buffer 0 length) (os w) = (-1, o) →
  network_send buffer length w = Ok (SMQTT_NET_OK, mk_net (Some i) o).
Proof using Type.
  intros Hi Hs Hl Hmax Hr.
  rewrite (network_send_outcomes _ _ _ _ _ _ _ Hi Hs Hl Hmax Hr), decide_False by lia. done.
Qed.

(** ** Large descriptors *)

(** POSIX does not bound what [socket] returns.  A descriptor that does not fit in
    the [fd_set] of the implementation makes every receive write past its end. *)
Theorem network_receive_large_descriptor buffer length w i fd :
  impl w = Some i → socket i = Some fd → FD_SETSIZE ≤ fd → network_receive buffer length w = Fault OobWrite.
Proof using Type.
  intros Hi Hs Hfd. unfold network_receive, deref_impl, get_socket, FD_SET.
  by rewrite Hi, bind_ok, Hs, bind_ok, decide_False by lia.
Qed.

End network.

(** * The byte stream

    [pending o] is what the peer sends, up to the end of the stream, that the
    client has not received.  As POSIX has it, [recv] fails, or gives at most as
    many bytes as it is asked for: the next ones, and none only where none were
    asked for or the stream has ended. *)
Class Stream (OS : Type) `{Os OS} := {
  pending : OS → list Z;
  stream_select nfds fds tv o : pending (os_select nfds fds tv o).2 = pending o;
  stream_recv fd n o :
    0 ≤ n →
    match os_recv fd n o with
    | (Some bs, o') => pending o = bs ++ pending o' ∧ zlen bs ≤ n ∧ (bs = [] → n = 0 ∨ pending o = [])
    | (None, o') => pending o' = pending o
    end
}.

(** What POSIX does not promise, and the code relies on: no call fails, and a
    [recv] of [n] bytes gives [n] of them unless the stream ends before.  It is so
    where each packet is there, whole, when it is read. *)
Class WholeReads (OS : Type) `{Stream OS} := {
  whole_select nfds fds tv o : 0 ≤ (os_select nfds fds tv o).1.1;
  whole_recv fd n o : 0 ≤ n → (os_recv fd n o).1 = Some (take (Z.to_nat n) (pending o))
}.

Section stream.
Context {OS : Type} `{Os OS, !OsLaws OS, !Stream OS}.
Local Abbreviation net := (net_state OS).

(** ** Any read *)

(** One [recv]: an error, or the next bytes at their place. *)
Lemma recv_any fd buffer off n o :
  bytes buffer → fits buffer off n → 0 ≤ n →
  ∃ sz bs o', recv fd buffer off n o = Ok (sz, splice buffer off bs, o') ∧
    pending o = bs ++ pending o' ∧ bytes bs ∧ fits buffer off (zlen bs) ∧ zlen bs ≤ n ∧
    ((sz = -1 ∧ bs = []) ∨ (sz = zlen bs ∧ (bs = [] → n = 0 ∨ pending o = []))).
Proof using Type*.
  intros Hb Hf Hn. unfold recv. rewrite decide_True by done.
  pose proof (law_recv fd n o Hn) as Hl. pose proof (stream_recv fd n o Hn) as Hs.
  destruct (os_recv fd n o) as [[bs|] o']; cbn [fst] in Hl.
  - destruct Hs as (Hp & Hn' & Hend), Hl as [Hbs _]. exists (zlen bs), bs, o'. split_and!; try done.
    + unfold fits in *. lia.
    + by right.
  - exists (-1), [], o'. rewrite splice_nil. split_and!; try done.
    + constructor.
    + unfold fits in *. change (zlen []) with 0. lia.
    + by left.
Qed.

(** What one call takes from the stream.  Nothing is lost or received twice:
    [head], at most two bytes, goes to the start of the buffer, and [body], at
    most as many bytes as the buffer then says at position 1, behind it.  The
    value returned is 0 after an error, and else two more than the bytes of
    [body], however few were received: a header of which one byte came is
    completed by what the buffer held before, and a body that came in pieces is
    returned as if it were the packet. *)
Lemma network_receive_any_spec buffer length w :
  net_live w → bytes buffer → max_receive ≤ zlen buffer →
  ∃ sz head body remaining w',
    network_receive buffer length w = Ok (sz, splice (splice buffer 0 head) 2 body, w') ∧
    net_live w' ∧ pending (os w) = head ++ body ++ pending (os w') ∧
    zlen head ≤ 2 ∧ buf_read (splice buffer 0 head) 1 = Ok remaining ∧ zlen body ≤ remaining ∧
    ((sz = 0 ∧ body = []) ∨
     (sz = 2 + zlen body ∧ (head = [] → pending (os w) = []) ∧ (body = [] → remaining = 0 ∨ pending (os w') = []))).
Proof using Type*.
  intros (i & fd & Hi & Hs & Hfd & Hr)%net_live_deref Hb Hl. unfold max_receive in *.
  assert (Hlive : ∀ sa fds (o : OS), net_live (mk_net (Some (mk_impl (socket i) sa fds)) o))
    by (intros sa fds o; by exists (mk_impl (socket i) sa fds), fd).
  unfold network_receive, FD_SET. rewrite Hi, bind_ok, Hfd, bind_ok, decide_True, bind_ok by done.
  pose proof (stream_select (fd + 1) [fd] (0, 1000) (os w)) as Hp0.
  destruct (os_select _ _ _ _) as [[ret fds] o]. cbn [snd] in Hp0.
  destruct (buf_read_ok buffer 1) as [b1 Hb1]; [lia|].
  pose proof (buf_read_range _ _ _ Hb Hb1) as Hb1'. unfold byte_range in Hb1'.
  case_decide.
  { exists 0, [], [], b1, (mk_net (Some (mk_impl (socket i) (socket_address i) (Some fds))) o).
    rewrite !splice_nil. cbn [os]. split_and!; try done; [apply Hb1'|by left]. }
  destruct (recv_any fd buffer 0 2 o Hb) as (sz & head & o1 & Hrecv & Hp1 & Hbh & Hfh & Hlh & Hsz); [unfold fits; lia|done|].
  rewrite Hrecv, bind_ok. cbv beta iota.
  assert (Hbs : bytes (splice buffer 0 head)) by by apply splice_bytes.
  assert (Hls : zlen (splice buffer 0 head) = zlen buffer) by by apply zlen_splice.
  destruct (buf_read_ok (splice buffer 0 head) 1) as [rem Hrem]; [lia|].
  pose proof (buf_read_range _ _ _ Hbs Hrem) as Hrem'. unfold byte_range in Hrem'.
  destruct (decide (sz < 0)) as [Hneg|Hpos].
  { destruct Hsz as [[-> ->]|[-> _]]; [|pose proof (zlen_nonneg head); lia].
    exists 0, [], [], rem, (mk_net (Some (mk_impl (socket i) (socket_address i) (Some fds))) o1).
    rewrite !splice_nil in *. cbn [os]. split_and!; try done; [by rewrite <- Hp0, Hp1|apply Hrem'|by left]. }
  destruct Hsz as [[-> _]|[-> Hendh]]; [lia|].
  destruct (buf_read_ok (splice buffer 0 head) 0) as [b0 ->]; [lia|]. rewrite bind_ok, Hrem, bind_ok.
  case_decide as Hgt.
  - destruct (recv_any fd (splice buffer 0 head) 2 rem o1 Hbs) as (sz & body & o2 & Hrecv2 & Hp2 & Hbb & Hfb & Hlb & Hsz2);
      [unfold fits; lia|lia|]. rewrite Hrecv2, bind_ok. cbv beta iota.
    exists (if decide (sz < 0) then 0 else sz + 2), head, body, rem, (mk_net (Some (mk_impl (socket i) (socket_address i) (Some fds))) o2).
    pose proof (zlen_nonneg body). split.
    { case_decide; [done|]. destruct Hsz2 as [[-> _]|[-> _]]; [lia|].
      rewrite trace_bytes_ok, bind_ok; [done|lia|]. rewrite zlen_splice by done. lia. }
    cbn [os]. split_and!; try done; [by rewrite <- Hp0, Hp1, Hp2|].
    destruct Hsz2 as [[-> ->]|[-> Hend]]; [left; by split|right]. rewrite decide_False by lia. split; [lia|].
    split; [intros ->; destruct (Hendh eq_refl); [done|congruence]|].
    intros ->. destruct (Hend eq_refl) as [?|He]; [lia|]. right. by rewrite He in Hp2.
  - exists 2, head, [], rem, (mk_net (Some (mk_impl (socket i) (socket_address i) (Some fds))) o1).
    rewrite splice_nil. cbn [os]. split_and!; try done; [by rewrite <- Hp0, Hp1|apply Hrem'|].
    right. split_and!; [done|intros ->; destruct (Hendh eq_refl); [done|congruence]|intros _; left; lia].
Qed.


(** ** Whole reads *)

Context `{!WholeReads OS}.

Lemma recv_stream fd buffer off n o :
  fits buffer off n → 0 ≤ n →
  ∃ o', recv fd buffer off n o =
      Ok (zlen (take (Z.to_nat n) (pending o)), splice buffer off (take (Z.to_nat n) (pending o)), o') ∧
    pending o' = drop (Z.to_nat n) (pending o).
Proof using Type*.
  intros Hf Hn. unfold recv. rewrite decide_True by done.
  pose proof (whole_recv fd n o Hn) as Hr. pose proof (stream_recv fd n o Hn) as Hs.
  destruct (os_recv fd n o) as [r o']. cbn [fst] in Hr. subst r. eexists. split; [done|].
  destruct Hs as [Hp _]. rewrite <- (take_drop (Z.to_nat n) (pending o)) in Hp at 1. by apply app_inv_head in Hp.
Qed.

Lemma zlen_take {A} (l : list A) n : 0 ≤ n ≤ zlen l → zlen (take (Z.to_nat n) l) = n.
Proof. intros ?. unfold zlen in *. rewrite length_take. lia. Qed.

Lemma zlen_take_le {A} (l : list A) n : zlen (take n l) ≤ zlen l.
Proof. unfold zlen. rewrite length_take. lia. Qed.

(** One call on a stream of at least two bytes: the header, and as many bytes
    as the header's second one says. *)
Lemma network_receive_header buffer length w a b tail :
  net_live w → pending (os w) = a :: b :: tail → byte_range b → max_receive ≤ zlen buffer →
  ∃ w', network_receive buffer length w =
      Ok (2 + zlen (take (Z.to_nat b) tail), splice buffer 0 (a :: b :: take (Z.to_nat b) tail), w') ∧
    net_live w' ∧ pending (os w') = drop (Z.to_nat b) tail.
Proof using Type*.
  intros (i & fd & Hi & Hs & Hfd & Hr)%net_live_deref Hp [Hb Hb'] Hl. unfold max_receive in *.
  assert (Hlive : ∀ sa fds (o : OS), net_live (mk_net (Some (mk_impl (socket i) sa fds)) o))
    by (intros sa fds o; by exists (mk_impl (socket i) sa fds), fd).
  unfold network_receive, FD_SET. rewrite Hi, bind_ok, Hfd, bind_ok, decide_True, bind_ok by done.
  pose proof (stream_select (fd + 1) [fd] (0, 1000) (os w)) as Hp0.
  pose proof (whole_select (fd + 1) [fd] (0, 1000) (os w)) as Hret.
  destruct (os_select _ _ _ _) as [[ret fds] o]. simpl in Hret, Hp0.
  rewrite decide_False by lia.
  destruct (recv_stream fd buffer 0 2 o) as (o1 & -> & Hp1); [unfold fits; lia|done|].
  rewrite Hp0, Hp in *. rewrite bind_ok. change (Z.to_nat 2) with 2%nat in *. cbn [take drop] in *. rewrite take_0. rewrite drop_0 in Hp1.
  rewrite decide_False by (unfold zlen; simpl; lia).
  assert (Hat : at_off (splice buffer 0 [a; b]) 0 (a :: b :: drop 2 buffer)).
  { rewrite splice_0 by (unfold zlen in *; simpl; lia). apply at_off_0. }
  apply at_off_cons in Hat as [-> Hat]. apply at_off_cons in Hat as [Hb1 _]. change (0 + 1) with 1 in Hb1. rewrite Hb1. rewrite !bind_ok.
  assert (Hf : fits (splice buffer 0 [a; b]) 2 b).
  { apply fits_splice; unfold fits, zlen in *; simpl; lia. }
  case_decide as Hb0.
  - destruct (recv_stream fd (splice buffer 0 [a; b]) 2 b o1) as (o2 & -> & Hp2); [done|lia|].
    rewrite Hp1 in *. rewrite bind_ok. pose proof (zlen_nonneg (take (Z.to_nat b) tail)).
    assert (zlen (take (Z.to_nat b) tail) ≤ b) by (unfold zlen; rewrite length_take; lia).
    rewrite decide_False by lia. change 2 with (0 + zlen [a; b]) at 1.
    rewrite splice_splice by (unfold fits, zlen in *; simpl; lia). cbn [app].
    rewrite trace_bytes_ok, bind_ok by (rewrite ?zlen_splice; unfold fits in *; autorewrite with zlen; lia).
    eexists. rewrite Z.add_comm. by split_and!.
  - assert (b = 0) as -> by lia. eexists. by split_and!.
Qed.

(** ** Framing *)

(** A run of calls with one buffer: the packets returned, in order. *)
Fixpoint receive_n (n : nat) (buffer : list Z) (w : net) : outcome (list (list Z) * list Z * net) :=
  match n with
  | O => Ok ([], buffer, w)
  | S n' =>
      '(sz, buffer, w) ← network_receive buffer (zlen buffer) w;
      '(ps, buffer', w) ← receive_n n' buffer w;
      Ok (slice buffer 0 sz :: ps, buffer', w)
  end.

(** A packet: its type, flags and body. *)
Definition packet_bytes (p : message_type_t * Z * list Z) : list Z := mqtt_packet p.1.1 p.1.2 p.2.

Lemma packet_bytes_small p :
  zlen p.2 < 128 → packet_bytes p = (16 * message_type_val p.1.1 + p.1.2) :: zlen p.2 :: p.2.
Proof.
  intros ?. unfold packet_bytes, mqtt_packet. rewrite size_bytes_small; [done|].
  pose proof (zlen_nonneg p.2). lia.
Qed.

Lemma slice_splice_0 m bs : zlen bs ≤ zlen m → slice (splice m 0 bs) 0 (zlen bs) = bs.
Proof.
  intros ?. rewrite splice_0 by done. unfold slice, zlen. rewrite Nat2Z.id. change (Z.to_nat 0) with 0%nat. by rewrite drop_0, take_app_length.
Qed.

(** One packet with a one-byte size. *)
Lemma network_receive_packet buffer length w p rest :
  net_live w → zlen p.2 < 128 → pending (os w) = packet_bytes p ++ rest → max_receive ≤ zlen buffer →
  ∃ w', network_receive buffer length w =
      Ok (zlen (packet_bytes p), splice buffer 0 (packet_bytes p), w') ∧
    net_live w' ∧ pending (os w') = rest.
Proof using Type*.
  intros Hw Hs Hp Hl. rewrite packet_bytes_small in * by done. cbn [app] in Hp. pose proof (zlen_nonneg p.2).
  destruct (network_receive_header buffer length w _ _ _ Hw Hp) as (w' & Hr & Hw' & Hp');
    [unfold byte_range; lia|done|].
  unfold zlen in Hr, Hp' |- *. rewrite Nat2Z.id in Hr, Hp'.
  rewrite (take_app_length p.2 rest) in Hr. rewrite (drop_app_length p.2 rest) in Hp'.
  exists w'. split_and!; [|done|done]. rewrite Hr. simpl. do 3 f_equal. lia.
Qed.

Lemma receive_n_packets ps : ∀ buffer w rest,
  net_live w → Forall (λ p, zlen p.2 < 128) ps →
  pending (os w) = concat (packet_bytes <$> ps) ++ rest → max_receive ≤ zlen buffer →
  ∃ buffer' w', receive_n (length ps) buffer w = Ok (packet_bytes <$> ps, buffer', w') ∧
    net_live w' ∧ pending (os w') = rest.
Proof using Type*.
  induction ps as [|p ps IH]; intros buffer w rest Hw Hs Hp Hl; [by do 2 eexists|].
  apply Forall_cons in Hs as [Hs Hss]. simpl in Hp. rewrite <- app_assoc in Hp.
  destruct (network_receive_packet buffer (zlen buffer) w p _ Hw Hs Hp Hl) as (w' & Hr & Hw' & Hp').
  assert (Hb : zlen (packet_bytes p) ≤ zlen buffer).
  { rewrite packet_bytes_small by done. autorewrite with zlen. unfold max_receive in Hl. lia. }
  destruct (IH (splice buffer 0 (packet_bytes p)) w' rest) as (b & w'' & Hn & Hw'' & Hp''); [done..| |].
  { rewrite zlen_splice by (split; lia). done. }
  exists b, w''. split_and!; [|done|done]. cbn [length receive_n].
  rewrite Hr, bind_ok, Hn, bind_ok, slice_splice_0 by done. done.
Qed.

(** C26. Framing, where reads are whole.  If [recv] gives all the bytes it is asked
    for ([WholeReads], which POSIX does not promise: [network_receive_any_spec]
    tells what happens otherwise), then on an open connection whose descriptor fits in
    an [fd_set], with room for [max_receive] bytes and on a stream of packets of less than 128
    bytes of body [network_receive] returns them one per call, each whole and in
    order, and leaves what follows in the stream, whatever the buffer held
    before. *)
Theorem network_receive_frames ps buffer w rest :
  net_live w → Forall (λ p, zlen p.2 < 128) ps →
  pending (os w) = concat (packet_bytes <$> ps) ++ rest → max_receive ≤ zlen buffer →
  ∃ buffer' w', receive_n (length ps) buffer w = Ok (packet_bytes <$> ps, buffer', w') ∧
    net_live w' ∧ pending (os w') = rest.
Proof using Type*. intros. by apply receive_n_packets. Qed.

(** Framing is lost on larger packets, even with whole reads.  The size field of a packet with 128
    bytes of body or more takes two bytes and only the first is read: the call
    returns a proper prefix of the packet and the next one starts inside it. *)
Theorem network_receive_misframes p buffer length w rest :
  net_live w → 128 ≤ zlen p.2 < 16384 → pending (os w) = packet_bytes p ++ rest →
  max_receive ≤ zlen buffer →
  ∃ n w', 0 < n < zlen (packet_bytes p) ∧
    network_receive buffer length w =
      Ok (n, splice buffer 0 (take (Z.to_nat n) (packet_bytes p)), w') ∧
    pending (os w') = drop (Z.to_nat n) (packet_bytes p) ++ rest.
Proof using Type*.
  intros Hw Hs Hp Hl.
  pose proof (Z.mod_pos_bound (zlen p.2) 128 ltac:(lia)).
  pose proof (Z.div_mod (zlen p.2) 128 ltac:(lia)).
  assert (Hb : packet_bytes p = (16 * message_type_val p.1.1 + p.1.2) ::
                 (zlen p.2 `mod` 128 + 128) :: zlen p.2 `div` 128 :: p.2).
  { unfold packet_bytes, mqtt_packet. unfold size_bytes. cbn [digits].
    rewrite decide_False, decide_True by (try apply Z.div_lt_upper_bound; lia). done. }
  rewrite Hb in *. cbn [app] in Hp. destruct (network_receive_header buffer length w _ _ _ Hw Hp) as (w' & Hr & Hw' & Hp');
    [unfold byte_range; lia|done|].
  set (b := zlen p.2 `mod` 128 + 128) in *.
  assert (Hlen : (Z.to_nat b ≤ List.length ((zlen p.2 `div` 128)%Z :: p.2))%nat)
    by (unfold zlen in *; simpl; lia).
  change (zlen p.2 `div` 128 :: p.2 ++ rest) with ((zlen p.2 `div` 128 :: p.2) ++ rest) in Hr, Hp'.
  rewrite take_app_le in Hr by done. rewrite drop_app_le in Hp' by done.
  exists (2 + b), w'. replace (Z.to_nat (2 + b)) with (S (S (Z.to_nat b))) by lia. cbn [take drop].
  split_and!; [lia| | |by rewrite Hp'].
  - unfold zlen in *. cbn [List.length]. lia.
  - rewrite Hr. rewrite zlen_take; [done|]. unfold zlen in *. cbn [List.length]. lia.
Qed.

(** At the end of the stream: the second byte of the old contents is read as
    the size of a packet. *)
Lemma network_receive_eof_at buffer length w b1 :
  net_live w → pending (os w) = [] → buf_read buffer 1 = Ok b1 → byte_range b1 → max_receive ≤ zlen buffer →
  ∃ w', network_receive buffer length w = Ok (2, buffer, w') ∧ net_live w' ∧ pending (os w') = [].
Proof using Type*.
  intros (i & fd & Hi & Hs & Hfd & Hr)%net_live_deref Hp Hb1 Hb Hl. unfold max_receive, byte_range in *.
  unfold network_receive, FD_SET. rewrite Hi, bind_ok, Hfd, bind_ok, decide_True, bind_ok by done.
  pose proof (stream_select (fd + 1) [fd] (0, 1000) (os w)) as Hp0.
  pose proof (whole_select (fd + 1) [fd] (0, 1000) (os w)) as Hret.
  destruct (os_select _ _ _ _) as [[ret fds] o]. simpl in Hret, Hp0. rewrite decide_False by lia.
  destruct (recv_stream fd buffer 0 2 o) as (o1 & -> & Hp1); [unfold fits; lia|done|].
  rewrite Hp0, Hp in *. rewrite take_nil, drop_nil in *. rewrite bind_ok, splice_nil.
  rewrite decide_False by done.
  destruct (buf_read_ok buffer 0) as [b0 ->]; [lia|]. rewrite Hb1, !bind_ok.
  assert (Hlive : ∀ o, net_live (mk_net (Some (mk_impl (socket i) (socket_address i) (Some fds))) o : net))
    by (intros o'; by exists (mk_impl (socket i) (socket_address i) (Some fds)), fd).
  case_decide.
  - destruct (recv_stream fd buffer 2 b1 o1) as (o2 & -> & Hp2); [unfold fits; lia|lia|].
    rewrite Hp1, take_nil, drop_nil in *. rewrite bind_ok, splice_nil, decide_False by done.
    change (zlen [] + 2) with 2. rewrite trace_bytes_ok, bind_ok by lia. eexists. by split_and!.
  - eexists. by split_and!.
Qed.

Lemma network_receive_eof buffer length w :
  net_live w → pending (os w) = [] → bytes buffer → max_receive ≤ zlen buffer →
  ∃ w', network_receive buffer length w = Ok (2, buffer, w') ∧ net_live w' ∧ pending (os w') = [].
Proof using Type*.
  intros Hw Hp Hb Hl. destruct (buf_read_ok buffer 1) as [b1 Hb1]; [unfold max_receive in Hl; lia|].
  apply (network_receive_eof_at buffer length w b1); try done. by eapply buf_read_range.
Qed.

(** The end of the stream is never reported ([WholeReads] excludes errors): once the peer has closed the
    connection every call returns 2 and leaves the buffer as it was, with
    whatever message it held. *)
Theorem network_receive_end_of_stream buffer length w :
  net_live w → pending (os w) = [] → bytes buffer → max_receive ≤ zlen buffer →
  ∃ w', network_receive buffer length w = Ok (2, buffer, w') ∧ net_live w' ∧ pending (os w') = [].
Proof using Type*. apply network_receive_eof. Qed.

End stream.

(** * A concrete operating system

    One connection: [inbox] is what the peer sends, [outbox] what it got;
    [send] takes [send_limit] bytes at most and fails where that is negative. *)
Record tcp := mk_tcp { inbox : list Z; outbox : list Z; send_limit : Z }.

#[export] Instance tcp_os : Os tcp := {|
  os_socket o := (3, o);
  os_connect _ _ o := (0, o);
  os_setsockopt _ _ o := (0, o);
  os_send _ bs o :=
    if decide (send_limit o < 0) then (-1, o)
    else let n := Z.min (zlen bs) (send_limit o) in
         (n, mk_tcp (inbox o) (outbox o ++ slice bs 0 n) (send_limit o));
  os_select _ fds _ o := if decide (inbox o = []) then (0, [], o) else (zlen fds, fds, o);
  os_recv _ n o :=
    (Some (take (Z.to_nat n) (u8 <$> inbox o)), mk_tcp (drop (Z.to_nat n) (inbox o)) (outbox o) (send_limit o));
  os_close _ o := o;
  htons p := 256 * (p `mod` 256) + p `div` 256;
  inet_addr _ := 0x0100007f
|}.

Lemma fmap_u8_bytes l : bytes (u8 <$> l).
Proof. apply Forall_fmap, Forall_true. intros ?. apply u8_range. Qed.

#[export] Instance tcp_stream : Stream tcp.
Proof.
  refine {| pending o := u8 <$> inbox o |}.
  - intros ? fds ? o. simpl. by case_decide.
  - intros ? n o Hn. cbn [os_recv tcp_os inbox]. split_and!.
    + by rewrite fmap_drop, take_drop.
    + unfold zlen. rewrite length_take. lia.
    + intros Ht. destruct (u8 <$> inbox o); [by right|]. left. destruct (Z.to_nat n) eqn:E; [lia|done].
Defined.

#[export] Instance tcp_whole : WholeReads tcp.
Proof.
  constructor; [|done]. intros ? fds ? o. simpl. case_decide; simpl; [done|apply zlen_nonneg].
Qed.

#[export] Instance tcp_laws : OsLaws tcp.
Proof.
  constructor.
  - intros ? n o ?. simpl. split; [apply Forall_take, fmap_u8_bytes|].
    unfold zlen. rewrite length_take. lia.
Defined.

(** ** The theorems on concrete connections *)

(** A client with its socket open and [bs] on the way to it. *)
Definition connected_to (bs : list Z) (limit : Z) : net_state tcp :=
  mk_net (Some (mk_impl (Some 3) None None)) (mk_tcp bs [] limit).

Lemma connected_live bs limit : net_live (connected_to bs limit).
Proof. do 2 eexists. by split_and!. Qed.

(** The operating system that [recv]s one segment at a time, as TCP may deliver
    them, and takes whatever is sent. *)
Record segmented := mk_segmented { segments : list (list Z) }.

Fixpoint next_segment (n : nat) (ss : list (list Z)) : list Z * list (list Z) :=
  match ss with
  | [] => ([], [])
  | [] :: ss => next_segment n ss
  | s :: ss => (take n s, drop n s :: ss)
  end.

Lemma next_segment_spec n ss :
  List.concat ss = (next_segment n ss).1 ++ List.concat (next_segment n ss).2 ∧
  (length (next_segment n ss).1 ≤ n)%nat ∧ ((next_segment n ss).1 = [] → n = 0%nat ∨ List.concat ss = []).
Proof.
  induction ss as [|[|x s] ss IH]; [split_and!; [done|simpl; lia|by right]|exact IH|].
  cbn [next_segment fst snd List.concat]. split_and!.
  - by rewrite app_assoc, take_drop.
  - rewrite length_take. lia.
  - destruct n; [by left|done].
Qed.

#[export] Instance segmented_os : Os segmented := {|
  os_socket o := (3, o);
  os_connect _ _ o := (0, o);
  os_setsockopt _ _ o := (0, o);
  os_send _ bs o := (zlen bs, o);
  os_select _ fds _ o := (zlen fds, fds, o);
  os_recv _ n o := let r := next_segment (Z.to_nat n) (segments o) in (Some (u8 <$> r.1), mk_segmented r.2);
  os_close _ o := o;
  htons p := 256 * (p `mod` 256) + p `div` 256;
  inet_addr _ := 0x0100007f
|}.

#[export] Instance segmented_stream : Stream segmented.
Proof.
  refine {| pending o := u8 <$> List.concat (segments o) |}; [done|].
  intros ? n o Hn. cbn [os_recv segmented_os segments]. cbv zeta.
  destruct (next_segment_spec (Z.to_nat n) (segments o)) as (Hc & Hl & He). split_and!.
  - by rewrite <- fmap_app, <- Hc.
  - unfold zlen. rewrite length_fmap. lia.
  - intros Hn'. apply fmap_nil_inv in Hn'. destruct (He Hn') as [?|Hs]; [left; lia|right; by rewrite Hs].
Defined.

#[export] Instance segmented_laws : OsLaws segmented.
Proof.
  constructor. intros ? n o Hn. cbn [os_recv segmented_os fst].
  destruct (next_segment_spec (Z.to_nat n) (segments o)) as (_ & Hl & _). split; [apply fmap_u8_bytes|].
  unfold zlen. rewrite length_fmap. lia.
Qed.

Definition in_segments (ss : list (list Z)) : net_state segmented :=
  mk_net (Some (mk_impl (Some 3) None None)) (mk_segmented ss).

(** A CONNACK of which the last byte comes later, then a PINGRESP: two packets are
    returned, and neither is one of them. *)
Example short_read_loses_framing :
  match network_receive (replicate 300 7) 300 (in_segments [[32; 2; 0]; [0; 208; 0]]) with
  | Ok (sz, buffer, w) =>
      slice buffer 0 sz = [32; 2; 0] ∧
      match network_receive buffer 300 w with
      | Ok (sz, buffer, w) => slice buffer 0 sz = [0; 208; 0] ∧ pending (os w) = []
      | Fault _ => False
      end
  | Fault _ => False
  end.
Proof. by vm_compute. Qed.


Lemma network_receive_large_descriptor_witness :
  network_receive (replicate 300 7) 300 (mk_net (Some (mk_impl (Some 1024) None None)) (mk_segmented [])) = Fault OobWrite.
Proof.
  apply (network_receive_large_descriptor (replicate 300 7) 300 _ (mk_impl (Some 1024) None None) 1024); done.
Defined.


Lemma network_partial_send_poisons_witness :
  ∃ w', network_send [192; 0] 2 (connected_to [] 1) = Ok (SMQTT_NET_SOCKET, w') ∧
    (∀ b n, network_send b n w' = Fault NullDeref) ∧
    (∀ b n, network_receive b n w' = Fault NullDeref) ∧
    network_disconnect w' = Fault NullDeref.
Proof.
  apply (network_partial_send_poisons [192; 0] 2 (connected_to [] 1) (mk_impl (Some 3) None None) 3 1
           (mk_tcp [] [192] 1)); try done; lia.
Defined.

Lemma network_send_error_unnoticed_witness :
  network_send [192; 0] 2 (connected_to [] (-1)) = Ok (SMQTT_NET_OK, connected_to [] (-1)).
Proof.
  apply (network_send_error_unnoticed [192; 0] 2 (connected_to [] (-1)) (mk_impl (Some 3) None None) 3
           (mk_tcp [] [] (-1))); try done; lia.
Defined.

Lemma network_receive_frames_witness :
  ∃ buffer' w',
    receive_n 2 (replicate 300 7) (connected_to [32; 2; 0; 0; 208; 0; 48] 9) =
      Ok (packet_bytes <$> [(CONNACK, 0, [0; 0]); (PINGRESP, 0, [])], buffer', w') ∧
    net_live w' ∧ pending (os w') = [48].
Proof.
  apply (network_receive_frames [(CONNACK, 0, [0; 0]); (PINGRESP, 0, [])] (replicate 300 7)
           (connected_to [32; 2; 0; 0; 208; 0; 48] 9) [48] (connected_live _ _)).
  - repeat constructor; by vm_compute.
  - reflexivity.
  - by vm_compute.
Defined.

Lemma network_receive_misframes_witness :
  ∃ n w', 0 < n < zlen (packet_bytes (PUBLISH, 0, replicate 200 65)) ∧
    network_receive (replicate 300 7) 300 (connected_to (48 :: 200 :: 1 :: replicate 200 65) 9) =
      Ok (n, splice (replicate 300 7) 0 (take (Z.to_nat n) (packet_bytes (PUBLISH, 0, replicate 200 65))), w') ∧
    pending (os w') = drop (Z.to_nat n) (packet_bytes (PUBLISH, 0, replicate 200 65)) ++ [].
Proof.
  apply (network_receive_misframes (PUBLISH, 0, replicate 200 65) (replicate 300 7) 300
           (connected_to (48 :: 200 :: 1 :: replicate 200 65) 9) [] (connected_live _ _)).
  - by split; vm_compute.
  - vm_compute. reflexivity.
  - by vm_compute.
Defined.

Lemma network_receive_end_of_stream_witness :
  ∃ w', network_receive ([208; 0] ++ replicate 300 7) 302 (connected_to [] 9) =
      Ok (2, [208; 0] ++ replicate 300 7, w') ∧ net_live w' ∧ pending (os w') = [].
Proof.
  apply (network_receive_end_of_stream ([208; 0] ++ replicate 300 7) 302 (connected_to [] 9) (connected_live _ _)).
  - reflexivity.
  - apply bytes_app. split; [repeat constructor; lia|]. apply Forall_replicate. split; lia.
  - by vm_compute.
Defined.
