(* ===== verification/Client.v ===== *)
(** Client: the blocking client of [libsmqttclient/smqttc.c].  The server is
    any implementation of the connection interface; the two message buffers
    are the file's globals and keep their contents from call to call. *)

From S2P Require Import Prelude Protocol Size Wire Serialize Deserialize Server.

#[local] Open Scope Z_scope.

Definition BUFFER_SIZE : Z := 1024.
Definition MAX_XLIENT_ID_CHARS : Z := 24.
Definition MAX_HOSTNAME_CHARS : Z := 100.

(** * State *)

(** [server] is [None] where the member was never written. *)
Record smqtt_client (W : Type) := mk_client {
  hostname : list Z;
  clientid : list Z;
  port : Z;
  connected : bool;
  publish_packet_id : Z;
  subscribe_packet_id : Z;
  unsubscribe_packet_id : Z;
  server : option (server_t W)
}.
Arguments mk_client {W} _ _ _ _ _ _ _ _.
Arguments hostname {W} _. Arguments clientid {W} _. Arguments port {W} _.
Arguments connected {W} _. Arguments publish_packet_id {W} _.
Arguments subscribe_packet_id {W} _. Arguments unsubscribe_packet_id {W} _.
Arguments server {W} _.

(** The file's globals, the number of [response_t] blocks allocated and not
    yet freed, and the world the server acts on. *)
Record sys (W : Type) := mk_sys {
  send_buffer : list Z;
  receive_buffer : list Z;
  responses : Z;
  world : W
}.
Arguments mk_sys {W} _ _ _ _.
Arguments send_buffer {W} _. Arguments receive_buffer {W} _.
Arguments responses {W} _. Arguments world {W} _.

(** The state a program starts in: globals are zero. *)
Definition initial_sys {W} (w : W) : sys W := mk_sys (replicate 1024 0) (replicate 1024 0) 0 w.

(** Computations on that state, with the faults of [outcome]. *)
Definition M (W A : Type) : Type := sys W → outcome (A * sys W).

#[export] Instance M_ret {W} : MRet (M W) := λ A a s, Ok (a, s).
#[export] Instance M_bind {W} : MBind (M W) := λ A B f m s, '(a, s) ← m s; f a s.

Lemma M_bind_run {W A B} (m : M W A) (f : A → M W B) s :
  (m ≫= f) s = m s ≫= (λ '(a, s), f a s).
Proof. done. Qed.

(** Total correctness: from a state with [P], [m] returns without a fault, in a
    state with [Q]. *)
Definition triple {W A} (P : sys W → Prop) (m : M W A) (Q : A → sys W → Prop) : Prop :=
  ∀ s, P s → ∃ a s', m s = Ok (a, s') ∧ Q a s'.

Lemma triple_ret {W A} (P : sys W → Prop) (a : A) Q : (∀ s, P s → Q a s) → triple P (mret a) Q.
Proof. intros HQ s Hs. exists a, s. auto. Qed.

Lemma triple_bind {W A B} P (m : M W A) Q (f : A → M W B) R :
  triple P m Q → (∀ a, triple (Q a) (f a) R) → triple P (m ≫= f) R.
Proof.
  intros Hm Hf s Hs. destruct (Hm s Hs) as (a & s' & Hr & HQ). rewrite M_bind_run, Hr. by apply Hf.
Qed.

Lemma triple_pre {W A} (P P' : sys W → Prop) (m : M W A) Q :
  triple P' m Q → (∀ s, P s → P' s) → triple P m Q.
Proof. intros Hm HP s Hs. by apply Hm, HP. Qed.

Lemma triple_ret_bind {W A B} (a : A) (f : A → M W B) P Q : triple P (f a) Q → triple P (mret a ≫= f) Q.
Proof. intros Hf s Hs. destruct (Hf s Hs) as (b & s' & Hr & HQ). exists b, s'. by rewrite M_bind_run. Qed.

(** A fact about the result alone is moved out of the precondition. *)
Lemma triple_pure {W A} (φ : Prop) (P : sys W → Prop) (m : M W A) Q :
  (φ → triple P m Q) → triple (λ s, φ ∧ P s) m Q.
Proof. intros Hm s [Hφ Hs]. by apply Hm. Qed.

Lemma triple_if {W A} φ `{Decision φ} (P : sys W → Prop) (m m' : M W A) Q :
  (φ → triple P m Q) → (¬ φ → triple P m' Q) → triple P (if decide φ then m else m') Q.
Proof. intros ??. case_decide; auto. Qed.

Lemma triple_ifb {W A} (b : bool) (P : sys W → Prop) (m m' : M W A) Q :
  (b = true → triple P m Q) → (b = false → triple P m' Q) → triple P (if b then m else m') Q.
Proof. destruct b; auto. Qed.

Section client.
Context {W : Type}.
Local Abbreviation client := (smqtt_client W).

(** * Steps the operations share *)

Definition status_from_net (stat : smqtt_net_status_t) : smqtt_status_t :=
  match stat with SMQTT_NET_OK => SMQTT_OK | SMQTT_NET_SOCKET => SMQTT_SOCKET end.

Definition get_server (c : client) : outcome (server_t W) :=
  match server c with Some s => Ok s | None => Fault Uninitialised end.

(** [actual_len = make(send_buffer, BUFFER_SIZE, ...);
    stat = status_from_net(server_send(client->server, send_buffer, actual_len));] *)
Definition transmit (c : client) (make : list Z → Z → outcome (Z * list Z)) : M W smqtt_status_t :=
  λ s,
    '(actual_len, buf) ← make (send_buffer s) BUFFER_SIZE;
    srv ← get_server c;
    '(stat, w) ← server_send srv buf actual_len (world s);
    Ok (status_from_net stat, mk_sys buf (receive_buffer s) (responses s) w).

(** [sz = server_receive(client->server, receive_buffer, sizeof(receive_buffer));] *)
Definition await (c : client) : M W Z :=
  λ s,
    srv ← get_server c;
    '(sz, buf, w) ← server_receive srv (receive_buffer s) BUFFER_SIZE (world s);
    Ok (sz, mk_sys (send_buffer s) buf (responses s) w).

(** [resp = deserialize_response(receive_buffer, sz);] a null result has been
    freed, any other is the caller's to free. *)
Definition parse (sz : Z) : M W (option response_t) :=
  λ s,
    r ← deserialize_response (receive_buffer s) sz;
    Ok (r, match r with
           | Some _ => mk_sys (send_buffer s) (receive_buffer s) (responses s + 1) (world s)
           | None => s
           end).

(** [free(resp);] *)
Definition free_response : M W unit :=
  λ s, Ok (tt, mk_sys (send_buffer s) (receive_buffer s) (responses s - 1) (world s)).

(** [server_disconnect(client->server);] its result is not looked at. *)
Definition close_server (c : client) : M W unit :=
  λ s,
    srv ← get_server c;
    '(_, w) ← server_disconnect srv (world s);
    Ok (tt, mk_sys (send_buffer s) (receive_buffer s) (responses s) w).

(** [resp->type == t && resp->body.<...>.packet_id == id] *)
Definition is_reply (resp : response_t) (t : message_type_t) (id : Z) : bool :=
  bool_decide (type resp = t) && bool_decide (body_packet_id (body resp) = Some id).

(** * Operations *)

(** [*client] is left alone ([None]) or set, to null where [malloc] fails.
    [malloc] is null or a block whose members hold what was there: the
    argument of [Some] is what the [unsubscribe_packet_id] member holds, which
    nothing initialises. *)
Definition smqtt_connect_internal (network : server_t W) (malloc : option Z) (mode : server_mode_t)
    (server_ip : list Z) (port : Z) (client_id : list Z) (user pw : option (list Z))
    (keep_alive_sec : Z) (clean_session last_will_and_testament : bool) (will_qos : Z)
    (will_retain : bool) (will_topic will_message : option (list Z))
    : M W (smqtt_status_t * option (option client)) :=
  match malloc with
  | None => mret (SMQTT_OK, Some None)
  | Some junk =>
      let srv := match mode with REMOTE_SERVER => Some network | LOCAL_SERVER => None end in
      if decide (strlen client_id + 1 > MAX_XLIENT_ID_CHARS ∨ strlen server_ip + 1 > MAX_HOSTNAME_CHARS)
      then mret (SMQTT_OK, None) else
      let connection := mk_client (c_chars server_ip) (c_chars client_id) (u16 port) false 0 1 junk srv in
      stat ← (λ s, srv ← get_server connection;
                   '(st, w) ← server_connect srv (hostname connection) (Client.port connection) 30000 (world s);
                   Ok (status_from_net st, mk_sys (send_buffer s) (receive_buffer s) (responses s) w))
             : M W smqtt_status_t;
      if decide (stat ≠ SMQTT_OK) then mret (stat, None) else
      stat ← transmit connection (λ buffer length,
               make_connect_message buffer length (clientid connection) user pw keep_alive_sec
                 clean_session last_will_and_testament will_qos will_retain will_topic will_message);
      if decide (stat ≠ SMQTT_OK) then mret (stat, None) else
      sz ← await connection;
      if decide (sz > 0) then
        resp ← parse sz;
        match resp with
        | None => mret (SMQTT_raw 99, None)
        | Some resp =>
            let accept :=
              _ ← free_response;
              mret (SMQTT_OK, Some (Some (mk_client (hostname connection) (clientid connection)
                      (Client.port connection) true (publish_packet_id connection)
                      (subscribe_packet_id connection) (unsubscribe_packet_id connection)
                      (server connection)))) in
            match type resp, body resp with
            | CONNACK, connack_data t =>
                if decide (t ≠ Connection_Accepted) then
                  let status :=
                    if decide (t = Connection_Refused_unacceptable_protocol_version) then SMQTT_PROTOCOL
                    else if decide (t = Connection_Refused_identifier_rejected) then SMQTT_IDENTIFIER
                    else if decide (t = Connection_Refused_server_unavailable) then SMQTT_SERVER
                    else if decide (t = Connection_Refused_bad_username_or_password) then SMQTT_NOT_AUTHENTICATED
                    else if decide (t = Connection_Refused_not_authorized) then SMQTT_NOT_AUTHORIZED
                    else SMQTT_NOACK in
                  _ ← close_server connection;
                  _ ← free_response;
                  mret (status, None)
                else accept
            | _, _ => accept
            end
        end
      else
        _ ← close_server connection;
        mret (SMQTT_NOMESSAGE, None)
  end.

Definition smqtt_connect (network : server_t W) (malloc : option Z) :=
  smqtt_connect_internal network malloc REMOTE_SERVER.

Definition smqtt_ping (client : client) : M W smqtt_status_t :=
  if negb (connected client) then mret SMQTT_NOT_CONNECTED else
  stat ← transmit client make_pingreq_message;
  if decide (stat ≠ SMQTT_OK) then mret stat else
  sz ← await client;
  resp ← parse sz;
  match resp with
  | None => mret SMQTT_BAD_MESSAGE
  | Some resp =>
      if decide (type resp = PINGRESP) then _ ← free_response; mret SMQTT_OK
      else _ ← free_response; mret SMQTT_UNEXPECTED
  end.

Definition set_publish_id (c : client) (id : Z) : client :=
  mk_client (hostname c) (clientid c) (port c) (connected c) id (subscribe_packet_id c)
    (unsubscribe_packet_id c) (server c).
Definition set_subscribe_id (c : client) (id : Z) : client :=
  mk_client (hostname c) (clientid c) (port c) (connected c) (publish_packet_id c) id
    (unsubscribe_packet_id c) (server c).
Definition set_unsubscribe_id (c : client) (id : Z) : client :=
  mk_client (hostname c) (clientid c) (port c) (connected c) (publish_packet_id c)
    (subscribe_packet_id c) id (server c).

Definition smqtt_subscribe (client : client) (topic_count : Z) (topics : list (list Z)) (qoss : list Z)
    : M W (smqtt_status_t * smqtt_client W) :=
  if negb (connected client) then mret (SMQTT_NOT_CONNECTED, client) else
  let client := set_subscribe_id client (u16 (subscribe_packet_id client + 1)) in
  stat ← transmit client (λ buffer length,
           make_subscribe_message buffer length (subscribe_packet_id client) topic_count topics qoss);
  if decide (stat ≠ SMQTT_OK) then mret (SMQTT_raw (-1), client) else
  sz ← await client;
  resp ← parse sz;
  match resp with
  | None => mret (SMQTT_BAD_MESSAGE, client)
  | Some resp =>
      if is_reply resp SUBACK (subscribe_packet_id client)
      then _ ← free_response; mret (SMQTT_OK, client)
      else _ ← free_response; mret (SMQTT_UNEXPECTED, client)
  end.

Definition smqtt_unsubscribe (client : client) (topic_count : Z) (topics : list (list Z))
    : M W (smqtt_status_t * smqtt_client W) :=
  if negb (connected client) then mret (SMQTT_NOT_CONNECTED, client) else
  let client := set_unsubscribe_id client (u16 (unsubscribe_packet_id client + 1)) in
  stat ← transmit client (λ buffer length,
           make_unsubscribe_message buffer length (unsubscribe_packet_id client) topic_count topics);
  if decide (stat ≠ SMQTT_OK) then mret (stat, client) else
  sz ← await client;
  resp ← parse sz;
  match resp with
  | None => mret (SMQTT_BAD_MESSAGE, client)
  | Some resp =>
      if is_reply resp UNSUBACK (unsubscribe_packet_id client)
      then _ ← free_response; mret (SMQTT_OK, client)
      else _ ← free_response; mret (SMQTT_UNEXPECTED, client)
  end.

(** What the caller's three locations hold afterwards: [None] where the call
    does not write them.  [out_message] is the block allocated for the message. *)
Record received := mk_received {
  out_packet_id : option Z;
  out_message : option (list Z);
  out_message_size : option Z
}.

Definition nothing_received : received := mk_received None None None.

(** [*message = malloc(size); strncpy( *message, p, size);] with [p] an offset
    into the receive buffer. *)
Definition copy_message (p size : Z) : M W (list Z) :=
  λ s, bs ← strncpy_bytes (drop (Z.to_nat p) (receive_buffer s)) (Z.to_nat size); Ok (bs, s).

Definition smqtt_get_next_message (client : client) : M W (smqtt_status_t * received) :=
  sz ← await client;
  if decide (sz < 0) then mret (SMQTT_NOMESSAGE, nothing_received) else
  resp ← parse sz;
  match resp with
  | None => mret (SMQTT_BAD_MESSAGE, nothing_received)
  | Some resp =>
      match type resp, body resp with
      | PUBLISH, publish_data d =>
          message ← copy_message (pub_message d) (pub_message_size d);
          let out := mk_received (if decide (pub_packet_id d ≠ 0) then Some (pub_packet_id d) else None)
                       (Some message) (Some (pub_message_size d)) in
          if decide (pub_qos d = QoS0) then _ ← free_response; mret (SMQTT_OK, out)
          else if decide (pub_qos d = QoS1) then
            stat ← transmit client (λ buffer length, make_puback_message buffer length (pub_packet_id d));
            if decide (stat ≠ SMQTT_OK) then _ ← free_response; mret (stat, out)
            else mret (SMQTT_OK, out)
          else if decide (pub_qos d = QoS2) then
            let packet_id := pub_packet_id d in
            stat ← transmit client (λ buffer length, make_pubrec_message buffer length packet_id);
            if decide (stat ≠ SMQTT_OK) then _ ← free_response; mret (stat, out) else
            _ ← free_response;
            sz ← await client;
            resp ← parse sz;
            match resp with
            | None => mret (SMQTT_BAD_MESSAGE, out)
            | Some resp =>
                if is_reply resp PUBREL packet_id then
                  stat ← transmit client (λ buffer length, make_pubcomp_message buffer length packet_id);
                  if decide (stat ≠ SMQTT_OK) then _ ← free_response; mret (stat, out)
                  else _ ← free_response; mret (SMQTT_OK, out)
                else _ ← free_response; mret (SMQTT_UNEXPECTED, out)
            end
          else _ ← free_response; mret (SMQTT_OK, out)
      | _, _ => _ ← free_response; mret (SMQTT_UNEXPECTED, nothing_received)
      end
  end.

Definition smqtt_publish (client : client) (topic : list Z) (msg : option (list Z)) (qos : Z)
    (retain : bool) : M W (smqtt_status_t * smqtt_client W) :=
  if negb (connected client) then mret (SMQTT_NOT_CONNECTED, client) else
  if decide (qos > QoS2) then mret (SMQTT_INVALID, client) else
  if decide (qos = QoS0) then
    stat ← transmit client (λ buffer length,
             make_publish_message buffer length topic (publish_packet_id client) qos retain msg);
    if decide (stat ≠ SMQTT_OK) then mret (stat, client) else mret (SMQTT_OK, client)
  else
    let client := set_publish_id client (u16 (publish_packet_id client + 1)) in
    stat ← transmit client (λ buffer length,
             make_publish_message buffer length topic (publish_packet_id client) qos retain msg);
    if decide (stat ≠ SMQTT_OK) then mret (stat, client) else
    if decide (qos = QoS1) then
      sz ← await client;
      resp ← parse sz;
      match resp with
      | None => mret (SMQTT_BAD_MESSAGE, client)
      | Some resp =>
          if is_reply resp PUBACK (publish_packet_id client)
          then _ ← free_response; mret (SMQTT_OK, client)
          else _ ← free_response; mret (SMQTT_UNEXPECTED, client)
      end
    else
      sz ← await client;
      resp ← parse sz;
      match resp with
      | None => mret (SMQTT_raw (-1), client)
      | Some resp =>
          if is_reply resp PUBREC (publish_packet_id client) then
            _ ← free_response;
            stat ← transmit client (λ buffer length,
                     make_pubrel_message buffer length (publish_packet_id client));
            if decide (stat ≠ SMQTT_OK) then mret (stat, client) else
            sz ← await client;
            resp ← parse sz;
            match resp with
            | None => mret (SMQTT_BAD_MESSAGE, client)
            | Some resp =>
                if is_reply resp PUBCOMP (publish_packet_id client)
                then _ ← free_response; mret (SMQTT_OK, client)
                else _ ← free_response; mret (SMQTT_UNEXPECTED, client)
            end
          else _ ← free_response; mret (SMQTT_UNEXPECTED, client)
      end.

Definition smqtt_disconnect (client : client) : M W smqtt_status_t :=
  stat ← transmit client make_disconnect_message;
  _ ← close_server client;
  if decide (stat ≠ SMQTT_OK) then mret stat else mret SMQTT_OK.

Definition mqtt_drop (broker : client) : M W smqtt_status_t :=
  _ ← close_server broker;
  mret SMQTT_OK.

End client.
