(* ===== verification/ClientSafe.v ===== *)
(** ClientSafe: memory safety of the blocking client.  The receive buffer keeps
    zeros from offset [max_receive] on, because no receive writes there; that
    is what stops the deserializer's string walks and [strncpy] inside it. *)

From S2P Require Import Prelude Protocol Size Wire Serialize Deserialize Codec Server Client.

#[local] Open Scope Z_scope.

(** * Buffers with a quiet tail *)

Record quiet (m : list Z) : Prop := {
  quiet_bytes : bytes m;
  quiet_size : zlen m = BUFFER_SIZE;
  quiet_tail : drop (Z.to_nat max_receive) m = replicate 767 0
}.

Lemma quiet_zeros : quiet (replicate 1024 0).
Proof. split; [|done|by vm_compute]. apply Forall_replicate. split; lia. Qed.

Lemma quiet_read m p : quiet m → max_receive ≤ p < BUFFER_SIZE → buf_read m p = Ok 0.
Proof.
  intros [_ Hs Ht] Hp. unfold buf_read. rewrite decide_True by (unfold max_receive in Hp; lia).
  assert (m !! Z.to_nat p = Some 0) as ->; [|done].
  replace (Z.to_nat p) with (Z.to_nat max_receive + Z.to_nat (p - max_receive))%nat
    by (unfold max_receive in *; lia).
  rewrite <- lookup_drop, Ht. apply lookup_replicate_2. unfold max_receive, BUFFER_SIZE in *. lia.
Qed.

(** A length field and the position after the bytes it counts. *)
Lemma quiet_short m p :
  quiet m → 0 ≤ p → p + 2 ≤ BUFFER_SIZE →
  ∃ n, short_from_buffer m p = Ok n ∧ byte_range n ∧ p + 2 + n ≤ Z.max (p + 2) 513.
Proof.
  intros Hq Hp Hl. pose proof Hq as [Hb Hs _]. rewrite <- Hs in Hl.
  destruct (buf_read_ok m p) as [b0 Hr0]; [lia|].
  destruct (buf_read_ok m (p + 1)) as [b1 Hr1]; [lia|].
  pose proof (buf_read_range _ _ _ Hb Hr1) as Hr. exists b1.
  split; [by eapply short_from_buffer_low|]. split; [done|].
  destruct (decide (max_receive ≤ p + 1)) as [Hd|Hd].
  - rewrite quiet_read in Hr1 by (done || lia). injection Hr1 as <-. lia.
  - unfold max_receive in Hd. unfold byte_range in Hr. lia.
Qed.

Lemma quiet_byte m p : quiet m → 0 ≤ p < BUFFER_SIZE → ∃ b, buf_read m p = Ok b.
Proof. intros [_ Hs _] ?. apply buf_read_ok. lia. Qed.

(** The deserializer's string fields, one after the other. *)
Ltac quiet_step Hq :=
  match goal with
  | |- context [short_from_buffer ?m ?p] =>
      let n := fresh "n" in let Hn := fresh "Hn" in let Hr := fresh "Hr" in let Hb := fresh "Hb" in
      destruct (quiet_short m p Hq) as (n & Hn & Hr & Hb);
      [unfold byte_range, BUFFER_SIZE in *; lia..|];
      rewrite Hn, ?bind_ok; cbv beta iota zeta
  | |- context [buf_read ?m ?p] =>
      let b := fresh "b" in let Hn := fresh "Hn" in
      destruct (quiet_byte m p Hq) as [b Hn];
      [unfold byte_range, BUFFER_SIZE in *; lia|];
      rewrite Hn, ?bind_ok; cbv beta iota zeta
  end.

Lemma quiet_connect m offset :
  quiet m → 1 ≤ offset ≤ 5 → ∃ d, deserialize_connect m offset = Ok d.
Proof.
  intros Hq Ho. unfold deserialize_connect, string_field.
  do 5 quiet_step Hq.
  destruct (FLAGS_UNPACK_WILL_FLAG _), (FLAGS_UNPACK_USER _), (FLAGS_UNPACK_PW _);
    rewrite ?bind_ok; cbv beta iota; repeat quiet_step Hq; by eexists.
Qed.

Lemma quiet_topics m q max fuel : ∀ curr acc,
  quiet m → (length acc ≤ MAX_TOPICS)%nat → (MAX_TOPICS < fuel + length acc)%nat →
  0 ≤ curr ≤ 514 + 3 * zlen acc →
  ∃ es, fill_topic_loop fuel m q max curr acc = Ok es.
Proof.
  induction fuel as [|fuel IH]; intros curr acc Hq Ha Hf Hc; [lia|].
  cbn [fill_topic_loop]. case_decide as Hd; [|by eexists].
  assert (0 ≤ zlen acc < 32) by (unfold zlen, MAX_TOPICS in *; lia).
  quiet_step Hq. assert (Hn' : 0 ≤ n) by apply Hr.
  assert (Ha' : ∀ e, (length (acc ++ [e]) ≤ MAX_TOPICS)%nat ∧ (MAX_TOPICS < fuel + length (acc ++ [e]))%nat)
    by (intros e; rewrite length_app; simpl; unfold MAX_TOPICS in *; lia).
  destruct q.
  - destruct (quiet_byte m (curr + 2 + n) Hq) as [b ->]; [unfold BUFFER_SIZE; lia|].
    cbn [fmap outcome_fmap]. rewrite bind_ok. cbv zeta.
    apply IH; [done|apply Ha'|apply Ha'|]. autorewrite with zlen. lia.
  - rewrite bind_ok. apply IH; [done|apply Ha'|apply Ha'|]. autorewrite with zlen. lia.
Qed.

(** What the client may rely on in a response. *)
Definition response_ok (r : response_t) : Prop :=
  match body r with
  | publish_data d => 0 ≤ pub_message d ≤ safe_size ∧ byte_range (pub_packet_id d)
  | b => ∀ p, body_packet_id b = Some p → byte_range p
  end.

Lemma quiet_deserialize m length :
  quiet m → length < BUFFER_SIZE →
  ∃ r, deserialize_response m length = Ok r ∧ match r with Some r => response_ok r | None => True end.
Proof.
  intros Hq Hlen. pose proof Hq as [Hm Hs _]. unfold deserialize_response.
  destruct (quiet_byte m 0 Hq) as [first Hr]; [unfold BUFFER_SIZE; lia|]. rewrite Hr, bind_ok.
  pose proof (buf_read_range _ _ _ Hm Hr) as Hfirst.
  destruct (decode_size_total m 1 length Hm) as (ok & size & used & Hdec & Hu & _ & Hsz); [lia|lia|].
  rewrite Hdec, bind_ok. cbv beta iota.
  destruct ok, size as [total_size|]; try done; [|by exists None].
  set (off := 1 + used). unfold deserialize_body.
  assert (Ho : 1 ≤ off ≤ 5) by lia.
  assert (Hsimple : ∀ (t : message_type_t) (mk : Z → response_body),
    (∀ p, byte_range p → response_ok {| type := t; body := mk p |}) →
    ∃ r, (p ← short_from_buffer m off; Ok (Some {| type := t; body := mk p |})) = Ok r ∧
         match r with Some r => response_ok r | None => True end).
  { intros t mk Hmk. destruct (quiet_short m off Hq) as (p & -> & Hp & _); [unfold BUFFER_SIZE; lia..|].
    rewrite bind_ok. eexists. split; [done|]. by apply Hmk. }
  assert (Htopics : ∀ q size, ∃ es, fill_topic_arrays m (off + 2) size q = Ok es).
  { intros q size. apply quiet_topics; [done|simpl; lia|unfold fill_fuel, MAX_TOPICS; simpl; lia|].
    change (zlen (@nil topic_entry)) with 0. lia. }
  destruct (message_type_of _) as [[]|]; try (by eexists);
    try (apply Hsimple; intros p Hp p' Hp'; simpl in Hp'; congruence).
  - destruct (quiet_connect m off Hq Ho) as [d ->]. rewrite bind_ok. by eexists.
  - destruct (quiet_byte m (off + 1) Hq) as [b ->]; [unfold BUFFER_SIZE; lia|]. rewrite bind_ok. by eexists.
  - destruct (deserialize_publish_safe m first total_size off) as (d & -> & Hd);
      [done|done|unfold safe_size, BUFFER_SIZE in *; lia|lia|]. rewrite bind_ok. eexists. split; [done|].
    unfold response_in_bounds in Hd. simpl in Hd. unfold response_ok. simpl. split; [lia|apply Hd].
  - destruct (quiet_short m off Hq) as (p & -> & Hp & _); [unfold BUFFER_SIZE; lia..|]. rewrite bind_ok.
    cbv zeta. destruct (Htopics true (u32 (total_size - off))) as [es ->]. rewrite bind_ok.
    eexists. split; [done|]. by intros p' [= <-].
  - destruct (quiet_short m off Hq) as (p & -> & Hp & _); [unfold BUFFER_SIZE; lia..|]. rewrite bind_ok.
    cbv zeta. unfold fill_subresult_arrays.
    destruct (fill_subresult_loop_ok m (off + 2 + u32 (total_size - off)) fill_fuel (off + 2) [])
      as (rs & -> & Hrs); [done|lia|simpl; lia|unfold fill_fuel, MAX_TOPICS; simpl; lia| |].
    + unfold MAX_TOPICS, BUFFER_SIZE in *. simpl. lia.
    + rewrite bind_ok. eexists. split; [done|]. by intros p' [= <-].
  - destruct (quiet_short m off Hq) as (p & -> & Hp & _); [unfold BUFFER_SIZE; lia..|]. rewrite bind_ok.
    cbv zeta. destruct (Htopics false (u32 (total_size - off))) as [es ->]. rewrite bind_ok.
    eexists. split; [done|]. by intros p' [= <-].
Qed.

(** [strncpy] of a message stops at the zeros of the tail. *)
Lemma strncpy_bytes_zero src n : 0 ∈ src → ∃ bs, strncpy_bytes src n = Ok bs ∧ length bs = n.
Proof.
  revert n. induction src as [|c src IH]; intros n Hz; [by apply not_elem_of_nil in Hz|].
  destruct n as [|n]; [by exists []|]. simpl. case_decide as Hc.
  - eexists. split; [done|]. simpl. by rewrite length_replicate.
  - apply elem_of_cons in Hz as [?|Hz]; [done|]. destruct (IH n Hz) as (bs & -> & Hl).
    eexists. split; [done|]. simpl. by rewrite Hl.
Qed.

Lemma quiet_copy m p size :
  quiet m → 0 ≤ p ≤ safe_size → ∃ bs, strncpy_bytes (drop (Z.to_nat p) m) size = Ok bs ∧ length bs = size.
Proof.
  intros Hq Hp. apply strncpy_bytes_zero.
  pose proof (quiet_read m 1023 Hq ltac:(done)) as Hr. unfold buf_read in Hr.
  case_decide; [|done]. destruct (m !! Z.to_nat 1023) as [b|] eqn:E; [|done]. injection Hr as ->.
  apply (list_elem_of_lookup_2 _ (Z.to_nat 1023 - Z.to_nat p)%nat). rewrite lookup_drop, <- E. f_equal.
  unfold safe_size in Hp. lia.
Qed.

(** * The steps keep the buffers quiet *)

Section safe.
Context {W : Type} (srv : server_t W) `{!ServerLaws srv}.

Definition buffers_ok (s : sys W) : Prop :=
  zlen (send_buffer s) = BUFFER_SIZE ∧ quiet (receive_buffer s).

(** The connection takes whatever the client sends. *)
Definition sends_succeed : Prop :=
  ∀ buffer length w st w', live w → 2 ≤ length ≤ BUFFER_SIZE →
    server_send srv buffer length w = Ok (st, w') → st = SMQTT_NET_OK.

(** Before a call on an open connection; and after one, where it is open still if
    [φ], or if no send fails. *)
Definition open (s : sys W) : Prop := buffers_ok s ∧ live (world s).
Definition open_if (φ : Prop) (s : sys W) : Prop := buffers_ok s ∧ (φ ∨ sends_succeed → live (world s)).

Lemma open_if_open φ s : open s → open_if φ s.
Proof using Type. intros [??]. by split. Qed.

Lemma open_if_holds (φ : Prop) s : φ ∨ sends_succeed → open_if φ s → open s.
Proof using Type. intros Hφ [? Hl]. split; auto. Qed.

Lemma open_if_mono (φ ψ : Prop) s : (ψ → φ) → open_if φ s → open_if ψ s.
Proof using Type. intros Hψ [? Hl]. split; [done|]. intros [?|?]; auto. Qed.

(** A serializer that fits in the send buffer. *)
Definition make_ok (make : list Z → Z → outcome (Z * list Z)) : Prop :=
  ∀ buffer, zlen buffer = BUFFER_SIZE →
    ∃ n m, make buffer BUFFER_SIZE = Ok (n, m) ∧ 2 ≤ n ≤ zlen m ∧ zlen m = zlen buffer.

Lemma writes_make_ok make bs :
  (∀ buffer, make buffer BUFFER_SIZE = writes bs buffer) → 2 ≤ zlen bs ≤ BUFFER_SIZE → make_ok make.
Proof.
  intros Hm Hl buffer Hb. rewrite Hm, writes_fits by lia. do 2 eexists. split; [done|].
  assert (zlen (bs ++ drop (length bs) buffer) = zlen buffer) as ->; [|lia].
  unfold zlen in *. rewrite length_app, length_drop. lia.
Qed.

Variable c : smqtt_client W.
Hypothesis Hc : server c = Some srv.

Lemma safe_transmit make :
  make_ok make →
  triple open (transmit c make) (λ st s, (st = SMQTT_OK ∨ st = SMQTT_SOCKET) ∧ open_if (st = SMQTT_OK) s).
Proof using Type*.
  intros Hm s [[Hs Hr] Hl]. unfold transmit, get_server.
  destruct (Hm _ Hs) as (n & m & -> & Hn & Hml). rewrite bind_ok, Hc, bind_ok.
  destruct (law_send m n (world s) Hl Hn) as (st & w & Hsnd & Hst). rewrite Hsnd, bind_ok.
  do 2 eexists. split; [done|]. split; [destruct st; auto|]. split; [split; simpl; [lia|done]|].
  intros [H|H]; [by destruct st; try done; apply Hst|]. apply Hst. by apply (H m n (world s) st w Hl); [lia|].
Qed.

Lemma safe_await : triple open (await c) (λ sz s, 0 ≤ sz < BUFFER_SIZE ∧ open s).
Proof using Type*.
  intros s [[Hs Hr] Hl]. unfold await, get_server. rewrite Hc, bind_ok. destruct Hr as [Hb Hz Ht].
  destruct (law_receive (receive_buffer s) BUFFER_SIZE (world s) Hl Hb)
    as (sz & m & w & -> & Hw & Hsz & Hmb & Hml & Hmt); [by rewrite Hz|].
  rewrite bind_ok. do 2 eexists. split; [done|]. unfold max_receive, BUFFER_SIZE in *.
  split; [lia|]. split; [split; [done|]|done].
  apply Build_quiet; [done|unfold BUFFER_SIZE; cbn [receive_buffer]; lia|].
  cbn [receive_buffer]. unfold max_receive in *. by rewrite Hmt.
Qed.

Lemma safe_parse sz :
  sz < BUFFER_SIZE →
  triple open (parse sz) (λ r s, match r with Some r => response_ok r | None => True end ∧ open s).
Proof using Type.
  intros Hsz s [[Hs Hr] Hl]. unfold parse.
  destruct (quiet_deserialize _ sz Hr Hsz) as (r & -> & Hok). rewrite bind_ok.
  do 2 eexists. split; [done|]. split; [done|]. by destruct r.
Qed.

Lemma safe_free φ : triple (open_if φ) free_response (λ _, open_if φ).
Proof using Type. intros s [[??]?]. by do 2 eexists. Qed.

Lemma safe_copy p size :
  0 ≤ p ≤ safe_size → triple open (copy_message p size) (λ bs s, length bs = Z.to_nat size ∧ open s).
Proof using Type.
  intros Hp s [[Hs Hr] Hl]. unfold copy_message.
  destruct (quiet_copy _ p (Z.to_nat size) Hr Hp) as (bs & -> & Hbs). rewrite bind_ok. by do 2 eexists.
Qed.

(** How an operation ends: with a result in [φ], and the connection still
    open where the result is in [ψ]. *)
Definition ends {A} (φ ψ : A → Prop) (a : A) (s : sys W) : Prop := φ a ∧ open_if (ψ a) s.

Lemma safe_ret {A} (a : A) (χ : Prop) (φ ψ : A → Prop) :
  φ a → (ψ a → χ) → triple (open_if χ) (mret a) (ends φ ψ).
Proof using Type. intros Ha Hψ. apply triple_ret. intros s Hs. split; [done|]. by apply (open_if_mono χ). Qed.

Lemma safe_open_ret {A} (a : A) (φ ψ : A → Prop) : φ a → triple open (mret a) (ends φ ψ).
Proof using Type. intros Ha. apply triple_ret. intros s Hs. split; [done|]. by apply open_if_open. Qed.

Lemma safe_free_ret_dead {A} χ (a : A) (φ ψ : A → Prop) :
  φ a → (ψ a → χ) → triple (open_if χ) (_ ← free_response; mret a) (ends φ ψ).
Proof using Type.
  intros Ha Hψ. eapply triple_bind; [apply safe_free|]. intros []. by apply safe_ret.
Qed.

Lemma safe_free_ret {A} (a : A) (φ ψ : A → Prop) :
  φ a → triple open (_ ← free_response; mret a) (ends φ ψ).
Proof using Type.
  intros Ha. eapply triple_pre; [by apply (safe_free_ret_dead (ψ a))|apply open_if_open].
Qed.

Lemma safe_free_then {A} (k : M W A) Q : triple open k Q → triple open (_ ← free_response; k) Q.
Proof using Type.
  intros Hk. apply triple_pre with (P' := open_if True); [|apply open_if_open].
  eapply triple_bind; [apply safe_free|]. intros []. eapply triple_pre; [exact Hk|].
  intros s. apply open_if_holds. by left.
Qed.

(** Rules in the shape the operations use. *)
Lemma safe_send {A} make (fail : smqtt_status_t → M W A) (k : M W A) (φ ψ : A → Prop) :
  make_ok make → triple (open_if False) (fail SMQTT_SOCKET) (ends φ ψ) → triple open k (ends φ ψ) →
  triple open (st ← transmit c make; if decide (st ≠ SMQTT_OK) then fail st else k) (ends φ ψ).
Proof using Type*.
  intros Hm Hf Hk. eapply triple_bind; [by apply safe_transmit|]. intros st. apply triple_pure.
  intros [-> | ->]; [rewrite decide_False by auto|rewrite decide_True by done].
  - eapply triple_pre; [exact Hk|]. intros s. apply open_if_holds. by left.
  - eapply triple_pre; [exact Hf|]. intros s. by apply open_if_mono.
Qed.

Lemma safe_reply {A} (k : option response_t → M W A) Q :
  (∀ r, match r with Some r => response_ok r | None => True end → triple open (k r) Q) →
  triple open (sz ← await c; r ← parse sz; k r) Q.
Proof using Type*.
  intros Hk. eapply triple_bind; [apply safe_await|]. intros sz. apply triple_pure. intros Hsz.
  eapply triple_bind; [by apply safe_parse, Hsz|]. intros r. apply triple_pure. intros Hr.
  by apply Hk.
Qed.

End safe.

(** * Serializers that fit *)

Lemma zlen_c_chars s : zlen (c_chars s) = strlen s.
Proof. done. Qed.

Lemma zlen_ser_short n : zlen (ser_short n) = 2.
Proof. done. Qed.
#[local] Hint Rewrite zlen_c_chars zlen_ser_short : zlen.

Definition opt_len (msg : option (list Z)) : Z := match msg with Some m => strlen m | None => 0 end.

Lemma opt_len_nonneg msg : 0 ≤ opt_len msg.
Proof. destruct msg; [apply strlen_nonneg|done]. Qed.

Ltac size_field :=
  match goal with |- context [size_bytes ?n] => pose proof (size_bytes_length n) end.

Lemma make_publish_fits topic packet_id qos retain msg :
  9 + strlen topic + opt_len msg ≤ BUFFER_SIZE →
  ∃ bs, 2 ≤ zlen bs ≤ BUFFER_SIZE ∧
    ∀ buffer length, make_publish_message buffer length topic packet_id qos retain msg = writes bs buffer.
Proof.
  intros Hl. eexists. split; [|intros buffer length; apply make_publish_writes].
  autorewrite with zlen. pose proof (strlen_nonneg topic). pose proof (opt_len_nonneg msg). size_field.
  assert (zlen (match msg with Some m => c_chars m | None => [] end) = opt_len msg) as -> by by destruct msg.
  assert (0 ≤ zlen (if decide (qos >= QoS1) then ser_short packet_id else []) ≤ 2) by (case_decide; by vm_compute).
  lia.
Qed.

Lemma make_publish_ok topic packet_id qos retain msg :
  9 + strlen topic + opt_len msg ≤ BUFFER_SIZE →
  make_ok (λ buffer length, make_publish_message buffer length topic packet_id qos retain msg).
Proof.
  intros Hl. destruct (make_publish_fits topic packet_id qos retain msg Hl) as (bs & Hbs & Hw).
  eapply writes_make_ok; [|exact Hbs]. intros buffer. apply Hw.
Qed.

Lemma make_ack_ok packet_id :
  make_ok (λ buffer length, make_puback_message buffer length packet_id) ∧
  make_ok (λ buffer length, make_pubrec_message buffer length packet_id) ∧
  make_ok (λ buffer length, make_pubrel_message buffer length packet_id) ∧
  make_ok (λ buffer length, make_pubcomp_message buffer length packet_id).
Proof.
  split_and!; (eapply writes_make_ok; [intros buffer; apply (make_ack_writes buffer BUFFER_SIZE packet_id)|]); done.
Qed.

Lemma make_empty_ok : make_ok make_pingreq_message ∧ make_ok make_disconnect_message.
Proof.
  split; (eapply writes_make_ok; [intros buffer; apply (make_empty_mqtt buffer BUFFER_SIZE)|]);
    by vm_compute.
Qed.

(** The bytes of the topic strings, length prefixes included. *)
Lemma zlen_concat_topics topics :
  zlen (concat ((λ t, ser_short (strlen t) ++ c_chars t) <$> topics)) = topics_size false topics.
Proof.
  induction topics as [|t ts IH]; [done|]. rewrite fmap_cons. cbn [concat topics_size foldr].
  autorewrite with zlen. unfold topics_size in IH. assert (Z.b2z false = 0) by done. lia.
Qed.

Lemma zlen_concat_topic_qos (tqs : list (list Z * Z)) :
  zlen (concat ((λ tq, ser_short (strlen tq.1) ++ c_chars tq.1 ++ [u8 tq.2]) <$> tqs)) =
  topics_size true (fst <$> tqs).
Proof.
  induction tqs as [|t ts IH]; [done|]. rewrite !fmap_cons. cbn [concat topics_size foldr].
  autorewrite with zlen. unfold topics_size in IH. assert (Z.b2z true = 1) by done. lia.
Qed.

Lemma make_subscribe_fits packet_id (tqs : list (list Z * Z)) :
  7 + topics_size true (fst <$> tqs) ≤ BUFFER_SIZE →
  ∃ bs, 2 ≤ zlen bs ≤ BUFFER_SIZE ∧
    ∀ buffer length, make_subscribe_message buffer length packet_id (zlen tqs) (fst <$> tqs) (snd <$> tqs) = writes bs buffer.
Proof.
  intros Hl. eexists. split; [|intros buffer length; apply make_subscribe_writes].
  autorewrite with zlen. rewrite zlen_concat_topic_qos.
  pose proof (topics_size_nonneg true (fst <$> tqs)). size_field. lia.
Qed.

Lemma make_subscribe_ok packet_id tqs :
  7 + topics_size true (fst <$> tqs) ≤ BUFFER_SIZE →
  make_ok (λ buffer length,
    make_subscribe_message buffer length packet_id (zlen tqs) (fst <$> tqs) (snd <$> tqs)).
Proof.
  intros Hl. destruct (make_subscribe_fits packet_id tqs Hl) as (bs & Hbs & Hw).
  eapply writes_make_ok; [|exact Hbs]. intros buffer. apply Hw.
Qed.

Lemma make_unsubscribe_fits packet_id topics :
  7 + topics_size false topics ≤ BUFFER_SIZE →
  ∃ bs, 2 ≤ zlen bs ≤ BUFFER_SIZE ∧
    ∀ buffer length, make_unsubscribe_message buffer length packet_id (zlen topics) topics = writes bs buffer.
Proof.
  intros Hl. eexists. split; [|intros buffer length; apply make_unsubscribe_writes].
  autorewrite with zlen. rewrite zlen_concat_topics.
  pose proof (topics_size_nonneg false topics). size_field. lia.
Qed.

Lemma make_unsubscribe_ok packet_id topics :
  7 + topics_size false topics ≤ BUFFER_SIZE →
  make_ok (λ buffer length, make_unsubscribe_message buffer length packet_id (zlen topics) topics).
Proof.
  intros Hl. destruct (make_unsubscribe_fits packet_id topics Hl) as (bs & Hbs & Hw).
  eapply writes_make_ok; [|exact Hbs]. intros buffer. apply Hw.
Qed.

(** The size of a CONNECT, with the largest size field. *)
Definition connect_size (c : connect_params) : Z :=
  19 + strlen (cp_client_id c) +
  match cp_will c with Some (t, m) => 4 + strlen t + strlen m | None => 0 end +
  opt_strlen (cp_user c) + opt_strlen (cp_pw c).

Lemma zlen_opt_ser o : zlen (opt_ser o) = opt_strlen o.
Proof. destruct o as [s|]; [|done]. unfold opt_ser, opt_strlen. by autorewrite with zlen. Qed.

Lemma opt_strlen_nonneg o : 0 ≤ opt_strlen o.
Proof. destruct o as [s|]; unfold opt_strlen; [pose proof (strlen_nonneg s)|]; lia. Qed.

Lemma make_connect_make_ok c : connect_size c ≤ BUFFER_SIZE → make_ok (make_connect c).
Proof.
  intros Hl. eapply writes_make_ok; [intros buffer; apply make_connect_writes|].
  autorewrite with zlen. rewrite !zlen_opt_ser. unfold connect_size in Hl.
  pose proof (strlen_nonneg (cp_client_id c)).
  pose proof (opt_strlen_nonneg (cp_user c)). pose proof (opt_strlen_nonneg (cp_pw c)). size_field.
  change (zlen mqtt_name) with 6.
  destruct (cp_will c) as [[t m]|]; autorewrite with zlen; [|lia].
  pose proof (strlen_nonneg t). pose proof (strlen_nonneg m). lia.
Qed.
