(* ===== verification/ClientProtocol.v ===== *)
(** ClientProtocol: what the blocking client and a broker say to each other.
    Conversations with a conforming broker succeed, and success implies that
    the conversation took place. *)

From S2P Require Import Prelude Protocol Size Wire Serialize Deserialize Codec Server NetworkServer Client.

#[local] Open Scope Z_scope.

(** * Conversations

    Predicates on the server's world, built from the end of the conversation:
    [sends srv bs K] holds where the server takes the packet [bs] and leaves a
    world in [K]; [gets srv p K] where the next receive delivers [p]. *)

Section conversations.
Context {W : Type} (srv : server_t W).

Definition opens (ip : list Z) (port : Z) (K : W → Prop) (w : W) : Prop :=
  ∃ w', server_connect srv ip port 30000 w = Ok (SMQTT_NET_OK, w') ∧ K w'.

Definition sends (bs : list Z) (K : W → Prop) (w : W) : Prop :=
  ∀ buffer, zlen bs ≤ zlen buffer → slice buffer 0 (zlen bs) = bs →
    ∃ w', server_send srv buffer (zlen bs) w = Ok (SMQTT_NET_OK, w') ∧ K w'.

Definition gets (p : list Z) (K : W → Prop) (w : W) : Prop :=
  ∀ buffer, zlen buffer = BUFFER_SIZE →
    ∃ w', server_receive srv buffer BUFFER_SIZE w = Ok (zlen p, splice buffer 0 p, w') ∧ K w'.

Definition closes (K : W → Prop) (w : W) : Prop :=
  ∃ st w', server_disconnect srv w = Ok (st, w') ∧ K w'.

(** The handshakes of MQTT 3.1, section 4.1. *)
Definition publish_conversation (topic : list Z) (msg : option (list Z)) (qos : Z) (retain : bool)
    (id : Z) (K : W → Prop) : W → Prop :=
  sends (mqtt_publish topic id qos retain (default [] msg))
    (if decide (qos = QoS0) then K
     else if decide (qos = QoS1) then gets (mqtt_ack PUBACK 0 id) K
     else gets (mqtt_ack PUBREC 0 id)
            (sends (mqtt_ack PUBREL 2 id) (gets (mqtt_ack PUBCOMP 0 id) K))).

(** ** Rules *)

(** The client between two steps: buffers of the right size, [n] responses
    allocated, the server's world in [K]. *)
Definition in_conversation (n : Z) (K : W → Prop) (s : sys W) : Prop :=
  zlen (send_buffer s) = BUFFER_SIZE ∧ zlen (receive_buffer s) = BUFFER_SIZE ∧
  responses s = n ∧ K (world s).

Variable c : smqtt_client W.
Hypothesis Hc : server c = Some srv.

Lemma slice_prefix (bs rest : list Z) : slice (bs ++ rest) 0 (zlen bs) = bs.
Proof using Type.
  unfold slice, zlen. rewrite Nat2Z.id. change (Z.to_nat 0) with 0%nat. rewrite drop_0. apply take_app_length.
Qed.

Lemma zlen_overwrite (bs buffer : list Z) :
  zlen bs ≤ zlen buffer → zlen (bs ++ drop (length bs) buffer) = zlen buffer.
Proof using Type. intros ?. unfold zlen in *. rewrite length_app, length_drop. lia. Qed.

Lemma conv_transmit n bs K make :
  (∀ buffer, make buffer BUFFER_SIZE = writes bs buffer) → zlen bs ≤ BUFFER_SIZE →
  triple (in_conversation n (sends bs K)) (transmit c make)
    (λ st s, st = SMQTT_OK ∧ in_conversation n K s).
Proof using Type*.
  intros Hm Hl s (Hs & Hr & Hn & Hk). unfold transmit, get_server.
  rewrite Hm, writes_fits, bind_ok, Hc, bind_ok by lia.
  destruct (Hk (bs ++ drop (length bs) (send_buffer s))) as (w & -> & Hw).
  - rewrite zlen_overwrite; lia.
  - apply slice_prefix.
  - rewrite bind_ok. do 2 eexists. split; [done|]. split; [done|]. split_and!; try done.
    cbn [send_buffer]. rewrite zlen_overwrite; lia.
Qed.

Lemma conv_send {A} n bs K make (fail : smqtt_status_t → M W A) (k : M W A) Q :
  (∀ buffer, make buffer BUFFER_SIZE = writes bs buffer) → zlen bs ≤ BUFFER_SIZE →
  triple (in_conversation n K) k Q →
  triple (in_conversation n (sends bs K))
    (st ← transmit c make; if decide (st ≠ SMQTT_OK) then fail st else k) Q.
Proof using Type*.
  intros Hm Hl Hk. eapply triple_bind; [by apply conv_transmit|]. intros st. apply triple_pure.
  intros ->. by rewrite decide_False by auto.
Qed.

(** The buffer starts with the packet received. *)
Definition received_packet (p : list Z) (n : Z) (K : W → Prop) (s : sys W) : Prop :=
  (∃ rest, receive_buffer s = p ++ rest) ∧ in_conversation n K s.

Lemma conv_await n p K :
  zlen p ≤ BUFFER_SIZE →
  triple (in_conversation n (gets p K)) (await c) (λ sz s, sz = zlen p ∧ received_packet p n K s).
Proof using Type*.
  intros Hl s (Hs & Hr & Hn & Hg). unfold await, get_server.
  rewrite Hc, bind_ok. destruct (Hg (receive_buffer s) Hr) as (w & -> & Hw). rewrite bind_ok.
  do 2 eexists. split; [done|]. split; [done|]. rewrite splice_0 by lia. split; [by eexists|].
  split_and!; cbn [receive_buffer send_buffer responses world]; [done|rewrite zlen_overwrite; lia|lia|done].
Qed.

(** A reply: the response and the buffer it points into. *)
Lemma conv_parse {A} n p sz K (φ : list Z → response_t → Prop) (k : option response_t → M W A) Q :
  (∀ rest, ∃ resp, deserialize_response (p ++ rest) sz = Ok (Some resp) ∧ φ (p ++ rest) resp) →
  (∀ m resp, φ m resp →
     triple (λ s, receive_buffer s = m ∧ in_conversation (n + 1) K s) (k (Some resp)) Q) →
  triple (received_packet p n K) (r ← parse sz; k r) Q.
Proof using Type.
  intros Hp Hk s [[rest Hb] (Hs & Hr & Hn & Hw)]. rewrite M_bind_run. unfold parse.
  rewrite Hb. destruct (Hp rest) as (resp & -> & Hφ). rewrite !bind_ok.
  apply (Hk _ _ Hφ). split; [done|].
  split_and!; cbn [receive_buffer send_buffer responses world]; [done|by rewrite <- Hb|lia|done].
Qed.

Lemma conv_get {A} n p K resp (k : option response_t → M W A) Q :
  zlen p ≤ BUFFER_SIZE →
  (∀ rest, deserialize_response (p ++ rest) (zlen p) = Ok (Some resp)) →
  triple (in_conversation (n + 1) K) (k (Some resp)) Q →
  triple (in_conversation n (gets p K)) (sz ← await c; r ← parse sz; k r) Q.
Proof using Type*.
  intros Hl Hp Hk. eapply triple_bind; [by apply conv_await|]. intros sz. apply triple_pure. intros ->.
  apply (conv_parse n p _ K (λ _ r, r = resp)); [by eauto|].
  intros m ? ->. eapply triple_pre; [exact Hk|]. by intros s [_ ?].
Qed.

Lemma conv_free {A} n K (k : M W A) Q :
  triple (in_conversation n K) k Q → triple (in_conversation (n + 1) K) (_ ← free_response; k) Q.
Proof using Type.
  intros Hk s (Hs & Hr & Hn & Hw). rewrite M_bind_run. unfold free_response. rewrite bind_ok.
  apply Hk. split_and!; try done. cbn [responses]. lia.
Qed.

Lemma conv_ret {A} n K (a : A) : triple (in_conversation n K) (mret a) (λ b s, b = a ∧ in_conversation n K s).
Proof using Type. by apply triple_ret. Qed.

Lemma conv_close {A} n K (k : M W A) Q :
  triple (in_conversation n K) k Q → triple (in_conversation n (closes K)) (_ ← close_server c; k) Q.
Proof using Type*.
  intros Hk s (Hs & Hr & Hn & st & w & Hd & Hw). rewrite M_bind_run. unfold close_server, get_server.
  rewrite Hc, bind_ok, Hd, !bind_ok. by apply Hk.
Qed.

End conversations.

(** An acknowledgement is the reply the client waits for. *)
Lemma is_reply_ack t id :
  is_ack t = true → is_reply {| type := t; body := ack_body t id |} t id = true.
Proof.
  intros Ht. unfold is_reply. cbn [type body]. rewrite bool_decide_true by done.
  destruct t; try done; simpl; by rewrite bool_decide_true.
Qed.

Lemma zlen_mqtt_ack t flags id : zlen (mqtt_ack t flags id) = 4.
Proof. done. Qed.

(** * Conversations that succeed *)

(** [strncpy] of [msg] into a block of its size: NUL and everything after it
    read as zeros. *)
Definition strncpy_of (msg : list Z) : list Z :=
  c_chars msg ++ replicate (length msg - length (c_chars msg)) 0.

Lemma strncpy_bytes_take src n :
  (n ≤ length src)%nat → strncpy_bytes src n = Ok (strncpy_of (take n src)).
Proof.
  revert n. induction src as [|x src IH]; intros n Hn; [by destruct n; [|simpl in Hn; lia]|].
  destruct n as [|n]; [done|]. simpl in Hn. cbn [strncpy_bytes take]. unfold strncpy_of. cbn [c_chars].
  case_decide as Hx.
  - cbn [app length]. rewrite Nat.sub_0_r, length_take, Nat.min_l by lia. done.
  - rewrite IH, bind_ok by lia. done.
Qed.

Section success.
Context {W : Type} (srv : server_t W).

(** The replies of a conforming broker, read from a buffer they start. *)
Lemma ack_reply t flags id rest :
  is_ack t = true → 0 ≤ flags < 16 → 0 ≤ id < 256 →
  deserialize_response (mqtt_ack t flags id ++ rest) (zlen (mqtt_ack t flags id)) =
    Ok (Some {| type := t; body := ack_body t id |}).
Proof using Type. intros. by apply deserialize_mqtt_ack. Qed.

Variable c : smqtt_client W.
Hypothesis Hc : server c = Some srv.

Lemma publish_completes_spec n K topic msg qos retain :
  connected c = true → short_string topic → opt_message_ok msg → 0 ≤ qos ≤ 2 →
  0 ≤ publish_packet_id c < 255 →
  let id := if decide (qos = QoS0) then publish_packet_id c else publish_packet_id c + 1 in
  zlen (mqtt_publish topic id qos retain (default [] msg)) ≤ BUFFER_SIZE →
  triple (in_conversation n (publish_conversation srv topic msg qos retain id K))
    (smqtt_publish c topic msg qos retain)
    (λ r s, r = (SMQTT_OK, set_publish_id c id) ∧ in_conversation n K s).
Proof using Type*.
  intros Hconn Ht Hm Hq Hid id Hl. unfold smqtt_publish, publish_conversation.
  rewrite Hconn. cbn [negb]. rewrite (decide_False (P := qos > QoS2)) by (unfold QoS2; lia).
  assert (Hmake : ∀ i buffer, 0 ≤ i < 256 → make_publish_message buffer BUFFER_SIZE topic i qos retain msg =
    writes (mqtt_publish topic i qos retain (default [] msg)) buffer) by (intros; by apply make_publish_mqtt).
  destruct (decide (qos = QoS0)) as [Hq0|Hq0].
  - assert (id = publish_packet_id c) as Hid0 by done.
    clearbody id. subst id.
    apply (conv_send srv c Hc); [intros buffer; apply Hmake; lia|done|].
    replace (set_publish_id c (publish_packet_id c)) with c by (by destruct c). apply conv_ret.
  - assert (id = publish_packet_id c + 1) as Hid1 by done.
    clearbody id. rewrite u16_small, <- Hid1 by lia. set (c' := set_publish_id c id).
    assert (Hc' : server c' = Some srv) by done. assert (Hid' : 0 ≤ id < 256) by lia.
    cbv zeta. change (publish_packet_id c') with id.
    apply (conv_send srv c' Hc'); [intros buffer; by apply Hmake|done|].
    destruct (decide (qos = QoS1)).
    + eapply (conv_get srv c' Hc'); [done|intros rest; by apply ack_reply|].
      rewrite is_reply_ack by done. apply conv_free, conv_ret.
    + eapply (conv_get srv c' Hc'); [done|intros rest; by apply ack_reply|].
      rewrite is_reply_ack by done. apply conv_free.
      apply (conv_send srv c' Hc'); [intros buffer; by apply make_acks_mqtt|done|].
      eapply (conv_get srv c' Hc'); [done|intros rest; by apply ack_reply|].
      rewrite is_reply_ack by done. apply conv_free, conv_ret.
Qed.

(** C9. Publishing to a conforming broker.  At every QoS, when the server takes the
    PUBLISH packet of the arguments and answers with the handshake of that QoS
    (PUBACK; or PUBREC, then after our PUBREL a PUBCOMP) the call returns
    [SMQTT_OK], the packet identifier has advanced by one (not at QoS 0), the
    world is where the conversation ends and every response is freed.
    Identifiers below 256.  This is total: the call returns. *)
Theorem smqtt_publish_completes n K topic msg qos retain :
  connected c = true → short_string topic → opt_message_ok msg → 0 ≤ qos ≤ 2 →
  0 ≤ publish_packet_id c < 255 →
  let id := if decide (qos = QoS0) then publish_packet_id c else publish_packet_id c + 1 in
  zlen (mqtt_publish topic id qos retain (default [] msg)) ≤ BUFFER_SIZE →
  triple (in_conversation n (publish_conversation srv topic msg qos retain id K))
    (smqtt_publish c topic msg qos retain)
    (λ r s, r = (SMQTT_OK, set_publish_id c id) ∧ in_conversation n K s).
Proof using Type*.
  exact (publish_completes_spec n K topic msg qos retain).
Qed.

Lemma subscribe_completes_spec n K tqs rs :
  connected c = true → Forall (λ tq, short_string tq.1 ∧ byte_range tq.2) tqs →
  Forall (λ r, 0 ≤ sub_qos r ≤ 2) rs → (length rs ≤ MAX_TOPICS)%nat →
  0 ≤ subscribe_packet_id c < 255 →
  let id := subscribe_packet_id c + 1 in
  zlen (mqtt_subscribe id tqs) ≤ BUFFER_SIZE →
  triple (in_conversation n (sends srv (mqtt_subscribe id tqs) (gets srv (mqtt_suback id rs) K)))
    (smqtt_subscribe c (zlen tqs) (fst <$> tqs) (snd <$> tqs))
    (λ r s, r = (SMQTT_OK, set_subscribe_id c id) ∧ in_conversation n K s).
Proof using Type*.
  intros Hconn Ht Hr Hn Hid id Hl. unfold smqtt_subscribe. rewrite Hconn. cbn [negb]. cbv zeta.
  rewrite u16_small by lia. fold id. set (c' := set_subscribe_id c id).
  assert (Hc' : server c' = Some srv) by done. change (subscribe_packet_id c') with id.
  assert (Hsize : zlen (concat (mqtt_topic_qos <$> tqs)) < 65536).
  { unfold mqtt_subscribe, mqtt_packet in Hl. autorewrite with zlen in Hl.
    match type of Hl with context [size_bytes ?k] => pose proof (size_bytes_length k) end.
    unfold BUFFER_SIZE in Hl. lia. }
  apply (conv_send srv c' Hc'); [intros buffer; apply make_subscribe_mqtt; [done|lia|done]|done|].
  assert (Hrs : zlen (mqtt_suback id rs) ≤ BUFFER_SIZE ∧ 1 ≤ zlen (mqtt_suback id rs)).
  { unfold mqtt_suback, mqtt_packet. autorewrite with zlen.
    match goal with |- context [size_bytes ?k] => pose proof (size_bytes_length k) end.
    unfold zlen at 3 6, BUFFER_SIZE. rewrite length_fmap. unfold MAX_TOPICS in Hn. lia. }
  eapply (conv_get srv c' Hc'); [apply Hrs|intros rest; apply deserialize_mqtt_suback; [done|lia|done|apply Hrs]|].
  unfold is_reply. cbn [type body body_packet_id]. rewrite !bool_decide_true by done.
  apply conv_free, conv_ret.
Qed.

(** C32. Subscribing.  With topics of less than 256 characters, an identifier below 256
    and a packet that fits: SUBSCRIBE for all topics in one packet, one SUBACK with
    the same identifier, and [SMQTT_OK], whatever results the SUBACK carries, and
    however many up to [MAX_TOPICS]: a broker that refuses every topic is not
    noticed. *)
Theorem smqtt_subscribe_completes n K tqs rs :
  connected c = true → Forall (λ tq, short_string tq.1 ∧ byte_range tq.2) tqs →
  Forall (λ r, 0 ≤ sub_qos r ≤ 2) rs → (length rs ≤ MAX_TOPICS)%nat →
  0 ≤ subscribe_packet_id c < 255 →
  let id := subscribe_packet_id c + 1 in
  zlen (mqtt_subscribe id tqs) ≤ BUFFER_SIZE →
  triple (in_conversation n (sends srv (mqtt_subscribe id tqs) (gets srv (mqtt_suback id rs) K)))
    (smqtt_subscribe c (zlen tqs) (fst <$> tqs) (snd <$> tqs))
    (λ r s, r = (SMQTT_OK, set_subscribe_id c id) ∧ in_conversation n K s).
Proof using Type*.
  exact (subscribe_completes_spec n K tqs rs).
Qed.

(** Unsubscribing: UNSUBSCRIBE, UNSUBACK with the same identifier, [SMQTT_OK]. *)
Theorem smqtt_unsubscribe_completes n K topics :
  connected c = true → Forall short_string topics → 0 ≤ unsubscribe_packet_id c < 255 →
  let id := unsubscribe_packet_id c + 1 in
  zlen (mqtt_unsubscribe id topics) ≤ BUFFER_SIZE →
  triple (in_conversation n (sends srv (mqtt_unsubscribe id topics) (gets srv (mqtt_ack UNSUBACK 0 id) K)))
    (smqtt_unsubscribe c (zlen topics) topics)
    (λ r s, r = (SMQTT_OK, set_unsubscribe_id c id) ∧ in_conversation n K s).
Proof using Type*.
  intros Hconn Ht Hid id Hl. unfold smqtt_unsubscribe. rewrite Hconn. cbn [negb]. cbv zeta.
  rewrite u16_small by lia. fold id. set (c' := set_unsubscribe_id c id).
  assert (Hc' : server c' = Some srv) by done. change (unsubscribe_packet_id c') with id.
  assert (Hsize : zlen (concat (mqtt_string <$> topics)) < 65536).
  { unfold mqtt_unsubscribe, mqtt_packet in Hl. autorewrite with zlen in Hl.
    match type of Hl with context [size_bytes ?k] => pose proof (size_bytes_length k) end.
    unfold BUFFER_SIZE in Hl. lia. }
  apply (conv_send srv c' Hc'); [intros buffer; apply make_unsubscribe_mqtt; [done|lia|done]|done|].
  eapply (conv_get srv c' Hc'); [done|intros rest; apply ack_reply; [done|lia|lia]|].
  rewrite is_reply_ack by done. apply conv_free, conv_ret.
Qed.

(** Pinging: PINGREQ, PINGRESP, [SMQTT_OK]. *)
Theorem smqtt_ping_completes n K :
  connected c = true →
  triple (in_conversation n (sends srv (mqtt_empty PINGREQ) (gets srv (mqtt_empty PINGRESP) K)))
    (smqtt_ping c) (λ r s, r = SMQTT_OK ∧ in_conversation n K s).
Proof using Type*.
  intros Hconn. unfold smqtt_ping. rewrite Hconn. cbn [negb].
  apply (conv_send srv c Hc); [intros buffer; apply make_empty_mqtt|done|].
  eapply (conv_get srv c Hc); [done|intros rest; apply deserialize_mqtt_empty; [done|auto]|].
  rewrite decide_True by done. apply conv_free, conv_ret.
Qed.

Lemma disconnect_spec n K :
  triple (in_conversation n (sends srv (mqtt_empty DISCONNECT) (closes srv K))) (smqtt_disconnect c)
    (λ st s, st = SMQTT_OK ∧ in_conversation n K s).
Proof using Type*.
  unfold smqtt_disconnect.
  eapply triple_bind; [apply (conv_transmit srv c Hc); [intros buffer; apply make_empty_mqtt|done]|].
  intros st. apply triple_pure. intros ->. apply (conv_close srv c Hc).
  rewrite decide_False by auto. apply conv_ret.
Qed.

(** ** Receiving a message *)

Lemma conv_copy n (K : W → Prop) m p msg :
  slice m p (zlen msg) = msg →
  triple (λ s, receive_buffer s = m ∧ in_conversation n K s) (copy_message p (zlen msg))
    (λ a s, a = strncpy_of msg ∧ in_conversation n K s).
Proof using Type.
  intros Hmsg s [Hm Hs]. unfold copy_message. rewrite Hm.
  assert (length (slice m p (zlen msg)) = length msg) as Hl by by rewrite Hmsg.
  unfold slice in Hl, Hmsg. rewrite length_take in Hl. unfold zlen in *. rewrite Nat2Z.id in *.
  rewrite strncpy_bytes_take, Hmsg, bind_ok by lia. by do 2 eexists.
Qed.

(** The acknowledgements a receiver owes. *)
Definition receive_conversation (topic : list Z) (msg : list Z) (qos : Z) (retain : bool) (id : Z)
    (K : W → Prop) : W → Prop :=
  gets srv (mqtt_publish topic id qos retain msg)
    (if decide (qos = QoS0) then K
     else if decide (qos = QoS1) then sends srv (mqtt_ack PUBACK 0 id) K
     else sends srv (mqtt_ack PUBREC 0 id)
            (gets srv (mqtt_ack PUBREL 2 id) (sends srv (mqtt_ack PUBCOMP 0 id) K))).

Lemma get_next_message_receives_spec n K topic msg qos retain id :
  short_string topic → zlen msg < 65536 → 0 ≤ id < 256 → 0 ≤ qos ≤ 2 →
  zlen (mqtt_publish topic id qos retain msg) ≤ BUFFER_SIZE →
  triple (in_conversation n (receive_conversation topic msg qos retain id K))
    (smqtt_get_next_message c)
    (λ r s, r = (SMQTT_OK, mk_received (if decide (qos >= QoS1 ∧ id ≠ 0) then Some id else None)
                             (Some (strncpy_of msg)) (Some (zlen msg))) ∧
            in_conversation (if decide (qos = QoS1) then n + 1 else n) K s).
Proof using Type*.
  intros Ht Hm Hid Hq Hl. unfold smqtt_get_next_message, receive_conversation.
  set (p := mqtt_publish topic id qos retain msg) in *.
  set (K1 := if decide (qos = QoS0) then _ else _).
  eapply triple_bind; [by apply (conv_await srv c Hc)|]. intros sz. apply triple_pure. intros ->.
  rewrite decide_False by (pose proof (zlen_nonneg p); lia).
  apply (conv_parse n p _ K1 (λ m resp, ∃ d, resp = {| type := PUBLISH; body := publish_data d |} ∧
           publish_reads m d topic id qos retain msg)).
  { intros rest. destruct (deserialize_mqtt_publish topic id qos retain msg rest (zlen p)) as (d & Hd & Hr & _);
      [done..|]. eexists. split; [exact Hd|]. by exists d. }
  intros m resp (d & -> & Hq' & _ & Hp' & _ & _ & Hs' & Hm'). cbn [type body].
  rewrite Hs' in *. rewrite Hq'. eapply triple_bind; [by apply conv_copy|]. intros a. apply triple_pure. intros ->.
  set (out := mk_received _ _ _).
  assert (Hout : out = mk_received (if decide (qos >= QoS1 ∧ id ≠ 0) then Some id else None)
                  (Some (strncpy_of msg)) (Some (zlen msg))).
  { unfold out. rewrite Hp'. apply (f_equal (λ o, mk_received o _ _)). unfold no_packet_id.
    destruct (decide (qos >= QoS1)) as [?|?], (decide (id = 0)) as [->|?].
    - rewrite !decide_False by intuition. done.
    - rewrite !decide_True by done. done.
    - rewrite !decide_False by intuition. done.
    - rewrite !decide_False by intuition. done. }
  rewrite <- Hout. clear Hout. clearbody out. unfold K1. clear K1. rewrite Hp'. clear Hp'.
  destruct (decide (qos = QoS0)) as [->|].
  { rewrite (decide_False (P := QoS0 = QoS1)) by done. apply conv_free, conv_ret. }
  rewrite (decide_True (P := qos >= QoS1)) by (unfold QoS0, QoS1 in *; lia). pose proof (λ buffer, make_acks_mqtt buffer BUFFER_SIZE id Hid) as Hacks.
  destruct (decide (qos = QoS1)).
  { apply (conv_send srv c Hc); [intros buffer; apply Hacks|done|]. apply conv_ret. }
  rewrite (decide_True (P := qos = QoS2)) by (unfold QoS0, QoS1, QoS2 in *; lia).
  apply (conv_send srv c Hc); [intros buffer; apply Hacks|done|]. apply conv_free.
  eapply (conv_get srv c Hc); [done|intros rest; by apply ack_reply|].
  rewrite is_reply_ack by done.
  apply (conv_send srv c Hc); [intros buffer; apply Hacks|done|]. apply conv_free, conv_ret.
Qed.

(** C31. Receiving a message.  The broker's PUBLISH is acknowledged by the packets
    its QoS asks for, with its identifier; the call returns [SMQTT_OK], the
    payload's size and a copy of the payload ([strncpy]: everything from a NUL
    on reads as zeros), and the identifier where there is one.  Every response
    is freed, except that at QoS 1 one is lost. *)
Theorem smqtt_get_next_message_receives n K topic msg qos retain id :
  short_string topic → zlen msg < 65536 → 0 ≤ id < 256 → 0 ≤ qos ≤ 2 →
  zlen (mqtt_publish topic id qos retain msg) ≤ BUFFER_SIZE →
  triple (in_conversation n (receive_conversation topic msg qos retain id K))
    (smqtt_get_next_message c)
    (λ r s, r = (SMQTT_OK, mk_received (if decide (qos >= QoS1 ∧ id ≠ 0) then Some id else None)
                             (Some (strncpy_of msg)) (Some (zlen msg))) ∧
            in_conversation (if decide (qos = QoS1) then n + 1 else n) K s).
Proof using Type*.
  exact (get_next_message_receives_spec n K topic msg qos retain id).
Qed.

End success.

(** * Connecting *)

(** The status each return code of a CONNACK stands for (MQTT 3.1, table of
    section 3.2). *)
Definition connack_status (code : Z) : smqtt_status_t :=
  match code with
  | 0 => SMQTT_OK
  | 1 => SMQTT_PROTOCOL
  | 2 => SMQTT_IDENTIFIER
  | 3 => SMQTT_SERVER
  | 4 => SMQTT_NOT_AUTHENTICATED
  | 5 => SMQTT_NOT_AUTHORIZED
  | _ => SMQTT_NOACK
  end.

Section connect.
Context {W : Type} (srv : server_t W).

(** [smqtt_connect] with the arguments of a CONNECT. *)
Definition connect_with (malloc : option Z) (ip : list Z) (port : Z) (p : connect_params) :=
  smqtt_connect srv malloc ip port (cp_client_id p) (cp_user p) (cp_pw p)
    (cp_keep_alive p) (cp_clean p) (is_some (cp_will p)) (cp_will_qos p) (cp_will_retain p)
    (fst <$> cp_will p) (snd <$> cp_will p).

(** Open, CONNECT, CONNACK; a refused client closes. *)
Definition connect_conversation (ip : list Z) (port : Z) (p : connect_params) (code : Z) (K : W → Prop)
    : W → Prop :=
  opens srv ip (u16 port) (sends srv (mqtt_connect p)
    (gets srv (mqtt_connack code) (if decide (code = Connection_Accepted) then K else closes srv K))).

(** The client that comes out of it; [junk] is what the block from [malloc]
    held. *)
Definition new_client (ip : list Z) (port : Z) (p : connect_params) (junk : Z) : smqtt_client W :=
  mk_client ip (cp_client_id p) (u16 port) true 0 1 junk (Some srv).

Lemma conv_open {A} n (K : W → Prop) ip port (k : smqtt_status_t → M W A) (c : smqtt_client W) Q :
  server c = Some srv → hostname c = ip → Client.port c = port →
  triple (in_conversation n K) (k SMQTT_OK) Q →
  triple (in_conversation n (opens srv ip port K))
    (st ← (λ s, srv ← get_server c;
             '(st, w) ← server_connect srv (hostname c) (Client.port c) 30000 (world s);
             Ok (status_from_net st, mk_sys (send_buffer s) (receive_buffer s) (responses s) w)) : M W smqtt_status_t;
     k st) Q.
Proof using Type.
  intros Hc <- <- Hk s (Hs & Hr & Hn & w' & Ho & Hw). rewrite M_bind_run.
  unfold get_server. rewrite Hc, bind_ok, Ho, !bind_ok. by apply Hk.
Qed.

Lemma connect_result_spec n K junk ip port p code :
  connect_ok p → zlen (cp_client_id p) < MAX_XLIENT_ID_CHARS →
  nul_free ip → zlen ip < MAX_HOSTNAME_CHARS →
  zlen (mqtt_connect p) ≤ BUFFER_SIZE → byte_range code →
  triple (in_conversation n (connect_conversation ip port p code K))
    (connect_with (Some junk) ip port p)
    (λ r s, r = (connack_status code,
                 if decide (code = Connection_Accepted) then Some (Some (new_client ip port p junk)) else None) ∧
            in_conversation n K s).
Proof using Type.
  intros Hp Hid Hip Hipl Hl Hcode. unfold connect_with, smqtt_connect, smqtt_connect_internal.
  pose proof (co_client_id _ Hp) as (_ & Hnul & _).
  rewrite decide_False by (rewrite !strlen_nul_free by done; lia). rewrite !c_chars_nul_free by done.
  set (c := mk_client ip (cp_client_id p) (u16 port) false 0 1 junk (Some srv)).
  assert (Hc : server c = Some srv) by done. unfold connect_conversation. apply conv_open; [done..|].
  rewrite (decide_False (P := SMQTT_OK ≠ SMQTT_OK)) by auto.
  apply (conv_send srv c Hc);
    [intros buffer; exact (make_connect_mqtt p buffer BUFFER_SIZE Hp)|done|].
  eapply triple_bind; [by apply (conv_await srv c Hc)|]. intros sz. apply triple_pure. intros ->.
  rewrite (decide_True (P := zlen (mqtt_connack code) > 0)) by done.
  apply (conv_parse _ _ _ _ (λ _ r, r = {| type := CONNACK; body := connack_data code |}));
    [intros rest; eexists; split; [by apply deserialize_mqtt_connack|done]|].
  intros m ? ->. cbn [type body]. eapply triple_pre; [|intros s [_ Hs]; exact Hs].
  case_decide as Hcd.
  - subst code. rewrite (decide_False (P := Connection_Accepted ≠ Connection_Accepted)) by auto.
    apply conv_free, conv_ret.
  - rewrite (decide_True (P := code ≠ Connection_Accepted)) by done. apply (conv_close srv c Hc), conv_free. apply triple_ret.
    intros s Hs. split; [|done]. apply (f_equal (λ st, (st, None))).
    unfold Connection_Accepted, Connection_Refused_unacceptable_protocol_version,
      Connection_Refused_identifier_rejected, Connection_Refused_server_unavailable,
      Connection_Refused_bad_username_or_password, Connection_Refused_not_authorized, byte_range in *.
    repeat case_decide; subst; try done.
    destruct code as [|[[[]|[]|]|[[]|[]|]|]|]; done.
Qed.

(** C30. Connecting.  Where the connection opens, the server takes the CONNECT packet
    of the arguments and answers with a CONNACK: return code 0 gives [SMQTT_OK]
    and a connected client with its identifiers at 0 and 1 (the third is left
    as [malloc] gave it); any other code gives the status that stands for it
    and no client, and closes the connection. *)
Theorem smqtt_connect_result n K junk ip port p code :
  connect_ok p → zlen (cp_client_id p) < MAX_XLIENT_ID_CHARS →
  nul_free ip → zlen ip < MAX_HOSTNAME_CHARS →
  zlen (mqtt_connect p) ≤ BUFFER_SIZE → byte_range code →
  triple (in_conversation n (connect_conversation ip port p code K))
    (connect_with (Some junk) ip port p)
    (λ r s, r = (connack_status code,
                 if decide (code = Connection_Accepted) then Some (Some (new_client ip port p junk)) else None) ∧
            in_conversation n K s).
Proof using Type.
  exact (connect_result_spec n K junk ip port p code).
Qed.

(** Any packet the deserializer understands, other than a CONNACK, is taken
    for an acceptance: the client comes out connected. *)
Theorem smqtt_connect_accepts_any_reply n K junk ip port p reply resp :
  connect_ok p → zlen (cp_client_id p) < MAX_XLIENT_ID_CHARS →
  nul_free ip → zlen ip < MAX_HOSTNAME_CHARS → zlen (mqtt_connect p) ≤ BUFFER_SIZE →
  0 < zlen reply ≤ BUFFER_SIZE →
  (∀ rest, deserialize_response (reply ++ rest) (zlen reply) = Ok (Some resp)) → type resp ≠ CONNACK →
  triple (in_conversation n (opens srv ip (u16 port) (sends srv (mqtt_connect p) (gets srv reply K))))
    (connect_with (Some junk) ip port p)
    (λ r s, r = (SMQTT_OK, Some (Some (new_client ip port p junk))) ∧ in_conversation n K s).
Proof using Type.
  intros Hp Hid Hip Hipl Hl Hrl Hr Ht. unfold connect_with, smqtt_connect, smqtt_connect_internal.
  pose proof (co_client_id _ Hp) as (_ & Hnul & _).
  rewrite decide_False by (rewrite !strlen_nul_free by done; lia). rewrite !c_chars_nul_free by done.
  set (c := mk_client ip (cp_client_id p) (u16 port) false 0 1 junk (Some srv)).
  assert (Hc : server c = Some srv) by done. apply conv_open; [done..|].
  rewrite (decide_False (P := SMQTT_OK ≠ SMQTT_OK)) by auto.
  apply (conv_send srv c Hc);
    [intros buffer; exact (make_connect_mqtt p buffer BUFFER_SIZE Hp)|done|].
  eapply triple_bind; [apply (conv_await srv c Hc); lia|]. intros sz. apply triple_pure. intros ->.
  rewrite (decide_True (P := zlen reply > 0)) by lia.
  apply (conv_parse _ _ _ _ (λ _ r, r = resp)); [intros rest; by eexists|].
  intros m ? ->. eapply triple_pre; [|intros s [_ Hs]; exact Hs].
  destruct (type resp); try done; apply conv_free, conv_ret.
Qed.

(** A client identifier of 24 characters or more, or a host name of 100 or
    more, is refused without a message, and with the status [SMQTT_OK]: the
    caller's client is not written, nothing is sent. *)
Theorem smqtt_connect_too_long junk ip port p s :
  MAX_XLIENT_ID_CHARS ≤ strlen (cp_client_id p) ∨ MAX_HOSTNAME_CHARS ≤ strlen ip →
  connect_with (Some junk) ip port p s = Ok ((SMQTT_OK, None), s).
Proof using Type.
  intros Hl. unfold connect_with, smqtt_connect, smqtt_connect_internal. rewrite decide_True by lia. done.
Qed.

End connect.

(** Guards: on a client that is not connected every operation that checks
    answers [SMQTT_NOT_CONNECTED], and a QoS above 2 is answered
    [SMQTT_INVALID]; neither touches the server, the buffers or the client. *)
Theorem client_guards {W} (c : smqtt_client W) s topic msg qos retain count topics qoss :
  (connected c = false →
     smqtt_ping c s = Ok (SMQTT_NOT_CONNECTED, s) ∧
     smqtt_publish c topic msg qos retain s = Ok ((SMQTT_NOT_CONNECTED, c), s) ∧
     smqtt_subscribe c count topics qoss s = Ok ((SMQTT_NOT_CONNECTED, c), s) ∧
     smqtt_unsubscribe c count topics s = Ok ((SMQTT_NOT_CONNECTED, c), s)) ∧
  (connected c = true → 2 < qos → smqtt_publish c topic msg qos retain s = Ok ((SMQTT_INVALID, c), s)).
Proof.
  split.
  - intros Hc. unfold smqtt_ping, smqtt_publish, smqtt_subscribe, smqtt_unsubscribe. by rewrite Hc.
  - intros Hc Hq. unfold smqtt_publish. rewrite Hc. cbn [negb]. by rewrite decide_True by (unfold QoS2; lia).
Qed.

(** * A scripted broker

    It accepts everything and delivers the packets of its script in turn. *)
Definition scripted : server_t (list (list Z)) := {|
  srv_connect _ _ _ w := Ok (SMQTT_NET_OK, w);
  srv_send _ _ w := Ok (SMQTT_NET_OK, w);
  srv_receive buffer _ w :=
    match w with p :: w' => Ok (zlen p, splice buffer 0 p, w') | [] => Ok (0, buffer, w) end;
  srv_disconnect w := Ok (SMQTT_NET_OK, w)
|}.

Lemma scripted_sends bs (K : list (list Z) → Prop) w : K w → sends scripted bs K w.
Proof. intros HK buffer _ _. by exists w. Qed.
Lemma scripted_gets p (K : list (list Z) → Prop) w : K w → gets scripted p K (p :: w).
Proof. intros HK buffer _. by exists w. Qed.
Lemma scripted_opens ip port (K : list (list Z) → Prop) w : K w → opens scripted ip port K w.
Proof. intros HK. by exists w. Qed.
Lemma scripted_closes (K : list (list Z) → Prop) w : K w → closes scripted K w.
Proof. intros HK. by exists SMQTT_NET_OK, w. Qed.

Lemma in_initial (K : list (list Z) → Prop) w : K w → in_conversation 0 K (initial_sys w).
Proof. intros HK. by split_and!. Qed.

Definition sample_client : smqtt_client (list (list Z)) :=
  mk_client [49] [97] 1883 true 0 1 0 (Some scripted).

Definition finished (w : list (list Z)) : Prop := w = [].

Lemma smqtt_publish_completes_witness :
  ∃ r s, smqtt_publish sample_client [97; 47; 98] (Some [104; 105]) 2 false
           (initial_sys [mqtt_ack PUBREC 0 1; mqtt_ack PUBCOMP 0 1]) = Ok (r, s) ∧
    r = (SMQTT_OK, set_publish_id sample_client 1) ∧ in_conversation 0 finished s.
Proof.
  apply (smqtt_publish_completes scripted sample_client eq_refl 0 finished [97; 47; 98] (Some [104; 105]) 2 false).
  - done.
  - by apply (bool_decide_unpack _); vm_compute.
  - split; [repeat constructor; lia|by vm_compute].
  - lia.
  - split; by vm_compute.
  - by vm_compute.
  - apply in_initial. apply scripted_sends. cbn [decide]. apply scripted_gets, scripted_sends, scripted_gets. done.
Defined.

Lemma smqtt_subscribe_completes_witness :
  ∃ r s, smqtt_subscribe sample_client 1 [[97]] [2] (initial_sys [mqtt_suback 2 [mk_sub_result false 0]]) = Ok (r, s) ∧
    r = (SMQTT_OK, set_subscribe_id sample_client 2) ∧ in_conversation 0 finished s.
Proof.
  apply (smqtt_subscribe_completes scripted sample_client eq_refl 0 finished [([97], 2)] [mk_sub_result false 0]).
  - done.
  - repeat constructor; by vm_compute.
  - repeat constructor; by vm_compute.
  - by vm_compute; lia.
  - split; by vm_compute.
  - by vm_compute.
  - apply in_initial, scripted_sends, scripted_gets. done.
Defined.

Lemma smqtt_unsubscribe_completes_witness :
  ∃ r s, smqtt_unsubscribe sample_client 1 [[97]] (initial_sys [mqtt_ack UNSUBACK 0 1]) = Ok (r, s) ∧
    r = (SMQTT_OK, set_unsubscribe_id sample_client 1) ∧ in_conversation 0 finished s.
Proof.
  apply (smqtt_unsubscribe_completes scripted sample_client eq_refl 0 finished [[97]]).
  - done.
  - repeat constructor; by vm_compute.
  - split; by vm_compute.
  - by vm_compute.
  - apply in_initial, scripted_sends, scripted_gets. done.
Defined.

Lemma smqtt_get_next_message_receives_witness :
  ∃ r s, smqtt_get_next_message sample_client
           (initial_sys [mqtt_publish [97] 7 1 false [104; 0; 105]]) = Ok (r, s) ∧
    r = (SMQTT_OK, mk_received (Some 7) (Some [104; 0; 0]) (Some 3)) ∧ in_conversation 1 finished s.
Proof.
  apply (smqtt_get_next_message_receives scripted sample_client eq_refl 0 finished [97] [104; 0; 105] 1 false 7).
  - by apply (bool_decide_unpack _); vm_compute.
  - by vm_compute.
  - lia.
  - lia.
  - by vm_compute.
  - apply in_initial, scripted_gets, scripted_sends. done.
Defined.

Lemma smqtt_connect_result_witness :
  ∃ r s, connect_with scripted (Some 77) [49] 1883 connect_sample (initial_sys [mqtt_connack 5]) = Ok (r, s) ∧
    r = (SMQTT_NOT_AUTHORIZED, None) ∧ in_conversation 0 finished s.
Proof.
  apply (smqtt_connect_result scripted 0 finished 77 [49] 1883 connect_sample 5).
  - apply connect_sample_ok.
  - by vm_compute.
  - by apply (bool_decide_unpack _); vm_compute.
  - by vm_compute.
  - by vm_compute.
  - split; by vm_compute.
  - apply in_initial, scripted_opens, scripted_sends, scripted_gets, scripted_closes. done.
Defined.

Lemma smqtt_connect_accepts_any_reply_witness :
  ∃ r s, connect_with scripted (Some 77) [49] 1883 connect_sample (initial_sys [mqtt_empty PINGRESP]) = Ok (r, s) ∧
    r = (SMQTT_OK, Some (Some (new_client scripted [49] 1883 connect_sample 77))) ∧
    in_conversation 0 finished s.
Proof.
  apply (smqtt_connect_accepts_any_reply scripted 0 finished 77 [49] 1883 connect_sample (mqtt_empty PINGRESP)
           {| type := PINGRESP; body := no_data |}).
  - apply connect_sample_ok.
  - by vm_compute.
  - by apply (bool_decide_unpack _); vm_compute.
  - by vm_compute.
  - by vm_compute.
  - split; by vm_compute.
  - intros rest. apply deserialize_mqtt_empty; [done|auto].
  - done.
  - apply in_initial, scripted_opens, scripted_sends, scripted_gets. done.
Defined.

Lemma smqtt_connect_too_long_witness :
  connect_with scripted (Some 77) (replicate 100 49) 1883 connect_sample (initial_sys []) =
    Ok ((SMQTT_OK, None), initial_sys []).
Proof.
  apply (smqtt_connect_too_long scripted 77 (replicate 100 49) 1883 connect_sample (initial_sys [])).
  right. by vm_compute.
Defined.

Lemma client_guards_witness :
  smqtt_publish sample_client [97] None 3 false (initial_sys []) = Ok ((SMQTT_INVALID, sample_client), initial_sys []).
Proof. apply (client_guards sample_client (initial_sys []) [97] None 3 false 0 [] []); [done|lia]. Defined.
