(* ===== verification/ClientSession.v ===== *)
(** ClientSession: every operation of the blocking client is memory safe on any
    server that keeps the interface's laws, and so is a whole session up to the
    first call that reports a failed send. *)

From S2P Require Import Prelude Protocol Size Wire Serialize Deserialize Codec Server NetworkServer Client ClientSafe.

#[local] Open Scope Z_scope.

(** * Sessions *)

Inductive call :=
  | Ping
  | Publish (topic : list Z) (msg : option (list Z)) (qos : Z) (retain : bool)
  | Subscribe (topics : list (list Z * Z))
  | Unsubscribe (topics : list (list Z))
  | GetNextMessage.

(** The arguments whose packet fits in the send buffer: no serializer checks. *)
Definition call_ok (k : call) : Prop :=
  match k with
  | Publish topic msg _ _ => 9 + strlen topic + opt_len msg ≤ BUFFER_SIZE
  | Subscribe topics => 7 + topics_size true (fst <$> topics) ≤ BUFFER_SIZE
  | Unsubscribe topics => 7 + topics_size false topics ≤ BUFFER_SIZE
  | _ => True
  end.

Definition run_call {W} (c : smqtt_client W) (k : call) : M W (smqtt_status_t * smqtt_client W) :=
  match k with
  | Ping => st ← smqtt_ping c; mret (st, c)
  | Publish topic msg qos retain => smqtt_publish c topic msg qos retain
  | Subscribe topics => smqtt_subscribe c (zlen topics) (fst <$> topics) (snd <$> topics)
  | Unsubscribe topics => smqtt_unsubscribe c (zlen topics) topics
  | GetNextMessage => '(st, _) ← smqtt_get_next_message c; mret (st, c)
  end.

(** How a call reports that a send failed: [smqtt_subscribe] answers -1. *)
Definition send_failed (k : call) (st : smqtt_status_t) : Prop :=
  match k with Subscribe _ => st = SMQTT_raw (-1) | _ => st = SMQTT_SOCKET end.

#[export] Instance send_failed_dec k st : Decision (send_failed k st).
Proof. unfold send_failed. destruct k; apply _. Defined.

(** Calls one after the other, whatever their statuses. *)
Fixpoint run_calls {W} (c : smqtt_client W) (ks : list call) : M W (list smqtt_status_t * smqtt_client W) :=
  match ks with
  | [] => mret ([], c)
  | k :: ks' =>
      '(st, c) ← run_call c k;
      '(sts, c) ← run_calls c ks';
      mret (st :: sts, c)
  end.

(** Connect and, where that gives a client, make the calls. *)
Definition api_calls {W} (network : server_t W) (malloc : option Z) (server_ip : list Z) (port : Z)
    (p : connect_params) (ks : list call)
    : M W (smqtt_status_t * option (list smqtt_status_t * smqtt_client W)) :=
  '(st, r) ← smqtt_connect network malloc server_ip port (cp_client_id p) (cp_user p) (cp_pw p)
    (cp_keep_alive p) (cp_clean p) (is_some (cp_will p)) (cp_will_qos p) (cp_will_retain p)
    (fst <$> cp_will p) (snd <$> cp_will p);
  match r with
  | Some (Some c) => r ← run_calls c ks; mret (st, Some r)
  | _ => mret (st, None)
  end.

(** The same, and drop the connection. *)
Definition api_session {W} (network : server_t W) (malloc : option Z) (server_ip : list Z) (port : Z)
    (p : connect_params) (ks : list call) : M W smqtt_status_t :=
  '(st, r) ← api_calls network malloc server_ip port p ks;
  match r with Some (_, c) => mqtt_drop c | None => mret st end.

(** * Each operation *)

Section session.
Context {W : Type} (srv : server_t W) `{!ServerLaws srv}.

(** Results: the client's server is unchanged, and unless the call reports that a
    send failed the connection is still open. *)
Definition keeps (k : call) : smqtt_status_t * smqtt_client W → sys W → Prop :=
  ends srv (λ r, server r.2 = Some srv) (λ r, ¬ send_failed k r.1).

(** One step of an operation, by its shape. *)
Ltac safe_step :=
  first
    [ apply safe_open_ret; done
    | apply safe_free_ret; done
    | apply safe_free_ret_dead; [done|by intros []]
    | apply safe_ret; [done|by intros []]
    | apply safe_send; [done|solve [auto]|..]
    | apply safe_reply; [done|intros [?|] ?]
    | apply safe_free_then
    | apply triple_ifb; intros ?
    | apply triple_if; intros ? ].

Lemma safe_ping c :
  server c = Some srv → triple (open srv) (smqtt_ping c) (ends srv (λ _, True) (λ st, st ≠ SMQTT_SOCKET)).
Proof using Type*.
  intros Hc. pose proof make_empty_ok as [? ?]. unfold smqtt_ping. repeat safe_step.
Qed.

Lemma safe_publish c topic msg qos retain :
  server c = Some srv → call_ok (Publish topic msg qos retain) →
  triple (open srv) (smqtt_publish c topic msg qos retain) (keeps (Publish topic msg qos retain)).
Proof using Type*.
  intros Hc Hk. unfold keeps, smqtt_publish.
  pose proof (λ id, make_publish_ok topic id qos retain msg Hk).
  pose proof (λ id, make_ack_ok id) as Hack.
  pose proof (Hack (u16 (publish_packet_id c + 1))) as (? & ? & ? & ?).
  repeat safe_step.
Qed.

(** No response carries an identifier of 256 or more. *)
Lemma is_reply_large resp t id :
  response_ok resp → is_ack t = true → 256 ≤ id → is_reply resp t id = false.
Proof using Type.
  intros Hok Ht Hid. unfold is_reply. apply andb_false_iff.
  destruct (bool_decide (type resp = t)); [right|by left]. apply bool_decide_eq_false.
  intros Hb. unfold response_ok in Hok. destruct (body resp); try done;
    apply Hok in Hb; unfold byte_range in Hb; lia.
Qed.

Lemma publish_large_id c topic msg qos retain :
  server c = Some srv → call_ok (Publish topic msg qos retain) → qos = QoS1 ∨ qos = QoS2 →
  255 ≤ publish_packet_id c < 65535 →
  triple (open srv) (smqtt_publish c topic msg qos retain)
    (ends srv (λ r, r.1 ≠ SMQTT_OK) (λ r, r.1 ≠ SMQTT_SOCKET)).
Proof using Type*.
  intros Hc Hk Hq Hid. unfold smqtt_publish. pose proof (λ id, make_publish_ok topic id qos retain msg Hk).
  rewrite (u16_small (publish_packet_id c + 1)) by lia. set (id := publish_packet_id c + 1).
  set (c' := set_publish_id c id). cbv zeta. change (publish_packet_id c') with id.
  assert (Hc' : server c' = Some srv) by done.
  rewrite (decide_False (P := qos = QoS0)) by (unfold QoS0, QoS1, QoS2 in *; lia).
  apply triple_ifb; intros ?; [by apply safe_open_ret|]. apply triple_if; intros ?; [by apply safe_open_ret|].
  apply safe_send; [done|auto|apply safe_ret; [done|by intros []]|].
  apply triple_if; intros ?; (apply safe_reply; [done|]; intros [resp|] Hok; [|by apply safe_open_ret]);
    (rewrite is_reply_large; [by apply safe_free_ret|done|done|lia]).
Qed.

Lemma safe_subscribe c tqs :
  server c = Some srv → call_ok (Subscribe tqs) →
  triple (open srv) (smqtt_subscribe c (zlen tqs) (fst <$> tqs) (snd <$> tqs)) (keeps (Subscribe tqs)).
Proof using Type*.
  intros Hc Hk. unfold keeps, smqtt_subscribe.
  pose proof (λ id, make_subscribe_ok id tqs Hk). repeat safe_step.
Qed.

Lemma safe_unsubscribe c topics :
  server c = Some srv → call_ok (Unsubscribe topics) →
  triple (open srv) (smqtt_unsubscribe c (zlen topics) topics) (keeps (Unsubscribe topics)).
Proof using Type*.
  intros Hc Hk. unfold keeps, smqtt_unsubscribe.
  pose proof (λ id, make_unsubscribe_ok id topics Hk). repeat safe_step.
Qed.

(** Where the status is [SMQTT_OK] the caller has a message of the size reported. *)
Definition has_message (r : smqtt_status_t * received) : Prop :=
  r.1 = SMQTT_OK → ∃ id m size, r.2 = mk_received id (Some m) (Some size) ∧ length m = Z.to_nat size.

Lemma safe_get_next_message c :
  server c = Some srv →
  triple (open srv) (smqtt_get_next_message c) (ends srv has_message (λ r, r.1 ≠ SMQTT_SOCKET)).
Proof using Type*.
  intros Hc. unfold smqtt_get_next_message. eapply triple_bind; [by apply safe_await|].
  intros sz. apply triple_pure. intros Hsz. apply triple_if; intros _; [by apply safe_open_ret|].
  eapply triple_bind; [apply safe_parse; lia|]. intros r. apply triple_pure.
  destruct r as [[t b]|]; intros Hok; [|by apply safe_open_ret]. cbn [type body].
  destruct t; try by apply safe_free_ret. destruct b as [| |d| | | | | | | | |]; try by apply safe_free_ret.
  destruct Hok as [Hd _]. eapply triple_bind; [by apply safe_copy|]. intros message. apply triple_pure. intros Hm.
  assert (Hout : ∀ st id, has_message (st, mk_received id (Some message) (Some (pub_message_size d))))
    by (intros st id _; by eexists _, _, _).
  pose proof (make_ack_ok (pub_packet_id d)) as (? & ? & ? & ?). repeat safe_step.
Qed.

Lemma safe_run_call c k :
  server c = Some srv → call_ok k → triple (open srv) (run_call c k) (keeps k).
Proof using Type*.
  intros Hc Hk. destruct k as [|topic msg qos retain|tqs|topics|]; cbn [run_call].
  - eapply triple_bind; [by apply safe_ping|]. intros st. apply triple_pure. intros _. by apply safe_ret.
  - by apply safe_publish.
  - by apply safe_subscribe.
  - by apply safe_unsubscribe.
  - eapply triple_bind; [by apply safe_get_next_message|]. intros [st out]. apply triple_pure.
    intros _. by apply safe_ret.
Qed.

(** Where no send fails, the calls end and leave the connection open. *)
Lemma safe_run_calls ks : ∀ c,
  sends_succeed srv → server c = Some srv → Forall call_ok ks →
  triple (open srv) (run_calls c ks) (λ r s, server r.2 = Some srv ∧ open srv s).
Proof using Type*.
  induction ks as [|k ks IH]; intros c Hsend Hc Hks; cbn [run_calls]; [by apply triple_ret|].
  apply Forall_cons in Hks as [Hk Hks]. eapply triple_bind; [by apply safe_run_call|].
  intros [st c']. apply triple_pure. intros Hc'.
  eapply triple_pre; [|intros s Hs; eapply (open_if_holds srv); [by right|exact Hs]].
  eapply triple_bind; [by apply IH|]. intros [sts c2]. apply triple_pure. intros Hc2. by apply triple_ret.
Qed.

(** A run of calls up to the first that reports a failed send. *)
Definition first_failure (c : smqtt_client W) (ks : list call) (s : sys W) : Prop :=
  ∃ ks1 k ks2 sts st c' s', ks = ks1 ++ k :: ks2 ∧ run_calls c (ks1 ++ [k]) s = Ok ((sts ++ [st], c'), s') ∧
    Forall2 (λ k st, ¬ send_failed k st) ks1 sts ∧ send_failed k st.

Lemma run_calls_cases ks : ∀ c s,
  server c = Some srv → Forall call_ok ks → open srv s →
  (∃ r s', run_calls c ks s = Ok (r, s') ∧ server r.2 = Some srv ∧ open srv s') ∨ first_failure c ks s.
Proof using Type*.
  induction ks as [|k ks IH]; intros c s Hc Hks Ho; cbn [run_calls]; [left; by eexists ([], c), s|].
  apply Forall_cons in Hks as [Hk Hks].
  destruct (safe_run_call c k Hc Hk s Ho) as ([st c'] & s1 & Hr & Hc' & Ho'). cbn [fst snd] in *.
  destruct (decide (send_failed k st)) as [Hf|Hf].
  { right. exists [], k, ks, [], st, c', s1. split; [done|]. split; [|done]. cbn [app run_calls].
    rewrite M_bind_run, Hr, bind_ok, M_bind_run. done. }
  destruct (IH c' s1 Hc' Hks (open_if_holds srv _ _ (or_introl Hf) Ho'))
    as [([sts c2] & s2 & Hrs & Hc2 & Ho2)|(ks1 & k' & ks2 & sts & st' & c2 & s2 & -> & Hrs & Hall & Hf')].
  - left. exists (st :: sts, c2), s2. split; [|done]. by rewrite M_bind_run, Hr, bind_ok, M_bind_run, Hrs.
  - right. exists (k :: ks1), k', ks2, (st :: sts), st', c2, s2. split; [done|]. split; [|by split; [constructor|]].
    cbn [app run_calls]. by rewrite M_bind_run, Hr, bind_ok, M_bind_run, Hrs.
Qed.

Lemma safe_close c φ :
  server c = Some srv → φ →
  triple (open_if srv φ) (close_server c) (λ _, buffers_ok).
Proof using Type*.
  intros Hc Hφ s [? Hl]. unfold close_server, get_server. rewrite Hc, bind_ok.
  destruct (law_disconnect (world s) (Hl (or_introl Hφ))) as (st & w & ->). rewrite bind_ok. by do 2 eexists.
Qed.

(** ** Connecting *)

(** What connecting leaves: nothing, or a connected client of this server on
    an open connection. *)
Definition connect_keeps (a : smqtt_status_t * option (option (smqtt_client W))) (s : sys W) : Prop :=
  buffers_ok s ∧
  match a.2 with Some (Some c) => server c = Some srv ∧ connected c = true ∧ live (world s) | _ => True end.

Lemma connect_keeps_none (st : smqtt_status_t) P :
  (∀ s, P s → buffers_ok s) → triple P (mret (st, None)) connect_keeps.
Proof using Type. intros HP. apply triple_ret. intros s Hs. split; [auto|done]. Qed.

Lemma safe_connect_reply c (resp : response_t) :
  server c = Some srv →
  triple (open srv) (_ ← free_response;
    mret (SMQTT_OK, Some (Some (mk_client (hostname c) (clientid c) (port c) true
      (publish_packet_id c) (subscribe_packet_id c) (unsubscribe_packet_id c) (server c))))) connect_keeps.
Proof using Type.
  intros Hc. apply safe_free_then, triple_ret. intros s [? ?]. split; [done|]. by rewrite Hc.
Qed.

Lemma safe_connect malloc ip port p :
  connect_size p ≤ BUFFER_SIZE → nul_free (cp_client_id p) →
  triple (λ s, buffers_ok s ∧ fresh (world s))
    (smqtt_connect srv malloc ip port (cp_client_id p) (cp_user p) (cp_pw p)
       (cp_keep_alive p) (cp_clean p) (is_some (cp_will p)) (cp_will_qos p) (cp_will_retain p)
       (fst <$> cp_will p) (snd <$> cp_will p)) connect_keeps.
Proof using Type*.
  intros Hsz Hid. unfold smqtt_connect, smqtt_connect_internal.
  destruct malloc as [junk|]; [|apply triple_ret; by intros s [? ?]].
  apply triple_if; intros _; [apply connect_keeps_none; by intros s [? ?]|].
  set (c := mk_client _ _ _ _ _ _ _ _).
  eapply triple_bind with (Q := λ st s, buffers_ok s ∧ (st = SMQTT_OK → live (world s))).
  { intros s [Hb Hf]. unfold get_server. cbn [server c]. rewrite bind_ok.
    cbn [hostname Client.port c].
    destruct (law_connect (c_chars ip) (u16 port) 30000 (world s) Hf) as (st & w & -> & Hst).
    rewrite bind_ok. do 2 eexists. split; [done|]. split; [done|]. destruct st; [|done]. intros _. by apply Hst. }
  intros st. apply triple_if; intros Hst; [apply connect_keeps_none; by intros s [? ?]|].
  eapply triple_pre with (P' := open srv); [|intros s [? Hl]; split; [done|apply Hl; by destruct (decide (st = SMQTT_OK))]].
  eapply triple_bind; [apply safe_transmit; [done|]|].
  { cbn [clientid c]. rewrite c_chars_nul_free by done. by apply make_connect_make_ok. }
  intros st'. apply triple_pure. intros _. apply triple_if; intros Hst'; [apply connect_keeps_none; by intros s [? ?]|].
  eapply triple_pre with (P' := open srv);
    [|intros s Hs; eapply (open_if_holds srv); [|exact Hs]; left; by destruct (decide (st' = SMQTT_OK))].
  eapply triple_bind; [by apply safe_await|]. intros sz. apply triple_pure. intros Hsz'.
  assert (Hrefuse : ∀ st'' : smqtt_status_t, triple (open srv) (_ ← close_server c; mret (st'', None)) connect_keeps).
  { intros st''. eapply triple_pre; [|apply (open_if_open srv True)].
    eapply triple_bind; [by apply safe_close|]. intros []. by apply connect_keeps_none. }
  apply triple_if; intros _; [|apply Hrefuse].
  eapply triple_bind; [apply safe_parse; lia|]. intros [resp|]; apply triple_pure; intros _;
    [|apply connect_keeps_none; by intros s [? ?]].
  destruct (type resp), (body resp); try by apply safe_connect_reply.
  apply triple_if; intros _; [|by apply safe_connect_reply].
  eapply triple_pre; [|apply (open_if_open srv True)].
  eapply triple_bind; [by apply safe_close|]. intros [].
  eapply triple_bind with (Q := λ _, buffers_ok); [intros s ?; by do 2 eexists|]. intros [].
  by apply connect_keeps_none.
Qed.

Lemma safe_session malloc ip port p ks s :
  connect_size p ≤ BUFFER_SIZE → nul_free (cp_client_id p) → Forall call_ok ks →
  buffers_ok s → fresh (world s) →
  (sends_succeed srv → is_ok (api_session srv malloc ip port p ks s) = true) ∧
  (is_ok (api_session srv malloc ip port p ks s) = true ∨
   ∃ ks1 k ks2 st0 sts st c s', ks = ks1 ++ k :: ks2 ∧
     api_calls srv malloc ip port p (ks1 ++ [k]) s = Ok ((st0, Some (sts ++ [st], c)), s') ∧
     Forall2 (λ k st, ¬ send_failed k st) ks1 sts ∧ send_failed k st).
Proof using Type*.
  intros Hsz Hid Hks Hb Hf.
  destruct (safe_connect malloc ip port p Hsz Hid s) as ([st r] & s' & Hconn & Hb' & Hr); [done|].
  assert (Hcalls : ∀ ks, api_calls srv malloc ip port p ks s =
    (match r with Some (Some c) => r ← run_calls c ks; mret (st, Some r) | _ => mret (st, None) end : M W _) s').
  { intros ks'. unfold api_calls. by rewrite M_bind_run, Hconn, bind_ok. }
  unfold api_session. rewrite M_bind_run, Hcalls. destruct r as [[c|]|]; [|by split; [|left]..].
  destruct Hr as (Hc & _ & Hl). assert (Ho : open srv s') by by split.
  assert (Hend : ∀ c s, server c = Some srv → open srv s → is_ok (mqtt_drop c s) = true).
  { intros c' s1 Hc' Ho'. unfold mqtt_drop. rewrite M_bind_run.
    destruct (safe_close c' True Hc' I s1 (open_if_open srv True s1 Ho')) as (u & s3 & -> & _). done. }
  split.
  - intros Hsend. rewrite M_bind_run.
    destruct (safe_run_calls ks c Hsend Hc Hks s' Ho) as ([sts c'] & s1 & -> & Hc' & Ho'). by apply Hend.
  - destruct (run_calls_cases ks c s' Hc Hks Ho) as [([sts c'] & s1 & Hrs & Hc' & Ho')|Hfail].
    + left. rewrite M_bind_run, Hrs. by apply Hend.
    + right. destruct Hfail as (ks1 & k & ks2 & sts & st' & c' & s1 & Hks1 & Hrs & Hall & Hf').
      exists ks1, k, ks2, st, sts, st', c', s1. split; [done|]. rewrite Hcalls. split; [|done].
      by rewrite M_bind_run, Hrs.
Qed.

End session.

(** * The theorems *)

(** A program that starts with zeroed buffers. *)
Lemma initial_buffers_ok {W} (w : W) : buffers_ok (initial_sys w).
Proof. split; [done|apply quiet_zeros]. Qed.

(** C1. Memory safety of the client.  On any server that keeps the laws of the
    interface, whatever bytes it delivers in reply and whatever fails, a session
    (connect, any calls whose packets fit in the send buffer, drop) runs without a
    fault where no send fails: no read or write outside a buffer, no null or
    indeterminate pointer, no loop without end.  Where sends may fail, it runs
    without a fault or else up to and with the first call that reports a failed
    send; the library frees the connection on such a send and gives no way to see
    that, so over TCP the next call or the drop dereferences a null pointer
    ([network_partial_send_poisons]). *)
Theorem api_session_safe {W} (network : server_t W) `{!ServerLaws network}
    (malloc : option Z) (ip : list Z) (port : Z) (p : connect_params) (ks : list call) (w : W) :
  connect_size p ≤ BUFFER_SIZE → nul_free (cp_client_id p) → Forall call_ok ks → fresh w →
  (sends_succeed network → is_ok (api_session network malloc ip port p ks (initial_sys w)) = true) ∧
  (is_ok (api_session network malloc ip port p ks (initial_sys w)) = true ∨
   ∃ ks1 k ks2 st0 sts st c s', ks = ks1 ++ k :: ks2 ∧
     api_calls network malloc ip port p (ks1 ++ [k]) (initial_sys w) = Ok ((st0, Some (sts ++ [st], c)), s') ∧
     Forall2 (λ k st, ¬ send_failed k st) ks1 sts ∧ send_failed k st).
Proof. intros. apply safe_session; [done..|apply initial_buffers_ok|done]. Qed.

(** Over TCP, with an operating system that sends all it is given and delivers what
    comes in pieces: a peer that accepts the connection and then sends garbage. *)
Lemma segmented_sends : sends_succeed (@create_network_server segmented _).
Proof.
  intros buffer length w st w' (i & fd & Hi & Hs & Hfd) Hl. unfold server_send. cbn [srv_send create_network_server].
  unfold network_send, deref_impl, get_socket. rewrite Hi, bind_ok, Hs, bind_ok. intros H.
  apply bind_ok_inv in H as (? & _ & H). apply bind_ok_inv in H as (? & _ & H). apply bind_ok_inv in H as (? & _ & H).
  unfold read_bytes in H. case_decide as Hf; [|done]. rewrite bind_ok in H. cbn [os_send segmented_os] in H.
  assert (zlen (slice buffer 0 length) = length) as Hz
    by (unfold fits, slice, zlen in *; rewrite length_take, length_drop; lia).
  rewrite Hz, decide_False in H; [by injection H as <-|]. unfold BUFFER_SIZE in Hl. rewrite u64_small; lia.
Qed.

Lemma api_session_safe_witness :
  is_ok (api_session create_network_server (Some 77) [49] 1883 connect_sample
           [Ping; Publish [97] (Some [98]) 2 true; Subscribe [([97], 1)]; GetNextMessage]
           (initial_sys (mk_net (Some new_impl) (mk_segmented [[32; 2; 0]; [0; 48; 200]; [1; 255]; [255]])))) = true.
Proof.
  apply (api_session_safe create_network_server (Some 77) [49] 1883 connect_sample
           [Ping; Publish [97] (Some [98]) 2 true; Subscribe [([97], 1)]; GetNextMessage]).
  - by vm_compute.
  - apply (bool_decide_unpack _). by vm_compute.
  - repeat constructor; by vm_compute.
  - by split; [eexists|].
  - exact segmented_sends.
Defined.

(** No serializer checks the room it has: a publish whose topic and message
    together exceed the send buffer writes past its end, on any server. *)
Theorem smqtt_publish_overflow {W} (c : smqtt_client W) topic msg qos retain s :
  connected c = true → 0 ≤ qos ≤ 2 → zlen (send_buffer s) = BUFFER_SIZE →
  BUFFER_SIZE < strlen topic + opt_len msg →
  smqtt_publish c topic msg qos retain s = Fault OobWrite.
Proof.
  intros Hc Hq Hs Hl.
  assert (Hmake : ∀ id, make_publish_message (send_buffer s) BUFFER_SIZE topic id qos retain msg = Fault OobWrite).
  { intros id. rewrite make_publish_writes. unfold writes. rewrite decide_False; [done|].
    autorewrite with zlen. size_field. change (zlen (c_chars topic)) with (strlen topic).
    assert (zlen (match msg with Some m => c_chars m | None => [] end) = opt_len msg) as -> by by destruct msg.
    pose proof (zlen_nonneg (if decide (qos >= QoS1) then ser_short id else [])).
    pose proof (zlen_nonneg (ser_short (strlen topic))). lia. }
  unfold smqtt_publish. rewrite Hc. cbn [negb]. rewrite decide_False by (unfold QoS2; lia).
  case_decide; rewrite M_bind_run; unfold transmit; by rewrite Hmake.
Qed.

Lemma smqtt_publish_overflow_witness :
  smqtt_publish (mk_client [] [] 1883 true 0 1 0 (Some create_local_server)) [97]
    (Some (replicate 1024 98)) 1 false (initial_sys tt) = Fault OobWrite.
Proof.
  apply (smqtt_publish_overflow (mk_client [] [] 1883 true 0 1 0 (Some create_local_server)) [97]
           (Some (replicate 1024 98)) 1 false (initial_sys tt)); try done.
Defined.

(** ** After a disconnect *)

(** [smqtt_disconnect] leaves the client marked as connected with a server
    whose implementation is freed: over TCP the next ping, publish or
    disconnect dereferences a null pointer. *)
Theorem disconnect_leaves_client_dangling {OS} `{Os OS} (c : smqtt_client (net_state OS)) s st s' :
  server c = Some create_network_server → connected c = true → zlen (send_buffer s) = BUFFER_SIZE →
  smqtt_disconnect c s = Ok (st, s') →
  smqtt_ping c s' = Fault NullDeref ∧ smqtt_disconnect c s' = Fault NullDeref.
Proof.
  intros Hc Hconn Hs Hd.
  assert (Hempty : ∀ buffer, zlen buffer = BUFFER_SIZE →
    (∃ n m, make_pingreq_message buffer BUFFER_SIZE = Ok (n, m)) ∧
    (∃ n m, make_disconnect_message buffer BUFFER_SIZE = Ok (n, m) ∧ zlen m = BUFFER_SIZE)).
  { intros buffer Hb. pose proof make_empty_ok as [Hp Hdis].
    destruct (Hp buffer Hb) as (n & m & Hp' & _). destruct (Hdis buffer Hb) as (n' & m' & Hd' & _ & ?).
    split; [by do 2 eexists|]. exists n', m'. split; [done|]. lia. }
  assert (Hs' : zlen (send_buffer s') = BUFFER_SIZE ∧ impl (world s') = None).
  { unfold smqtt_disconnect, transmit, get_server in Hd. rewrite M_bind_run in Hd.
    destruct (Hempty _ Hs) as [_ (n & m & Hmk & Hm)]. rewrite Hmk, Hc, !bind_ok in Hd.
    apply bind_ok_inv in Hd as ([st1 s1] & Hsend & Hd).
    apply bind_ok_inv in Hsend as ([st0 w0] & _ & [= <- <-]).
    rewrite M_bind_run in Hd. unfold close_server, get_server in Hd. rewrite Hc, bind_ok in Hd.
    apply bind_ok_inv in Hd as ([u s2] & Hcl & Hd).
    apply bind_ok_inv in Hcl as ([st2 w2] & Hnet & [= <- <-]).
    unfold server_disconnect in Hnet. cbn [srv_disconnect create_network_server] in Hnet.
    unfold network_disconnect in Hnet. apply bind_ok_inv in Hnet as (i & _ & Hnet).
    apply bind_ok_inv in Hnet as (fd & _ & [= <- <-]). by case_decide; injection Hd as <- <-. }
  destruct Hs' as [Hs' Hi]. destruct (Hempty _ Hs') as [(n & m & Hmk) (n' & m' & Hmk' & _)].
  unfold smqtt_ping, smqtt_disconnect. rewrite Hconn. cbn [negb].
  rewrite !M_bind_run. unfold transmit, get_server. rewrite Hmk, Hmk', Hc, !bind_ok.
  unfold server_send. cbn [srv_send create_network_server]. unfold network_send, deref_impl. by rewrite Hi.
Qed.

Lemma disconnect_leaves_client_dangling_witness :
  smqtt_ping (mk_client [] [] 1883 true 0 1 0 (Some create_network_server))
      (mk_sys (mqtt_empty DISCONNECT ++ replicate 1022 0) (replicate 1024 0) 0
         (mk_net None (mk_tcp [] [224; 0] 10))) = Fault NullDeref ∧
  smqtt_disconnect (mk_client [] [] 1883 true 0 1 0 (Some create_network_server))
      (mk_sys (mqtt_empty DISCONNECT ++ replicate 1022 0) (replicate 1024 0) 0
         (mk_net None (mk_tcp [] [224; 0] 10))) = Fault NullDeref.
Proof.
  apply (disconnect_leaves_client_dangling (mk_client [] [] 1883 true 0 1 0 (Some create_network_server))
           (initial_sys (connected_to [] 10)) SMQTT_OK); try done.
Defined.

(** C37. Packet identifiers run out.  After 255 publishes the next identifier is
    256, and from there to 65535 no publish at QoS 1 or 2 succeeds, whatever
    the server does: it returns, and not with [SMQTT_OK]. *)
Theorem publish_ids_exhausted {W} (srv : server_t W) `{!ServerLaws srv} c topic msg qos retain s :
  server c = Some srv → call_ok (Publish topic msg qos retain) → qos = QoS1 ∨ qos = QoS2 →
  255 ≤ publish_packet_id c < 65535 → open srv s →
  ∃ st c' s', smqtt_publish c topic msg qos retain s = Ok ((st, c'), s') ∧ st ≠ SMQTT_OK.
Proof.
  intros Hc Hk Hq Hid Ho.
  destruct (publish_large_id srv c topic msg qos retain Hc Hk Hq Hid s Ho) as ([st c'] & s' & Hr & Hst & _).
  by exists st, c', s'.
Qed.

(** The broker's PUBACK carries the right identifier, 256; it reads as 0. *)
Lemma publish_ids_exhausted_witness :
  ∃ st c' s',
    smqtt_publish (mk_client [] [] 1883 true 255 1 0 (Some create_network_server)) [97] (Some [98]) 1 false
      (initial_sys (connected_to ([64; 2; 1; 0]) 10)) = Ok ((st, c'), s') ∧ st ≠ SMQTT_OK.
Proof.
  apply (publish_ids_exhausted create_network_server
           (mk_client [] [] 1883 true 255 1 0 (Some create_network_server)) [97] (Some [98]) 1 false).
  - done.
  - by vm_compute.
  - by left.
  - split; by vm_compute.
  - split; [apply initial_buffers_ok|apply connected_live].
Defined.

(** ** After the peer has gone *)

(** A broken connection looks healthy, with an operating system whose [recv]
    reports the end of the stream.  The peer has closed it and sends fail with -1; the last response received was a PINGRESP.  Every ping then
    reports [SMQTT_OK]: the failed send and the end of the stream go unnoticed
    and the old PINGRESP in the receive buffer is read again. *)
Theorem ping_on_closed_connection {OS} `{Os OS, !OsLaws OS, !Stream OS, !WholeReads OS} (c : smqtt_client (net_state OS)) s rest :
  server c = Some create_network_server → connected c = true →
  net_live (world s) → buffers_ok s → receive_buffer s = mqtt_empty PINGRESP ++ rest →
  (∀ fd bs, (os_send fd bs (os (world s))).1 = -1 ∧ pending (os_send fd bs (os (world s))).2 = []) →
  ∃ s', smqtt_ping c s = Ok (SMQTT_OK, s') ∧
    net_live (world s') ∧ pending (os (world s')) = [] ∧ receive_buffer s' = receive_buffer s.
Proof.
  intros Hc Hconn Hlive [Hsb [Hrb Hrs _]] Hold Hsend.
  pose proof Hlive as (i & fd & Hi & Hfd & Hfdr).
  unfold smqtt_ping. rewrite Hconn. cbn [negb]. rewrite M_bind_run. unfold transmit, get_server.
  rewrite (proj1 (make_empty_mqtt _ BUFFER_SIZE)), writes_fits, bind_ok, Hc, bind_ok by (rewrite Hsb; done).
  set (m := mqtt_empty PINGREQ ++ _). change (zlen (mqtt_empty PINGREQ)) with 2.
  destruct (Hsend fd (slice m 0 2)) as [Hr Hp].
  destruct (os_send fd (slice m 0 2) (os (world s))) as [r o] eqn:Ho. cbn [fst snd] in Hr, Hp. subst r.
  unfold server_send. cbn [srv_send create_network_server].
  rewrite (network_send_outcomes m 2 (world s) i fd (-1) o Hi Hfd), decide_False, !bind_ok; [|lia| |lia|done|lia].
  2:{ unfold m, zlen. rewrite length_app, length_drop. unfold zlen, BUFFER_SIZE in Hsb. lia. }
  cbn [status_from_net]. rewrite decide_False by auto. rewrite M_bind_run. unfold await, get_server.
  rewrite Hc, bind_ok. cbn [receive_buffer world send_buffer responses].
  unfold server_receive. cbn [srv_receive create_network_server].
  destruct (network_receive_eof (receive_buffer s) BUFFER_SIZE (mk_net (Some i) o)) as (w' & -> & Hl' & Hp');
    [by exists i, fd|done|done|by rewrite Hrs|]. rewrite !bind_ok. rewrite M_bind_run. unfold parse.
  cbn [receive_buffer world send_buffer responses]. rewrite Hold.
  rewrite (deserialize_mqtt_empty PINGRESP rest 2) by (lia || auto). rewrite !bind_ok.
  cbn [type]. rewrite decide_True by done. eexists. by split_and!.
Qed.

Lemma ping_on_closed_connection_witness :
  ∃ s', smqtt_ping (mk_client [] [] 1883 true 0 1 0 (Some create_network_server))
      (mk_sys (replicate 1024 0) (mqtt_empty PINGRESP ++ replicate 1022 0) 0 (connected_to [] (-1))) =
        Ok (SMQTT_OK, s') ∧
    net_live (world s') ∧ pending (os (world s')) = [] ∧
    receive_buffer s' = mqtt_empty PINGRESP ++ replicate 1022 0.
Proof.
  apply (ping_on_closed_connection (mk_client [] [] 1883 true 0 1 0 (Some create_network_server))
           (mk_sys (replicate 1024 0) (mqtt_empty PINGRESP ++ replicate 1022 0) 0 (connected_to [] (-1)))
           (replicate 1022 0)).
  - done.
  - done.
  - apply connected_live.
  - split; [done|]. split; [|done|by vm_compute].
    constructor; [by split; vm_compute|]. constructor; [by split; vm_compute|]. apply Forall_replicate. split; lia.
  - done.
  - by intros fd bs.
Defined.
