(* ===== verification/ClientTrace.v ===== *)
(** ClientTrace: what a successful call proves about the wire.  The client runs
    on a server that records its traffic; nothing is assumed of the server. *)

From S2P Require Import Prelude Protocol Size Wire Serialize Deserialize Codec Server Client ClientProtocol.

#[local] Open Scope Z_scope.

Section trace.
Context {W : Type} (srv : server_t W).

(** Packet [p] was sent; a message of type [t] with identifier [id] was
    received. *)
Definition acknowledged (t : message_type_t) (id : Z) (e : event) : Prop :=
  ∃ sz buffer resp, e = Received sz buffer ∧
    deserialize_response buffer sz = Ok (Some resp) ∧
    type resp = t ∧ body_packet_id (body resp) = Some id.

(** The events of a publish of packet [p] that was acknowledged. *)
Inductive publish_trace (p : list Z) (qos id : Z) : list event → Prop :=
  | trace_qos0 :
      qos = QoS0 → publish_trace p qos id [Sent p]
  | trace_qos1 e :
      qos = QoS1 → acknowledged PUBACK id e → publish_trace p qos id [Sent p; e]
  | trace_qos2 e e' :
      qos = QoS2 → acknowledged PUBREC id e → acknowledged PUBCOMP id e' →
      publish_trace p qos id [Sent p; e; Sent (mqtt_ack PUBREL 2 id); e'].

Local Abbreviation lsys := (sys (W * list event)).

(** [s'] follows [s] with the events [es]. *)
Definition extends (s s' : lsys) (es : list event) : Prop := (world s').2 = (world s).2 ++ es.

Lemma extends_refl s : extends s s [].
Proof using Type. unfold extends. by rewrite app_nil_r. Qed.

Lemma extends_trans s1 s2 s3 es es' : extends s1 s2 es → extends s2 s3 es' → extends s1 s3 (es ++ es').
Proof using Type. unfold extends. intros H1 H2. by rewrite H2, H1, app_assoc. Qed.

Variable c : smqtt_client (W * list event).
Hypothesis Hc : server c = Some (logged srv).

Lemma transmit_trace make bs s st s' :
  (∀ buffer, make buffer BUFFER_SIZE = writes bs buffer) →
  transmit c make s = Ok (st, s') → extends s s' [Sent bs].
Proof using Type*.
  intros Hm. unfold transmit, get_server. rewrite Hm, Hc. intros H.
  apply bind_ok_inv in H as ([n m] & Hw & H). apply writes_ok in Hw as (-> & -> & _).
  rewrite bind_ok in H. apply bind_ok_inv in H as ([st0 w] & Hs & H).
  injection H as _ <-. unfold server_send in Hs. cbn [srv_send logged] in Hs.
  apply bind_ok_inv in Hs as ([st1 w1] & _ & H). injection H as _ <-.
  unfold extends. cbn [world snd]. do 2 f_equal. f_equal.
  unfold slice, zlen. rewrite Nat2Z.id. change (Z.to_nat 0) with 0%nat. rewrite drop_0. apply take_app_length.
Qed.

Lemma await_trace s sz s' :
  await c s = Ok (sz, s') → extends s s' [Received sz (receive_buffer s')].
Proof using Type*.
  unfold await, get_server. rewrite Hc, bind_ok. intros H.
  apply bind_ok_inv in H as ([[sz0 b] w] & Hr & H). injection H as <- <-.
  unfold server_receive in Hr. cbn [srv_receive logged] in Hr.
  apply bind_ok_inv in Hr as ([[sz1 b1] w1] & _ & H). by injection H as <- <- <-.
Qed.

(** A reply that was parsed and accepted is an acknowledgement. *)
Lemma reply_trace {A} (k : option response_t → M (W * list event) A) s a s' :
  (sz ← await c; r ← parse sz; k r) s = Ok (a, s') →
  ∃ e r s1, extends s s1 [e] ∧ k r s1 = Ok (a, s') ∧
    ∀ resp t id, r = Some resp → is_reply resp t id = true → acknowledged t id e.
Proof using Type*.
  rewrite M_bind_run. intros H. apply bind_ok_inv in H as ([sz s1] & Ha & H).
  apply await_trace in Ha. rewrite M_bind_run in H. apply bind_ok_inv in H as ([r s2] & Hp & H).
  unfold parse in Hp. apply bind_ok_inv in Hp as (r' & Hd & Hp). injection Hp as -> Hs2.
  exists (Received sz (receive_buffer s1)), r, s2. split_and!; [|done|].
  - subst s2. by destruct r.
  - intros resp t id -> Hr. exists sz, (receive_buffer s1), resp. split_and!; [done|done|..];
      apply andb_true_iff in Hr as [Ht%bool_decide_eq_true Hid%bool_decide_eq_true]; done.
Qed.

Lemma free_trace {A} (k : M (W * list event) A) s a s' :
  (_ ← free_response; k) s = Ok (a, s') → ∃ s1, extends s s1 [] ∧ k s1 = Ok (a, s').
Proof using Type.
  rewrite M_bind_run. unfold free_response. rewrite bind_ok. intros H. eexists. split; [|exact H].
  unfold extends. cbn [world]. by rewrite app_nil_r.
Qed.

Lemma send_trace {A} make bs (fail : smqtt_status_t → M (W * list event) A) (k : M (W * list event) A) s a s' :
  (∀ buffer, make buffer BUFFER_SIZE = writes bs buffer) →
  (st ← transmit c make; if decide (st ≠ SMQTT_OK) then fail st else k) s = Ok (a, s') →
  ∃ st s1, extends s s1 [Sent bs] ∧
    ((st ≠ SMQTT_OK ∧ fail st s1 = Ok (a, s')) ∨ k s1 = Ok (a, s')).
Proof using Type*.
  intros Hm. rewrite M_bind_run. intros H. apply bind_ok_inv in H as ([st s1] & Ht & H).
  eapply transmit_trace in Ht; [|done]. exists st, s1. split; [done|]. case_decide; auto.
Qed.

(** The two steps of a handshake, in a call that ends in success. *)
Lemma send_accepted {A} make bs (k : M (W * list event) (smqtt_status_t * A)) x s a s' :
  (∀ buffer, make buffer BUFFER_SIZE = writes bs buffer) →
  (st ← transmit c make; if decide (st ≠ SMQTT_OK) then mret (st, x) else k) s = Ok ((SMQTT_OK, a), s') →
  ∃ s1, extends s s1 [Sent bs] ∧ k s1 = Ok ((SMQTT_OK, a), s').
Proof using Type*.
  intros Hm H. eapply (send_trace make bs (λ st, mret (st, x)) k) in H as (st & s1 & He & [[Hst H]|H]);
    [by injection H as -> _ _|by eexists|done].
Qed.

Lemma reply_accepted {A} t id (k : M (W * list event) (smqtt_status_t * A)) none bad s a s' :
  none.1 ≠ SMQTT_OK → bad.1 ≠ SMQTT_OK →
  (sz ← await c; r ← parse sz;
   match r with
   | None => mret none
   | Some resp =>
       if is_reply resp t id then _ ← free_response; k else _ ← free_response; mret bad
   end) s = Ok ((SMQTT_OK, a), s') →
  ∃ e s1, extends s s1 [e] ∧ acknowledged t id e ∧ k s1 = Ok ((SMQTT_OK, a), s').
Proof using Type*.
  intros Hnone Hbad H. apply reply_trace in H as (e & r & s1 & He & H & Hack).
  destruct r as [resp|]; [|by injection H as ->].
  destruct (is_reply resp t id) eqn:Hr; [|by apply free_trace in H as (s3 & _ & [= ->])].
  apply free_trace in H as (s2 & He2 & H). exists e, s2. split_and!; [|by eapply Hack|done].
  exact (extends_trans _ _ _ _ _ He He2).
Qed.

End trace.

(** C10. A publish that reports success was acknowledged, on any server: the
    packet sent is the MQTT PUBLISH of its arguments, and exactly the messages
    of its QoS's handshake went over the connection, in order, each reply of
    the right type with the packet's own identifier. *)
Theorem smqtt_publish_acknowledged {W} (srv : server_t W) c topic msg qos retain s c' s' :
  server c = Some (logged srv) → short_string topic → opt_message_ok msg → 0 ≤ qos →
  0 ≤ publish_packet_id c < 255 →
  smqtt_publish c topic msg qos retain s = Ok ((SMQTT_OK, c'), s') →
  ∃ es, extends s s' es ∧
    publish_trace (mqtt_publish topic (publish_packet_id c') qos retain (default [] msg)) qos
      (publish_packet_id c') es.
Proof.
  intros Hc Ht Hm Hq Hid. unfold smqtt_publish. destruct (connected c); [|by intros [=]]. cbn [negb].
  case_decide as Hq2; [by intros [=]|].
  assert (Hmake : ∀ i buffer, 0 ≤ i < 256 → make_publish_message buffer BUFFER_SIZE topic i qos retain msg =
    writes (mqtt_publish topic i qos retain (default [] msg)) buffer)
    by (intros; apply make_publish_mqtt; [done..|unfold QoS2 in Hq2; lia]).
  destruct (decide (qos = QoS0)) as [Hq0|Hq0].
  - intros H. eapply (send_accepted srv c Hc) in H as (s1 & He & H); [|intros; apply Hmake; lia].
    injection H as <- <-. eexists. split; [exact He|]. by constructor.
  - rewrite u16_small by lia. set (id := publish_packet_id c + 1). set (c1 := set_publish_id c id).
    assert (Hid' : 0 ≤ id < 256) by lia. assert (Hc1 : server c1 = Some (logged srv)) by done.
    cbv zeta. change (publish_packet_id c1) with id.
    intros H. eapply (send_accepted srv c1 Hc1) in H as (s1 & He1 & H); [|intros; by apply Hmake].
    destruct (decide (qos = QoS1)) as [Hq1|Hq1].
    + apply (reply_accepted srv c1 Hc1) in H as (e & s2 & He2 & Hack & H); [|done..].
      injection H as <- <-. eexists. split; [exact (extends_trans _ _ _ _ _ He1 He2)|]. by constructor.
    + apply (reply_accepted srv c1 Hc1) in H as (e & s2 & He2 & Hack & H); [|done..].
      eapply (send_accepted srv c1 Hc1) in H as (s3 & He3 & H);
        [|intros buffer; by apply make_acks_mqtt].
      apply (reply_accepted srv c1 Hc1) in H as (e' & s4 & He4 & Hack' & H); [|done..].
      injection H as <- <-. eexists.
      split; [exact (extends_trans _ _ _ _ _ He1 (extends_trans _ _ _ _ _ He2 (extends_trans _ _ _ _ _ He3 He4)))|].
      constructor; [unfold QoS0, QoS1, QoS2 in *; lia|done..].
Qed.

(** QoS 2 with the scripted broker, recorded. *)
Lemma smqtt_publish_acknowledged_witness :
  ∃ c' s',
    smqtt_publish (mk_client [49] [97] 1883 true 6 1 0 (Some (logged scripted))) [97] (Some [104; 105]) 2 false
      (initial_sys ([mqtt_ack PUBREC 0 7; mqtt_ack PUBCOMP 0 7], [])) = Ok ((SMQTT_OK, c'), s') ∧
    ∃ es, extends (initial_sys ([mqtt_ack PUBREC 0 7; mqtt_ack PUBCOMP 0 7], [])) s' es ∧
      publish_trace (mqtt_publish [97] (publish_packet_id c') 2 false [104; 105]) 2 (publish_packet_id c') es.
Proof.
  eexists _, _. split; [vm_compute; reflexivity|].
  apply (smqtt_publish_acknowledged scripted
           (mk_client [49] [97] 1883 true 6 1 0 (Some (logged scripted))) [97] (Some [104; 105]) 2 false
           (initial_sys ([mqtt_ack PUBREC 0 7; mqtt_ack PUBCOMP 0 7], []))).
  - done.
  - by apply (bool_decide_unpack _); vm_compute.
  - split; [repeat constructor; lia|by vm_compute].
  - lia.
  - split; by vm_compute.
  - vm_compute. reflexivity.
Defined.
