(* ===== verification/Queue.v ===== *)
(** Queue: the doubly linked queues of [libsmqttclient_mt/connection.c], on an
    explicit heap, and their refinement to lists. *)

From stdpp Require Import gmap.
From S2P Require Import Prelude Protocol.

(** * The heap *)

(** A [queue_entry_t *]: [None] is null. *)
Abbreviation ptr := (option positive).

Record queue_entry (P : Type) := mk_entry { payload : P; previous : ptr; next : ptr }.
Arguments mk_entry {P} _ _ _.
Arguments payload {P} _. Arguments previous {P} _. Arguments next {P} _.

Record queue_t := mk_queue { head : ptr; tail : ptr }.

(** The live entries; a location outside it was never allocated or is freed. *)
Abbreviation heap P := (gmap positive (queue_entry P)).

Section queue.
Context {P : Type}.

Definition load (h : heap P) (p : ptr) : outcome (positive * queue_entry P) :=
  match p with
  | None => Fault NullDeref
  | Some l => match h !! l with Some e => Ok (l, e) | None => Fault UseAfterFree end
  end.

(** [p->next = v] and [p->previous = v]. *)
Definition store_next (h : heap P) (p v : ptr) : outcome (heap P) :=
  '(l, e) ← load h p; Ok (<[l := mk_entry (payload e) (previous e) v]> h).
Definition store_previous (h : heap P) (p v : ptr) : outcome (heap P) :=
  '(l, e) ← load h p; Ok (<[l := mk_entry (payload e) v (next e)]> h).

(** * Operations *)

Definition init_queue : queue_t := mk_queue None None.

Definition enqueue (h : heap P) (queue : queue_t) (x : P) : outcome (heap P * queue_t) :=
  let l := fresh (dom h) in
  let h := <[l := mk_entry x None None]> h in
  match head queue with
  | None => Ok (h, mk_queue (Some l) (Some l))
  | Some _ =>
      h ← store_previous h (Some l) (tail queue);
      h ← store_next h (tail queue) (Some l);
      Ok (h, mk_queue (head queue) (Some l))
  end.

(** Result: the payload where there is one (the C result [true]). *)
Definition dequeue (h : heap P) (queue : queue_t) : outcome (option P * heap P * queue_t) :=
  match head queue with
  | None => Ok (None, h, queue)
  | Some _ =>
      let first := head queue in
      queue' ← (if decide (tail queue = head queue) then Ok (mk_queue None None)
                else '(_, e) ← load h (head queue); Ok (mk_queue (next e) (tail queue)));
      '(l, e) ← load h first;
      Ok (Some (payload e), delete l h, queue')
  end.

(** The entry itself is not freed. *)
Definition remove_from_queue (h : heap P) (queue : queue_t) (entry : ptr)
    : outcome (heap P * queue_t) :=
  '(_, e) ← load h entry;
  '(h, queue) ←
    match previous e with
    | None => Ok (h, mk_queue (next e) (tail queue))
    | Some _ => h ← store_next h (previous e) (next e); Ok (h, queue)
    end;
  '(_, e) ← load h entry;
  match next e with
  | None => Ok (h, mk_queue (head queue) (previous e))
  | Some _ => h ← store_previous h (next e) (previous e); Ok (h, queue)
  end.

(** * Representation

    [seg h prev ns nxt]: the entries [ns] (address and payload) are linked in
    order in [h]; the first one's [previous] is [prev], the last one's [next]
    is [nxt]. *)

Definition first_or (ns : list (positive * P)) (nxt : ptr) : ptr :=
  match ns with [] => nxt | (l, _) :: _ => Some l end.

Fixpoint last_or (prev : ptr) (ns : list (positive * P)) : ptr :=
  match ns with [] => prev | (l, _) :: ns' => last_or (Some l) ns' end.

Fixpoint seg (h : heap P) (prev : ptr) (ns : list (positive * P)) (nxt : ptr) : Prop :=
  match ns with
  | [] => True
  | (l, x) :: ns' => h !! l = Some (mk_entry x prev (first_or ns' nxt)) ∧ seg h (Some l) ns' nxt
  end.

(** [queue_rep h q prev ns]: [q] is the queue of the entries [ns].  [prev] is
    null in a queue nothing was dequeued from; after a dequeue it is the
    address of the entry that was freed. *)
Record queue_rep (h : heap P) (q : queue_t) (prev : ptr) (ns : list (positive * P)) : Prop := {
  rep_nodup : NoDup ns.*1;
  rep_seg : seg h prev ns None;
  rep_head : head q = first_or ns None;
  rep_tail : tail q = last_or None ns
}.

(** ** Segments *)

Lemma last_or_snoc prev ns l x : last_or prev (ns ++ [(l, x)]) = Some l.
Proof. revert prev. induction ns as [|[l' x'] ns IH]; intros prev; simpl; [done|apply IH]. Qed.

Lemma last_or_app prev ns ms : last_or prev (ns ++ ms) = last_or (last_or prev ns) ms.
Proof. revert prev. induction ns as [|[l x] ns IH]; intros prev; simpl; [done|apply IH]. Qed.

Lemma seg_app h prev ns ms nxt :
  seg h prev (ns ++ ms) nxt ↔ seg h prev ns (first_or ms nxt) ∧ seg h (last_or prev ns) ms nxt.
Proof.
  revert prev. induction ns as [|[l x] ns IH]; intros prev; simpl; [tauto|].
  rewrite IH. assert (first_or (ns ++ ms) nxt = first_or ns (first_or ms nxt)) as -> by by destruct ns.
  tauto.
Qed.

(** What changes outside a segment does not matter to it. *)
Lemma seg_ext h h' prev ns nxt :
  (∀ l, l ∈ ns.*1 → h' !! l = h !! l) → seg h prev ns nxt → seg h' prev ns nxt.
Proof.
  revert prev. induction ns as [|[l x] ns IH]; intros prev He; [done|]. simpl. intros [Hl Hc].
  split; [rewrite He; [done|by left]|]. apply IH; [|done]. intros l' ?. apply He. by right.
Qed.

Lemma seg_insert h l e prev ns nxt : l ∉ ns.*1 → seg h prev ns nxt → seg (<[l := e]> h) prev ns nxt.
Proof. intros Hl. apply seg_ext. intros l' ?. rewrite lookup_insert_ne; [done|]. by intros ->. Qed.

Lemma seg_delete h l prev ns nxt : l ∉ ns.*1 → seg h prev ns nxt → seg (delete l h) prev ns nxt.
Proof. intros Hl. apply seg_ext. intros l' ?. rewrite lookup_delete_ne; [done|]. by intros ->. Qed.

Lemma seg_dom h prev ns nxt l : seg h prev ns nxt → l ∈ ns.*1 → is_Some (h !! l).
Proof.
  revert prev. induction ns as [|[l' x] ns IH]; intros prev; simpl; [by intros _ ?%not_elem_of_nil|].
  intros [Hl Hc] [->|?]%elem_of_cons; [by eexists|by eapply IH].
Qed.

Lemma fresh_not_in h prev ns nxt : seg h prev ns nxt → fresh (dom h) ∉ ns.*1.
Proof.
  intros Hs Hin. eapply seg_dom in Hs; [|done]. apply elem_of_dom in Hs. by apply is_fresh in Hs.
Qed.

(** The end of a segment and its links. *)
Lemma seg_snoc h prev ns l x nxt :
  seg h prev (ns ++ [(l, x)]) nxt ↔ seg h prev ns (Some l) ∧ h !! l = Some (mk_entry x (last_or prev ns) nxt).
Proof. rewrite seg_app. simpl. tauto. Qed.

Lemma load_ok h l e : h !! l = Some e → load h (Some l) = Ok (l, e).
Proof. intros Hl. simpl. by rewrite Hl. Qed.

Lemma store_next_ok h l e v :
  h !! l = Some e → store_next h (Some l) v = Ok (<[l := mk_entry (payload e) (previous e) v]> h).
Proof. intros Hl. unfold store_next. by rewrite (load_ok _ _ _ Hl). Qed.

Lemma store_previous_ok h l e v :
  h !! l = Some e → store_previous h (Some l) v = Ok (<[l := mk_entry (payload e) v (next e)]> h).
Proof. intros Hl. unfold store_previous. by rewrite (load_ok _ _ _ Hl). Qed.

(** ** Refinement of lists *)

Lemma init_queue_rep h prev : queue_rep h init_queue prev [].
Proof. split; [constructor|done..]. Qed.

(** A queue does not feel what happens outside its entries. *)
Lemma queue_rep_ext h h' q prev ns :
  (∀ l, l ∈ ns.*1 → h' !! l = h !! l) → queue_rep h q prev ns → queue_rep h' q prev ns.
Proof. intros He [Hn Hs Hh Ht]. split; [done|by eapply seg_ext|done..]. Qed.

Lemma enqueue_rep h q prev ns x :
  queue_rep h q prev ns →
  let l := fresh (dom h) in
  ∃ h' q' prev', enqueue h q x = Ok (h', q') ∧ queue_rep h' q' prev' (ns ++ [(l, x)]) ∧
    (prev = None → prev' = None) ∧ (∀ l', l' ≠ l → l' ∉ ns.*1 → h' !! l' = h !! l').
Proof.
  intros [Hn Hs Hh Ht] l. pose proof (fresh_not_in _ _ _ _ Hs) as Hl. fold l in Hl.
  unfold enqueue. fold l. rewrite Hh, Ht. destruct (last ns) as [[lt y]|] eqn:E.
  - apply last_Some in E as [ns' ->]. rewrite last_or_snoc.
    assert (∃ lh, first_or (ns' ++ [(lt, y)]) None = Some lh) as [lh Hlh]
      by (destruct ns' as [|[? ?] ?]; by eexists). rewrite Hlh.
    rewrite fmap_app in *. apply NoDup_app in Hn as (Hn1 & Hn2 & Hn3). simpl in *.
    apply seg_snoc in Hs as [Hs Hlt].
    apply not_elem_of_app in Hl as [Hl1 Hl2].
    assert (Hne : lt ≠ l) by (intros ->; apply Hl2; by left).
    assert (Hlt' : lt ∉ ns'.*1) by (intros Hin; apply (Hn2 _ Hin); by left).
    erewrite store_previous_ok, bind_ok by apply lookup_insert_eq. rewrite insert_insert_eq.
    erewrite store_next_ok, bind_ok by (rewrite lookup_insert_ne; [exact Hlt|done]).
    cbn [payload previous next]. eexists _, _, prev. split; [done|]. split; [split|].
    + rewrite !fmap_app. simpl. apply NoDup_app. split_and!; [by apply NoDup_app| |apply NoDup_singleton].
      intros l' [?|?]%elem_of_app ->%list_elem_of_singleton; [by apply Hl1|by apply Hl2].
    + apply seg_snoc. split; [apply seg_snoc; split|].
      * apply seg_insert; [done|]. by apply seg_insert.
      * apply lookup_insert_eq.
      * rewrite lookup_insert_ne by done. rewrite last_or_snoc. apply lookup_insert_eq.
    + simpl. rewrite <- Hlh. by destruct ns' as [|[? ?] ?].
    + by rewrite last_or_snoc.
    + split; [done|]. intros l' Hl' [_ Hnin]%not_elem_of_app. rewrite !lookup_insert_ne; [done|done|].
      intros ->. apply Hnin. by left.
  - apply last_None in E as ->. cbn [first_or]. eexists _, _, None. split; [done|].
    split; [|split; [done|intros l' Hl' _; by rewrite lookup_insert_ne]].
    split; simpl; [apply NoDup_singleton| |done|done]. split; [apply lookup_insert_eq|done].
Qed.

Lemma dequeue_rep h q prev ns :
  queue_rep h q prev ns →
  match ns with
  | [] => dequeue h q = Ok (None, h, q)
  | (l, x) :: ns' =>
      ∃ q', dequeue h q = Ok (Some x, delete l h, q') ∧ queue_rep (delete l h) q' (Some l) ns'
  end.
Proof.
  intros [Hn Hs Hh Ht]. unfold dequeue. rewrite Hh, Ht. destruct ns as [|[l x] ns]; [done|].
  cbn [first_or last_or]. cbv zeta. simpl in Hn, Hs. apply NoDup_cons in Hn as [Hl Hn]. destruct Hs as [Hx Hs].
  destruct ns as [|[l' y] ns]; cbn [last_or].
  - rewrite decide_True, bind_ok by done. erewrite load_ok, bind_ok by done.
    eexists. split; [done|]. split; [done|done|done|done].
  - rewrite decide_False.
    2:{ intros Heq. apply Hl. destruct ns as [|n ns _] using rev_ind; [injection Heq as ->; by left|].
        destruct n as [ln z]. rewrite last_or_snoc in Heq. injection Heq as ->.
        simpl. right. rewrite fmap_app. apply elem_of_app. right. by left. }
    rewrite (load_ok _ _ _ Hx), !bind_ok. cbv beta iota.
    eexists. split; [done|]. split; [done|by apply seg_delete|done|done].
Qed.

Lemma remove_from_queue_rep h q ns ms l x :
  queue_rep h q None (ns ++ (l, x) :: ms) →
  ∃ h' q', remove_from_queue h q (Some l) = Ok (h', q') ∧ queue_rep h' q' None (ns ++ ms) ∧
    (∀ l', l' ∉ (ns ++ ms).*1 → h' !! l' = h !! l').
Proof.
  intros [Hn Hs Hh Ht]. destruct q as [qh qt]. cbn [head tail] in Hh, Ht. rewrite fmap_app in Hn. apply NoDup_app in Hn as (Hn1 & Hn2 & Hn3).
  simpl in Hn3. apply NoDup_cons in Hn3 as [Hl3 Hn3].
  assert (Hl1 : l ∉ ns.*1) by (intros Hin; apply (Hn2 _ Hin); by left).
  apply seg_app in Hs as [Hs1 [Hl Hs2]]. cbn [first_or] in Hs1.
  assert (Hprev : ∀ h1, (∀ l', l' ∉ ns.*1 → h1 !! l' = h !! l') → seg h1 None ns (first_or ms None) →
    ∃ h' q', ('(_, e) ← load h1 (Some l);
              match next e with
              | None => Ok (h1, mk_queue (first_or (ns ++ ms) None) (previous e))
              | Some _ => h2 ← store_previous h1 (next e) (previous e);
                          Ok (h2, mk_queue (first_or (ns ++ ms) None) qt)
              end) = Ok (h', q') ∧ queue_rep h' q' None (ns ++ ms) ∧
      (∀ l', l' ∉ (ns ++ ms).*1 → h' !! l' = h !! l')).
  { intros h1 He Hs1'. erewrite load_ok, bind_ok by (rewrite He; done). cbn [next previous].
    assert (Hnd : NoDup (ns ++ ms).*1).
    { rewrite fmap_app. apply NoDup_app. split_and!; [done| |done]. intros l' Hin Hin'.
      apply (Hn2 _ Hin). by right. }
    destruct ms as [|[lm z] ms]; cbn [first_or].
    - eexists _, _. split; [done|]. rewrite app_nil_r in *. split; [by split|done].
    - destruct Hs2 as [Hlm Hs2]. simpl in Hn2, Hn3. apply NoDup_cons in Hn3 as [Hlm3 Hn3].
      assert (Hlm1 : lm ∉ ns.*1) by (intros Hin; apply (Hn2 _ Hin); right; by left).
      erewrite store_previous_ok, bind_ok by (rewrite He; done). cbn [payload next].
      eexists _, _. split; [done|]. split; [split|].
      + done.
      + apply seg_app. split; [by apply seg_insert|]. split; [apply lookup_insert_eq|].
        apply seg_insert; [done|]. eapply seg_ext; [|exact Hs2]. intros l' Hin. apply He.
        intros Hin'. apply (Hn2 _ Hin'). right. by right.
      + done.
      + cbn [tail]. by rewrite Ht, !last_or_app.
      + intros l'. rewrite fmap_app, not_elem_of_app. simpl. rewrite not_elem_of_cons. intros (? & ? & ?).
        rewrite lookup_insert_ne by done. by apply He. }
  unfold remove_from_queue. rewrite (load_ok _ _ _ Hl), bind_ok. cbn [previous next].
  destruct ns as [|[lp y] ns _] using rev_ind.
  - cbn [last_or]. rewrite bind_ok. by apply Hprev.
  - rewrite last_or_snoc in *. apply seg_snoc in Hs1 as [Hs1 Hlp].
    rewrite fmap_app in Hn1, Hl1. apply NoDup_app in Hn1 as (Hn1 & Hnp & _).
    apply not_elem_of_app in Hl1 as [Hl1 Hlne]. simpl in Hlne. rewrite list_elem_of_singleton in Hlne.
    erewrite store_next_ok, !bind_ok by done. cbn [payload previous].
    assert (qh = first_or ((ns ++ [(lp, y)]) ++ ms) None) as -> by (rewrite Hh; by destruct ns as [|[? ?] ?]).
    apply Hprev.
    + intros l' Hin. rewrite fmap_app, not_elem_of_app in Hin. destruct Hin as [_ Hin].
      rewrite lookup_insert_ne; [done|]. intros ->. apply Hin. by left.
    + apply seg_snoc. split; [|apply lookup_insert_eq]. apply seg_insert; [|done].
      intros Hin. apply (Hnp _ Hin). by left.
Qed.

(** ** What the operations do not keep *)

(** After a [dequeue] the new head's [previous] is the address just freed. *)
Lemma dequeued_head_dangles h q prev l x l' y ns :
  queue_rep h q prev ((l, x) :: (l', y) :: ns) →
  ∃ q', dequeue h q = Ok (Some x, delete l h, q') ∧ head q' = Some l' ∧
    remove_from_queue (delete l h) q' (Some l') = Fault UseAfterFree.
Proof.
  intros Hr. destruct (dequeue_rep _ _ _ _ Hr) as (q' & -> & [_ Hs Hh Ht]).
  exists q'. split; [done|]. split; [by rewrite Hh|]. destruct Hs as [Hl' _].
  unfold remove_from_queue. rewrite (load_ok _ _ _ Hl'), bind_ok. cbn [previous].
  unfold store_next, load. by rewrite lookup_delete_eq.
Qed.

End queue.

(** * Waiting for acknowledgements *)

(** The anonymous union of [waiting_t]: the member last written. *)
Inductive waiting_data :=
  | w_puback (packet_id : Z)
  | w_pubrec (packet_id : Z)
  | w_pubcomp (packet_id : Z)
  | w_pubrel (topic msg : list Z) (retain : bool) (packet_id : Z)
  | w_suback (sub_callback : option Z) (packet_id : Z)
  | w_unsuback (packet_id : Z)
  | w_unwritten.

(** A callback is an opaque address, [None] the null pointer. *)
Record waiting_t := mk_waiting {
  w_type : message_type_t;
  callback : option Z;
  cb_context : Z;
  w_data : waiting_data
}.

(** [waiting-><member for t>.packet_id]: the four members that hold a packet
    identifier only share its place; in the two others it lies elsewhere. *)
Definition waiting_id (t : message_type_t) (w : waiting_t) : outcome Z :=
  match t, w_data w with
  | (PUBACK | PUBREC | PUBCOMP | UNSUBACK), (w_puback i | w_pubrec i | w_pubcomp i | w_unsuback i) => Ok i
  | PUBREL, w_pubrel _ _ _ i => Ok i
  | SUBACK, w_suback _ i => Ok i
  | _, _ => Fault Uninitialised
  end.

(** The loop of [dequeue_by_type_and_id].  Result: the value returned, what is
    stored in [*waiting] ([None]: nothing), heap and queue. *)
Fixpoint dequeue_loop (fuel : nat) (h : heap waiting_t) (queue : queue_t) (curr_entry : ptr)
    (type : message_type_t) (packet_id : Z) : outcome (bool * option waiting_t * heap waiting_t * queue_t) :=
  match curr_entry, fuel with
  | None, _ => Ok (false, None, h, queue)
  | Some _, O => Fault OutOfFuel
  | Some _, S fuel' =>
      '(_, e) ← load h curr_entry;
      let curr_waiting := payload e in
      let take := '(h, queue) ← remove_from_queue h queue curr_entry;
                  Ok (true, Some curr_waiting, h, queue) in
      let continue := dequeue_loop fuel' h queue (next e) type packet_id in
      if decide (w_type curr_waiting = type) then
        match type with
        | PUBACK | PUBREC | PUBCOMP | PUBREL | UNSUBACK =>
            i ← waiting_id type curr_waiting;
            if decide (i = packet_id) then take else continue
        | PINGRESP => take
        | SUBACK =>
            i ← waiting_id type curr_waiting;
            if decide (i = packet_id) then take else Ok (true, None, h, queue)
        | _ => continue
        end
      else continue
  end.

Definition dequeue_by_type_and_id (h : heap waiting_t) (queue : queue_t) (type : message_type_t)
    (packet_id : Z) : outcome (bool * option waiting_t * heap waiting_t * queue_t) :=
  dequeue_loop (S (size h)) h queue (head queue) type packet_id.

(** ** Specification *)

(** The member written is the one the type names. *)
Definition well_formed (w : waiting_t) : Prop :=
  w_type w = PINGRESP ∨ ∃ i, waiting_id (w_type w) w = Ok i.

(** Waiting for a message of type [t] and this identifier (a PINGRESP has none). *)
Definition waits_for (t : message_type_t) (id : Z) (w : waiting_t) : Prop :=
  w_type w = t ∧ (t = PINGRESP ∨ waiting_id t w = Ok id).

#[export] Instance waits_for_dec t id w : Decision (waits_for t id w).
Proof. unfold waits_for. apply _. Defined.

Definition searched (t : message_type_t) : bool :=
  match t with PUBACK | PUBREC | PUBCOMP | PUBREL | UNSUBACK | PINGRESP => true | _ => false end.

(** One iteration, at the entry [(l, w)]. *)
Lemma dequeue_loop_step fuel h q l w p n t id :
  h !! l = Some (mk_entry w p n) → (w_type w = t → well_formed w) → searched t = true →
  dequeue_loop (S fuel) h q (Some l) t id =
    if decide (waits_for t id w)
    then '(h, q) ← remove_from_queue h q (Some l); Ok (true, Some w, h, q)
    else dequeue_loop fuel h q n t id.
Proof.
  intros Hl Hw Ht. cbn [dequeue_loop]. rewrite (load_ok _ _ _ Hl), bind_ok. cbn [payload next].
  cbv zeta. destruct (decide (w_type w = t)) as [<-|Hne].
  - destruct (Hw eq_refl) as [Hp|[i Hi]].
    + rewrite Hp in *. rewrite decide_True; [done|]. split; [done|by left].
    + destruct (w_type w) eqn:E; try done;
        try (rewrite Hi, bind_ok; destruct (decide (i = id)) as [->|Hne];
             [rewrite decide_True; [done|by split; [|right]]
             |rewrite decide_False; [done|intros [_ [?|Hi']]; [done|congruence]]]).
  - rewrite decide_False; [done|]. by intros [? _].
Qed.

Lemma dequeue_loop_spec h q t id fuel : ∀ ms ns,
  queue_rep h q None (ns ++ ms) → Forall (λ n, w_type n.2 = t → well_formed n.2) ms → searched t = true →
  (length ms < fuel)%nat →
  match list_find (λ n, waits_for t id n.2) ms with
  | None => dequeue_loop fuel h q (first_or ms None) t id = Ok (false, None, h, q)
  | Some (i, (l, w)) =>
      ∃ h' q', dequeue_loop fuel h q (first_or ms None) t id = Ok (true, Some w, h', q') ∧
        queue_rep h' q' None (ns ++ delete i ms)
  end.
Proof.
  induction fuel as [|fuel IH]; intros ms ns Hr Hw Ht Hf; [lia|].
  destruct ms as [|[l w] ms]; [done|]. apply Forall_cons in Hw as [Hw Hws].
  pose proof Hr as [_ Hs _ _]. apply seg_app in Hs as [_ [Hl _]].
  cbn [list_find first_or]. rewrite (dequeue_loop_step _ _ _ _ _ _ _ _ _ Hl Hw Ht). cbn [snd].
  destruct (decide (waits_for t id w)) as [Hm|Hm].
  - destruct (remove_from_queue_rep _ _ _ _ _ _ Hr) as (h' & q' & -> & Hr' & _).
    rewrite bind_ok. by exists h', q'.
  - replace (ns ++ (l, w) :: ms) with ((ns ++ [(l, w)]) ++ ms) in Hr by (by rewrite <- app_assoc).
    specialize (IH ms (ns ++ [(l, w)]) Hr Hws Ht). cbn [length] in Hf.
    destruct (list_find (λ n, waits_for t id n.2) ms) as [[i [l' w']]|]; simpl.
    + destruct IH as (h' & q' & -> & Hr'); [lia|]. exists h', q'. split; [done|].
      by rewrite <- app_assoc in Hr'.
    + apply IH. lia.
Qed.

(** For a SUBACK the first entry of the type decides: another identifier ends the
    search, with the answer true and nothing stored. *)
Lemma dequeue_loop_suback h q id fuel : ∀ ms ns,
  queue_rep h q None (ns ++ ms) → (length ms < fuel)%nat →
  match list_find (λ n, w_type n.2 = SUBACK) ms with
  | None => dequeue_loop fuel h q (first_or ms None) SUBACK id = Ok (false, None, h, q)
  | Some (i, (l, w)) =>
      match waiting_id SUBACK w with
      | Ok j =>
          if decide (j = id) then
            ∃ h' q', dequeue_loop fuel h q (first_or ms None) SUBACK id = Ok (true, Some w, h', q') ∧
              queue_rep h' q' None (ns ++ delete i ms)
          else dequeue_loop fuel h q (first_or ms None) SUBACK id = Ok (true, None, h, q)
      | Fault e => dequeue_loop fuel h q (first_or ms None) SUBACK id = Fault e
      end
  end.
Proof.
  induction fuel as [|fuel IH]; intros ms ns Hr Hf; [lia|].
  destruct ms as [|[l w] ms]; [done|].
  pose proof Hr as [_ Hs _ _]. apply seg_app in Hs as [_ [Hl _]].
  cbn [list_find first_or dequeue_loop]. rewrite (load_ok _ _ _ Hl), bind_ok. cbn [payload next snd]. cbv zeta.
  destruct (decide (w_type w = SUBACK)) as [Ht|Ht].
  - destruct (waiting_id SUBACK w) as [j|e]; [|done]. rewrite bind_ok. case_decide; [|done].
    destruct (remove_from_queue_rep _ _ _ _ _ _ Hr) as (h' & q' & -> & Hr' & _).
    rewrite bind_ok. by exists h', q'.
  - replace (ns ++ (l, w) :: ms) with ((ns ++ [(l, w)]) ++ ms) in Hr by (by rewrite <- app_assoc).
    specialize (IH ms (ns ++ [(l, w)]) Hr). cbn [length] in Hf.
    destruct (list_find (λ n, w_type n.2 = SUBACK) ms) as [[i [l' w']]|]; cbn -[waiting_id dequeue_loop]; [|apply IH; lia].
    destruct (waiting_id SUBACK w') as [j|e]; [|apply IH; lia]. case_decide; [|apply IH; lia].
    destruct IH as (h' & q' & -> & Hr'); [lia|]. exists h', q'. split; [done|]. by rewrite <- app_assoc in Hr'.
Qed.

(** The entries of a queue are at most as many as the heap's. *)
Lemma queue_rep_size {P} (h : heap P) q prev ns : queue_rep h q prev ns → (length ns ≤ size h)%nat.
Proof.
  intros [Hn Hs _ _]. rewrite <- (length_fmap fst ns), <- (size_list_to_set (C := gset positive) _ Hn).
  rewrite <- size_dom. apply subseteq_size. intros l Hl%elem_of_list_to_set.
  apply elem_of_dom. by eapply seg_dom.
Qed.

(** * The theorems *)

(** Calls on one queue, as the free and send queues get them. *)
Inductive queue_op (P : Type) := Enqueue (x : P) | Dequeue.
Arguments Enqueue {P} x.
Arguments Dequeue {P}.

Fixpoint run_queue {P} (ops : list (queue_op P)) (h : heap P) (q : queue_t)
    : outcome (list (option P) * heap P * queue_t) :=
  match ops with
  | [] => Ok ([], h, q)
  | Enqueue x :: ops' => '(h, q) ← enqueue h q x; run_queue ops' h q
  | Dequeue :: ops' =>
      '(o, h, q) ← dequeue h q;
      '(os, h, q) ← run_queue ops' h q;
      Ok (o :: os, h, q)
  end.

(** The specification: a list, added to at the end, taken from the front. *)
Fixpoint run_list {P} (ops : list (queue_op P)) (xs : list P) : list (option P) * list P :=
  match ops with
  | [] => ([], xs)
  | Enqueue x :: ops' => run_list ops' (xs ++ [x])
  | Dequeue :: ops' => let '(os, ys) := run_list ops' (tl xs) in (hd_error xs :: os, ys)
  end.

(** The heap holds the queue's entries and nothing else. *)
Definition only_queue {P} (h : heap P) (ns : list (positive * P)) : Prop :=
  ∀ l, is_Some (h !! l) → l ∈ ns.*1.

Lemma run_queue_simulates {P} (ops : list (queue_op P)) : ∀ h q prev ns,
  queue_rep h q prev ns → only_queue h ns →
  ∃ h' q' prev' ns', run_queue ops h q = Ok ((run_list ops ns.*2).1, h', q') ∧
    queue_rep h' q' prev' ns' ∧ ns'.*2 = (run_list ops ns.*2).2 ∧ only_queue h' ns'.
Proof.
  induction ops as [|[x|] ops IH]; intros h q prev ns Hr Ho; [by exists h, q, prev, ns|..]; cbn [run_queue run_list].
  - destruct (enqueue_rep h q prev ns x Hr) as (h1 & q1 & prev1 & -> & Hr1 & _ & He). rewrite bind_ok.
    destruct (IH h1 q1 prev1 _ Hr1) as (h' & q' & prev' & ns' & Hrun & Hres).
    { intros l Hl. rewrite fmap_app, elem_of_app. simpl. rewrite list_elem_of_singleton.
      destruct (decide (l = fresh (dom h))) as [|Hf]; [by right|]. left.
      destruct (decide (l ∈ ns.*1)) as [|Hn]; [done|]. rewrite He in Hl by done. by apply Ho. }
    rewrite fmap_app in Hrun, Hres. by exists h', q', prev', ns'.
  - pose proof (dequeue_rep _ _ _ _ Hr) as Hd. destruct ns as [|[l x] ns].
    + rewrite Hd, bind_ok. destruct (IH h q prev [] Hr Ho) as (h' & q' & prev' & ns' & Hrun & Hr' & Hns & Ho').
      rewrite Hrun, bind_ok. cbn [fmap list_fmap tl hd_error] in *. destruct (run_list ops []) as [os ys].
      by exists h', q', prev', ns'.
    + destruct Hd as (q1 & -> & Hr1). rewrite bind_ok.
      destruct (IH (delete l h) q1 (Some l) ns Hr1) as (h' & q' & prev' & ns' & Hrun & Hr' & Hns & Ho').
      { intros l' Hl'. destruct (decide (l' = l)) as [->|Hne];
          [rewrite lookup_delete_eq in Hl'; by destruct Hl'|].
        rewrite lookup_delete_ne in Hl' by done. by apply Ho, elem_of_cons in Hl' as [?|?]. }
      rewrite Hrun, bind_ok. cbn [fmap list_fmap tl hd_error snd] in *. fold (ns.*2) in *.
      destruct (run_list ops ns.*2) as [os ys]. by exists h', q', prev', ns'.
Qed.

(** C34. FIFO refinement.  Any sequence of [enqueue] and [dequeue] calls, from an
    empty queue on an empty heap, gives the answers of a list that is added to
    at the end and taken from the front; no call faults, and in the end the
    heap holds exactly one entry per element still queued: every other entry
    was freed, once. *)
Theorem queue_refines_list {P} (ops : list (queue_op P)) :
  ∃ h' q' prev' ns', run_queue ops ∅ init_queue = Ok ((run_list ops []).1, h', q') ∧
    queue_rep h' q' prev' ns' ∧ ns'.*2 = (run_list ops []).2 ∧ only_queue h' ns'.
Proof.
  apply (run_queue_simulates ops ∅ init_queue None []); [apply init_queue_rep|].
  intros l [e Hl]. by rewrite lookup_empty in Hl.
Qed.

(** What the search stands for on the list of the entries: the value returned, and
    the entry taken with its position.  For every type but SUBACK it is the first
    entry that waits for this type and identifier. *)
Definition found_entry (t : message_type_t) (id : Z) (ws : list waiting_t) : outcome (bool * option (nat * waiting_t)) :=
  if decide (t = SUBACK) then
    match list_find (λ w, w_type w = SUBACK) ws with
    | None => Ok (false, None)
    | Some (i, w) => j ← waiting_id SUBACK w; Ok (true, if decide (j = id) then Some (i, w) else None)
    end
  else
    match list_find (waits_for t id) ws with
    | None => Ok (false, None)
    | Some (i, w) => Ok (true, Some (i, w))
    end.

Lemma list_find_snd {K} (P : waiting_t → Prop) `{!∀ w, Decision (P w)} (ns : list (K * waiting_t)) :
  list_find P ns.*2 = prod_map id snd <$> list_find (λ n, P n.2) ns.
Proof. rewrite list_find_fmap. unfold compose. by destruct (list_find _ ns) as [[i [l w]]|]. Qed.

Lemma dequeue_by_type_and_id_spec h q ns t id :
  queue_rep h q None ns → Forall (λ n, searched t = true → w_type n.2 = t → well_formed n.2) ns →
  searched t = true ∨ t = SUBACK →
  match found_entry t id ns.*2 with
  | Ok (found, None) => dequeue_by_type_and_id h q t id = Ok (found, None, h, q)
  | Ok (found, Some (i, w)) =>
      ∃ h' q', dequeue_by_type_and_id h q t id = Ok (found, Some w, h', q') ∧ queue_rep h' q' None (delete i ns)
  | Fault e => dequeue_by_type_and_id h q t id = Fault e
  end.
Proof.
  intros Hr Hw Ht. unfold dequeue_by_type_and_id, found_entry. rewrite (rep_head _ _ _ _ Hr).
  pose proof (queue_rep_size _ _ _ _ Hr). destruct Ht as [Ht| ->].
  - rewrite decide_False by (by intros ->). rewrite list_find_snd.
    pose proof (dequeue_loop_spec h q t id (S (size h)) ns [] Hr) as Hs.
    destruct (list_find (λ n, waits_for t id n.2) ns) as [[i [l w]]|]; cbn [fmap option_fmap option_map prod_map snd];
      (apply Hs; [eapply Forall_impl; [exact Hw|auto]|done|lia]).
  - rewrite decide_True by done. rewrite list_find_snd.
    pose proof (dequeue_loop_suback h q id (S (size h)) ns [] Hr) as Hs.
    destruct (list_find (λ n, w_type n.2 = SUBACK) ns) as [[i [l w]]|]; cbn [fmap option_fmap option_map prod_map snd].
    2:{ apply Hs. lia. }
    destruct (waiting_id SUBACK w) as [j|e]; [rewrite bind_ok|by apply Hs; lia].
    case_decide; apply Hs; lia.
Qed.

(** C35. Searching the acknowledgement queue.  In a queue nothing was dequeued
    from [dequeue_by_type_and_id] does what [found_entry] says of the list of its
    entries.  For every message type it is called with but SUBACK: it takes out the
    first entry that waits for this type and identifier (PINGRESP: the first of the
    type) and answers true with it; without one it answers false.  For SUBACK the
    first entry of the type decides: if it waits for another identifier the answer
    is true and the caller's pointer is left unset; and if it was made by an
    unsubscribe, an identifier is read that nobody wrote.  What is not taken stays
    as it was; and the loop ends. *)
Theorem dequeue_by_type_and_id_first_match h q ns t id :
  queue_rep h q None ns → Forall (λ n, searched t = true → w_type n.2 = t → well_formed n.2) ns →
  searched t = true ∨ t = SUBACK →
  match found_entry t id ns.*2 with
  | Ok (found, None) => dequeue_by_type_and_id h q t id = Ok (found, None, h, q)
  | Ok (found, Some (i, w)) =>
      ∃ h' q', dequeue_by_type_and_id h q t id = Ok (found, Some w, h', q') ∧ queue_rep h' q' None (delete i ns)
  | Fault e => dequeue_by_type_and_id h q t id = Fault e
  end.
Proof. apply dequeue_by_type_and_id_spec. Qed.

Definition waiting_sample : heap waiting_t :=
  <[1%positive := mk_entry (mk_waiting PUBACK (Some 7%Z) 0%Z (w_puback 5%Z)) None (Some 2%positive)]>
  (<[2%positive := mk_entry (mk_waiting PUBACK (Some 8%Z) 0%Z (w_puback 6%Z)) (Some 1%positive) None]> ∅).

Lemma dequeue_by_type_and_id_first_match_witness :
  ∃ h' q', dequeue_by_type_and_id waiting_sample (mk_queue (Some 1%positive) (Some 2%positive)) PUBACK 6%Z =
      Ok (true, Some (mk_waiting PUBACK (Some 8%Z) 0%Z (w_puback 6%Z)), h', q') ∧
    queue_rep h' q' None [(1%positive, mk_waiting PUBACK (Some 7%Z) 0%Z (w_puback 5%Z))].
Proof.
  apply (dequeue_by_type_and_id_first_match waiting_sample (mk_queue (Some 1%positive) (Some 2%positive))
    [(1%positive, mk_waiting PUBACK (Some 7%Z) 0%Z (w_puback 5%Z));
     (2%positive, mk_waiting PUBACK (Some 8%Z) 0%Z (w_puback 6%Z))] PUBACK 6%Z).
  - split; [apply (bool_decide_unpack _); by vm_compute|by split_and!|done|done].
  - do 2 (constructor; [intros _ _; right; by eexists|]). constructor.
  - by left.
Defined.

(** SUBACK is answered as if it were found.  When the first entry of that type
    waits for another identifier the search stops there, answers true and
    leaves the caller's pointer unset. *)
Theorem suback_mismatch_answers_true h q prev l w n id cb i :
  head q = Some l → h !! l = Some (mk_entry w prev n) →
  w_type w = SUBACK → w_data w = w_suback cb i → i ≠ id →
  dequeue_by_type_and_id h q SUBACK id = Ok (true, None, h, q).
Proof.
  intros Hq Hl Ht Hd Hi. unfold dequeue_by_type_and_id. rewrite Hq. cbn [dequeue_loop].
  rewrite (load_ok _ _ _ Hl), bind_ok. cbn [payload]. cbv zeta. rewrite decide_True by done.
  unfold waiting_id. rewrite Hd, bind_ok, decide_False by done. done.
Qed.

Lemma suback_mismatch_answers_true_witness :
  dequeue_by_type_and_id
    (<[1%positive := mk_entry (mk_waiting SUBACK None 0%Z (w_suback None 1%Z)) None None]> ∅)
    (mk_queue (Some 1%positive) (Some 1%positive)) SUBACK 2%Z =
  Ok (true, None, <[1%positive := mk_entry (mk_waiting SUBACK None 0%Z (w_suback None 1%Z)) None None]> ∅,
      mk_queue (Some 1%positive) (Some 1%positive)).
Proof.
  apply (suback_mismatch_answers_true _ _ None 1%positive
           (mk_waiting SUBACK None 0%Z (w_suback None 1%Z)) None 2%Z None 1%Z); done.
Defined.

(** The two ways of taking entries do not mix.  After a [dequeue] the new head
    still points back at the entry just freed, and removing it follows that
    pointer. *)
Theorem dequeue_then_remove_faults {P} (h : heap P) q prev l x l' y ns :
  queue_rep h q prev ((l, x) :: (l', y) :: ns) →
  ∃ q', dequeue h q = Ok (Some x, delete l h, q') ∧ head q' = Some l' ∧
    remove_from_queue (delete l h) q' (Some l') = Fault UseAfterFree.
Proof. apply dequeued_head_dangles. Qed.

Lemma dequeue_then_remove_faults_witness :
  ∃ q', dequeue waiting_sample (mk_queue (Some 1%positive) (Some 2%positive)) =
      Ok (Some (mk_waiting PUBACK (Some 7%Z) 0%Z (w_puback 5%Z)), delete 1%positive waiting_sample, q') ∧
    head q' = Some 2%positive ∧
    remove_from_queue (delete 1%positive waiting_sample) q' (Some 2%positive) = Fault UseAfterFree.
Proof.
  apply (dequeue_then_remove_faults waiting_sample (mk_queue (Some 1%positive) (Some 2%positive)) None
    1%positive (mk_waiting PUBACK (Some 7%Z) 0%Z (w_puback 5%Z))
    2%positive (mk_waiting PUBACK (Some 8%Z) 0%Z (w_puback 6%Z)) []).
  split; [apply (bool_decide_unpack _); by vm_compute|by split_and!|done|done].
Defined.
