(* ===== verification/Connection.v ===== *)
(** Connection: the shared state and the session thread of the multi-threaded
    client, [libsmqttclient_mt/connection.c].  The thread's loop is cut into
    steps where it takes or releases the mutex or talks to the server; the
    steps of the other threads come between them ([ClientMt]). *)

From stdpp Require Import gmap.
From S2P Require Import Prelude Protocol Size Wire Serialize Deserialize Server Queue.

#[local] Open Scope Z_scope.

(** [smqtt_mt_status_t] of [inc/smqttc_mt.h], and the integers outside it the
    code returns. *)
Inductive smqtt_mt_status_t :=
  | SMQTT_MT_OK | SMQTT_MT_NOMEM | SMQTT_MT_BAD_MESSAGE | SMQTT_MT_NOACK | SMQTT_MT_NOMESSAGE
  | SMQTT_MT_NOT_CONNECTED | SMQTT_MT_UNEXPECTED | SMQTT_MT_INVALID | SMQTT_MT_NOT_AUTHORIZED
  | SMQTT_MT_SOCKET | SMQTT_MT_PROTOCOL | SMQTT_MT_IDENTIFIER | SMQTT_MT_SERVER
  | SMQTT_MT_NOT_AUTHENTICATED
  | SMQTT_MT_raw (v : Z).

#[export] Instance smqtt_mt_status_t_eq_dec : EqDecision smqtt_mt_status_t.
Proof. solve_decision. Defined.

Definition status_from_net (stat : smqtt_net_status_t) : smqtt_mt_status_t :=
  match stat with SMQTT_NET_OK => SMQTT_MT_OK | _ => SMQTT_MT_SOCKET end.

(** * State *)

(** A queue and the entries allocated for it: no entry is ever linked into two
    queues. *)
Record linked (P : Type) := mk_linked { cells : heap P; ends : queue_t }.
Arguments mk_linked {P} _ _.
Arguments cells {P} _.
Arguments ends {P} _.

Definition empty_queue {P} : linked P := mk_linked ∅ init_queue.

Definition push {P} (q : linked P) (x : P) : outcome (linked P) :=
  '(h, e) ← enqueue (cells q) (ends q) x; Ok (mk_linked h e).

Definition pop {P} (q : linked P) : outcome (option P * linked P) :=
  '(o, h, e) ← dequeue (cells q) (ends q); Ok (o, mk_linked h e).

Definition search (q : linked waiting_t) (t : message_type_t) (id : Z)
    : outcome (bool * option waiting_t * linked waiting_t) :=
  '(b, w, h, e) ← dequeue_by_type_and_id (cells q) (ends q) t id; Ok (b, w, mk_linked h e).

Record buffer_slot_t := mk_slot { message_length : Z; buffer : list Z }.

(** What a callback is called with.  Strings are the bytes up to and with
    their terminator. *)
Inductive call_event :=
  | Completed (cb cb_context : Z)
  | Subscribed (cb packet_id : Z) (results : list sub_result) (cb_context : Z)
  | Delivered (cb : Z) (topic msg : list Z) (qos : Z) (retain : bool) (context : Z).

(** [struct smqtt_mt_client], with the server's world and the callbacks made so
    far.  The payload of the free and send queues is the index of the slot
    record. *)
Record smqtt_mt_client (W : Type) := mk_mt {
  connected : bool;
  publish_packet_id : Z;
  subscribe_packet_id : Z;
  buffer_count : Z;
  buffer_size : Z;
  receive_buffer : list Z;
  buffer_slots : list buffer_slot_t;
  ready_to_disconnect : bool;
  free_queue : linked Z;
  send_queue : linked Z;
  ack_queue : linked waiting_t;
  msg_callback : option Z;
  msg_cb_context : Z;
  server : server_t W;
  world : W;
  calls : list call_event
}.
Arguments mk_mt {W} _ _ _ _ _ _ _ _ _ _ _ _ _ _ _ _.
Arguments connected {W} _. Arguments publish_packet_id {W} _. Arguments subscribe_packet_id {W} _.
Arguments buffer_count {W} _. Arguments buffer_size {W} _. Arguments receive_buffer {W} _.
Arguments buffer_slots {W} _. Arguments ready_to_disconnect {W} _. Arguments free_queue {W} _.
Arguments send_queue {W} _. Arguments ack_queue {W} _. Arguments msg_callback {W} _.
Arguments msg_cb_context {W} _. Arguments server {W} _. Arguments world {W} _. Arguments calls {W} _.

Section connection.
Context {W : Type}.
Local Abbreviation client := (smqtt_mt_client W).

(** Assignments to members. *)
Definition with_queues (m : client) (f s : linked Z) (a : linked waiting_t) : client :=
  mk_mt (connected m) (publish_packet_id m) (subscribe_packet_id m) (buffer_count m) (buffer_size m)
    (receive_buffer m) (buffer_slots m) (ready_to_disconnect m) f s a (msg_callback m) (msg_cb_context m)
    (server m) (world m) (calls m).
Definition with_io (m : client) (b : list Z) (w : W) : client :=
  mk_mt (connected m) (publish_packet_id m) (subscribe_packet_id m) (buffer_count m) (buffer_size m)
    b (buffer_slots m) (ready_to_disconnect m) (free_queue m) (send_queue m) (ack_queue m) (msg_callback m)
    (msg_cb_context m) (server m) w (calls m).
Definition with_call (m : client) (e : call_event) : client :=
  mk_mt (connected m) (publish_packet_id m) (subscribe_packet_id m) (buffer_count m) (buffer_size m)
    (receive_buffer m) (buffer_slots m) (ready_to_disconnect m) (free_queue m) (send_queue m) (ack_queue m)
    (msg_callback m) (msg_cb_context m) (server m) (world m) (calls m ++ [e]).
Definition with_slots (m : client) (l : list buffer_slot_t) : client :=
  mk_mt (connected m) (publish_packet_id m) (subscribe_packet_id m) (buffer_count m) (buffer_size m)
    (receive_buffer m) l (ready_to_disconnect m) (free_queue m) (send_queue m) (ack_queue m)
    (msg_callback m) (msg_cb_context m) (server m) (world m) (calls m).
Definition with_ids (m : client) (p s : Z) : client :=
  mk_mt (connected m) p s (buffer_count m) (buffer_size m)
    (receive_buffer m) (buffer_slots m) (ready_to_disconnect m) (free_queue m) (send_queue m) (ack_queue m)
    (msg_callback m) (msg_cb_context m) (server m) (world m) (calls m).

(** [&client->buffer_slots[position]] *)
Definition get_slot (m : client) (position : Z) : outcome buffer_slot_t :=
  if decide (0 ≤ position < zlen (buffer_slots m)) then
    match buffer_slots m !! Z.to_nat position with Some s => Ok s | None => Fault OobRead end
  else Fault OobRead.

(** * Starting *)

(** [start_session_thread] up to [pthread_create]; the contents of the buffers
    are what [malloc] gave. *)
Definition start_session_thread (m : client) (count size : Z) (junk : list Z) (srv : server_t W)
    : outcome client :=
  free ← for_loop (Z.to_nat count) 0 (λ i q, push q (Z.of_nat i)) empty_queue;
  Ok (mk_mt (connected m) (publish_packet_id m) (subscribe_packet_id m) count size junk
        (replicate (Z.to_nat count) (mk_slot 0 junk)) false free empty_queue empty_queue
        (msg_callback m) (msg_cb_context m) srv (world m) (calls m)).

Definition signal_disconnect (m : client) : client :=
  mk_mt (connected m) (publish_packet_id m) (subscribe_packet_id m) (buffer_count m) (buffer_size m)
    (receive_buffer m) (buffer_slots m) true (free_queue m) (send_queue m) (ack_queue m)
    (msg_callback m) (msg_cb_context m) (server m) (world m) (calls m).

(** * Queue operations other threads use *)

Definition enqueue_waiting (m : client) (waiting : waiting_t) : outcome client :=
  a ← push (ack_queue m) waiting;
  Ok (with_queues m (free_queue m) (send_queue m) a).

(** The assignment to the slot, made before the mutex is taken. *)
Definition set_slot_length (m : client) (position length : Z) : outcome client :=
  s ← get_slot m position;
  Ok (with_slots m (<[Z.to_nat position := mk_slot (u16 length) (buffer s)]> (buffer_slots m))).

Definition enqueue_for_send (m : client) (position : Z) : outcome client :=
  s ← push (send_queue m) position;
  Ok (with_queues m (free_queue m) s (ack_queue m)).

(** * Incoming messages *)

(** The server call of the handlers, on the private receive buffer. *)
Definition reply (m : client) (make : list Z → Z → outcome (Z * list Z))
    : outcome (smqtt_mt_status_t * client) :=
  '(actual_len, b) ← make (receive_buffer m) (buffer_size m);
  '(stat, w) ← server_send (server m) b actual_len (world m);
  Ok (status_from_net stat, with_io m b w).

(** [copy_publish_topic], [copy_publish_msg]: a terminated copy. *)
Definition copy_publish (m : client) (p size : Z) : outcome (list Z) :=
  bs ← strncpy_bytes (drop (Z.to_nat p) (receive_buffer m)) (Z.to_nat size);
  Ok (bs ++ [0]).

Definition maybe_deliver_message (m : client) (d : publish_data_t) : outcome client :=
  match msg_callback m with
  | None => Ok m
  | Some cb =>
      topic ← copy_publish m (pub_topic d) (pub_topic_size d);
      message ← copy_publish m (pub_message d) (pub_message_size d);
      Ok (with_call m (Delivered cb topic message (pub_qos d) (pub_retain d) (msg_cb_context m)))
  end.

(** [waiting->callback(true, waiting->cb_context);] *)
Definition complete (m : client) (w : option waiting_t) : outcome client :=
  match w with
  | None => Fault Uninitialised
  | Some w =>
      match callback w with
      | None => Fault NullDeref
      | Some cb => Ok (with_call m (Completed cb (cb_context w)))
      end
  end.

(** * The session thread *)

(** Where the thread stands between two steps. *)
Inductive session_pc :=
  | Top
  | Sending (position : Z)
  | Releasing (position : Z)
  | Receiving
  | Handling (resp : response_t)
  | Found (resp : response_t) (found : bool) (waiting : option waiting_t)
  | Rewait (waiting : waiting_t)
  | Done.

(** The types looked up in the acknowledgement queue. *)
Definition looked_up (t : message_type_t) : bool :=
  match t with PINGRESP | PUBACK | PUBREC | PUBCOMP | SUBACK | UNSUBACK | PUBREL => true | _ => false end.

(** After the search: callbacks and replies, outside the mutex. *)
Definition handle_pubrec (m : client) (packet_id : Z) (waiting : option waiting_t) : outcome (session_pc * client) :=
  '(stat, m) ← reply m (λ b n, make_pubrel_message b n packet_id);
  match stat, waiting with
  | SMQTT_MT_OK, Some w =>
      Ok (Rewait (mk_waiting PUBCOMP (callback w) (cb_context w) (w_pubcomp packet_id)), m)
  | SMQTT_MT_OK, None => Fault Uninitialised
  | _, _ => Ok (Top, m)
  end.

Definition handle_suback (m : client) (packet_id : Z) (results : list sub_result) (waiting : option waiting_t)
    : outcome (session_pc * client) :=
  match waiting with
  | None => Fault Uninitialised
  | Some w =>
      match w_data w with
      | w_suback (Some cb) _ => Ok (Top, with_call m (Subscribed cb packet_id results (cb_context w)))
      | w_suback None _ => Ok (Top, m)
      | _ => Fault Uninitialised
      end
  end.

Definition handle_unsuback (m : client) (waiting : option waiting_t) : outcome (session_pc * client) :=
  match waiting with
  | None => Fault Uninitialised
  | Some w =>
      match callback w with
      | Some cb => Ok (Top, with_call m (Completed cb (cb_context w)))
      | None => Ok (Top, m)
      end
  end.

Definition handle_publish (m : client) (d : publish_data_t) : outcome (session_pc * client) :=
  if decide (pub_qos d = QoS0) then m ← maybe_deliver_message m d; Ok (Top, m)
  else if decide (pub_qos d = QoS1) then
    '(stat, m) ← reply m (λ b n, make_puback_message b n (pub_packet_id d));
    match stat with
    | SMQTT_MT_OK => m ← maybe_deliver_message m d; Ok (Top, m)
    | _ => Ok (Top, m)
    end
  else if decide (pub_qos d = QoS2) then
    '(stat, m) ← reply m (λ b n, make_pubrec_message b n (pub_packet_id d));
    match stat with
    | SMQTT_MT_OK =>
        topic ← copy_publish m (pub_topic d) (pub_topic_size d);
        message ← copy_publish m (pub_message d) (pub_message_size d);
        Ok (Rewait (mk_waiting PUBREL None 0 (w_pubrel topic message (pub_retain d) (pub_packet_id d))), m)
    | _ => Ok (Top, m)
    end
  else Ok (Top, m).

Definition handle_pubrel (m : client) (packet_id : Z) (waiting : option waiting_t) : outcome (session_pc * client) :=
  '(stat, m) ← reply m (λ b n, make_pubcomp_message b n packet_id);
  match stat, msg_callback m with
  | SMQTT_MT_OK, Some cb =>
      match w_data <$> waiting with
      | Some (w_pubrel topic message retain _) =>
          Ok (Top, with_call m (Delivered cb topic message QoS2 retain (msg_cb_context m)))
      | _ => Fault Uninitialised
      end
  | _, _ => Ok (Top, m)
  end.

Definition act (m : client) (resp : response_t) (found : bool) (waiting : option waiting_t)
    : outcome (session_pc * client) :=
  match type resp, body resp with
  | (PINGRESP | PUBACK | PUBCOMP), _ => m ← (if found then complete m waiting else Ok m); Ok (Top, m)
  | PUBREC, pubrec_data packet_id => if found then handle_pubrec m packet_id waiting else Ok (Top, m)
  | SUBACK, suback_data packet_id results =>
      if found then handle_suback m packet_id results waiting else Ok (Top, m)
  | UNSUBACK, _ => if found then handle_unsuback m waiting else Ok (Top, m)
  | PUBLISH, publish_data d => handle_publish m d
  | PUBREL, pubrel_data packet_id => if found then handle_pubrel m packet_id waiting else Ok (Top, m)
  | _, _ => Ok (Top, m)
  end.

(** One step of [session_thread_loop]. *)
Definition session_step (pc : session_pc) (m : client) : outcome (session_pc * client) :=
  match pc with
  | Top =>
      if ready_to_disconnect m then Ok (Done, m) else
      '(o, s) ← pop (send_queue m);
      let m := with_queues m (free_queue m) s (ack_queue m) in
      Ok (match o with Some position => Sending position | None => Receiving end, m)
  | Sending position =>
      slot ← get_slot m position;
      '(_, w) ← server_send (server m) (buffer slot) (message_length slot) (world m);
      Ok (Releasing position, with_io m (receive_buffer m) w)
  | Releasing position =>
      f ← push (free_queue m) position;
      Ok (Receiving, with_queues m f (send_queue m) (ack_queue m))
  | Receiving =>
      '(sz, b, w) ← server_receive (server m) (receive_buffer m) (buffer_size m) (world m);
      let m := with_io m b w in
      if decide (sz > 0) then
        resp ← deserialize_response (receive_buffer m) sz;
        match resp with
        | None => Fault NullDeref
        | Some resp => Ok (Handling resp, m)
        end
      else Ok (Top, m)
  | Handling resp =>
      if looked_up (type resp) then
        id ← (if decide (type resp = PINGRESP) then Ok 0
              else match body_packet_id (body resp) with Some id => Ok id | None => Fault Uninitialised end);
        '(found, waiting, a) ← search (ack_queue m) (type resp) id;
        Ok (Found resp found waiting, with_queues m (free_queue m) (send_queue m) a)
      else Ok (Found resp false None, m)
  | Found resp found waiting => act m resp found waiting
  | Rewait waiting => m ← enqueue_waiting m waiting; Ok (Top, m)
  | Done => Ok (Done, m)
  end.

End connection.
