(* ===== verification/ClientMt.v ===== *)
(** ClientMt: the operations of [libsmqttclient_mt/smqttc_mt.c] and the system
    they form with the session thread: a step relation over the threads, with
    the mutex. *)

From stdpp Require Import gmap.
From S2P Require Import Prelude Protocol Size Wire Serialize Deserialize Server Queue Connection.

#[local] Open Scope Z_scope.

Definition MT_BUFFER_SIZE : Z := 1024.

(** * Operations

    A call and its arguments. *)
Inductive request :=
  | Mt_ping (cb : option Z) (cb_context : Z)
  | Mt_publish (topic : list Z) (msg : option (list Z)) (qos : Z) (retain : bool) (cb : option Z) (cb_context : Z)
  | Mt_subscribe (topic_count : Z) (topics : list (list Z)) (qoss : list Z) (cb : option Z) (cb_context : Z)
  | Mt_unsubscribe (topic_count : Z) (topics : list (list Z)) (cb : option Z) (cb_context : Z).

(** Where a calling thread stands.  [Spinning] holds the mutex: it is the loop
    of [get_buffer_slot]. *)
Inductive api_pc :=
  | Start
  | Spinning
  | Filling (slot : Z)
  | Counting (slot actual_len : Z)
  | Storing (slot actual_len : Z) (id : option Z)
  | Preparing (slot actual_len : Z)
  | Waiting (slot actual_len : Z) (w : option waiting_t)
  | Advancing (slot actual_len : Z)
  | Saving (slot actual_len : Z) (id : option Z)
  | Sizing (slot actual_len : Z)
  | Queueing (slot : Z)
  | Returned (st : smqtt_mt_status_t).

Section client_mt.
Context {W : Type}.
Local Abbreviation client := (smqtt_mt_client W).

(** The serializer of the call, with the identifiers it reads from the client. *)
Definition packet (r : request) (publish_id subscribe_id : Z) (buffer : list Z) : outcome (Z * list Z) :=
  match r with
  | Mt_ping _ _ => make_pingreq_message buffer MT_BUFFER_SIZE
  | Mt_publish topic msg qos retain _ _ =>
      make_publish_message buffer MT_BUFFER_SIZE topic publish_id qos retain msg
  | Mt_subscribe count topics qoss _ _ =>
      make_subscribe_message buffer MT_BUFFER_SIZE subscribe_id (u8 count) topics qoss
  | Mt_unsubscribe count topics _ _ =>
      make_unsubscribe_message buffer MT_BUFFER_SIZE subscribe_id (u8 count) topics
  end.

(** The packet, into the buffer of the slot. *)
Definition fill (r : request) (slot : Z) (m : client) : outcome (Z * client) :=
  s ← get_slot m slot;
  '(len, b) ← packet r (publish_packet_id m) (subscribe_packet_id m) (buffer s);
  Ok (len, with_slots m (<[Z.to_nat slot := mk_slot (message_length s) b]> (buffer_slots m))).

(** What the call waits for: the members of a [waiting_t] written by the code.
    The identifiers are read again, from the client. *)
Definition waiting_for (r : request) (m : client) : option waiting_t :=
  match r with
  | Mt_ping cb ctx => Some (mk_waiting PINGRESP cb ctx w_unwritten)
  | Mt_publish _ _ qos _ cb ctx =>
      if decide (qos = QoS1) then Some (mk_waiting PUBACK cb ctx (w_puback (publish_packet_id m)))
      else if decide (qos = QoS2) then Some (mk_waiting PUBREC cb ctx (w_pubrec (publish_packet_id m)))
      else None
  | Mt_subscribe _ _ _ cb ctx => Some (mk_waiting SUBACK None ctx (w_suback cb (publish_packet_id m)))
  | Mt_unsubscribe _ _ cb ctx => Some (mk_waiting SUBACK cb ctx (w_unsuback (publish_packet_id m)))
  end.

(** [client->subscribe_packet_id++], before the [waiting_t] is made, and
    [client->publish_packet_id++], after it is queued.  Neither holds the mutex:
    each is a read and a write, with the steps of other threads between. *)
Definition next_subscribe_id (r : request) (m : client) : option Z :=
  match r with
  | Mt_subscribe _ _ _ _ _ | Mt_unsubscribe _ _ _ _ => Some (u16 (subscribe_packet_id m + 1))
  | _ => None
  end.
Definition next_publish_id (r : request) (m : client) : option Z :=
  match r with
  | Mt_publish _ _ qos _ _ _ =>
      if decide (qos = QoS1 ∨ qos = QoS2) then Some (u16 (publish_packet_id m + 1)) else None
  | _ => None
  end.

(** The checks before anything is touched. *)
Definition guard (r : request) (m : client) : option smqtt_mt_status_t :=
  if negb (connected m) then Some SMQTT_MT_NOT_CONNECTED
  else match r with
       | Mt_publish _ _ qos _ _ _ => if decide (qos > QoS2) then Some SMQTT_MT_INVALID else None
       | _ => None
       end.

(** One try of [dequeue(&client->free_queue, ...)], with the mutex held. *)
Definition try_slot (m : client) : outcome (api_pc * client) :=
  '(o, f) ← pop (free_queue m);
  Ok (match o with Some slot => Filling slot | None => Spinning end,
      with_queues m f (send_queue m) (ack_queue m)).

Definition api_step (r : request) (pc : api_pc) (m : client) : outcome (api_pc * client) :=
  match pc with
  | Start => match guard r m with Some st => Ok (Returned st, m) | None => try_slot m end
  | Spinning => try_slot m
  | Filling slot => '(len, m) ← fill r slot m; Ok (Counting slot len, m)
  | Counting slot len => Ok (Storing slot len (next_subscribe_id r m), m)
  | Storing slot len id =>
      Ok (Preparing slot len, match id with Some id => with_ids m (publish_packet_id m) id | None => m end)
  | Preparing slot len => Ok (Waiting slot len (waiting_for r m), m)
  | Waiting slot len w =>
      m ← match w with Some w => enqueue_waiting m w | None => Ok m end;
      Ok (Advancing slot len, m)
  | Advancing slot len => Ok (Saving slot len (next_publish_id r m), m)
  | Saving slot len id =>
      Ok (Sizing slot len, match id with Some id => with_ids m id (subscribe_packet_id m) | None => m end)
  | Sizing slot len => m ← set_slot_length m slot len; Ok (Queueing slot, m)
  | Queueing slot => m ← enqueue_for_send m slot; Ok (Returned SMQTT_MT_OK, m)
  | Returned st => Ok (Returned st, m)
  end.

(** * The system *)

(** The session thread and the calls in progress, finished or to come. *)
Record system := mk_system {
  shared : client;
  session : session_pc;
  callers : list (request * api_pc)
}.

(** A call that spins holds the mutex. *)
Definition spins (c : request * api_pc) : bool := match c.2 with Spinning => true | _ => false end.
Definition locked (callers : list (request * api_pc)) : bool := existsb spins callers.

(** The steps that take the mutex; the others run while it is held. *)
Definition session_locks (pc : session_pc) : bool :=
  match pc with
  | Top | Releasing _ | Rewait _ => true
  | Handling resp => looked_up (type resp)
  | _ => false
  end.
Definition api_locks (r : request) (pc : api_pc) (m : client) : bool :=
  match pc with
  | Start => match guard r m with None => true | Some _ => false end
  | Waiting _ _ (Some _) | Queueing _ => true
  | _ => false
  end.

Inductive step : system → system → Prop :=
  | step_session m pc cs pc' m' :
      pc ≠ Done → (session_locks pc = true → locked cs = false) →
      session_step pc m = Ok (pc', m') →
      step (mk_system m pc cs) (mk_system m' pc' cs)
  | step_call m pc cs i r p p' m' :
      cs !! i = Some (r, p) → (∀ st, p ≠ Returned st) →
      (api_locks r p m = true → locked cs = false) →
      api_step r p m = Ok (p', m') →
      step (mk_system m pc cs) (mk_system m' pc (<[i := (r, p')]> cs))
  | step_arrival m pc cs r :
      step (mk_system m pc cs) (mk_system m pc (cs ++ [(r, Start)]))
  | step_disconnect m pc cs :
      locked cs = false → step (mk_system m pc cs) (mk_system (signal_disconnect m) pc cs).

Definition steps : system → system → Prop := rtc step.

(** A call that runs without interruption, as long as it takes. *)
Fixpoint run_mt_call (fuel : nat) (r : request) (pc : api_pc) (m : client) : outcome (smqtt_mt_status_t * client) :=
  match pc, fuel with
  | Returned st, _ => Ok (st, m)
  | _, O => Fault OutOfFuel
  | _, S fuel' => '(pc, m) ← api_step r pc m; run_mt_call fuel' r pc m
  end.

(** The steps from [Start] to [Returned] when a slot is free. *)
Definition call_fuel : nat := 10.

(** The calls of [smqttc_mt.h], uninterrupted. *)
Definition smqtt_mt_ping (m : client) (callback : option Z) (cb_context : Z)
    : outcome (smqtt_mt_status_t * client) := run_mt_call call_fuel (Mt_ping callback cb_context) Start m.
Definition smqtt_mt_publish (m : client) (topic : list Z) (msg : option (list Z)) (qos : Z) (retain : bool)
    (callback : option Z) (cb_context : Z) : outcome (smqtt_mt_status_t * client) :=
  run_mt_call call_fuel (Mt_publish topic msg qos retain callback cb_context) Start m.
Definition smqtt_mt_subscribe (m : client) (topic_count : Z) (topics : list (list Z)) (qoss : list Z)
    (sub_callback : option Z) (sub_cb_context : Z) : outcome (smqtt_mt_status_t * client) :=
  run_mt_call call_fuel (Mt_subscribe topic_count topics qoss sub_callback sub_cb_context) Start m.
Definition smqtt_mt_unsubscribe (m : client) (topic_count : Z) (topics : list (list Z))
    (callback : option Z) (cb_context : Z) : outcome (smqtt_mt_status_t * client) :=
  run_mt_call call_fuel (Mt_unsubscribe topic_count topics callback cb_context) Start m.

Definition mt_call (r : request) (m : client) : outcome (smqtt_mt_status_t * client) :=
  match r with
  | Mt_ping cb ctx => smqtt_mt_ping m cb ctx
  | Mt_publish topic msg qos retain cb ctx => smqtt_mt_publish m topic msg qos retain cb ctx
  | Mt_subscribe count topics qoss cb ctx => smqtt_mt_subscribe m count topics qoss cb ctx
  | Mt_unsubscribe count topics cb ctx => smqtt_mt_unsubscribe m count topics cb ctx
  end.

(** ** Schedules

    The same steps, executable: who runs next. *)
Inductive choice := Run_session | Run_call (i : nat) | New_call (r : request) | Disconnect_signal.

Definition choose (c : choice) (s : system) : option system :=
  let m := shared s in
  let cs := callers s in
  match c with
  | Run_session =>
      match session s with
      | Done => None
      | pc =>
          if session_locks pc && locked cs then None
          else match session_step pc m with
               | Ok (pc', m') => Some (mk_system m' pc' cs)
               | Fault _ => None
               end
      end
  | Run_call i =>
      match cs !! i with
      | None | Some (_, Returned _) => None
      | Some (r, p) =>
          if api_locks r p m && locked cs then None
          else match api_step r p m with
               | Ok (p', m') => Some (mk_system m' (session s) (<[i := (r, p')]> cs))
               | Fault _ => None
               end
      end
  | New_call r => Some (mk_system m (session s) (cs ++ [(r, Start)]))
  | Disconnect_signal => if locked cs then None else Some (mk_system (signal_disconnect m) (session s) cs)
  end.

Fixpoint run_schedule (cs : list choice) (s : system) : option system :=
  match cs with
  | [] => Some s
  | c :: cs => s' ← choose c s; run_schedule cs s'
  end.

Lemma lock_free a b : a && b = false → a = true → b = false.
Proof using Type. by destruct a, b. Qed.

Lemma choose_session_inv s s' :
  choose Run_session s = Some s' →
  session s ≠ Done ∧ (session_locks (session s) = true → locked (callers s) = false) ∧
  ∃ pc m, session_step (session s) (shared s) = Ok (pc, m) ∧ s' = mk_system m pc (callers s).
Proof using Type.
  destruct s as [m pc cs]. cbn [choose shared session callers].
  assert (Hgen : pc ≠ Done → (if session_locks pc && locked cs then None
      else match session_step pc m with
           | Ok (pc', m') => Some (mk_system m' pc' cs) | Fault _ => None end) = Some s' →
      pc ≠ Done ∧ (session_locks pc = true → locked cs = false) ∧
      ∃ pc' m', session_step pc m = Ok (pc', m') ∧ s' = mk_system m' pc' cs).
  { intros Hd. destruct (session_locks pc && locked cs) eqn:Hl; [done|].
    destruct (session_step pc m) as [[pc' m']|]; [|done]. intros [= <-].
    split; [done|]. split; [exact (lock_free _ _ Hl)|by exists pc', m']. }
  destruct pc; try done; by apply Hgen.
Qed.

Lemma choose_call_inv i s s' :
  choose (Run_call i) s = Some s' →
  ∃ r p p' m, callers s !! i = Some (r, p) ∧ (∀ st, p ≠ Returned st) ∧
    (api_locks r p (shared s) = true → locked (callers s) = false) ∧ api_step r p (shared s) = Ok (p', m) ∧
    s' = mk_system m (session s) (<[i := (r, p')]> (callers s)).
Proof using Type.
  destruct s as [m pc cs]. cbn [choose shared session callers]. destruct (cs !! i) as [[r p]|] eqn:Hi; [|done].
  assert (Hgen : (∀ st, p ≠ Returned st) → (if api_locks r p m && locked cs then None
      else match api_step r p m with
           | Ok (p', m') => Some (mk_system m' pc (<[i := (r, p')]> cs)) | Fault _ => None end) = Some s' →
      ∃ r0 p0 p' m', Some (r, p) = Some (r0, p0) ∧ (∀ st, p0 ≠ Returned st) ∧
        (api_locks r0 p0 m = true → locked cs = false) ∧ api_step r0 p0 m = Ok (p', m') ∧
        s' = mk_system m' pc (<[i := (r0, p')]> cs)).
  { intros Hd. destruct (api_locks r p m && locked cs) eqn:Hl; [done|].
    destruct (api_step r p m) as [[p' m']|] eqn:Hs; [|done]. intros [= <-]. exists r, p, p', m'.
    split; [done|]. split; [done|]. split; [exact (lock_free _ _ Hl)|by split]. }
  destruct p; try done; by apply Hgen.
Qed.

Lemma choose_step c s s' : choose c s = Some s' → step s s'.
Proof using Type.
  destruct c as [|i|r|].
  - intros (Hd & Hl & pc & m & H & ->)%choose_session_inv. destruct s. by apply step_session.
  - intros (r & p & p' & m & Hi & Hp & Hl & H & ->)%choose_call_inv. destruct s. by eapply step_call.
  - intros [= <-]. destruct s. apply step_arrival.
  - cbn [choose]. destruct (locked (callers s)) eqn:Hl; [done|]. intros [= <-]. destruct s. by apply step_disconnect.
Qed.

Lemma run_schedule_steps cs : ∀ s s', run_schedule cs s = Some s' → steps s s'.
Proof using Type.
  induction cs as [|c cs IH]; intros s s'; cbn [run_schedule]; [intros [= <-]; apply rtc_refl|].
  intros (s1 & Hc & Hr)%bind_Some. eapply rtc_l; [by eapply choose_step|by apply IH].
Qed.

(** * Ownership of the slots *)

(** The abstract contents of a queue. *)
Definition holds {P} (q : linked P) (xs : list P) : Prop :=
  ∃ prev ns, queue_rep (cells q) (ends q) prev ns ∧ ns.*2 = xs.

(** What is known of a slot: nothing, that it holds the packet of a call, or
    that its length is set as well. *)
Inductive stage := Raw | Made (r : request) (len : Z) | Ready.

Definition carries (r : request) (s : buffer_slot_t) (len : Z) : Prop :=
  ∃ publish_id subscribe_id buf, packet r publish_id subscribe_id buf = Ok (len, buffer s).

Definition stage_ok (rs : list request) (st : stage) (s : buffer_slot_t) : Prop :=
  match st with
  | Raw => True
  | Made r len => r ∈ rs ∧ carries r s len
  | Ready => ∃ r len, r ∈ rs ∧ carries r s len ∧ message_length s = u16 len
  end.

Definition claim_ok (rs : list request) (m : client) (c : Z * stage) : Prop :=
  ∃ s, get_slot m c.1 = Ok s ∧ stage_ok rs c.2 s.

Definition session_claims (pc : session_pc) : list (Z * stage) :=
  match pc with Sending p => [(p, Ready)] | Releasing p => [(p, Raw)] | _ => [] end.

Definition api_claims (c : request * api_pc) : list (Z * stage) :=
  match c.2 with
  | Filling s => [(s, Raw)]
  | Counting s len | Storing s len _ | Preparing s len | Waiting s len _ | Advancing s len | Saving s len _
  | Sizing s len => [(s, Made c.1 len)]
  | Queueing s => [(s, Ready)]
  | Start | Spinning | Returned _ => []
  end.

Definition all_claims (free send : list Z) (mine others : list (Z * stage)) : list (Z * stage) :=
  ((., Raw) <$> free) ++ ((., Ready) <$> send) ++ mine ++ others.

(** The number of slots. *)
Variable count : Z.

(** [owned rs m mine others]: each slot is in the free queue, in the send queue,
    in [mine] or in [others], in one of them only, and is what its owner takes
    it for; [rs] are the calls made. *)
Definition owned (rs : list request) (m : client) (mine others : list (Z * stage)) : Prop :=
  ∃ free send,
    holds (free_queue m) free ∧ holds (send_queue m) send ∧
    (all_claims free send mine others).*1 ≡ₚ seqZ 0 count ∧
    Forall (claim_ok rs m) (all_claims free send mine others).

(** The owners are the free queue, the send queue, the session thread and the
    calls. *)
Definition slots_owned (s : system) : Prop :=
  owned (callers s).*1 (shared s) (session_claims (session s)) (concat (api_claims <$> callers s)).

Lemma holds_push {P} (q : linked P) xs x :
  holds q xs → ∃ q', push q x = Ok q' ∧ holds q' (xs ++ [x]).
Proof using Type.
  intros (prev & ns & Hr & <-). destruct (enqueue_rep _ _ _ _ x Hr) as (h' & q' & prev' & He & Hr' & _).
  unfold push. rewrite He, bind_ok. eexists. split; [done|]. eexists _, _.
  split; [done|]. by rewrite fmap_app.
Qed.

Lemma holds_pop {P} (q : linked P) xs :
  holds q xs → ∃ q', pop q = Ok (hd_error xs, q') ∧ holds q' (tl xs).
Proof using Type.
  intros (prev & ns & Hr & <-). pose proof (dequeue_rep _ _ _ _ Hr) as Hd. unfold pop.
  destruct ns as [|[l x] ns].
  - rewrite Hd, bind_ok. eexists. split; [done|]. by exists prev, [].
  - destruct Hd as (q' & -> & Hr'). rewrite bind_ok. eexists. split; [done|]. by exists (Some l), ns.
Qed.

Lemma holds_empty {P} : holds (@empty_queue P) [].
Proof using Type. exists None, []. split; [apply init_queue_rep|done]. Qed.

Lemma Forall_perm {A} (P : A → Prop) l l' : l ≡ₚ l' → Forall P l → Forall P l'.
Proof using Type. by intros ->. Qed.

(** ** Slots *)

Lemma get_slot_inv (m : client) p s :
  get_slot m p = Ok s → 0 ≤ p < zlen (buffer_slots m) ∧ buffer_slots m !! Z.to_nat p = Some s.
Proof using Type. unfold get_slot. case_decide; [|done]. destruct (_ !! _); [|done]. by intros [= ->]. Qed.

Lemma get_slot_write (m : client) p s q :
  0 ≤ p < zlen (buffer_slots m) →
  get_slot (with_slots m (<[Z.to_nat p := s]> (buffer_slots m))) q = if decide (q = p) then Ok s else get_slot m q.
Proof using Type.
  intros Hp. unfold get_slot, zlen in *. cbn [buffer_slots with_slots]. rewrite length_insert.
  destruct (decide (q = p)) as [->|Hne].
  - rewrite decide_True, list_lookup_insert_eq by lia. done.
  - case_decide; [|done]. by rewrite list_lookup_insert_ne by lia.
Qed.

(** What the ownership invariant reads of the shared state. *)
Definition slot_view (m : client) : linked Z * linked Z * list buffer_slot_t :=
  (free_queue m, send_queue m, buffer_slots m).

Lemma owned_view rs m m' mine others :
  slot_view m' = slot_view m → owned rs m mine others → owned rs m' mine others.
Proof using Type.
  intros Hv (free & send & Hf & Hs & Hperm & Hok). injection Hv as Hf' Hs' Hl'.
  exists free, send. rewrite Hf', Hs'. split_and!; [done..|].
  eapply Forall_impl; [exact Hok|]. intros [p st]. unfold claim_ok, get_slot. by rewrite Hl'.
Qed.

Lemma owned_perm rs m mine others mine' others' :
  mine ++ others ≡ₚ mine' ++ others' → owned rs m mine others → owned rs m mine' others'.
Proof using Type.
  intros Hp (free & send & Hf & Hs & Hperm & Hok). exists free, send. split_and!; [done..| |].
  - rewrite <- Hperm. unfold all_claims. f_equiv. do 2 f_equiv. by symmetry.
  - unfold all_claims. by rewrite <- Hp.
Qed.

Lemma stage_ok_mono rs rs' st s : rs ⊆ rs' → stage_ok rs st s → stage_ok rs' st s.
Proof using Type.
  intros Hr. destruct st as [|r len|]; cbn; [done|intros [? ?]|intros (r & len & ? & ?)].
  - split; [by apply Hr|done].
  - exists r, len. split; [by apply Hr|done].
Qed.

Lemma owned_mono rs rs' m mine others : rs ⊆ rs' → owned rs m mine others → owned rs' m mine others.
Proof using Type.
  intros Hr (free & send & Hf & Hs & Hperm & Hok). exists free, send. split_and!; [done..|].
  eapply Forall_impl; [exact Hok|]. intros c (s & Hg & Hst). exists s. split; [done|].
  by eapply stage_ok_mono.
Qed.

(** The owner of a slot writes it. *)
Lemma owned_write rs m p st s st' others :
  owned rs m [(p, st)] others → stage_ok rs st' s →
  owned rs (with_slots m (<[Z.to_nat p := s]> (buffer_slots m))) [(p, st')] others.
Proof using Type.
  intros (free & send & Hf & Hs & Hperm & Hok) Hst. exists free, send.
  assert (Hmid : ∀ x, all_claims free send [(p, x)] others ≡ₚ (p, x) :: all_claims free send [] others)
    by (intros x; unfold all_claims; solve_Permutation).
  rewrite Hmid in Hperm, Hok. rewrite Hmid. cbn [fmap list_fmap fst] in *.
  apply Forall_cons in Hok as [(s0 & Hg & _) Hok]. apply get_slot_inv in Hg as [Hb _].
  assert (Hnd : NoDup (p :: (all_claims free send [] others).*1))
    by (rewrite Hperm; apply NoDup_seqZ).
  apply NoDup_cons in Hnd as [Hni _].
  split_and!; [done..|]. apply Forall_cons. split.
  - exists s. by rewrite (get_slot_write _ _ _ _ Hb), decide_True by done.
  - apply Forall_forall. intros [q stq] Hq. pose proof (proj1 (Forall_forall _ _) Hok _ Hq) as (sq & Hgq & Hsq).
    exists sq. cbn [fst snd] in *. rewrite (get_slot_write _ _ _ _ Hb), decide_False; [done|].
    intros ->. apply Hni. apply list_elem_of_fmap. by exists (p, stq).
Qed.

Lemma owned_weaken rs m p st others : owned rs m [(p, st)] others → owned rs m [(p, Raw)] others.
Proof using Type.
  intros (free & send & Hf & Hs & Hperm & Hok). exists free, send. unfold all_claims in *.
  rewrite !fmap_app in *. split_and!; [done..|].
  rewrite !Forall_app, !Forall_cons in *. destruct Hok as (? & ? & ((s & ? & _) & ?) & ?).
  split_and!; try done. by exists s.
Qed.

(** A slot in hand. *)
Lemma owned_slot rs m p st others :
  owned rs m [(p, st)] others → ∃ s, get_slot m p = Ok s ∧ stage_ok rs st s.
Proof using Type.
  intros (free & send & Hf & Hs & Hperm & Hok). unfold all_claims in Hok.
  rewrite !Forall_app, Forall_cons in Hok. by destruct Hok as (_ & _ & (? & _) & _).
Qed.

(** ** Taking a slot out of a queue and putting one in *)

Lemma owned_pop_send rs m others o s :
  owned rs m [] others → pop (send_queue m) = Ok (o, s) →
  owned rs (with_queues m (free_queue m) s (ack_queue m))
    (match o with Some p => [(p, Ready)] | None => [] end) others.
Proof using Type.
  intros (free & send & Hf & Hs & Hperm & Hok) Hp. destruct (holds_pop _ _ Hs) as (s' & Hp' & Hs').
  rewrite Hp in Hp'. injection Hp' as -> ->. exists free, (tl send). unfold all_claims in *. split_and!; [done..| |].
  - rewrite <- Hperm. f_equiv. destruct send; [done|]. cbn [tl hd_error fmap list_fmap]. solve_Permutation.
  - destruct send; [done|]. cbn [tl hd_error fmap list_fmap] in *. refine (Forall_perm _ _ _ _ Hok). solve_Permutation.
Qed.

Lemma owned_pop_free rs m others o f :
  owned rs m [] others → pop (free_queue m) = Ok (o, f) →
  owned rs (with_queues m f (send_queue m) (ack_queue m))
    (match o with Some p => [(p, Raw)] | None => [] end) others.
Proof using Type.
  intros (free & send & Hf & Hs & Hperm & Hok) Hp. destruct (holds_pop _ _ Hf) as (f' & Hp' & Hf').
  rewrite Hp in Hp'. injection Hp' as -> ->. exists (tl free), send. unfold all_claims in *. split_and!; [done..| |].
  - rewrite <- Hperm. f_equiv. destruct free; [done|]. cbn [tl hd_error fmap list_fmap]. solve_Permutation.
  - destruct free; [done|]. cbn [tl hd_error fmap list_fmap] in *. refine (Forall_perm _ _ _ _ Hok). solve_Permutation.
Qed.

Lemma owned_push_free rs m position others f :
  owned rs m [(position, Raw)] others → push (free_queue m) position = Ok f →
  owned rs (with_queues m f (send_queue m) (ack_queue m)) [] others.
Proof using Type.
  intros (free & send & Hf & Hs & Hperm & Hok) Hp. destruct (holds_push _ _ position Hf) as (f' & Hp' & Hf').
  rewrite Hp in Hp'. injection Hp' as ->. exists (free ++ [position]), send. unfold all_claims in *. split_and!; [done..| |].
  - rewrite <- Hperm. f_equiv. rewrite fmap_app. cbn [fmap list_fmap]. solve_Permutation.
  - refine (Forall_perm _ _ _ _ Hok). rewrite fmap_app. cbn [fmap list_fmap]. solve_Permutation.
Qed.

Lemma owned_push_send rs m position others s :
  owned rs m [(position, Ready)] others → push (send_queue m) position = Ok s →
  owned rs (with_queues m (free_queue m) s (ack_queue m)) [] others.
Proof using Type.
  intros (free & send & Hf & Hs & Hperm & Hok) Hp. destruct (holds_push _ _ position Hs) as (s' & Hp' & Hs').
  rewrite Hp in Hp'. injection Hp' as ->. exists free, (send ++ [position]). unfold all_claims in *. split_and!; [done..| |].
  - rewrite <- Hperm. f_equiv. rewrite fmap_app. cbn [fmap list_fmap]. solve_Permutation.
  - refine (Forall_perm _ _ _ _ Hok). rewrite fmap_app. cbn [fmap list_fmap]. solve_Permutation.
Qed.
(** ** The steps keep it *)

(** What the handling of a message does not change. *)
Definition steady (m : client) := (slot_view m, ready_to_disconnect m, connected m).

Lemma steady_slots m m' : steady m' = steady m → slot_view m' = slot_view m.
Proof using Type. intros H. by apply (f_equal (λ x, x.1.1)) in H. Qed.

Lemma reply_steady m make st m' : reply m make = Ok (st, m') → steady m' = steady m.
Proof using Type.
  unfold reply. intros H. apply bind_ok_inv in H as ([n b] & _ & H).
  apply bind_ok_inv in H as ([st' w] & _ & [= _ <-]). done.
Qed.

Lemma deliver_steady m d m' : maybe_deliver_message m d = Ok m' → steady m' = steady m.
Proof using Type.
  unfold maybe_deliver_message. destruct (msg_callback m); [|by intros [= <-]]. intros H.
  apply bind_ok_inv in H as (t & _ & H). by apply bind_ok_inv in H as (t' & _ & [= <-]).
Qed.

Lemma complete_steady m w m' : complete m w = Ok m' → steady m' = steady m.
Proof using Type. unfold complete. destruct w as [w|]; [|done]. by destruct (callback w) as [cb|]; [intros [= <-]|]. Qed.

Ltac act_cases H :=
  repeat match type of H with
  | _ ≫= _ = Ok _ => let Hx := fresh "Hx" in apply bind_ok_inv in H as (? & Hx & H)
  | context [match ?x with _ => _ end] => destruct x
  end.

Lemma act_steady m resp found w pc' m' :
  act m resp found w = Ok (pc', m') → steady m' = steady m ∧ (pc' = Top ∨ ∃ w', pc' = Rewait w').
Proof using Type.
  unfold act, handle_pubrec, handle_suback, handle_unsuback, handle_publish, handle_pubrel. intros H. act_cases H; try done; injection H as <- <-; (split; [|by eauto]);
    repeat match goal with
    | Hx : (if ?c then _ else _) = Ok _ |- _ => destruct c
    | Hx : Ok _ = Ok _ |- _ => injection Hx as <-
    | Hx : complete _ _ = Ok _ |- _ => apply complete_steady in Hx
    | Hx : maybe_deliver_message _ _ = Ok _ |- _ => apply deliver_steady in Hx
    | Hx : reply _ _ = Ok _ |- _ => apply reply_steady in Hx
    end; try done; try congruence.
Qed.

Lemma session_step_owned rs m pc pc' m' others :
  owned rs m (session_claims pc) others → session_step pc m = Ok (pc', m') →
  owned rs m' (session_claims pc') others.
Proof using Type.
  intros Ho H. destruct pc as [|p|p| |resp|resp found w|w|]; cbn [session_step session_claims] in *.
  - destruct (ready_to_disconnect m); [by injection H as <- <-|].
    apply bind_ok_inv in H as ([o s] & Hp & [= <- <-]).
    pose proof (owned_pop_send _ _ _ _ _ Ho Hp) as Ho'. by destruct o.
  - apply bind_ok_inv in H as (slot & _ & H). apply bind_ok_inv in H as ([st w] & _ & [= <- <-]).
    by eapply owned_view, owned_weaken.
  - apply bind_ok_inv in H as (f & Hp & [= <- <-]). by eapply owned_push_free.
  - apply bind_ok_inv in H as ([[sz b] w] & _ & H). case_decide; [|by injection H as <- <-].
    apply bind_ok_inv in H as ([resp|] & _ & H); [|done]. by injection H as <- <-.
  - destruct (looked_up (type resp)); [|by injection H as <- <-].
    apply bind_ok_inv in H as (id & _ & H). by apply bind_ok_inv in H as ([[f w] a] & _ & [= <- <-]).
  - apply act_steady in H as [Hv%steady_slots [->|[w' ->]]]; by eapply owned_view.
  - apply bind_ok_inv in H as (m1 & Hm & [= <- <-]). unfold enqueue_waiting in Hm.
    by apply bind_ok_inv in Hm as (a & _ & [= <-]).
  - by injection H as <- <-.
Qed.

Lemma api_step_owned rs r m p p' m' others :
  r ∈ rs → owned rs m (api_claims (r, p)) others → api_step r p m = Ok (p', m') →
  owned rs m' (api_claims (r, p')) others.
Proof using Type.
  intros Hr.
  assert (Htry : ∀ p' m', owned rs m [] others → try_slot m = Ok (p', m') →
    owned rs m' (api_claims (r, p')) others).
  { intros q m1 Ho H. unfold try_slot in H. apply bind_ok_inv in H as ([o f] & Hp & [= <- <-]).
    pose proof (owned_pop_free _ _ _ _ _ Ho Hp) as Ho'. by destruct o. }
  intros Ho H. destruct p as [| |s|s len|s len id|s len|s len w|s len|s len id|s len|s|st];
    cbn [api_step api_claims fst snd] in *.
  - destruct (guard r m); [by injection H as <- <-|by apply Htry].
  - by apply Htry.
  - apply bind_ok_inv in H as ([len m1] & Hf & [= <- <-]). unfold fill in Hf.
    apply bind_ok_inv in Hf as (s0 & _ & Hf). apply bind_ok_inv in Hf as ([n b] & Hb & [= <- <-]).
    eapply owned_write; [exact Ho|]. split; [done|]. by eexists _, _, _.
  - by injection H as <- <-.
  - injection H as <- <-. by destruct id.
  - by injection H as <- <-.
  - apply bind_ok_inv in H as (m1 & Hm & [= <- <-]). destruct w as [w|]; [|by injection Hm as <-].
    unfold enqueue_waiting in Hm. by apply bind_ok_inv in Hm as (a & _ & [= <-]).
  - by injection H as <- <-.
  - injection H as <- <-. by destruct id.
  - apply bind_ok_inv in H as (m1 & Hm & [= <- <-]). unfold set_slot_length in Hm.
    apply bind_ok_inv in Hm as (s0 & Hs & [= <-]).
    destruct (owned_slot _ _ _ _ _ Ho) as (s1 & Hs' & _ & Hc). rewrite Hs in Hs'. injection Hs' as <-.
    eapply owned_write; [exact Ho|]. by exists r, len.
  - apply bind_ok_inv in H as (m1 & Hm & [= <- <-]). unfold enqueue_for_send in Hm.
    apply bind_ok_inv in Hm as (q & Hp & [= <-]). by eapply owned_push_send.
  - by injection H as <- <-.
Qed.

(** One call among the others. *)
Lemma callers_update (cs : list (request * api_pc)) i c c' :
  cs !! i = Some c → ∃ L, concat (api_claims <$> cs) ≡ₚ api_claims c ++ L ∧
    concat (api_claims <$> <[i := c']> cs) ≡ₚ api_claims c' ++ L.
Proof using Type.
  intros Hi. exists (concat (api_claims <$> take i cs) ++ concat (api_claims <$> drop (S i) cs)).
  split.
  - rewrite <- (take_drop_middle cs i c Hi) at 1. rewrite fmap_app, fmap_cons, concat_app. cbn [concat].
    solve_Permutation.
  - rewrite insert_take_drop by (by apply lookup_lt_Some in Hi).
    rewrite fmap_app, fmap_cons, concat_app. cbn [concat]. solve_Permutation.
Qed.

Lemma requests_update (cs : list (request * api_pc)) i r p p' :
  cs !! i = Some (r, p) → (<[i := (r, p')]> cs).*1 = cs.*1.
Proof using Type.
  intros Hi. rewrite list_fmap_insert. apply list_insert_id. by rewrite list_lookup_fmap, Hi.
Qed.

Lemma step_owned s s' : slots_owned s → step s s' → slots_owned s'.
Proof using Type.
  intros Ho Hst. destruct Hst as [m pc cs pc' m' _ _ H|m pc cs i r p p' m' Hi _ _ H|m pc cs r|m pc cs _];
    unfold slots_owned in *; cbn [shared session callers] in *.
  - by eapply session_step_owned.
  - destruct (callers_update cs i (r, p) (r, p') Hi) as (L & Hp & Hp'). rewrite (requests_update _ _ _ _ _ Hi).
    assert (Hr : r ∈ cs.*1) by (apply list_elem_of_fmap; exists (r, p); split; [done|by eapply list_elem_of_lookup_2]).
    eapply owned_perm; [|eapply api_step_owned; [exact Hr|eapply owned_perm; [|exact Ho]|exact H]].
    + symmetry. rewrite Hp', Permutation_app_comm, <- app_assoc. f_equiv. apply Permutation_app_comm.
    + rewrite Hp, Permutation_app_comm, <- app_assoc. f_equiv. apply Permutation_app_comm.
  - rewrite !fmap_app, concat_app. cbn [fmap list_fmap concat api_claims snd app]. rewrite app_nil_r.
    eapply owned_mono; [|exact Ho]. by intros x Hx; apply elem_of_app; left.
  - done.
Qed.

Lemma steps_owned s s' : slots_owned s → steps s s' → slots_owned s'.
Proof using Type. intros Ho Hs. induction Hs as [|s s1 s' H _ IH]; [done|]. apply IH. by eapply step_owned. Qed.

(** ** From the start *)

Lemma push_all n : ∀ i (q : linked Z) xs,
  holds q xs →
  ∃ q', for_loop n i (λ i q, push q (Z.of_nat i)) q = Ok q' ∧ holds q' (xs ++ seqZ (Z.of_nat i) (Z.of_nat n)).
Proof using Type.
  induction n as [|n IH]; intros i q xs Hq; cbn [for_loop].
  - exists q. split; [done|]. by rewrite app_nil_r.
  - destruct (holds_push q xs (Z.of_nat i) Hq) as (q1 & -> & Hq1). rewrite bind_ok.
    destruct (IH (S i) q1 _ Hq1) as (q' & Hr & Hq'). exists q'. split; [done|].
    rewrite <- app_assoc in Hq'. rewrite seqZ_cons by lia. simpl in Hq'.
    replace (Z.succ (Z.of_nat i)) with (Z.of_nat (S i)) by lia.
    replace (Z.pred (Z.of_nat (S n))) with (Z.of_nat n) by lia. done.
Qed.

Lemma start_owned m size junk srv :
  0 ≤ count →
  ∃ m0, start_session_thread m count size junk srv = Ok m0 ∧ slots_owned (mk_system m0 Top []).
Proof using Type.
  intros Hc. unfold start_session_thread.
  destruct (push_all (Z.to_nat count) 0 empty_queue [] holds_empty) as (q & -> & Hq). rewrite bind_ok.
  eexists. split; [done|]. exists (seqZ 0 count), []. rewrite Z2Nat.id in Hq by done.
  unfold all_claims. cbn [session_claims concat fmap list_fmap app]. rewrite !app_nil_r.
  split_and!; [exact Hq|apply holds_empty|by rewrite <- list_fmap_compose, list_fmap_id|].
  apply Forall_fmap, Forall_seqZ. intros p Hp. eexists. split; [|done].
  unfold get_slot, zlen. cbn [shared buffer_slots fst]. rewrite decide_True by (rewrite length_replicate; lia).
  by rewrite lookup_replicate_2 by lia.
Qed.

(** ** A call without a slot *)

(** Caller [i] is in the loop of [get_buffer_slot] and the free queue is empty. *)
Definition stuck (i : nat) (r : request) (s : system) : Prop :=
  callers s !! i = Some (r, Spinning) ∧ holds (free_queue (shared s)) [].

Lemma locked_spinning (cs : list (request * api_pc)) i r : cs !! i = Some (r, Spinning) → locked cs = true.
Proof using Type.
  intros Hi%list_elem_of_lookup_2. apply existsb_exists. exists (r, Spinning).
  split; [by apply list_elem_of_In|done].
Qed.

Lemma slot_view_free (m m' : client) : slot_view m' = slot_view m → free_queue m' = free_queue m.
Proof using Type. by intros [= -> _ _]. Qed.

Lemma session_unlocked_free pc (m : client) pc' m' :
  session_locks pc = false → session_step pc m = Ok (pc', m') → free_queue m' = free_queue m.
Proof using Type.
  intros Hl H. destruct pc as [|p|p| |resp|resp found w|w|]; try done; cbn [session_step session_locks] in *.
  - apply bind_ok_inv in H as (slot & _ & H). by apply bind_ok_inv in H as ([st w] & _ & [= _ <-]).
  - apply bind_ok_inv in H as ([[sz b] w] & _ & H). case_decide; [|by injection H as _ <-].
    apply bind_ok_inv in H as ([resp|] & _ & H); [|done]. by injection H as _ <-.
  - rewrite Hl in H. by injection H as _ <-.
  - apply act_steady in H as [Hv%steady_slots _]. by apply slot_view_free.
  - by injection H as _ <-.
Qed.

Lemma api_unlocked_free r p (m : client) p' m' :
  api_locks r p m = false → p ≠ Spinning → api_step r p m = Ok (p', m') → free_queue m' = free_queue m.
Proof using Type.
  intros Hl Hp H. destruct p as [| |s|s len|s len id|s len|s len w|s len|s len id|s len|s|st]; try done;
    cbn [api_step api_locks] in *.
  - destruct (guard r m); [by injection H as _ <-|done].
  - apply bind_ok_inv in H as ([len m1] & Hf & [= _ <-]). unfold fill in Hf.
    apply bind_ok_inv in Hf as (s0 & _ & Hf). by apply bind_ok_inv in Hf as ([n b] & _ & [= _ <-]).
  - by injection H as _ <-.
  - injection H as _ <-. by destruct id.
  - by injection H as _ <-.
  - destruct w; [done|]. by apply bind_ok_inv in H as (m1 & [= <-] & [= _ <-]).
  - by injection H as _ <-.
  - injection H as _ <-. by destruct id.
  - apply bind_ok_inv in H as (m1 & Hm & [= _ <-]). unfold set_slot_length in Hm.
    by apply bind_ok_inv in Hm as (b & _ & [= <-]).
  - by injection H as _ <-.
Qed.

(** A try on an empty queue fails. *)
Lemma try_slot_empty (m : client) p m1 :
  holds (free_queue m) [] → try_slot m = Ok (p, m1) → p = Spinning ∧ holds (free_queue m1) [].
Proof using Type.
  intros Hf Ht. unfold try_slot in Ht. apply bind_ok_inv in Ht as ([o f] & Hp & [= <- <-]).
  destruct (holds_pop _ _ Hf) as (f' & Hp' & Hf'). rewrite Hp in Hp'. by injection Hp' as -> ->.
Qed.

(** Nothing a thread does changes it: whoever could free a slot needs the mutex. *)
Lemma step_stuck i r s s' : stuck i r s → step s s' → stuck i r s'.
Proof using Type.
  intros [Hi Hf] Hst. pose proof (locked_spinning _ _ _ Hi) as Hlock.
  destruct Hst as [m pc cs pc' m' _ Hl H|m pc cs j r' p p' m' Hj _ Hl H|m pc cs r'|m pc cs Hl];
    cbn [shared callers] in *; rewrite ?Hlock in *.
  - assert (Hnl : session_locks pc = false) by (destruct (session_locks pc); [by discriminate Hl|done]).
    split; [done|]. cbn [shared]. by rewrite (session_unlocked_free _ _ _ _ Hnl H).
  - assert (Hnl : api_locks r' p m = false) by (destruct (api_locks r' p m); [by discriminate Hl|done]).
    split; cbn [shared callers].
    + destruct (decide (j = i)) as [->|Hne]; [|by rewrite list_lookup_insert_ne].
      rewrite Hi in Hj. injection Hj as <- <-.
      rewrite list_lookup_insert_eq by (by apply lookup_lt_Some in Hi).
      by destruct (try_slot_empty _ _ _ Hf H) as [-> _].
    + destruct p; try (by rewrite (api_unlocked_free _ _ _ _ _ Hnl ltac:(done) H)).
      by destruct (try_slot_empty _ _ _ Hf H).
  - split; [|done]. cbn [callers]. by rewrite lookup_app_l by (by apply lookup_lt_Some in Hi).
  - done.
Qed.

Lemma steps_stuck i r s s' : stuck i r s → steps s s' → stuck i r s'.
Proof using Type. intros Ho Hs. induction Hs as [|s s1 s' H _ IH]; [done|]. apply IH. by eapply step_stuck. Qed.

(** * The theorems *)

Definition free_slots (s : system) (free : list Z) : Prop := holds (free_queue (shared s)) free.
Definition queued_slots (s : system) (send : list Z) : Prop := holds (send_queue (shared s)) send.

(** The slot a session thread or a call works on. *)
Definition session_slots (s : system) : list Z := (session_claims (session s)).*1.
Definition call_slots (s : system) : list Z := (concat (api_claims <$> callers s)).*1.

(** C29. Every slot has one owner.  After [start_session_thread], whatever the
    threads do and however their steps interleave, each of the buffer slots is
    in the free queue, in the send queue, in use by the session thread or in
    use by a call, and never in two of these places or with two calls. *)
Theorem slots_have_one_owner m size junk srv m0 s :
  0 ≤ count → start_session_thread m count size junk srv = Ok m0 → steps (mk_system m0 Top []) s →
  ∃ free send, free_slots s free ∧ queued_slots s send ∧
    free ++ send ++ session_slots s ++ call_slots s ≡ₚ seqZ 0 count.
Proof using Type.
  intros Hc Hst Hs. destruct (start_owned m size junk srv Hc) as (m0' & Hst' & Ho).
  rewrite Hst in Hst'. injection Hst' as <-. apply (steps_owned _ _ Ho) in Hs as (free & send & Hf & Hq & Hp & _).
  exists free, send. split_and!; [done..|]. rewrite <- Hp. unfold all_claims, session_slots, call_slots.
  rewrite !fmap_app, <- !list_fmap_compose, !list_fmap_id. done.
Qed.

(** C11. What the session thread sends is a packet.  Where it is about to send a
    slot, the slot's buffer is what the serializer of one of the calls made, and
    the length is the serializer's result, cut to sixteen bits: no other
    thread's step comes between the call and the send and changes it. *)
Theorem session_sends_whole_packets m size junk srv m0 s position :
  0 ≤ count → start_session_thread m count size junk srv = Ok m0 → steps (mk_system m0 Top []) s →
  session s = Sending position →
  ∃ slot r publish_id subscribe_id buf len,
    get_slot (shared s) position = Ok slot ∧ r ∈ (callers s).*1 ∧
    packet r publish_id subscribe_id buf = Ok (len, buffer slot) ∧ message_length slot = u16 len.
Proof using Type.
  intros Hc Hst Hs Hpc. destruct (start_owned m size junk srv Hc) as (m0' & Hst' & Ho).
  rewrite Hst in Hst'. injection Hst' as <-. apply (steps_owned _ _ Ho) in Hs. unfold slots_owned in Hs.
  rewrite Hpc in Hs. apply owned_slot in Hs as (slot & Hg & r & len & Hr & (pid & sid & buf & Hp) & Hl).
  by exists slot, r, pid, sid, buf, len.
Qed.

(** C40. A call without a slot hangs the client.  Where a call waits in the loop of
    [get_buffer_slot] and the free queue is empty, it waits for ever, on every
    schedule: the loop holds the mutex that the session thread needs to put a
    slot back. *)
Theorem starved_call_never_returns i r s s' :
  callers s !! i = Some (r, Spinning) → free_slots s [] → steps s s' →
  callers s' !! i = Some (r, Spinning) ∧ free_slots s' [].
Proof using Type.
  intros Hi Hf Hs. by apply (steps_stuck i r s s').
Qed.

(** The client after a call. *)
Definition after_call (r : request) (m : client) (slot : Z) (s : buffer_slot_t) (f q : linked Z) (a : linked waiting_t)
    : client :=
  with_queues
    (with_slots
       (with_ids m (default (publish_packet_id m) (next_publish_id r m))
          (default (subscribe_packet_id m) (next_subscribe_id r m)))
       (<[Z.to_nat slot := s]> (buffer_slots m))) f q a.

(** [enqueue] of what is waited for, if anything. *)
Definition push_waiting (q : linked waiting_t) (o : option waiting_t) : outcome (linked waiting_t) :=
  match o with Some w => push q w | None => Ok q end.

Lemma enqueue_push_waiting (m : client) o a :
  push_waiting (ack_queue m) o = Ok a →
  match o with Some w => enqueue_waiting m w | None => Ok m end = Ok (with_queues m (free_queue m) (send_queue m) a).
Proof using Type. destruct o as [w|]; cbn; [unfold enqueue_waiting; by intros ->|intros [= <-]; by destruct m]. Qed.

Lemma run_mt_call_S n r p (m : client) p' m' :
  api_step r p m = Ok (p', m') → run_mt_call (S n) r p m = run_mt_call n r p' m'.
Proof using Type.
  intros H. destruct p; try (cbn [run_mt_call]; by rewrite H, bind_ok).
  cbn [api_step] in H. injection H as <- <-. by destruct n.
Qed.

(** Ten steps, one after the other. *)
Lemma mt_call_result r m slot s f q a len b :
  guard r m = None → pop (free_queue m) = Ok (Some slot, f) → push (send_queue m) slot = Ok q →
  push_waiting (ack_queue m) (waiting_for r m) = Ok a → get_slot m slot = Ok s →
  packet r (publish_packet_id m) (subscribe_packet_id m) (buffer s) = Ok (len, b) →
  mt_call r m = Ok (SMQTT_MT_OK, after_call r m slot (mk_slot (u16 len) b) f q a).
Proof using Type.
  intros Hgd Hpop Hpush Hack Hsl Hp. destruct (get_slot_inv _ _ _ Hsl) as [Hb _].
  set (m1 := with_queues m f (send_queue m) (ack_queue m)).
  set (m2 := with_slots m1 (<[Z.to_nat slot := mk_slot (message_length s) b]> (buffer_slots m1))).
  set (m3 := with_ids m2 (publish_packet_id m) (default (subscribe_packet_id m) (next_subscribe_id r m))).
  set (m4 := with_queues m3 f (send_queue m) a).
  set (m5 := with_ids m4 (default (publish_packet_id m) (next_publish_id r m)) (subscribe_packet_id m4)).
  set (m6 := with_slots m5 (<[Z.to_nat slot := mk_slot (u16 len) b]> (buffer_slots m5))).
  assert (H0 : api_step r Start m = Ok (Filling slot, m1))
    by (cbn [api_step]; unfold try_slot; by rewrite Hgd, Hpop, bind_ok).
  assert (H1 : api_step r (Filling slot) m1 = Ok (Counting slot len, m2))
    by (cbn [api_step]; unfold fill; change (get_slot m1 slot) with (get_slot m slot);
        cbn [publish_packet_id subscribe_packet_id m1 with_queues]; by rewrite Hsl, bind_ok, Hp).
  assert (H2 : api_step r (Counting slot len) m2 = Ok (Storing slot len (next_subscribe_id r m), m2)) by by destruct r.
  assert (H3 : api_step r (Storing slot len (next_subscribe_id r m)) m2 = Ok (Preparing slot len, m3))
    by by destruct r.
  assert (H4 : api_step r (Preparing slot len) m3 = Ok (Waiting slot len (waiting_for r m), m3)) by by destruct r.
  assert (H5 : api_step r (Waiting slot len (waiting_for r m)) m3 = Ok (Advancing slot len, m4))
    by (cbn [api_step]; change (ack_queue m) with (ack_queue m3) in Hack; by rewrite (enqueue_push_waiting m3 _ a Hack)).
  assert (H6 : api_step r (Advancing slot len) m4 = Ok (Saving slot len (next_publish_id r m), m4)) by by destruct r.
  assert (H7 : api_step r (Saving slot len (next_publish_id r m)) m4 = Ok (Sizing slot len, m5))
    by (cbn [api_step]; unfold m5; by destruct (next_publish_id r m)).
  assert (Hg : get_slot m5 slot = Ok (mk_slot (message_length s) b)).
  { change (get_slot m5 slot) with (get_slot m2 slot). unfold m2.
    by rewrite get_slot_write, decide_True by done. }
  assert (H8 : api_step r (Sizing slot len) m5 = Ok (Queueing slot, m6))
    by (cbn [api_step]; unfold set_slot_length; by rewrite Hg).
  assert (H9 : api_step r (Queueing slot) m6 = Ok (Returned SMQTT_MT_OK, with_queues m6 f q a))
    by (cbn [api_step]; unfold enqueue_for_send; change (send_queue m6) with (send_queue m); by rewrite Hpush).
  assert (mt_call r m = run_mt_call call_fuel r Start m) as -> by by destruct r. unfold call_fuel.
  rewrite (run_mt_call_S _ _ _ _ _ _ H0), (run_mt_call_S _ _ _ _ _ _ H1), (run_mt_call_S _ _ _ _ _ _ H2),
    (run_mt_call_S _ _ _ _ _ _ H3), (run_mt_call_S _ _ _ _ _ _ H4), (run_mt_call_S _ _ _ _ _ _ H5),
    (run_mt_call_S _ _ _ _ _ _ H6), (run_mt_call_S _ _ _ _ _ _ H7), (run_mt_call_S _ _ _ _ _ _ H8),
    (run_mt_call_S _ _ _ _ _ _ H9). unfold m6, after_call. cbn [m5 m4 m3 m2 m1 with_queues with_slots with_ids buffer_slots].
  by rewrite list_insert_insert_eq.
Qed.

Lemma holds_push_waiting q xs o : holds q xs → ∃ a, push_waiting q o = Ok a ∧ holds a (xs ++ option_list o).
Proof using Type.
  intros Hq. destruct o as [w|]; cbn [push_waiting option_list]; [by apply holds_push|]. exists q. by rewrite app_nil_r.
Qed.

(** What a call leaves behind.  A call whose arguments pass the checks and fit
    takes the first free slot, writes its packet there, puts the slot at the end
    of the send queue and what it waits for at the end of the acknowledgement
    queue, advances its identifier, and returns success after ten steps. *)
Theorem call_queues_packet r m s slot len b free send ack :
  guard r m = None → holds (free_queue m) (slot :: free) → holds (send_queue m) send →
  holds (ack_queue m) ack → get_slot m slot = Ok s →
  packet r (publish_packet_id m) (subscribe_packet_id m) (buffer s) = Ok (len, b) →
  ∃ m', mt_call r m = Ok (SMQTT_MT_OK, m') ∧
    holds (free_queue m') free ∧ holds (send_queue m') (send ++ [slot]) ∧
    holds (ack_queue m') (ack ++ option_list (waiting_for r m)) ∧
    get_slot m' slot = Ok (mk_slot (u16 len) b) ∧
    publish_packet_id m' = default (publish_packet_id m) (next_publish_id r m) ∧
    subscribe_packet_id m' = default (subscribe_packet_id m) (next_subscribe_id r m).
Proof using Type.
  intros Hgd Hf Hs Ha Hsl Hp. destruct (get_slot_inv _ _ _ Hsl) as [Hb _].
  destruct (holds_pop _ _ Hf) as (f & Hpop & Hf'). destruct (holds_push _ _ slot Hs) as (q & Hpush & Hs').
  destruct (holds_push_waiting _ _ (waiting_for r m) Ha) as (a & Hack & Ha').
  exists (after_call r m slot (mk_slot (u16 len) b) f q a). split; [by eapply mt_call_result|].
  split; [exact Hf'|]. split; [exact Hs'|]. split; [exact Ha'|]. split; [|done].
  change (get_slot (with_slots m (<[Z.to_nat slot := mk_slot (u16 len) b]> (buffer_slots m))) slot = Ok (mk_slot (u16 len) b)).
  by rewrite get_slot_write, decide_True.
Qed.

End client_mt.

(** * Examples *)

Lemma holds_init {P} (q : linked P) : ends q = init_queue → holds q [].
Proof. destruct q as [h e]. cbn. intros ->. exists None, []. split; [apply init_queue_rep|done]. Qed.

(** A connected client over the local server, as [smqtt_mt_connect_internal]
    leaves it before it starts the thread with [buffer_count] slots. *)
Definition sample_mt : smqtt_mt_client unit :=
  mk_mt true 1 1 0 0 [] [] false empty_queue empty_queue empty_queue (Some 5) 0 create_local_server tt [].
Definition sample_started (count : Z) : smqtt_mt_client unit :=
  match start_session_thread sample_mt count MT_BUFFER_SIZE (replicate (Z.to_nat MT_BUFFER_SIZE) 0)
          create_local_server with
  | Ok m => m
  | Fault _ => sample_mt
  end.
Definition after (count : Z) (cs : list choice) : system :=
  default (mk_system sample_mt Done []) (run_schedule cs (mk_system (sample_started count) Top [])).

Definition ping : request := Mt_ping (Some 9) 0.

(** Eleven pings with the ten slots of [smqtt_mt_connect_internal], before the
    session thread runs. *)
Definition eleven_pings : list choice :=
  repeat (New_call ping) 11 ++ concat ((λ i, repeat (Run_call i) call_fuel) <$> seq 0 10) ++ [Run_call 10%nat].

Lemma starved_call_never_returns_witness :
  steps (mk_system (sample_started 10) Top []) (after 10 eleven_pings) ∧
  ∀ s', steps (after 10 eleven_pings) s' → callers s' !! 10%nat = Some (ping, Spinning) ∧ free_slots s' [].
Proof.
  split.
  - apply (run_schedule_steps eleven_pings). vm_compute. reflexivity.
  - intros s'. apply starved_call_never_returns; [by vm_compute|]. apply holds_init. by vm_compute.
Defined.

Definition publish_call (c : Z) : request := Mt_publish [c] (Some [c]) QoS1 false (Some c) 0.

(** One call from its start to its end. *)
Definition one_ping : list choice := New_call ping :: repeat (Run_call 0%nat) call_fuel.

Lemma slots_have_one_owner_witness :
  ∃ free send, free_slots (after 3 one_ping) free ∧ queued_slots (after 3 one_ping) send ∧
    free ++ send ++ session_slots (after 3 one_ping) ++ call_slots (after 3 one_ping) ≡ₚ seqZ 0 3.
Proof.
  apply (slots_have_one_owner 3 sample_mt MT_BUFFER_SIZE (replicate (Z.to_nat MT_BUFFER_SIZE) 0)
    create_local_server (sample_started 3)).
  - lia.
  - vm_compute. reflexivity.
  - apply (run_schedule_steps one_ping). vm_compute. reflexivity.
Defined.

Lemma session_sends_whole_packets_witness :
  session (after 3 (one_ping ++ [Run_session])) = Sending 0 ∧
  ∃ slot r publish_id subscribe_id buf len,
    get_slot (shared (after 3 (one_ping ++ [Run_session]))) 0 = Ok slot ∧
    r ∈ (callers (after 3 (one_ping ++ [Run_session]))).*1 ∧
    packet r publish_id subscribe_id buf = Ok (len, buffer slot) ∧ message_length slot = u16 len.
Proof.
  assert (Hs : session (after 3 (one_ping ++ [Run_session])) = Sending 0) by (vm_compute; reflexivity).
  split; [exact Hs|].
  apply (session_sends_whole_packets 3 sample_mt MT_BUFFER_SIZE (replicate (Z.to_nat MT_BUFFER_SIZE) 0)
    create_local_server (sample_started 3)).
  - lia.
  - vm_compute. reflexivity.
  - apply (run_schedule_steps (one_ping ++ [Run_session])). vm_compute. reflexivity.
  - exact Hs.
Defined.

Lemma call_queues_packet_witness :
  ∃ m', mt_call (publish_call 97) (sample_started 1) = Ok (SMQTT_MT_OK, m') ∧
    holds (free_queue m') [] ∧ holds (send_queue m') [0] ∧
    holds (ack_queue m') [mk_waiting PUBACK (Some 97) 0 (w_puback 1)] ∧
    get_slot m' 0 = Ok (mk_slot 8 (mqtt_publish [97] 1 1 false [97] ++ replicate 1016 0)) ∧
    publish_packet_id m' = 2 ∧ subscribe_packet_id m' = 1.
Proof.
  apply (call_queues_packet (publish_call 97) (sample_started 1) (mk_slot 0 (replicate (Z.to_nat MT_BUFFER_SIZE) 0))
    0 8 (mqtt_publish [97] 1 1 false [97] ++ replicate 1016 0) [] [] []).
  - done.
  - destruct (start_owned 1 sample_mt MT_BUFFER_SIZE [] create_local_server) as (m0 & H & _); [lia|].
    destruct (push_all 1 0 empty_queue [] holds_empty) as (q & Hq & Hh).
    assert (free_queue (sample_started 1) = q) as ->; [|exact Hh].
    vm_compute in Hq. injection Hq as <-. by vm_compute.
  - by apply holds_init.
  - by apply holds_init.
  - vm_compute. reflexivity.
  - vm_compute. reflexivity.
Defined.

(** Two publishes, each reading the identifier before the other advances it. *)
Definition racing_publishes : list choice :=
  [New_call (publish_call 97); New_call (publish_call 98)] ++
  [Run_call 0%nat; Run_call 1%nat; Run_call 0%nat; Run_call 1%nat] ++
  repeat (Run_call 0%nat) 8 ++ repeat (Run_call 1%nat) 8.

(** The packet in a slot. *)
Definition slot_packet (s : buffer_slot_t) : list Z := take (Z.to_nat (message_length s)) (buffer s).

(** Concurrent publishes can share an identifier.  There is a schedule of two
    calls of [smqtt_mt_publish] at QoS 1, both successful, after which both
    packets carry identifier 1, while the second call waits for a PUBACK with
    identifier 2. *)
Theorem concurrent_publishes_share_identifier :
  let s := after 10 racing_publishes in
  steps (mk_system (sample_started 10) Top []) s ∧
  callers s = [(publish_call 97, Returned SMQTT_MT_OK); (publish_call 98, Returned SMQTT_MT_OK)] ∧
  slot_packet <$> take 2 (buffer_slots (shared s)) =
    [mqtt_publish [97] 1 QoS1 false [97]; mqtt_publish [98] 1 QoS1 false [98]] ∧
  holds (ack_queue (shared s))
    [mk_waiting PUBACK (Some 97) 0 (w_puback 1); mk_waiting PUBACK (Some 98) 0 (w_puback 2)].
Proof.
  split_and!.
  - apply (run_schedule_steps racing_publishes). vm_compute. reflexivity.
  - vm_compute. reflexivity.
  - vm_compute. reflexivity.
  - destruct (holds_push empty_queue [] (mk_waiting PUBACK (Some 97) 0 (w_puback 1)) holds_empty) as (q & Hq & Hh).
    destruct (holds_push q _ (mk_waiting PUBACK (Some 98) 0 (w_puback 2)) Hh) as (q' & Hq' & Hh').
    assert (ack_queue (shared (after 10 racing_publishes)) = q') as ->; [|exact Hh'].
    vm_compute in Hq. injection Hq as <-. vm_compute in Hq'. injection Hq' as <-. vm_compute. reflexivity.
Qed.
