(* ===== verification/ClientMtSession.v ===== *)
(** ClientMtSession: what the session thread of [libsmqttclient_mt/connection.c]
    does with each message of a broker, against a specification over the list
    of waiting acknowledgements; and the messages that make it fail. *)

From stdpp Require Import gmap.
From S2P Require Import Prelude Protocol Size Wire Serialize Deserialize Codec Server Queue ClientProtocol Connection ClientMt.

#[local] Open Scope Z_scope.

(** * Specification

    What a message makes the session thread do: a packet it sends, the calls it
    makes to the program, the acknowledgements it then waits for. *)
Record reaction := mk_reaction {
  r_send : option (list Z);
  r_calls : list call_event;
  r_waiting : list waiting_t
}.

(** An acknowledgement of type [t] for packet [id]: it concerns the first entry
    that waits for it. *)
Definition on_ack (t : message_type_t) (id : Z) (deliver : option Z) (context : Z) (ws : list waiting_t)
    : reaction :=
  match list_find (waits_for t id) ws with
  | None => mk_reaction None [] ws
  | Some (i, w) =>
      match t with
      | PUBREC =>
          mk_reaction (Some (mqtt_ack PUBREL 2 id)) []
            (delete i ws ++ [mk_waiting PUBCOMP (callback w) (cb_context w) (w_pubcomp id)])
      | PUBREL =>
          mk_reaction (Some (mqtt_ack PUBCOMP 0 id))
            match deliver, w_data w with
            | Some cb, w_pubrel topic msg retain _ => [Delivered cb topic msg QoS2 retain context]
            | _, _ => []
            end
            (delete i ws)
      | _ => mk_reaction None (match callback w with Some cb => [Completed cb (cb_context w)] | None => [] end)
               (delete i ws)
      end
  end.

(** A message of the broker: delivered at once, or kept until it is released. *)
Definition on_publish (topic msg : list Z) (qos id : Z) (retain : bool) (cb context : Z)
    (ws : list waiting_t) : reaction :=
  let topic := topic ++ [0] in
  let msg := strncpy_of msg ++ [0] in
  if decide (qos = QoS2) then
    mk_reaction (Some (mqtt_ack PUBREC 0 id)) []
      (ws ++ [mk_waiting PUBREL None 0 (w_pubrel topic msg retain id)])
  else
    mk_reaction (if decide (qos = QoS1) then Some (mqtt_ack PUBACK 0 id) else None)
      [Delivered cb topic msg qos retain context] ws.

(** * One message *)

(** The thread from where it stands to the next [Top]. *)
Fixpoint run_session {W} (fuel : nat) (pc : session_pc) (m : smqtt_mt_client W)
    : outcome (session_pc * smqtt_mt_client W) :=
  match fuel with
  | O => Fault OutOfFuel
  | S fuel =>
      '(pc, m) ← session_step pc m;
      match pc with Top | Done => Ok (pc, m) | _ => run_session fuel pc m end
  end.

(** From [Receiving]: the message, the search, the reply, the new entry. *)
Definition session_fuel : nat := 4.

Section session.
Context {W : Type}.
Local Abbreviation client := (smqtt_mt_client W).

(** Like [holds], for a queue nothing was dequeued from. *)
Definition waits (q : linked waiting_t) (ws : list waiting_t) : Prop :=
  ∃ ns, queue_rep (cells q) (ends q) None ns ∧ ns.*2 = ws.

Definition listening (m : client) (ws : list waiting_t) : Prop :=
  zlen (receive_buffer m) = MT_BUFFER_SIZE ∧ buffer_size m = MT_BUFFER_SIZE ∧
  waits (ack_queue m) ws ∧ Forall well_formed ws.

(** The server sends [p] and takes the reply. *)
Definition exchanges (m : client) (p : list Z) (r : reaction) (K : W → Prop) : Prop :=
  gets (server m) p (match r_send r with Some bs => sends (server m) bs K | None => K end) (world m).

(** The rest of the client. *)
Definition settings (m : client) :=
  (connected m, publish_packet_id m, subscribe_packet_id m, buffer_slots m, free_queue m, send_queue m,
   ready_to_disconnect m, msg_callback m, msg_cb_context m, server m).

(** The reaction has taken place: sent, called, and now waiting. *)
Definition reacted (m m' : client) (r : reaction) (K : W → Prop) : Prop :=
  K (world m') ∧ calls m' = calls m ++ r_calls r ∧ listening m' (r_waiting r) ∧ settings m' = settings m.

(** ** Queue *)

Lemma waits_push q ws w : waits q ws → ∃ q', push q w = Ok q' ∧ waits q' (ws ++ [w]).
Proof using Type.
  intros (ns & Hr & <-). destruct (enqueue_rep _ _ _ _ w Hr) as (h' & q' & prev' & He & Hr' & Hp & _).
  rewrite (Hp eq_refl) in Hr'. unfold push. rewrite He, bind_ok. eexists. split; [done|].
  eexists. split; [done|]. by rewrite fmap_app.
Qed.

Lemma search_spec q ws t id :
  waits q ws → Forall (λ w, w_type w = t → well_formed w) ws → searched t = true →
  match list_find (waits_for t id) ws with
  | None => search q t id = Ok (false, None, q)
  | Some (i, w) => ∃ q', search q t id = Ok (true, Some w, q') ∧ waits q' (delete i ws)
  end.
Proof using Type.
  intros (ns & Hr & <-) Hw Ht. rewrite (Forall_fmap snd) in Hw.
  pose proof (dequeue_loop_spec (cells q) (ends q) t id (S (size (cells q))) ns [] Hr Hw Ht) as Hs.
  pose proof (queue_rep_size _ _ _ _ Hr) as Hsz. unfold search, dequeue_by_type_and_id.
  rewrite (rep_head _ _ _ _ Hr). rewrite list_find_fmap. unfold compose.
  destruct (list_find (λ n, waits_for t id n.2) ns) as [[i [l w]]|]; cbn [fmap option_fmap option_map prod_map].
  - destruct Hs as (h' & q' & -> & Hr'); [lia|]. rewrite bind_ok. eexists. split; [done|].
    eexists. split; [done|]. cbn [app]. by rewrite list_fmap_delete.
  - rewrite Hs, bind_ok by lia. by destruct q.
Qed.

Lemma search_suback_spec q ws id :
  waits q ws →
  match found_entry SUBACK id ws with
  | Ok (found, None) => search q SUBACK id = Ok (found, None, q)
  | Ok (found, Some (i, w)) => ∃ q', search q SUBACK id = Ok (found, Some w, q') ∧ waits q' (delete i ws)
  | Fault e => search q SUBACK id = Fault e
  end.
Proof using Type.
  intros (ns & Hr & <-). unfold search.
  pose proof (dequeue_by_type_and_id_spec (cells q) (ends q) ns SUBACK id Hr) as Hs.
  destruct (found_entry SUBACK id ns.*2) as [[f [[i w]|]]|e].
  - destruct Hs as (h' & q' & -> & Hr'); [by apply Forall_true|by right|]. rewrite bind_ok. eexists. split; [done|].
    eexists. split; [done|]. by rewrite list_fmap_delete.
  - rewrite Hs, bind_ok; [by destruct q|by apply Forall_true|by right].
  - rewrite Hs; [done|by apply Forall_true|by right].
Qed.

(** ** Steps *)

Lemma receive_step (m : client) ws p K resp :
  listening m ws → gets (server m) p K (world m) → 0 < zlen p ≤ MT_BUFFER_SIZE →
  deserialize_response (p ++ drop (length p) (receive_buffer m)) (zlen p) = Ok (Some resp) →
  ∃ b w, session_step Receiving m = Ok (Handling resp, with_io m b w) ∧
    zlen b = MT_BUFFER_SIZE ∧ K w ∧ b = p ++ drop (length p) (receive_buffer m).
Proof using Type.
  intros (Hl & Hs & _) Hg Hp Hd. cbn [session_step]. rewrite Hs.
  destruct (Hg (receive_buffer m) Hl) as (w & Hr & Hk). change Client.BUFFER_SIZE with MT_BUFFER_SIZE in Hr.
  rewrite Hr, bind_ok. cbv zeta beta iota. rewrite splice_0, decide_True by lia.
  cbn [receive_buffer with_io]. rewrite Hd, bind_ok. do 2 eexists. split; [done|].
  split; [|done]. rewrite zlen_overwrite; lia.
Qed.

Lemma reply_ok (m : client) make bs K :
  (∀ buffer n, make buffer n = writes bs buffer) → zlen bs ≤ zlen (receive_buffer m) →
  sends (server m) bs K (world m) →
  ∃ w, reply m make = Ok (SMQTT_MT_OK, with_io m (splice (receive_buffer m) 0 bs) w) ∧ K w.
Proof using Type.
  intros Hm Hl Hs. unfold reply. rewrite Hm, writes_fits, bind_ok by lia.
  destruct (Hs (bs ++ drop (length bs) (receive_buffer m))) as (w & -> & Hk).
  - rewrite zlen_overwrite; lia.
  - apply slice_prefix.
  - rewrite bind_ok, splice_0 by lia. by eexists.
Qed.

Lemma copy_publish_ok (m : client) p s :
  slice (receive_buffer m) p (zlen s) = s → copy_publish m p (zlen s) = Ok (strncpy_of s ++ [0]).
Proof using Type.
  intros Hs. unfold copy_publish. assert (length (slice (receive_buffer m) p (zlen s)) = length s) as Hl by by rewrite Hs.
  unfold slice in Hl, Hs. rewrite length_take in Hl. unfold zlen in *. rewrite Nat2Z.id in *.
  by rewrite strncpy_bytes_take, Hs, bind_ok by lia.
Qed.

Lemma run_session_step fuel pc (m : client) pc' m' :
  session_step pc m = Ok (pc', m') → pc' ≠ Top → pc' ≠ Done →
  run_session (S fuel) pc m = run_session fuel pc' m'.
Proof using Type. intros H ??. cbn [run_session]. rewrite H, bind_ok. by destruct pc'. Qed.

Lemma run_session_top fuel pc (m : client) m' :
  session_step pc m = Ok (Top, m') → run_session (S fuel) pc m = Ok (Top, m').
Proof using Type. intros H. cbn [run_session]. by rewrite H, bind_ok. Qed.

(** The step [Rewait]: a new entry at the end. *)
Lemma rewait_step (m : client) ws w :
  waits (ack_queue m) ws →
  ∃ a, session_step (Rewait w) m = Ok (Top, with_queues m (free_queue m) (send_queue m) a) ∧ waits a (ws ++ [w]).
Proof using Type.
  intros Hw. destruct (waits_push _ _ w Hw) as (a & He & Ha). exists a. split; [|done].
  cbn [session_step]. unfold enqueue_waiting. by rewrite He, !bind_ok.
Qed.

Lemma strncpy_of_nul_free s : nul_free s → strncpy_of s = s.
Proof using Type.
  intros Hs. pose proof (strncpy_bytes_take s (length s) ltac:(done)) as H1.
  pose proof (strncpy_bytes_prefix s [] Hs) as H2. rewrite app_nil_r in H2. rewrite take_ge in H1 by done. congruence.
Qed.

(** Where the switch leaves the thread: done, or with an entry still to queue. *)
Definition about_to (m : client) (pc : session_pc) (m2 : client) (r : reaction) (K : W → Prop) : Prop :=
  match pc with
  | Top => reacted m m2 r K
  | Rewait w => ∃ ws, r_waiting r = ws ++ [w] ∧ well_formed w ∧ reacted m m2 (mk_reaction (r_send r) (r_calls r) ws) K
  | _ => False
  end.

Lemma finish_reaction (m m1 : client) resp found o pc m2 r K :
  act m1 resp found o = Ok (pc, m2) → about_to m pc m2 r K →
  ∃ m', run_session 2 (Found resp found o) m1 = Ok (Top, m') ∧ reacted m m' r K.
Proof using Type.
  intros Ha Hab. destruct pc; try done.
  - exists m2. split; [|done]. by apply run_session_top.
  - destruct Hab as (ws & Hws & Hwf & Hk & Hc & (Hl & Hs & Hw & Hf) & Hset).
    destruct (rewait_step m2 ws waiting Hw) as (a & Hr & Ha'). eexists. split.
    + rewrite (run_session_step 1 (Found resp found o) _ _ _ Ha) by done. by apply run_session_top.
    + split_and!; try done. rewrite Hws. split_and!; try done.
      apply Forall_app. by split; [|constructor].
Qed.

(** * A message published to the client *)

(** The reply overwrites the first four bytes of the receive buffer, which the
    message that was received still lies in; its topic starts after them. *)
Lemma publish_reads_reply b d topic id qos retain msg bs :
  publish_reads b d topic id qos retain msg → 4 ≤ pub_topic d → pub_topic d + zlen topic ≤ pub_message d →
  zlen bs = 4 → 4 ≤ zlen b → publish_reads (splice b 0 bs) d topic id qos retain msg.
Proof using Type.
  intros (? & ? & ? & Hts & Ht & Hms & Hm) H4 Hle Hbs Hl. pose proof (zlen_nonneg topic).
  split_and!; try done; rewrite slice_splice_out; try done; try lia; (split; lia).
Qed.

Lemma publish_copies (m : client) d topic id qos retain msg :
  short_string topic → publish_reads (receive_buffer m) d topic id qos retain msg →
  copy_publish m (pub_topic d) (pub_topic_size d) = Ok (topic ++ [0]) ∧
  copy_publish m (pub_message d) (pub_message_size d) = Ok (strncpy_of msg ++ [0]).
Proof using Type.
  intros (_ & Hnf & _) (_ & _ & _ & Hts & Ht & Hms & Hm). rewrite Hts, Hms in *.
  split; [|by apply copy_publish_ok]. rewrite copy_publish_ok by done. by rewrite strncpy_of_nul_free.
Qed.

Lemma deliver_ok (m : client) d topic id qos retain msg cb :
  short_string topic → publish_reads (receive_buffer m) d topic id qos retain msg → msg_callback m = Some cb →
  maybe_deliver_message m d =
    Ok (with_call m (Delivered cb (topic ++ [0]) (strncpy_of msg ++ [0]) qos retain (msg_cb_context m))).
Proof using Type.
  intros Ht Hr Hcb. pose proof Hr as (Hq & Hre & _). destruct (publish_copies m d topic id qos retain msg Ht Hr) as [H1 H2].
  unfold maybe_deliver_message. by rewrite Hcb, H1, bind_ok, H2, bind_ok, Hq, Hre.
Qed.

Lemma act_publish (m m1 : client) ws d topic id qos retain msg cb K b w :
  m1 = with_io m b w → short_string topic → 0 ≤ id < 256 → 0 ≤ qos ≤ 2 → listening m1 ws →
  publish_reads b d topic id qos retain msg → 4 ≤ pub_topic d → pub_topic d + zlen topic ≤ pub_message d →
  msg_callback m = Some cb →
  let r := on_publish topic msg qos id retain cb (msg_cb_context m) ws in
  match r_send r with Some bs => sends (server m) bs K | None => K end w →
  ∃ pc m2, act m1 {| type := PUBLISH; body := publish_data d |} false None = Ok (pc, m2) ∧ about_to m pc m2 r K.
Proof using Type.
  intros -> Ht Hid Hq Hlis Hr H4 Hle Hcb r Hk. pose proof Hr as (Hqd & Hre & Hidd & _).
  pose proof Hlis as (Hl & Hs & Hw & Hwf). cbn [receive_buffer with_io] in Hl.
  pose proof (λ buffer n, make_acks_mqtt buffer n id Hid) as Hacks.
  assert (Hreply : ∀ make bs, (∀ buffer n, make buffer n = writes bs buffer) → zlen bs = 4 → sends (server m) bs K w →
    ∃ w', reply (with_io m b w) make = Ok (SMQTT_MT_OK, with_io m (splice b 0 bs) w') ∧ K w' ∧
      publish_reads (splice b 0 bs) d topic id qos retain msg ∧ listening (with_io m (splice b 0 bs) w') ws).
  { intros make bs Hmake Hbs Hsend. unfold MT_BUFFER_SIZE in Hl.
    destruct (reply_ok (with_io m b w) make bs K Hmake) as (w' & Hrep & Hk'); [cbn [receive_buffer with_io]; lia|done|].
    exists w'. split_and!; [done|done|by apply publish_reads_reply; try lia|].
    split_and!; try done. cbn [receive_buffer with_io]. rewrite zlen_splice; [done|split; lia]. }
  cbn [act type body]. unfold handle_publish. rewrite Hqd. assert (qos = 0 ∨ qos = 1 ∨ qos = 2) as [-> | [-> | ->]] by lia.
  - rewrite decide_True by done. erewrite deliver_ok, bind_ok by done. eexists Top, _. by split.
  - rewrite decide_False, decide_True by done. cbn in Hk.
    destruct (Hreply _ _ (λ b n, proj1 (Hacks b n)) ltac:(done) Hk) as (w' & Hrep & Hk' & Hr' & Hlis').
    rewrite Hidd. change (if decide (1 >= QoS1) then id else no_packet_id) with id.
    rewrite Hrep, bind_ok. erewrite deliver_ok, bind_ok by done. eexists Top, _. by split.
  - rewrite !decide_False, decide_True by done. cbn in Hk.
    destruct (Hreply _ _ (λ b n, proj1 (proj2 (Hacks b n))) ltac:(done) Hk) as (w' & Hrep & Hk' & Hr' & Hlis').
    rewrite Hidd. change (if decide (2 >= QoS1) then id else no_packet_id) with id.
    rewrite Hrep, bind_ok. 
    destruct (publish_copies (with_io m (splice b 0 (mqtt_ack PUBREC 0 id)) w') d topic id 2 retain msg Ht Hr') as [H1 H2].
    rewrite H1, bind_ok, H2, bind_ok, Hre. eexists (Rewait _), _. split; [done|]. exists ws.
    split; [done|]. split; [right; by eexists|]. split_and!; try done. by rewrite app_nil_r.
Qed.

(** C12. What the session thread does with a PUBLISH is its specification
    [on_publish]: at QoS 0 the message is delivered, at QoS 1 a PUBACK is sent
    and the message delivered, at QoS 2 a PUBREC is sent and the message kept,
    with its topic, payload and retain flag, until its PUBREL.  The reply is
    written over the packet it answers, and still topic and payload arrive
    whole.  Nothing else of the client changes. *)
Theorem session_receives_publish (m : client) ws topic msg qos id retain cb K :
  short_string topic → zlen msg < 65536 → 0 ≤ id < 256 → 0 ≤ qos ≤ 2 →
  zlen (mqtt_publish topic id qos retain msg) ≤ MT_BUFFER_SIZE →
  listening m ws → msg_callback m = Some cb →
  let r := on_publish topic msg qos id retain cb (msg_cb_context m) ws in
  exchanges m (mqtt_publish topic id qos retain msg) r K →
  ∃ m', run_session session_fuel Receiving m = Ok (Top, m') ∧ reacted m m' r K.
Proof using Type.
  intros Ht Hm Hid Hq Hl Hlis Hcb r Hex. set (p := mqtt_publish topic id qos retain msg) in *.
  set (rest := drop (length p) (receive_buffer m)).
  destruct (deserialize_mqtt_publish topic id qos retain msg rest (zlen p)) as (d & Hd & Hr & H4 & Hle); [done..|].
  fold p in Hd, Hr. pose proof (zlen_nonneg p).
  destruct (receive_step m ws p _ _ Hlis Hex ltac:(unfold p; split; [done|exact Hl]) Hd)
    as (b & w & Hstep & Hb & Hk & Hbr). fold rest in Hbr. rewrite <- Hbr in Hr. clear Hd Hbr rest.
  destruct Hlis as (Hl1 & Hl2 & Hw & Hwf).
  destruct (act_publish m (with_io m b w) ws d topic id qos retain msg cb K b w) as (pc & m2 & Ha & Hab); try done.
  unfold session_fuel. rewrite (run_session_step _ _ _ _ _ Hstep) by done.
  erewrite run_session_step by done. by eapply finish_reaction.
Qed.

(** * An acknowledgement *)

(** Only a PUBREC or a PUBREL is answered, and a PUBREL waits with its message. *)
Lemma act_ack (m : client) ws t id K o q b w0 :
  searched t = true → 0 ≤ id < 256 → zlen b = MT_BUFFER_SIZE → buffer_size m = MT_BUFFER_SIZE →
  Forall well_formed ws → o = snd <$> list_find (waits_for t id) ws →
  waits q match list_find (waits_for t id) ws with Some (i, _) => delete i ws | None => ws end →
  (∀ w, o = Some w → t = PINGRESP ∨ t = PUBACK ∨ t = PUBCOMP → is_Some (callback w)) →
  let r := on_ack t id (msg_callback m) (msg_cb_context m) ws in
  match r_send r with Some bs => sends (server m) bs K | None => K end w0 →
  ∃ pc m2, act (with_queues (with_io m b w0) (free_queue m) (send_queue m) q)
      {| type := t; body := ack_body t id |} (match o with Some _ => true | None => false end) o = Ok (pc, m2) ∧
    about_to m pc m2 r K.
Proof using Type.
  intros Ht Hid Hl Hs Hwf Ho Hq Hcb r Hk. unfold r, on_ack in *. clear r.
  set (m1 := with_queues (with_io m b w0) (free_queue m) (send_queue m) q).
  pose proof (λ buffer n, make_acks_mqtt buffer n id Hid) as Hacks.
  destruct (list_find (waits_for t id) ws) as [[i w]|] eqn:E; cbn [fmap option_fmap option_map snd] in Ho; subst o.
  2:{ exists Top, m1. split; [by destruct t|]. split_and!; try done. by rewrite app_nil_r. }
  apply list_find_Some in E as (Hw & [_ Hwid] & _).
  assert (Hwf' : Forall well_formed (delete i ws)) by (by apply Forall_delete).
  assert (Hreply : ∀ make bs, (∀ buffer n, make buffer n = writes bs buffer) → zlen bs = 4 → sends (server m) bs K w0 →
    ∃ w', reply m1 make = Ok (SMQTT_MT_OK, with_io m1 (splice b 0 bs) w') ∧ K w' ∧ zlen (splice b 0 bs) = MT_BUFFER_SIZE).
  { intros make bs Hmake Hbs Hsend. unfold MT_BUFFER_SIZE in Hl.
    destruct (reply_ok m1 make bs K Hmake) as (w' & Hrep & Hk'); [cbn [receive_buffer m1 with_io with_queues]; lia|done|].
    exists w'. split_and!; [done|done|]. rewrite zlen_splice; [done|split; lia]. }
  assert (Hcomplete : K w0 → is_Some (callback w) →
    ∃ pc m2, (m0 ← complete m1 (Some w); Ok (Top, m0)) = Ok (pc, m2) ∧
      about_to m pc m2 (mk_reaction None
        (match callback w with Some cb => [Completed cb (cb_context w)] | None => [] end) (delete i ws)) K).
  { intros Hk' [cb Hc]. unfold complete. rewrite Hc, bind_ok. eexists Top, _. split; [done|]. by split_and!. }
  destruct t; try done; cbn [act type body ack_body]; unfold handle_pubrec, handle_unsuback, handle_pubrel.
  - by apply Hcomplete; auto.
  - destruct (Hreply _ _ (λ b n, proj1 (proj2 (proj2 (Hacks b n)))) ltac:(done) Hk) as (w' & -> & Hk' & Hl').
    rewrite bind_ok. eexists (Rewait _), _. split; [done|]. exists (delete i ws). split; [done|].
    split; [right; by eexists|]. split_and!; try done. by rewrite app_nil_r.
  - destruct (Hreply _ _ (λ b n, proj1 (proj2 (proj2 (proj2 (Hacks b n))))) ltac:(done) Hk) as (w' & -> & Hk' & Hl').
    rewrite bind_ok. destruct Hwid as [|Hwid]; [done|]. unfold waiting_id in Hwid.
    destruct (w_data w) eqn:Ew; try done. cbn [msg_callback m1 with_io with_queues fmap option_fmap option_map]; rewrite ?Ew.
    destruct (msg_callback m); eexists Top, _; (split; [done|]; split_and!; try done). by rewrite app_nil_r.
  - by apply Hcomplete; auto.
  - destruct (callback w); eexists Top, _; (split; [done|]; split_and!; try done). by rewrite app_nil_r.
  - by apply Hcomplete; auto.
Qed.

(** The callback is called without a check for a PINGRESP, PUBACK or PUBCOMP. *)
Definition calls_null (t : message_type_t) (id : Z) (ws : list waiting_t) : bool :=
  match list_find (waits_for t id) ws, t with
  | Some (_, w), (PINGRESP | PUBACK | PUBCOMP) => negb (is_some (callback w))
  | _, _ => false
  end.

Lemma session_receives_ack_spec (m : client) ws t flags id K :
  searched t = true → (t = PINGRESP → id = 0) → 0 ≤ flags < 16 → 0 ≤ id < 256 → listening m ws →
  let r := on_ack t id (msg_callback m) (msg_cb_context m) ws in
  exchanges m (if decide (t = PINGRESP) then mqtt_empty PINGRESP else mqtt_ack t flags id) r K →
  if calls_null t id ws then run_session session_fuel Receiving m = Fault NullDeref
  else ∃ m', run_session session_fuel Receiving m = Ok (Top, m') ∧ reacted m m' r K.
Proof using Type.
  intros Ht Hping Hf Hid Hlis r Hex. pose proof Hlis as (Hl & Hs & Hw & Hwf).
  set (p := if decide (t = PINGRESP) then _ else _) in *.
  assert (Hp : 0 < zlen p ≤ MT_BUFFER_SIZE) by (unfold p; by case_decide).
  assert (Hd : ∀ rest, deserialize_response (p ++ rest) (zlen p) = Ok (Some {| type := t; body := ack_body t id |})).
  { intros rest. unfold p. case_decide as Hpr.
    - subst t. apply deserialize_mqtt_empty; [done|auto].
    - apply deserialize_mqtt_ack; [by destruct t|done..]. }
  destruct (receive_step m ws p _ _ Hlis Hex Hp (Hd _)) as (b & w & Hstep & Hb & Hk & _).
  assert (Hid0 : (if decide (t = PINGRESP) then Ok 0
    else match body_packet_id (ack_body t id) with Some id => Ok id | None => Fault Uninitialised end) = Ok id).
  { case_decide as Hpr; [by rewrite Hping|by destruct t]. }
  pose proof (search_spec (ack_queue m) ws t id Hw ltac:(eapply Forall_impl; [exact Hwf|auto]) Ht) as Hsearch.
  set (o := snd <$> list_find (waits_for t id) ws).
  assert (∃ q, search (ack_queue m) t id = Ok (match o with Some _ => true | None => false end, o, q) ∧
    waits q match list_find (waits_for t id) ws with Some (i, _) => delete i ws | None => ws end) as (q & Hq & Hwq).
  { unfold o. destruct (list_find (waits_for t id) ws) as [[i w0]|]; [done|by eexists]. }
  assert (Hrun : run_session session_fuel Receiving m =
    run_session 2 (Found {| type := t; body := ack_body t id |} (match o with Some _ => true | None => false end) o)
      (with_queues (with_io m b w) (free_queue m) (send_queue m) q)).
  { unfold session_fuel. rewrite (run_session_step _ _ _ _ _ Hstep) by done. erewrite run_session_step; [reflexivity| |done..].
    cbn [session_step type body]. assert (looked_up t = true) as -> by by destruct t.
    rewrite Hid0, bind_ok. change (ack_queue (with_io m b w)) with (ack_queue m). by rewrite Hq, bind_ok. }
  rewrite Hrun. unfold calls_null. destruct (calls_null t id ws) eqn:Hnull; unfold calls_null in Hnull; rewrite Hnull.
  - unfold o. destruct (list_find (waits_for t id) ws) as [[i w1]|]; [|done]. cbn [fmap option_fmap option_map snd].
    destruct t; try done; cbn [run_session session_step act type body]; unfold complete;
      by destruct (callback w1).
  - destruct (act_ack m ws t id K o q b w) as (pc & m2 & Ha & Hab); try done.
    { intros w0 Ho Htt. unfold o in Ho. destruct (list_find (waits_for t id) ws) as [[i w1]|]; [|done].
      injection Ho as <-. destruct (callback w1); [by eexists|]. by destruct Htt as [-> | [-> | ->]]. }
    by eapply finish_reaction.
Qed.

(** C13. What the session thread does with an acknowledgement that is not a SUBACK
    ([session_receives_suback] is about those) is its specification [on_ack]: the
    first entry that waits for this type and identifier is taken; a PUBACK,
    PUBCOMP, UNSUBACK or PINGRESP calls its callback once, a PUBREC is answered by
    a PUBREL and waits on for the PUBCOMP, a PUBREL is answered by a PUBCOMP and
    delivers the message kept.  Without such an entry nothing is sent or called.
    Where the callback of a PUBACK, PUBCOMP or PINGRESP is null, and only there,
    the thread calls the null pointer. *)
Theorem session_receives_ack (m : client) ws t flags id K :
  searched t = true → (t = PINGRESP → id = 0) → 0 ≤ flags < 16 → 0 ≤ id < 256 → listening m ws →
  let r := on_ack t id (msg_callback m) (msg_cb_context m) ws in
  exchanges m (if decide (t = PINGRESP) then mqtt_empty PINGRESP else mqtt_ack t flags id) r K →
  if calls_null t id ws then run_session session_fuel Receiving m = Fault NullDeref
  else ∃ m', run_session session_fuel Receiving m = Ok (Top, m') ∧ reacted m m' r K.
Proof using Type. exact (session_receives_ack_spec m ws t flags id K). Qed.

(** * Messages that fail *)

(** A message the deserializer does not accept is fatal: the session thread
    uses its null result. *)
Theorem malformed_message_crashes (m : client) p w :
  server_receive (server m) (receive_buffer m) (buffer_size m) (world m) = Ok (zlen p, splice (receive_buffer m) 0 p, w) →
  0 < zlen p ≤ zlen (receive_buffer m) →
  deserialize_response (p ++ drop (length p) (receive_buffer m)) (zlen p) = Ok None →
  run_session session_fuel Receiving m = Fault NullDeref.
Proof using Type.
  intros Hr Hp Hd. unfold session_fuel. cbn [run_session session_step]. rewrite Hr, bind_ok.
  cbv zeta beta iota. rewrite splice_0, decide_True by lia. cbn [receive_buffer with_io]. by rewrite Hd.
Qed.

Lemma search_suback_head (m : client) w ws cb i id :
  waits (ack_queue m) (w :: ws) → w_type w = SUBACK → w_data w = w_suback cb i →
  if decide (i = id) then ∃ q, search (ack_queue m) SUBACK id = Ok (true, Some w, q) ∧ waits q ws
  else search (ack_queue m) SUBACK id = Ok (true, None, ack_queue m).
Proof using Type.
  intros (ns & Hr & Hns) Ht Hd. destruct ns as [|[l w'] ns]; [done|]. injection Hns as -> Hns.
  pose proof (rep_seg _ _ _ _ Hr) as [Hl _]. pose proof (rep_head _ _ _ _ Hr) as Hh. cbn [first_or] in Hh.
  unfold search. case_decide as Hi.
  - destruct (remove_from_queue_rep _ _ [] ns _ _ Hr) as (h' & q' & Hrem & Hr' & _).
    unfold dequeue_by_type_and_id. rewrite Hh. cbn [dequeue_loop]. rewrite (load_ok _ _ _ Hl), bind_ok.
    cbn [payload]. cbv zeta. rewrite decide_True by done. unfold waiting_id. rewrite Hd, bind_ok, decide_True by done.
    rewrite Hrem, !bind_ok. eexists. split; [done|]. by exists ns.
  - rewrite (suback_mismatch_answers_true _ _ None l w (first_or ns None) id cb i), bind_ok by done.
    by destruct (ack_queue m).
Qed.

Lemma zlen_mqtt_suback id results :
  (length results ≤ MAX_TOPICS)%nat → 0 < zlen (mqtt_suback id results) ≤ MT_BUFFER_SIZE.
Proof using Type.
  intros Hn. unfold mqtt_suback, mqtt_packet. set (bd := mqtt_short id ++ _).
  assert (Hbd : zlen bd = 2 + zlen results)
    by (unfold bd; autorewrite with zlen; unfold zlen; by rewrite length_fmap).
  assert (0 ≤ zlen results ≤ 32) by (unfold zlen, MAX_TOPICS in *; lia).
  rewrite size_bytes_small by lia. autorewrite with zlen. unfold MT_BUFFER_SIZE. lia.
Qed.

Lemma session_receives_suback_spec (m mc : client) count topics qoss cb ctx w ws id results K :
  waiting_for (Mt_subscribe count topics qoss (Some cb) ctx) mc = Some w → listening m (w :: ws) →
  0 ≤ id < 256 → Forall (λ r, 0 ≤ sub_qos r ≤ 2) results → (length results ≤ MAX_TOPICS)%nat →
  gets (server m) (mqtt_suback id results) K (world m) →
  if decide (publish_packet_id mc = id) then
    ∃ m', run_session session_fuel Receiving m = Ok (Top, m') ∧
      reacted m m' (mk_reaction None [Subscribed cb id (normal_result <$> results) ctx] ws) K
  else run_session session_fuel Receiving m = Fault Uninitialised.
Proof using Type.
  intros [= <-] Hlis Hid Hres Hlen Hg. pose proof Hlis as (Hl & Hs & Hw & Hwf).
  set (p := mqtt_suback id results) in *.
  assert (Hp : 0 < zlen p ≤ MT_BUFFER_SIZE) by (apply zlen_mqtt_suback; done).
  destruct (receive_step m _ p _ _ Hlis Hg Hp (deserialize_mqtt_suback id results _ (zlen p) Hres Hid Hlen ltac:(lia)))
    as (b & w & Hstep & Hb & Hk & _).
  unfold session_fuel. rewrite (run_session_step _ _ _ _ _ Hstep) by done.
  pose proof (search_suback_head m _ ws (Some cb) (publish_packet_id mc) id Hw eq_refl eq_refl) as Hse.
  assert (Hhandle : ∀ found o q, search (ack_queue m) SUBACK id = Ok (found, o, q) →
    let resp := {| type := SUBACK; body := suback_data id (normal_result <$> results) |} in
    session_step (Handling resp) (with_io m b w) =
      Ok (Found resp found o, with_queues (with_io m b w) (free_queue m) (send_queue m) q)).
  { intros found o q Hq. cbn [session_step type body looked_up]. rewrite decide_False by done.
    cbn [body_packet_id]. rewrite bind_ok. change (ack_queue (with_io m b w)) with (ack_queue m).
    by rewrite Hq, bind_ok. }
  case_decide as Hi.
  - destruct Hse as (q & Hse & Hq). rewrite (run_session_step _ _ _ _ _ (Hhandle _ _ _ Hse)) by done.
    eapply finish_reaction; [done|]. split_and!; try done. by inversion Hwf.
  - by rewrite (run_session_step _ _ _ _ _ (Hhandle _ _ _ Hse)) by done.
Qed.

(** Subscriptions are matched against the wrong counter.  The entry of
    [smqtt_mt_subscribe] holds [publish_packet_id]; the broker answers with the
    identifier of the SUBSCRIBE, [subscribe_packet_id].  Where the two agree the
    SUBACK calls the callback with its results; where they do not the session
    thread uses a pointer that was never set. *)
Theorem session_receives_suback (m mc : client) count topics qoss cb ctx w ws id results K :
  waiting_for (Mt_subscribe count topics qoss (Some cb) ctx) mc = Some w → listening m (w :: ws) →
  0 ≤ id < 256 → Forall (λ r, 0 ≤ sub_qos r ≤ 2) results → (length results ≤ MAX_TOPICS)%nat →
  gets (server m) (mqtt_suback id results) K (world m) →
  if decide (publish_packet_id mc = id) then
    ∃ m', run_session session_fuel Receiving m = Ok (Top, m') ∧
      reacted m m' (mk_reaction None [Subscribed cb id (normal_result <$> results) ctx] ws) K
  else run_session session_fuel Receiving m = Fault Uninitialised.
Proof using Type. exact (session_receives_suback_spec m mc count topics qoss cb ctx w ws id results K). Qed.

End session.

(** * Examples *)

Definition queue_of (ws : list waiting_t) : linked waiting_t :=
  foldl (λ q w, match push q w with Ok q' => q' | Fault _ => q end) empty_queue ws.

Lemma waits_queue_of ws : waits (queue_of ws) ws.
Proof.
  unfold queue_of. change ws with ([] ++ ws) at 2.
  assert (H : waits empty_queue []) by (exists []; split; [apply init_queue_rep|done]).
  revert H. generalize (@empty_queue waiting_t), (@nil waiting_t). induction ws as [|w ws IH]; intros q xs Hq; cbn [foldl].
  - by rewrite app_nil_r.
  - destruct (waits_push _ _ w Hq) as (q' & -> & Hq'). rewrite cons_middle, app_assoc. by apply IH.
Qed.

(** A client whose broker follows a script. *)
Definition sample_session (ws : list waiting_t) (script : list (list Z)) : smqtt_mt_client (list (list Z)) :=
  mk_mt true 2 1 0 MT_BUFFER_SIZE (replicate (Z.to_nat MT_BUFFER_SIZE) 0) [] false empty_queue empty_queue
    (queue_of ws) (Some 5) 6 scripted script [].

Lemma sample_listening ws script : Forall well_formed ws → listening (sample_session ws script) ws.
Proof. intros Hw. split_and!; [done|done|apply waits_queue_of|done]. Qed.

Definition kept : waiting_t := mk_waiting PUBREL None 0 (w_pubrel [97; 0] [104; 105; 0] false 7).

Lemma session_receives_publish_witness :
  ∃ m', run_session session_fuel Receiving (sample_session [] [mqtt_publish [97] 7 2 false [104; 105]]) = Ok (Top, m') ∧
    reacted (sample_session [] [mqtt_publish [97] 7 2 false [104; 105]]) m'
      (mk_reaction (Some (mqtt_ack PUBREC 0 7)) [] [kept]) finished.
Proof.
  apply (session_receives_publish (sample_session [] [mqtt_publish [97] 7 2 false [104; 105]]) [] [97] [104; 105] 2 7 false 5).
  - by apply (bool_decide_unpack _); vm_compute.
  - by vm_compute.
  - lia.
  - lia.
  - by vm_compute.
  - by apply sample_listening.
  - done.
  - apply scripted_gets, scripted_sends. done.
Defined.

Lemma session_receives_ack_witness :
  ∃ m', run_session session_fuel Receiving (sample_session [kept] [mqtt_ack PUBREL 2 7]) = Ok (Top, m') ∧
    reacted (sample_session [kept] [mqtt_ack PUBREL 2 7]) m'
      (mk_reaction (Some (mqtt_ack PUBCOMP 0 7)) [Delivered 5 [97; 0] [104; 105; 0] 2 false 6] []) finished.
Proof.
  apply (session_receives_ack (sample_session [kept] [mqtt_ack PUBREL 2 7]) [kept] PUBREL 2 7).
  - done.
  - done.
  - lia.
  - lia.
  - apply sample_listening. constructor; [|constructor]. right. by exists 7.
  - apply scripted_gets, scripted_sends. done.
Defined.

Lemma malformed_message_crashes_witness :
  run_session session_fuel Receiving (sample_session [] [[240; 0]]) = Fault NullDeref.
Proof.
  apply (malformed_message_crashes (sample_session [] [[240; 0]]) [240; 0] []).
  - done.
  - by vm_compute.
  - by vm_compute.
Defined.

(** Publishing once, then subscribing: the SUBACK carries 1, the entry holds 2. *)
Lemma session_receives_suback_witness :
  let w := mk_waiting SUBACK None 4 (w_suback (Some 3) 2) in
  run_session session_fuel Receiving (sample_session [w] [mqtt_suback 1 [mk_sub_result true 1]]) = Fault Uninitialised.
Proof.
  pose (w := mk_waiting SUBACK None 4 (w_suback (Some 3) 2)).
  refine (session_receives_suback (sample_session [w] [mqtt_suback 1 [mk_sub_result true 1]]) (sample_session [] [])
    1 [[97]] [1] 3 4 w [] 1 [mk_sub_result true 1] finished _ _ _ _ _ _).
  - done.
  - apply sample_listening. constructor; [|constructor]. right. by exists 2.
  - lia.
  - constructor; [simpl; lia|constructor].
  - by apply (bool_decide_unpack _); vm_compute.
  - by apply scripted_gets.
Defined.
