(* ===== verification/ClientMtConnect.v ===== *)
(** ClientMtConnect: how the multi-threaded client starts and ends,
    [smqtt_mt_connect] and [smqtt_mt_disconnect] of
    [libsmqttclient_mt/smqttc_mt.c]. *)

From stdpp Require Import gmap.
From S2P Require Import Prelude Protocol Size Wire Serialize Deserialize Codec Server Queue ClientProtocol Connection ClientMt ClientMtSession.

#[local] Open Scope Z_scope.

Definition MAX_CLIENT_ID_CHARS : Z := 24.
Definition MAX_HOSTNAME_CHARS : Z := 100.

(** The two buffers of [smqttc_mt.c] and the world the server acts on. *)
Record mt_globals (W : Type) := mk_globals { mt_send_buffer : list Z; mt_receive_buffer : list Z; mt_world : W }.
Arguments mk_globals {W} _ _ _.
Arguments mt_send_buffer {W} _. Arguments mt_receive_buffer {W} _. Arguments mt_world {W} _.

Section connect.
Context {W : Type}.
Local Abbreviation client := (smqtt_mt_client W).

(** What a connect gives its caller: the status, and the client where
    [*client] is written. *)
Definition connect_result : Type := smqtt_mt_status_t * option client * mt_globals W.

(** The status of a refused connection. *)
Definition refused_status (t : Z) : smqtt_mt_status_t :=
  if decide (t = Connection_Refused_unacceptable_protocol_version) then SMQTT_MT_PROTOCOL
  else if decide (t = Connection_Refused_identifier_rejected) then SMQTT_MT_IDENTIFIER
  else if decide (t = Connection_Refused_server_unavailable) then SMQTT_MT_SERVER
  else if decide (t = Connection_Refused_bad_username_or_password) then SMQTT_MT_NOT_AUTHENTICATED
  else if decide (t = Connection_Refused_not_authorized) then SMQTT_MT_NOT_AUTHORIZED
  else SMQTT_MT_NOACK.

(** [server_disconnect(server);] before a return without a client. *)
Definition close_without_client (srv : server_t W) (stat : smqtt_mt_status_t) (g : mt_globals W) : outcome connect_result :=
  '(_, w) ← server_disconnect srv (mt_world g);
  Ok (stat, None, mk_globals (mt_send_buffer g) (mt_receive_buffer g) w).

(** [network] is what [create_network_server] returns; [malloc] tells whether
    the client's block was allocated; [junk] is what the buffers [malloc] gives
    hold. *)
Definition smqtt_mt_connect_internal (network : server_t W) (malloc : bool) (junk : list Z)
    (mode : server_mode_t) (server_ip : list Z) (port : Z) (client_id : list Z) (user pw : option (list Z))
    (keep_alive_sec : Z) (clean_session last_will_and_testament : bool) (will_qos : Z)
    (will_retain : bool) (will_topic will_message : option (list Z)) (msg_callback : option Z)
    (msg_cb_context : Z) (g : mt_globals W) : outcome connect_result :=
  if negb malloc then Ok (SMQTT_MT_NOMEM, None, g) else
  if decide (strlen client_id + 1 > MAX_CLIENT_ID_CHARS ∨ strlen server_ip + 1 > MAX_HOSTNAME_CHARS)
  then Ok (SMQTT_MT_OK, None, g) else
  srv ← match mode with REMOTE_SERVER => Ok network | LOCAL_SERVER => Fault NullDeref end;
  '(st, w) ← server_connect srv (c_chars server_ip) (u16 port) 100 (mt_world g);
  let g := mk_globals (mt_send_buffer g) (mt_receive_buffer g) w in
  if decide (status_from_net st ≠ SMQTT_MT_OK) then Ok (status_from_net st, None, g) else
  '(send_len, b) ← make_connect_message (mt_send_buffer g) MT_BUFFER_SIZE (c_chars client_id) user pw
      keep_alive_sec clean_session last_will_and_testament will_qos will_retain will_topic will_message;
  '(st, w) ← server_send srv b send_len (mt_world g);
  let g := mk_globals b (mt_receive_buffer g) w in
  if decide (status_from_net st ≠ SMQTT_MT_OK) then Ok (status_from_net st, None, g) else
  '(sz, b, w) ← server_receive srv (mt_receive_buffer g) MT_BUFFER_SIZE (mt_world g);
  let g := mk_globals (mt_send_buffer g) b w in
  if decide (sz > 0) then
    resp ← deserialize_response (mt_receive_buffer g) sz;
    let accept :=
      m ← start_session_thread
            (mk_mt true 1 1 0 0 [] [] false empty_queue empty_queue empty_queue msg_callback msg_cb_context
               srv (mt_world g) []) 10 1024 junk srv;
      Ok (SMQTT_MT_OK, Some m, g) in
    match resp with
    | None => Ok (SMQTT_MT_raw 99, None, g)
    | Some resp =>
        match type resp, body resp with
        | CONNACK, connack_data t =>
            if decide (t ≠ Connection_Accepted) then close_without_client srv (refused_status t) g else accept
        | _, _ => accept
        end
    end
  else close_without_client srv SMQTT_MT_NOMESSAGE g.

Definition smqtt_mt_connect (network : server_t W) (malloc : bool) (junk : list Z) :=
  smqtt_mt_connect_internal network malloc junk REMOTE_SERVER.

(** * The end *)

(** The client's block, while it is allocated. *)
Inductive block := Live (m : client) | Freed.

(** Once the session thread has ended: everything is freed, and nothing is
    returned, although the function has a result. *)
Definition join_session_thread (m : client) : option Z * block := (None, Freed).

(** The members of a block that was freed cannot be read. *)
Definition read_block (b : block) : outcome client :=
  match b with Live m => Ok m | Freed => Fault UseAfterFree end.

(** [smqtt_mt_disconnect]; the session thread sees the signal at the top of its
    loop and ends, which [pthread_join] waits for. *)
Definition smqtt_mt_disconnect (m : client) (g : mt_globals W) : outcome (smqtt_mt_status_t * mt_globals W) :=
  let '(joined, client) := join_session_thread (signal_disconnect m) in
  stat ← match joined with Some v => Ok v | None => Fault Uninitialised end;
  if decide (stat ≠ 0) then Ok (SMQTT_MT_raw stat, g) else
  '(actual_len, b) ← make_disconnect_message (mt_send_buffer g) MT_BUFFER_SIZE;
  m ← read_block client;
  '(st, w) ← server_send (server m) b actual_len (mt_world g);
  m ← read_block client;
  '(_, w) ← server_disconnect (server m) w;
  Ok (status_from_net st, mk_globals b (mt_receive_buffer g) w).

(** * Connecting to a conforming broker *)

Variable srv : server_t W.

(** [smqtt_mt_connect] with the arguments of a CONNECT. *)
Definition mt_connect_with (junk ip : list Z) (port : Z) (p : connect_params) (cb : option Z) (ctx : Z) :=
  smqtt_mt_connect srv true junk ip port (cp_client_id p) (cp_user p) (cp_pw p)
    (cp_keep_alive p) (cp_clean p) (is_some (cp_will p)) (cp_will_qos p) (cp_will_retain p)
    (fst <$> cp_will p) (snd <$> cp_will p) cb ctx.

Definition mt_opens (ip : list Z) (port : Z) (K : W → Prop) (w : W) : Prop :=
  ∃ w', server_connect srv ip port 100 w = Ok (SMQTT_NET_OK, w') ∧ K w'.

(** The status each return code of a CONNACK stands for. *)
Definition mt_connack_status (code : Z) : smqtt_mt_status_t :=
  match code with
  | 0 => SMQTT_MT_OK
  | 1 => SMQTT_MT_PROTOCOL
  | 2 => SMQTT_MT_IDENTIFIER
  | 3 => SMQTT_MT_SERVER
  | 4 => SMQTT_MT_NOT_AUTHENTICATED
  | 5 => SMQTT_MT_NOT_AUTHORIZED
  | _ => SMQTT_MT_NOACK
  end.

Lemma refused_connack code : byte_range code → code ≠ 0 → refused_status code = mt_connack_status code.
Proof using Type.
  intros Hb Hc. unfold refused_status, Connection_Refused_unacceptable_protocol_version,
    Connection_Refused_identifier_rejected, Connection_Refused_server_unavailable,
    Connection_Refused_bad_username_or_password, Connection_Refused_not_authorized, byte_range in *.
  repeat case_decide; subst; try done. destruct code as [|[[[]|[]|]|[[]|[]|]|]|]; done.
Qed.

(** A client as its session thread starts: connected, its identifiers at 1, ten
    free slots, nothing to send and nothing waiting. *)
Definition started (m : client) (junk : list Z) (cb : option Z) (ctx : Z) : Prop :=
  connected m = true ∧ publish_packet_id m = 1 ∧ subscribe_packet_id m = 1 ∧ ready_to_disconnect m = false ∧
  holds (free_queue m) (seqZ 0 10) ∧ holds (send_queue m) [] ∧ waits (ack_queue m) [] ∧
  buffer_slots m = replicate 10 (mk_slot 0 junk) ∧ receive_buffer m = junk ∧ buffer_size m = MT_BUFFER_SIZE ∧
  msg_callback m = cb ∧ msg_cb_context m = ctx ∧ server m = srv.

Lemma start_started junk cb ctx w :
  ∃ m, start_session_thread (mk_mt true 1 1 0 0 [] [] false empty_queue empty_queue empty_queue cb ctx srv w [])
         10 1024 junk srv = Ok m ∧ started m junk cb ctx ∧ world m = w.
Proof using Type.
  unfold start_session_thread. destruct (push_all 10 0 empty_queue [] holds_empty) as (q & Hq & Hh).
  change (Z.to_nat 10) with 10%nat. rewrite Hq, bind_ok. eexists. split; [done|]. split; [|done].
  refine (conj eq_refl (conj eq_refl (conj eq_refl (conj eq_refl (conj Hh (conj holds_empty (conj _ _))))))).
  - exists []. split; [apply init_queue_rep|done].
  - repeat (split; [reflexivity|]). reflexivity.
Qed.

Lemma mt_connect_result_spec junk ip port p cb ctx code g K :
  connect_ok p → zlen (cp_client_id p) < MAX_CLIENT_ID_CHARS → nul_free ip → zlen ip < MAX_HOSTNAME_CHARS →
  zlen (mqtt_connect p) ≤ MT_BUFFER_SIZE → byte_range code →
  zlen (mt_send_buffer g) = MT_BUFFER_SIZE → zlen (mt_receive_buffer g) = MT_BUFFER_SIZE →
  mt_opens ip (u16 port) (sends srv (mqtt_connect p) (gets srv (mqtt_connack code)
    (if decide (code = Connection_Accepted) then K else closes srv K))) (mt_world g) →
  ∃ o g', mt_connect_with junk ip port p cb ctx g = Ok (mt_connack_status code, o, g') ∧ K (mt_world g') ∧
    zlen (mt_send_buffer g') = MT_BUFFER_SIZE ∧ zlen (mt_receive_buffer g') = MT_BUFFER_SIZE ∧
    if decide (code = Connection_Accepted)
    then ∃ m, o = Some m ∧ started m junk cb ctx ∧ world m = mt_world g'
    else o = None.
Proof using Type*.
  intros Hp Hid Hip Hipl Hl Hcode Hsb Hrb (w1 & Ho & Hk). unfold mt_connect_with, smqtt_mt_connect, smqtt_mt_connect_internal.
  pose proof (co_client_id _ Hp) as (_ & Hnul & _). cbn [negb].
  rewrite decide_False by (rewrite !strlen_nul_free by done; lia). rewrite !c_chars_nul_free by done.
  rewrite bind_ok, Ho, bind_ok. cbn [status_from_net mt_send_buffer mt_receive_buffer mt_world].
  rewrite (decide_False (P := SMQTT_MT_OK ≠ SMQTT_MT_OK)) by auto.
  pose proof (make_connect_mqtt p (mt_send_buffer g) MT_BUFFER_SIZE Hp) as Hmk. unfold make_connect in Hmk.
  rewrite Hmk, writes_fits, bind_ok by lia. clear Hmk.
  destruct (Hk (mqtt_connect p ++ drop (length (mqtt_connect p)) (mt_send_buffer g))) as (w2 & -> & Hk2).
  { rewrite zlen_overwrite; lia. }
  { apply slice_prefix. }
  rewrite bind_ok. cbn [status_from_net]. rewrite (decide_False (P := SMQTT_MT_OK ≠ SMQTT_MT_OK)) by auto.
  destruct (Hk2 (mt_receive_buffer g) Hrb) as (w3 & Hr & Hk3). change Client.BUFFER_SIZE with MT_BUFFER_SIZE in Hr.
  rewrite Hr, bind_ok. cbv zeta beta iota. rewrite (decide_True (P := zlen (mqtt_connack code) > 0)) by done.
  rewrite splice_0 by (rewrite Hrb; by vm_compute). cbn [mt_receive_buffer mt_send_buffer mt_world].
  rewrite deserialize_mqtt_connack, bind_ok by done. cbv beta iota. cbn [type body].
  assert (Hzs : zlen (mqtt_connect p ++ drop (length (mqtt_connect p)) (mt_send_buffer g)) = MT_BUFFER_SIZE)
    by (rewrite zlen_overwrite; lia).
  assert (Hzr : zlen (mqtt_connack code ++ drop (length (mqtt_connack code)) (mt_receive_buffer g)) = MT_BUFFER_SIZE)
    by (rewrite zlen_overwrite; rewrite Hrb; by vm_compute).
  destruct (decide (code = Connection_Accepted)) as [->|Hc].
  - rewrite decide_False by auto. destruct (start_started junk cb ctx w3) as (m & Hst & Hm & Hw).
    rewrite Hst, bind_ok. eexists _, _. split; [reflexivity|]. refine (conj Hk3 (conj Hzs (conj Hzr _))). exact (ex_intro _ m (conj eq_refl (conj Hm Hw))).
  - rewrite decide_True by done. destruct Hk3 as (st & w4 & Hd & Hk4). unfold close_without_client. cbn [mt_world].
    rewrite Hd, bind_ok, refused_connack by done. eexists _, _. split; [reflexivity|]. exact (conj Hk4 (conj Hzs (conj Hzr eq_refl))).
Qed.

(** C33. Connecting the multi-threaded client.  Where the connection opens, the
    server takes the CONNECT packet of the arguments and answers with a CONNACK:
    return code 0 gives [SMQTT_MT_OK] and a started client; any other code gives
    the status that stands for it and no client, and closes the connection. *)
Theorem smqtt_mt_connect_result junk ip port p cb ctx code g K :
  connect_ok p → zlen (cp_client_id p) < MAX_CLIENT_ID_CHARS → nul_free ip → zlen ip < MAX_HOSTNAME_CHARS →
  zlen (mqtt_connect p) ≤ MT_BUFFER_SIZE → byte_range code →
  zlen (mt_send_buffer g) = MT_BUFFER_SIZE → zlen (mt_receive_buffer g) = MT_BUFFER_SIZE →
  mt_opens ip (u16 port) (sends srv (mqtt_connect p) (gets srv (mqtt_connack code)
    (if decide (code = Connection_Accepted) then K else closes srv K))) (mt_world g) →
  ∃ o g', mt_connect_with junk ip port p cb ctx g = Ok (mt_connack_status code, o, g') ∧ K (mt_world g') ∧
    if decide (code = Connection_Accepted)
    then ∃ m, o = Some m ∧ started m junk cb ctx ∧ world m = mt_world g'
    else o = None.
Proof using Type*.
  intros Hp Hid Hip Hipl Hl Hcode Hsb Hrb Hc.
  destruct (mt_connect_result_spec junk ip port p cb ctx code g K) as (o & g' & Hr & HK & _ & _ & Ho); [done..|].
  by exists o, g'.
Qed.

End connect.

(** The result of [join_session_thread] is used although it gives none; had it
    been 0, the freed client would be read. *)
Lemma disconnect_uses_missing_result {W} (m : smqtt_mt_client W) g :
  smqtt_mt_disconnect m g = Fault Uninitialised.
Proof. done. Qed.

Definition sample_globals (script : list (list Z)) : mt_globals (list (list Z)) :=
  mk_globals (replicate (Z.to_nat MT_BUFFER_SIZE) 0) (replicate (Z.to_nat MT_BUFFER_SIZE) 0) script.

Lemma smqtt_mt_connect_result_witness :
  ∃ o g', mt_connect_with scripted [1; 2] [49] 1883 connect_sample None 0 (sample_globals [mqtt_connack 0]) =
      Ok (SMQTT_MT_OK, o, g') ∧ finished (mt_world g') ∧
    ∃ m, o = Some m ∧ started scripted m [1; 2] None 0 ∧ world m = mt_world g'.
Proof.
  apply (smqtt_mt_connect_result scripted [1; 2] [49] 1883 connect_sample None 0 0 (sample_globals [mqtt_connack 0]) finished).
  - apply connect_sample_ok.
  - by vm_compute.
  - by apply (bool_decide_unpack _); vm_compute.
  - by vm_compute.
  - by vm_compute.
  - split; by vm_compute.
  - by vm_compute.
  - by vm_compute.
  - eexists. split; [reflexivity|]. apply scripted_sends, scripted_gets. reflexivity.
Defined.
