(* ===== verification/ClientMtSafe.v ===== *)
(** ClientMtSafe: the multi-threaded client as a whole.  With a conforming broker
    and calls whose arguments fit, no thread faults on any interleaving, but for the
    session thread when it handles a SUBACK after a subscribe or an unsubscribe; and
    the session thread ends, or faults so, once it is told to end. *)

From stdpp Require Import gmap.
From S2P Require Import Prelude Protocol Size Wire Serialize Deserialize Codec Server Queue ClientSafe ClientProtocol Connection ClientMt ClientMtSession.

#[local] Open Scope Z_scope.

(** * The environment *)

(** What a broker sends to a client, as packets of the protocol: anything but
    the SUBACK of a subscription the client did not make is allowed at any time,
    and so are acknowledgements nobody waits for. *)
Inductive broker_packet : list Z → Prop :=
  | bp_publish topic id qos retain msg :
      short_string topic → zlen msg < 65536 → 0 ≤ id < 256 → 0 ≤ qos ≤ 2 →
      broker_packet (mqtt_publish topic id qos retain msg)
  | bp_ack t flags id :
      is_ack t = true → 0 ≤ flags < 16 → 0 ≤ id < 256 → broker_packet (mqtt_ack t flags id)
  | bp_suback id results :
      Forall (λ r, 0 ≤ sub_qos r ≤ 2) results → (length results ≤ MAX_TOPICS)%nat → 0 ≤ id < 256 →
      broker_packet (mqtt_suback id results)
  | bp_pingresp : broker_packet (mqtt_empty PINGRESP)
  | bp_connack code : broker_packet (mqtt_connack code).

(** A connection to such a broker: it stays up whatever is sent, and what is
    received is nothing, an error, or one whole packet. *)
Class Broker {W} (srv : server_t W) := {
  up : W → Prop;
  up_send buffer length w :
    up w → 2 ≤ length ≤ zlen buffer → ∃ st w', server_send srv buffer length w = Ok (st, w') ∧ up w';
  up_receive buffer w :
    up w → zlen buffer = MT_BUFFER_SIZE →
    ∃ sz buffer' w', server_receive srv buffer MT_BUFFER_SIZE w = Ok (sz, buffer', w') ∧ up w' ∧
      ((sz ≤ 0 ∧ zlen buffer' = zlen buffer) ∨
       ∃ p, broker_packet p ∧ zlen p ≤ MT_BUFFER_SIZE ∧ sz = zlen p ∧ buffer' = splice buffer 0 p)
}.

(** Calls whose packet fits a slot, with as many topics as the count says.  The
    callback of a ping, and of a publish that is acknowledged, is not null. *)
Definition call_fits (r : request) : Prop :=
  match r with
  | Mt_ping cb _ => is_Some cb
  | Mt_publish topic msg qos _ cb _ =>
      9 + strlen topic + opt_len msg ≤ MT_BUFFER_SIZE ∧ (qos = QoS1 ∨ qos = QoS2 → is_Some cb)
  | Mt_subscribe count topics qoss _ _ =>
      count = zlen topics ∧ count < 256 ∧ length qoss = length topics ∧ 7 + topics_size true topics ≤ MT_BUFFER_SIZE
  | Mt_unsubscribe count topics _ _ =>
      count = zlen topics ∧ count < 256 ∧ 7 + topics_size false topics ≤ MT_BUFFER_SIZE
  end.

(** The calls that wait for a SUBACK: what becomes of them is the subject of
    [session_receives_suback]. *)
Definition awaits_suback (r : request) : bool :=
  match r with Mt_subscribe _ _ _ _ _ | Mt_unsubscribe _ _ _ _ => true | _ => false end.

(** The thread is at a SUBACK. *)
Definition handles_suback (pc : session_pc) : bool :=
  match pc with Handling r | Found r _ _ => bool_decide (type r = SUBACK) | _ => false end.

(** * What is waited for *)

(** The entries such calls, and the session thread, put into the
    acknowledgement queue; [subs] is whether calls that wait for a SUBACK are
    made. *)
Definition entry_ok (subs : bool) (w : waiting_t) : Prop :=
  match w_type w, w_data w with
  | PINGRESP, _ | PUBACK, w_puback _ | PUBREC, w_pubrec _ | PUBCOMP, w_pubcomp _ => is_Some (callback w)
  | PUBREL, w_pubrel _ _ _ _ => True
  | SUBACK, (w_suback _ _ | w_unsuback _) => subs = true
  | _, _ => False
  end.

Definition call_allowed (subs : bool) (r : request) : Prop := call_fits r ∧ (awaits_suback r = true → subs = true).

Lemma calls_allowed rs : Forall call_fits rs → Forall (call_allowed (existsb awaits_suback rs)) rs.
Proof.
  intros Hr. apply Forall_forall. intros r Hin. split; [by eapply Forall_forall in Hr|].
  intros Ha. apply existsb_exists. exists r. split; [by apply list_elem_of_In|done].
Qed.

Lemma entry_well_formed subs w t : entry_ok subs w → searched t = true → w_type w = t → well_formed w.
Proof.
  unfold entry_ok, well_formed, waiting_id. intros Hw Ht <-. destruct (w_type w), (w_data w); try done; eauto.
Qed.

Lemma entry_not_suback w : entry_ok false w → w_type w ≠ SUBACK.
Proof. unfold entry_ok. by destruct (w_type w), (w_data w). Qed.

(** A search for a type that no entry has. *)
Lemma dequeue_loop_none t id (h : heap waiting_t) q : ∀ ns fuel prev,
  seg h prev ns None → Forall (λ w, w_type w ≠ t) ns.*2 → (length ns < fuel)%nat →
  dequeue_loop fuel h q (first_or ns None) t id = Ok (false, None, h, q).
Proof.
  induction ns as [|[l w] ns IH]; intros fuel prev Hs Ht Hf; [by destruct fuel|].
  destruct fuel as [|fuel]; [simpl in Hf; lia|]. destruct Hs as [Hl Hs].
  apply Forall_cons in Ht as [Hw Ht]. simpl in Hf. cbn [dequeue_loop first_or].
  rewrite (load_ok _ _ _ Hl), bind_ok. cbv zeta. cbn [payload next snd] in *. rewrite decide_False by done.
  apply (IH fuel (Some l)); [done|done|lia].
Qed.

Lemma search_none q ws t id :
  waits q ws → Forall (λ w, w_type w ≠ t) ws → search q t id = Ok (false, None, q).
Proof.
  intros (ns & Hr & <-) Ht. unfold search, dequeue_by_type_and_id. rewrite (rep_head _ _ _ _ Hr).
  pose proof (queue_rep_size _ _ _ _ Hr).
  rewrite (dequeue_loop_none t id _ _ ns _ None), bind_ok; [by destruct q|by apply (rep_seg _ _ _ _ Hr)|done|lia].
Qed.

(** Any search of the queue: what it finds is an entry of that type. *)
Lemma search_entries subs q ws t id :
  waits q ws → Forall (entry_ok subs) ws → searched t = true ∨ t = SUBACK ∧ subs = false →
  ∃ found o q' ws', search q t id = Ok (found, o, q') ∧ waits q' ws' ∧ Forall (entry_ok subs) ws' ∧
    (found = true → ∃ w, o = Some w ∧ entry_ok subs w ∧ w_type w = t).
Proof.
  intros Hq Hw [Ht|[-> ->]].
  - assert (Hwf : Forall (λ w, w_type w = t → well_formed w) ws)
      by (eapply Forall_impl; [exact Hw|]; intros w Hok; by apply (entry_well_formed subs)).
    pose proof (search_spec q ws t id Hq Hwf Ht) as Hs.
    destruct (list_find (waits_for t id) ws) as [[i w]|] eqn:E.
    + destruct Hs as (q' & -> & Hq'). exists true, (Some w), q', (delete i ws). split_and!; [done|done|by apply Forall_delete|].
      apply list_find_Some in E as (Hi & [? _] & _). intros _. exists w. split_and!; [done| |done].
      by eapply (Forall_lookup_1 (entry_ok subs)).
    + rewrite Hs. exists false, None, q, ws. by split_and!.
  - exists false, None, q, ws. split_and!; [|done|done|done]. apply (search_none q ws); [done|].
    eapply Forall_impl; [exact Hw|]. apply entry_not_suback.
Qed.

(** A search for a SUBACK that has a result. *)
Lemma search_suback_entries subs q ws id found o q' :
  waits q ws → Forall (entry_ok subs) ws → search q SUBACK id = Ok (found, o, q') →
  ∃ ws', waits q' ws' ∧ Forall (entry_ok subs) ws' ∧
    (found = true → o = None ∨ ∃ w, o = Some w ∧ entry_ok subs w ∧ w_type w = SUBACK).
Proof.
  intros Hq Hw Hs. pose proof (search_suback_spec q ws id Hq) as Hspec. unfold found_entry in Hspec.
  rewrite decide_True in Hspec by done.
  destruct (list_find (λ w, w_type w = SUBACK) ws) as [[i w]|] eqn:E.
  2:{ rewrite Hs in Hspec. injection Hspec as -> -> ->. by exists ws. }
  destruct (waiting_id SUBACK w) as [j|e]; [rewrite bind_ok in Hspec|by rewrite Hs in Hspec].
  case_decide; cbv beta iota in Hspec.
  - destruct Hspec as (q1 & Hs' & Hq'). rewrite Hs in Hs'. injection Hs' as -> -> ->. exists (delete i ws).
    split; [done|]. split; [by apply Forall_delete|]. intros _. right. exists w. split; [done|].
    apply list_find_Some in E as (Hi & ? & _). split; [|done]. by eapply (Forall_lookup_1 (entry_ok subs)).
  - rewrite Hs in Hspec. injection Hspec as -> -> ->. exists ws. split_and!; [done..|by left].
Qed.

(** * What is received *)

(** A part of the receive buffer that can be copied. *)
Definition readable (p size : Z) : Prop := (Z.to_nat size ≤ Z.to_nat MT_BUFFER_SIZE - Z.to_nat p)%nat.

(** A response the thread can act on. *)
Definition handled (r : response_t) : Prop :=
  match type r, body r with
  | PUBLISH, publish_data d =>
      readable (pub_topic d) (pub_topic_size d) ∧ readable (pub_message d) (pub_message_size d)
  | PUBACK, puback_data _ | PUBREC, pubrec_data _ | PUBREL, pubrel_data _ | PUBCOMP, pubcomp_data _
  | UNSUBACK, unsuback_data _ | SUBACK, suback_data _ _ | PINGRESP, _ | CONNACK, _ => True
  | _, _ => False
  end.

Lemma slice_readable b p s : zlen b = MT_BUFFER_SIZE → slice b p (zlen s) = s → readable p (zlen s).
Proof.
  intros Hb Hs. unfold readable, MT_BUFFER_SIZE in *. apply (f_equal length) in Hs. unfold slice in Hs.
  rewrite length_take, length_drop in Hs. unfold zlen in *. lia.
Qed.

Lemma broker_packet_handled p rest :
  broker_packet p → zlen (p ++ rest) = MT_BUFFER_SIZE →
  0 < zlen p ∧ ∃ r, deserialize_response (p ++ rest) (zlen p) = Ok (Some r) ∧ handled r.
Proof.
  intros Hp Hl. destruct Hp as [topic id qos retain msg Ht Hm Hid Hq|t flags id Ha Hf Hid|id results Hr Hn Hid| |code].
  - split; [apply (Z.lt_le_trans _ 2); [done|apply zlen_mqtt_packet]|].
    destruct (deserialize_mqtt_publish topic id qos retain msg rest _ Ht Hm Hid Hq ltac:(reflexivity)) as (d & Hd & Hr & _).
    eexists. split; [exact Hd|]. destruct Hr as (_ & _ & _ & Hts & Htopic & Hms & Hmsg). cbn [handled type body].
    rewrite Hts, Hms in *. by split; eapply slice_readable.
  - split; [done|]. eexists. split; [by apply deserialize_mqtt_ack|]. by destruct t.
  - split; [by apply zlen_mqtt_suback|]. eexists. split; [apply deserialize_mqtt_suback; try done|done].
    pose proof (zlen_mqtt_suback id results Hn). lia.
  - split; [done|]. eexists. split; [apply deserialize_mqtt_empty; auto|done]. by vm_compute.
  - split; [done|]. eexists. split; [by apply deserialize_mqtt_connack|done].
Qed.

Section safe.
Context {W : Type} (srv : server_t W) `{!Broker srv} (count : Z) (subs : bool).
Local Abbreviation client := (smqtt_mt_client W).

(** * The invariant *)

(** The shared state, without the queues of slots, which [slots_owned] covers. *)
Record shared_ok (m : client) : Prop := {
  sh_server : server m = srv;
  sh_up : up (world m);
  sh_buffer : zlen (receive_buffer m) = MT_BUFFER_SIZE;
  sh_size : buffer_size m = MT_BUFFER_SIZE;
  sh_slots : Forall (λ s, zlen (buffer s) = MT_BUFFER_SIZE) (buffer_slots m);
  sh_acks : ∃ ws, waits (ack_queue m) ws ∧ Forall (entry_ok subs) ws
}.

Definition session_ok (pc : session_pc) : Prop :=
  match pc with
  | Handling r => handled r
  | Found r found w =>
      handled r ∧
      (found = true → (w = None ∧ type r = SUBACK ∧ subs = true) ∨ ∃ w', w = Some w' ∧ entry_ok subs w' ∧ w_type w' = type r)
  | Rewait w => entry_ok subs w
  | _ => True
  end.

Definition caller_ok (c : request * api_pc) : Prop :=
  call_allowed subs c.1 ∧ match c.2 with Waiting _ _ (Some w) => entry_ok subs w | _ => True end.

Definition system_ok (s : @system W) : Prop :=
  slots_owned count s ∧ shared_ok (shared s) ∧ session_ok (session s) ∧ Forall caller_ok (callers s).

(** ** Shared state that changes in the queues or the buffer only *)

Lemma shared_queues (m : client) f s : shared_ok m → shared_ok (with_queues m f s (ack_queue m)).
Proof using Type. by intros []. Qed.

Lemma shared_acks (m : client) f s a ws :
  shared_ok m → waits a ws → Forall (entry_ok subs) ws → shared_ok (with_queues m f s a).
Proof using Type. intros [] ??. split; try done. by exists ws. Qed.

Lemma shared_io (m : client) b w :
  shared_ok m → zlen b = MT_BUFFER_SIZE → up w → shared_ok (with_io m b w).
Proof using Type. by intros []. Qed.

Lemma shared_call (m : client) e : shared_ok m → shared_ok (with_call m e).
Proof using Type. by intros []. Qed.

Lemma shared_ids (m : client) p s : shared_ok m → shared_ok (with_ids m p s).
Proof using Type. by intros []. Qed.

Lemma shared_write (m : client) p l b :
  shared_ok m → zlen b = MT_BUFFER_SIZE → shared_ok (with_slots m (<[p := mk_slot l b]> (buffer_slots m))).
Proof using Type. intros [] Hb. split; try done. cbn [buffer_slots with_slots]. by apply Forall_insert. Qed.

Lemma shared_signal (m : client) : shared_ok m → shared_ok (signal_disconnect m).
Proof using Type. by intros []. Qed.

Lemma shared_enqueue (m : client) w :
  shared_ok m → entry_ok subs w → ∃ m', enqueue_waiting m w = Ok m' ∧ shared_ok m'.
Proof using Type.
  intros Hm Hw. destruct (sh_acks _ Hm) as (ws & Hq & Hws). destruct (waits_push _ _ w Hq) as (a & Ha & Hq').
  unfold enqueue_waiting. rewrite Ha, bind_ok. eexists. split; [done|]. apply (shared_acks m _ _ a (ws ++ [w])); [done..|].
  apply Forall_app. by split; [|constructor].
Qed.

(** A slot of the pool has a buffer of the right size. *)
Lemma shared_slot (m : client) p s : shared_ok m → get_slot m p = Ok s → zlen (buffer s) = MT_BUFFER_SIZE.
Proof using Type.
  intros Hm [_ Hs]%get_slot_inv. by apply (Forall_lookup_1 (λ s, zlen (buffer s) = MT_BUFFER_SIZE) _ _ _ (sh_slots _ Hm) Hs).
Qed.

(** The packet of a call that fits: the same bytes into any buffer. *)
Lemma packet_writes r pid sid :
  call_fits r → ∃ bs, 2 ≤ zlen bs ≤ MT_BUFFER_SIZE ∧ ∀ b, packet r pid sid b = writes bs b.
Proof using Type.
  intros Hr. destruct r as [cb ctx|topic msg qos retain cb ctx|n topics qoss cb ctx|n topics cb ctx]; cbn [packet].
  - exists (mqtt_empty PINGREQ). split; [by split; vm_compute|]. intros b. apply make_empty_mqtt.
  - destruct (make_publish_fits topic pid qos retain msg (proj1 Hr)) as (bs & Hbs & Hw). exists bs. by split.
  - destruct Hr as (-> & Hn & Hlen & Hsz). pose proof (zlen_nonneg topics).
    assert (topics = (zip topics qoss).*1 ∧ qoss = (zip topics qoss).*2 ∧ zlen topics = zlen (zip topics qoss)) as (H1 & H2 & H3).
    { rewrite fst_zip, snd_zip by lia. unfold zlen. rewrite length_zip_with. split_and!; [done..|lia]. }
    rewrite u8_small, H3 by (unfold byte_range; lia). rewrite H1 in Hsz.
    destruct (make_subscribe_fits sid (zip topics qoss) Hsz) as (bs & Hbs & Hw). exists bs. split; [done|].
    intros b. by rewrite <- (Hw b MT_BUFFER_SIZE), <- H1, <- H2.
  - destruct Hr as (-> & Hn & Hsz). pose proof (zlen_nonneg topics). rewrite u8_small by (unfold byte_range; lia).
    destruct (make_unsubscribe_fits sid topics Hsz) as (bs & Hbs & Hw). exists bs. by split.
Qed.

Lemma packet_fits r pid sid b :
  call_fits r → zlen b = MT_BUFFER_SIZE →
  ∃ len b', packet r pid sid b = Ok (len, b') ∧ zlen b' = MT_BUFFER_SIZE.
Proof using Type.
  intros Hr Hb. destruct (packet_writes r pid sid Hr) as (bs & Hbs & Hw). rewrite Hw, writes_fits by lia.
  do 2 eexists. split; [done|]. rewrite zlen_overwrite; lia.
Qed.

Lemma packet_length r pid sid b len b' :
  call_fits r → packet r pid sid b = Ok (len, b') → 2 ≤ len ≤ MT_BUFFER_SIZE.
Proof using Type.
  intros Hr Hp. destruct (packet_writes r pid sid Hr) as (bs & Hbs & Hw). rewrite Hw in Hp. unfold writes in Hp.
  case_decide; [|done]. by injection Hp as <- _.
Qed.

(** ** Replies and deliveries *)

Lemma shared_reply (m : client) make :
  shared_ok m → make_ok make → ∃ st m', reply m make = Ok (st, m') ∧ shared_ok m'.
Proof using Type.
  intros Hm Hmk. pose proof Hm as [Hsrv Hup Hb Hsz _ _]. unfold reply. rewrite Hsz, Hsrv.
  destruct (Hmk _ Hb) as (n & b & Hmake & Hn & Hlb). change Client.BUFFER_SIZE with MT_BUFFER_SIZE in Hmake.
  rewrite Hmake, bind_ok. destruct (up_send b n _ Hup Hn) as (st & w & -> & Hw). rewrite bind_ok.
  do 2 eexists. split; [done|]. apply shared_io; [done|lia|done].
Qed.

Lemma shared_copy (m : client) p size :
  shared_ok m → readable p size → ∃ bs, copy_publish m p size = Ok bs.
Proof using Type.
  intros Hm Hp. unfold copy_publish, readable in *. pose proof (sh_buffer _ Hm) as Hb. unfold zlen in Hb.
  rewrite strncpy_bytes_take by (rewrite length_drop; lia). by eexists.
Qed.

Lemma shared_deliver (m : client) d :
  shared_ok m → handled {| type := PUBLISH; body := publish_data d |} →
  ∃ m', maybe_deliver_message m d = Ok m' ∧ shared_ok m'.
Proof using Type.
  intros Hm [Ht Hd]. unfold maybe_deliver_message. destruct (msg_callback m) as [cb|]; [|by eexists].
  destruct (shared_copy m _ _ Hm Ht) as [t ->], (shared_copy m _ _ Hm Hd) as [b ->]. rewrite !bind_ok.
  eexists. split; [done|]. by apply shared_call.
Qed.

Lemma shared_complete (m : client) w cb :
  shared_ok m → callback w = Some cb → ∃ m', complete m (Some w) = Ok m' ∧ shared_ok m'.
Proof using Type. intros Hm Hcb. unfold complete. rewrite Hcb. eexists. split; [done|]. by apply shared_call. Qed.

(** A step that ends well. *)
Definition goes_on (o : outcome (session_pc * client)) : Prop :=
  ∃ pc m, o = Ok (pc, m) ∧ shared_ok m ∧ session_ok pc.

Lemma goes_on_ret pc (m : client) : shared_ok m → session_ok pc → goes_on (Ok (pc, m)).
Proof using Type. intros ??. by exists pc, m. Qed.

Lemma goes_on_bind (o : outcome client) pc :
  (∃ m', o = Ok m' ∧ shared_ok m') → session_ok pc → goes_on (m ← o; Ok (pc, m)).
Proof using Type. intros (m' & -> & Hm) Hpc. rewrite bind_ok. by apply goes_on_ret. Qed.

(** What an entry found for an acknowledgement holds. *)
Lemma entry_callback w t :
  entry_ok subs w → w_type w = t → t = PINGRESP ∨ t = PUBACK ∨ t = PUBREC ∨ t = PUBCOMP → ∃ cb, callback w = Some cb.
Proof using Type.
  unfold entry_ok. intros Hw <- [H|[H|[H|H]]]; rewrite H in Hw; [by destruct Hw as [cb ?]; exists cb|..];
    by destruct (w_data w); try done; destruct Hw as [cb ?]; exists cb.
Qed.

(** ** The session thread *)

(** Where the next step of the thread is defined. *)
Definition defined_pc (pc : session_pc) : Prop := handles_suback pc = true → subs = false.

Lemma act_ok (m : client) r found w :
  shared_ok m → session_ok (Found r found w) → defined_pc (Found r found w) → goes_on (act m r found w).
Proof using Type*.
  intros Hm [Hr Hw0] Hdef. destruct r as [t bd]. cbn [type] in Hw0. unfold defined_pc in Hdef. cbn [handles_suback type] in Hdef.
  assert (Hw : found = true → ∃ w', w = Some w' ∧ entry_ok subs w' ∧ w_type w' = t ∧ t ≠ SUBACK).
  { intros Hf. destruct (Hw0 Hf) as [(_ & -> & ->)|(w' & -> & He & Hty)].
    - by discriminate Hdef.
    - exists w'. split_and!; [done..|]. intros ->. rewrite Hdef in He by done. by apply entry_not_suback in He. }
  clear Hw0 Hdef.
  assert (Hcb : found = true → t = PINGRESP ∨ t = PUBACK ∨ t = PUBREC ∨ t = PUBCOMP →
            ∃ w' cb, w = Some w' ∧ callback w' = Some cb).
  { intros Hf Ht. destruct (Hw Hf) as (w' & -> & He & Hty & _). destruct (entry_callback _ _ He Hty Ht) as [cb ?]. by exists w', cb. }
  assert (Hdone : t = PINGRESP ∨ t = PUBACK ∨ t = PUBCOMP →
            goes_on (m' ← (if found then complete m w else Ok m); Ok (Top, m'))).
  { intros Ht. apply goes_on_bind; [|done]. destruct found; [|by eexists].
    destruct Hcb as (w' & cb & -> & Hc); [done|tauto|]. by eapply shared_complete. }
  unfold handled in Hr. cbn [type body] in Hr. unfold act, handle_pubrec, handle_suback, handle_unsuback, handle_publish, handle_pubrel. cbn [type body].
  destruct t, bd; try done; try (by apply goes_on_ret); try (apply Hdone; auto).
  - case_decide; [apply goes_on_bind; [by apply shared_deliver|done]|]. case_decide.
    { destruct (shared_reply m _ Hm (proj1 (make_ack_ok (pub_packet_id d)))) as (st & m' & -> & Hm'). rewrite bind_ok.
      destruct st; try (by apply goes_on_ret). apply goes_on_bind; [by apply shared_deliver|done]. }
    case_decide; [|by apply goes_on_ret].
    destruct (shared_reply m _ Hm (proj1 (proj2 (make_ack_ok (pub_packet_id d))))) as (st & m' & -> & Hm'). rewrite bind_ok.
    destruct st; try (by apply goes_on_ret).
    destruct (shared_copy m' _ _ Hm' (proj1 Hr)) as [topic ->], (shared_copy m' _ _ Hm' (proj2 Hr)) as [msg ->].
    rewrite !bind_ok. by apply goes_on_ret.
  - destruct found; [|by apply goes_on_ret]. destruct Hcb as (w' & cb & -> & Hc); [done|auto|].
    destruct (shared_reply m _ Hm (proj1 (proj2 (proj2 (make_ack_ok packet_id))))) as (st & m' & -> & Hm'). rewrite bind_ok.
    destruct st; try (by apply goes_on_ret). apply goes_on_ret; [done|]. by exists cb.
  - destruct found; [|by apply goes_on_ret]. destruct (Hw eq_refl) as (w' & -> & He & Hty & _).
    destruct (shared_reply m _ Hm (proj2 (proj2 (proj2 (make_ack_ok packet_id))))) as (st & m' & -> & Hm'). rewrite bind_ok.
    unfold entry_ok in He. rewrite Hty in He. cbn [fmap option_fmap option_map].
    destruct st; try (by apply goes_on_ret). destruct (msg_callback m'); [|by apply goes_on_ret].
    destruct (w_data w'); try done. apply goes_on_ret; [by apply shared_call|done].
  - destruct found; [|by apply goes_on_ret]. by destruct (Hw eq_refl) as (_ & _ & _ & _ & ?).
  - destruct found; [|by apply goes_on_ret]. destruct (Hw eq_refl) as (w' & -> & He & Hty & _).
    destruct (callback w'); apply goes_on_ret; try done. by apply shared_call.
Qed.

Lemma session_step_ok rs (m : client) pc others :
  owned count rs m (session_claims pc) others → Forall call_fits rs → shared_ok m → session_ok pc → defined_pc pc →
  goes_on (session_step pc m).
Proof using Type*.
  intros Ho Hrs Hm Hpc Hdef. destruct pc as [|p|p| |r|r found w|w|]; cbn [session_step].
  - destruct (ready_to_disconnect m); [by apply goes_on_ret|]. destruct Ho as (free & send & _ & Hs & _).
    destruct (holds_pop _ _ Hs) as (q & -> & _). rewrite bind_ok. apply goes_on_ret; [by apply shared_queues|].
    by destruct send.
  - destruct (owned_slot _ _ _ _ _ _ Ho) as (s & Hs & r & len & Hr & (pid & sid & buf & Hp) & Hl). rewrite Hs, bind_ok.
    pose proof (shared_slot _ _ _ Hm Hs) as Hb. pose proof Hm as [Hsrv Hup _ _ _ _]. rewrite Hsrv.
    assert (2 ≤ len ≤ MT_BUFFER_SIZE) as Hlen.
    { apply (packet_length r pid sid buf len (buffer s)); [|done].
      by apply (proj1 (Forall_forall _ _) Hrs). }
    destruct (up_send (buffer s) (message_length s) (world m) Hup) as (st & w & -> & Hw).
    { rewrite Hl, u16_small by (unfold MT_BUFFER_SIZE in Hlen; lia). lia. }
    rewrite bind_ok. apply goes_on_ret; [|done]. apply shared_io; [done|by apply sh_buffer|done].
  - destruct Ho as (free & send & Hf & _ & _). destruct (holds_push _ _ p Hf) as (q & -> & _). rewrite bind_ok.
    apply goes_on_ret; [by apply shared_queues|done].
  - pose proof Hm as [Hsrv Hup Hb Hsz _ _]. rewrite Hsrv, Hsz.
    destruct (up_receive (receive_buffer m) (world m) Hup Hb) as (sz & b & w & -> & Hw & Hres). rewrite bind_ok. cbv zeta beta iota.
    destruct Hres as [[Hs Hl]|(p & Hp & Hl & -> & ->)].
    { rewrite decide_False by lia. apply goes_on_ret; [|done]. apply shared_io; [done|congruence|done]. }
    rewrite splice_0 by lia. assert (Hlen : zlen (p ++ drop (length p) (receive_buffer m)) = MT_BUFFER_SIZE)
      by (rewrite zlen_overwrite; lia).
    destruct (broker_packet_handled _ _ Hp Hlen) as (Hpos & r & Hd & Hr). rewrite decide_True by lia.
    cbn [receive_buffer with_io]. rewrite Hd, bind_ok. apply goes_on_ret; [by apply shared_io|done].
  - destruct (looked_up (type r)) eqn:Hlook; [|by apply goes_on_ret].
    destruct (sh_acks _ Hm) as (ws & Hq & Hws).
    assert (∃ id, (if decide (type r = PINGRESP) then Ok 0 else
      match body_packet_id (body r) with Some id => Ok id | None => Fault Uninitialised end) = Ok id) as [id ->].
    { case_decide; [by eexists|]. unfold session_ok, handled in Hpc. destruct (type r), (body r); try done; by eexists. }
    rewrite bind_ok. destruct (search_entries subs (ack_queue m) ws (type r) id Hq Hws) as (f & o & q & ws' & -> & Hq' & Hws' & Hf).
    { unfold defined_pc in Hdef. cbn [handles_suback] in Hdef. destruct (type r); auto. }
    rewrite bind_ok. apply goes_on_ret; [by eapply shared_acks|]. split; [done|auto].
  - by apply act_ok.
  - destruct (shared_enqueue m w Hm Hpc) as (m' & -> & Hm'). rewrite bind_ok. by apply goes_on_ret.
  - by apply goes_on_ret.
Qed.

(** At a SUBACK, a step that is defined keeps the invariant too. *)
Lemma suback_step_keeps (m : client) pc pc' m' :
  handles_suback pc = true → subs = true → shared_ok m → session_ok pc → session_step pc m = Ok (pc', m') →
  shared_ok m' ∧ session_ok pc'.
Proof using Type.
  intros Hs Hsubs Hm Hpc H. destruct pc as [|p|p| |r|r found w|w|]; try done;
    cbn [handles_suback] in Hs; apply bool_decide_eq_true in Hs; destruct r as [t bd]; cbn [type] in Hs; subst t;
    unfold session_ok, handled in Hpc; cbn [type body] in Hpc.
  - destruct bd as [| | | | | | | |id results| | |]; try done; cbn [session_step type body looked_up] in H.
    rewrite decide_False in H by done. cbn [body_packet_id] in H. rewrite bind_ok in H.
    apply bind_ok_inv in H as ([[f o] q] & Hse & [= <- <-]). destruct (sh_acks _ Hm) as (ws & Hq & Hws).
    destruct (search_suback_entries subs _ ws id f o q Hq Hws Hse) as (ws' & Hq' & Hws' & Hf).
    split; [by eapply shared_acks|]. split; [done|]. intros Hft. destruct (Hf Hft) as [->|Hw]; [by left|by right].
  - destruct Hpc as [Hr Hw]. destruct bd as [| | | | | | | |id results| | |]; try done. cbn [session_step] in H. unfold act in H.
    cbn [type body] in H. unfold handle_suback in H.
    destruct found; [|by injection H as <- <-]. destruct w as [w|]; [|done].
    destruct (w_data w) as [| | | |cb j| |]; try done; destruct cb; injection H as <- <-; (split; [|done]); try done.
    by apply shared_call.
Qed.

Lemma session_step_keeps rs (m : client) pc others pc' m' :
  owned count rs m (session_claims pc) others → Forall call_fits rs → shared_ok m → session_ok pc →
  session_step pc m = Ok (pc', m') → shared_ok m' ∧ session_ok pc'.
Proof using Type*.
  intros Ho Hrs Hm Hpc H. destruct (decide (handles_suback pc = true ∧ subs = true)) as [[Hs Hsubs]|Hd].
  - by eapply suback_step_keeps.
  - destruct (session_step_ok rs m pc others) as (pc1 & m1 & H' & ? & ?); [done..| |].
    { intros Hs. destruct subs; [|done]. by exfalso; apply Hd. }
    rewrite H in H'. by injection H' as <- <-.
Qed.

(** ** The calls *)

Lemma waiting_entry_ok r (m : client) w : call_allowed subs r → waiting_for r m = Some w → entry_ok subs w.
Proof using Type.
  intros [Hr Hsubs] Hw. destruct r as [cb ctx|topic msg qos retain cb ctx| |]; cbn [waiting_for] in Hw.
  - by injection Hw as <-.
  - destruct Hr as [_ Hcb]. case_decide; [injection Hw as <-; apply Hcb; auto|].
    case_decide; [injection Hw as <-; apply Hcb; auto|done].
  - injection Hw as <-. by apply Hsubs.
  - injection Hw as <-. by apply Hsubs.
Qed.

(** A step of a call that ends well. *)
Definition call_goes_on (r : request) (o : outcome (api_pc * client)) : Prop :=
  ∃ pc m, o = Ok (pc, m) ∧ shared_ok m ∧ caller_ok (r, pc).

Lemma call_goes_on_ret r pc (m : client) :
  shared_ok m → caller_ok (r, pc) → call_goes_on r (Ok (pc, m)).
Proof using Type. intros ??. by exists pc, m. Qed.

Lemma try_slot_ok rs r (m : client) others :
  owned count rs m [] others → shared_ok m → call_allowed subs r → call_goes_on r (try_slot m).
Proof using Type.
  intros (free & send & Hf & _) Hm Hr. unfold try_slot. destruct (holds_pop _ _ Hf) as (q & -> & _). rewrite bind_ok.
  apply call_goes_on_ret; [by apply shared_queues|]. by destruct free.
Qed.

Lemma api_step_ok rs r (m : client) pc others :
  owned count rs m (api_claims (r, pc)) others → shared_ok m → caller_ok (r, pc) → call_goes_on r (api_step r pc m).
Proof using Type.
  intros Ho Hm [Hr Hw]. cbn [fst snd] in *.
  destruct pc as [| |s|s len|s len id|s len|s len w|s len|s len id|s len|s|st]; cbn [api_step api_claims fst snd] in *.
  - destruct (guard r m); [by apply call_goes_on_ret|by eapply try_slot_ok].
  - by eapply try_slot_ok.
  - destruct (owned_slot _ _ _ _ _ _ Ho) as (sl & Hs & _). unfold fill. rewrite Hs, bind_ok.
    destruct (packet_fits r (publish_packet_id m) (subscribe_packet_id m) (buffer sl) (proj1 Hr)) as (len & b & -> & Hb);
      [by eapply shared_slot|]. rewrite !bind_ok. apply call_goes_on_ret; [by apply shared_write|done].
  - by apply call_goes_on_ret.
  - apply call_goes_on_ret; [|done]. destruct id; [by apply shared_ids|done].
  - apply call_goes_on_ret; [done|]. split; [done|]. cbn [snd]. destruct (waiting_for r m) eqn:E; [|done].
    by eapply waiting_entry_ok.
  - destruct w as [w|]; [|by apply call_goes_on_ret]. destruct (shared_enqueue m w Hm Hw) as (m' & -> & Hm').
    rewrite bind_ok. by apply call_goes_on_ret.
  - by apply call_goes_on_ret.
  - apply call_goes_on_ret; [|done]. destruct id; [by apply shared_ids|done].
  - destruct (owned_slot _ _ _ _ _ _ Ho) as (sl & Hs & _). unfold set_slot_length. rewrite Hs, !bind_ok.
    apply call_goes_on_ret; [|done]. apply shared_write; [done|by eapply shared_slot].
  - destruct Ho as (free & send & _ & Hs & _). unfold enqueue_for_send. destruct (holds_push _ _ s Hs) as (q & -> & _).
    rewrite !bind_ok. apply call_goes_on_ret; [by apply shared_queues|done].
  - by apply call_goes_on_ret.
Qed.

(** ** The system *)

(** The claims of one call, first. *)
Lemma owned_call (s : @system W) i r p :
  slots_owned count s → callers s !! i = Some (r, p) →
  ∃ others, owned count (callers s).*1 (shared s) (api_claims (r, p)) others.
Proof using Type.
  intros Ho Hi. destruct (callers_update (callers s) i (r, p) (r, p) Hi) as (L & Hp & _).
  exists (session_claims (session s) ++ L). eapply owned_perm; [|exact Ho]. rewrite Hp.
  rewrite !app_assoc. f_equiv. apply Permutation_app_comm.
Qed.

Lemma callers_fit (cs : list (request * api_pc)) : Forall caller_ok cs → Forall call_fits cs.*1.
Proof using Type. intros H. apply Forall_fmap. eapply Forall_impl; [exact H|]. by intros c [[? _] _]. Qed.

Lemma callers_allowed (cs : list (request * api_pc)) : Forall caller_ok cs → Forall (call_allowed subs) cs.*1.
Proof using Type. intros H. apply Forall_fmap. eapply Forall_impl; [exact H|]. by intros c [? _]. Qed.

Lemma system_session (s : @system W) :
  system_ok s → defined_pc (session s) → goes_on (session_step (session s) (shared s)).
Proof using Type*.
  intros (Ho & Hm & Hpc & Hcs). eapply session_step_ok; [exact Ho|by apply callers_fit|done|done].
Qed.

Lemma system_call (s : @system W) i r p :
  system_ok s → callers s !! i = Some (r, p) → call_goes_on r (api_step r p (shared s)).
Proof using Type.
  intros (Ho & Hm & Hpc & Hcs) Hi. destruct (owned_call s i r p Ho Hi) as [others Ho'].
  eapply api_step_ok; [exact Ho'|done|]. by apply (Forall_lookup_1 caller_ok _ _ _ Hcs Hi).
Qed.

Lemma step_system_ok (s s' : @system W) :
  system_ok s → step s s' → Forall (call_allowed subs) (callers s').*1 → system_ok s'.
Proof using Type*.
  intros Hs Hst Hfit. pose proof Hs as (Ho & Hm & Hpc & Hcs). split; [by eapply step_owned|].
  destruct Hst as [m pc cs pc' m' _ _ H|m pc cs i r p p' m' Hi _ _ H|m pc cs r|m pc cs _];
    cbn [shared session callers] in *.
  - destruct (session_step_keeps _ m pc _ pc' m' Ho (callers_fit _ Hcs) Hm Hpc H). by split_and!.
  - destruct (system_call _ i r p Hs Hi) as (pc1 & m1 & H' & ? & Hc). cbn [shared] in H'. rewrite H in H'.
    injection H' as <- <-. split_and!; [done|done|]. by apply Forall_insert.
  - split_and!; [done|done|]. rewrite fmap_app, Forall_app in Hfit. destruct Hfit as [_ Hfit].
    apply Forall_app. split; [done|]. constructor; [|constructor]. split; [|done]. by inversion Hfit.
  - split_and!; [by apply shared_signal|done|done].
Qed.

(** Calls only arrive. *)
Lemma step_calls (P : request → Prop) (s s' : @system W) :
  step s s' → Forall P (callers s').*1 → Forall P (callers s).*1.
Proof using Type.
  intros [m pc cs pc' m' _ _ H|m pc cs i r p p' m' Hi _ _ H|m pc cs r|m pc cs _]; cbn [callers]; try done.
  - by rewrite (requests_update _ _ _ _ _ Hi).
  - rewrite fmap_app, Forall_app. by intros [? _].
Qed.

Lemma steps_calls P (s s' : @system W) : steps s s' → Forall P (callers s').*1 → Forall P (callers s).*1.
Proof using Type. induction 1 as [|s s1 s' H _ IH]; [done|]. intros Hf. by eapply step_calls, IH. Qed.

Lemma steps_system_ok (s s' : @system W) :
  system_ok s → steps s s' → Forall (call_allowed subs) (callers s').*1 → system_ok s'.
Proof using Type*.
  intros Hs Hst. induction Hst as [|s s1 s' H Hr IH]; [done|]. intros Hf. apply IH; [|done].
  eapply step_system_ok; [done..|]. by eapply steps_calls.
Qed.

Lemma start_system_ok m junk m0 :
  0 ≤ count → up (world m) → zlen junk = MT_BUFFER_SIZE →
  start_session_thread m count MT_BUFFER_SIZE junk srv = Ok m0 → system_ok (mk_system m0 Top []).
Proof using Type.
  intros Hc Hup Hj Hst. destruct (start_owned count m MT_BUFFER_SIZE junk srv Hc) as (m1 & Hst' & Ho).
  rewrite Hst in Hst'. injection Hst' as <-. split_and!; [done| |done|done].
  unfold start_session_thread in Hst. apply bind_ok_inv in Hst as (q & _ & [= <-]). split; try done.
  - apply Forall_replicate. done.
  - exists []. split; [|done]. exists []. split; [apply init_queue_rep|done].
Qed.

(** ** The end of the session thread *)

(** The steps it can still make once it was told to end. *)
Definition session_rank (pc : session_pc) : nat :=
  match pc with
  | Done => 0 | Top => 1 | Rewait _ => 2 | Found _ _ _ => 3 | Handling _ => 4 | Receiving => 5
  | Releasing _ => 6 | Sending _ => 7
  end.

Lemma session_step_rank pc (m : client) pc' m' :
  session_step pc m = Ok (pc', m') → ready_to_disconnect m = true → pc ≠ Done →
  (session_rank pc' < session_rank pc)%nat ∧ ready_to_disconnect m' = true.
Proof using Type.
  intros H Hr Hd. destruct pc as [|p|p| |r|r found w|w|]; cbn [session_step] in H; try done.
  - rewrite Hr in H. injection H as <- <-. split; [simpl; lia|done].
  - apply bind_ok_inv in H as (sl & _ & H). apply bind_ok_inv in H as ([st w] & _ & [= <- <-]). split; [simpl; lia|done].
  - apply bind_ok_inv in H as (q & _ & [= <- <-]). split; [simpl; lia|done].
  - apply bind_ok_inv in H as ([[sz b] w] & _ & H). case_decide; [|injection H as <- <-; split; [simpl; lia|done]].
    apply bind_ok_inv in H as ([r|] & _ & H); [|done]. injection H as <- <-. split; [simpl; lia|done].
  - destruct (looked_up (type r)); [|injection H as <- <-; split; [simpl; lia|done]].
    apply bind_ok_inv in H as (id & _ & H). apply bind_ok_inv in H as ([[f w] a] & _ & [= <- <-]).
    split; [simpl; lia|done].
  - apply act_steady in H as [[= _ _ _ -> _] [->|[w' ->]]]; (split; [simpl; lia|done]).
  - apply bind_ok_inv in H as (m1 & Hm & [= <- <-]). unfold enqueue_waiting in Hm.
    apply bind_ok_inv in Hm as (a & _ & [= <-]). split; [simpl; lia|done].
Qed.

(** What only a connect and a disconnect set. *)
Definition flags (m : client) : bool * bool := (ready_to_disconnect m, connected m).

Lemma api_step_flags r pc (m : client) pc' m' :
  api_step r pc m = Ok (pc', m') → flags m' = flags m.
Proof using Type.
  assert (Htry : try_slot m = Ok (pc', m') → flags m' = flags m).
  { unfold try_slot. intros H. by apply bind_ok_inv in H as ([o f] & _ & [= _ <-]). }
  intros H. destruct pc as [| |s|s len|s len id|s len|s len w|s len|s len id|s len|s|st]; cbn [api_step] in H.
  - destruct (guard r m); [by injection H as _ <-|by apply Htry].
  - by apply Htry.
  - apply bind_ok_inv in H as ([len m1] & Hf & [= _ <-]). unfold fill in Hf.
    apply bind_ok_inv in Hf as (s0 & _ & Hf). by apply bind_ok_inv in Hf as ([n b] & _ & [= _ <-]).
  - by injection H as _ <-.
  - injection H as _ <-. by destruct id.
  - by injection H as _ <-.
  - apply bind_ok_inv in H as (m1 & Hm & [= _ <-]). destruct w; [|by injection Hm as <-].
    unfold enqueue_waiting in Hm. by apply bind_ok_inv in Hm as (a & _ & [= <-]).
  - by injection H as _ <-.
  - injection H as _ <-. by destruct id.
  - apply bind_ok_inv in H as (m1 & Hm & [= _ <-]). unfold set_slot_length in Hm.
    by apply bind_ok_inv in Hm as (b & _ & [= <-]).
  - apply bind_ok_inv in H as (m1 & Hm & [= _ <-]). unfold enqueue_for_send in Hm.
    by apply bind_ok_inv in Hm as (b & _ & [= <-]).
  - by injection H as _ <-.
Qed.

Lemma session_step_flags pc (m : client) pc' m' : session_step pc m = Ok (pc', m') → flags m' = flags m.
Proof using Type.
  intros H. destruct pc as [|p|p| |r|r found w|w|]; cbn [session_step] in H.
  - destruct (ready_to_disconnect m); [by injection H as _ <-|]. by apply bind_ok_inv in H as ([o q] & _ & [= _ <-]).
  - apply bind_ok_inv in H as (sl & _ & H). by apply bind_ok_inv in H as ([st w] & _ & [= _ <-]).
  - by apply bind_ok_inv in H as (q & _ & [= _ <-]).
  - apply bind_ok_inv in H as ([[sz b] w] & _ & H). case_decide; [|by injection H as _ <-].
    apply bind_ok_inv in H as ([r|] & _ & H); [|done]. by injection H as _ <-.
  - destruct (looked_up (type r)); [|by injection H as _ <-].
    apply bind_ok_inv in H as (id & _ & H). by apply bind_ok_inv in H as ([[f w] a] & _ & [= _ <-]).
  - apply act_steady in H as [[= _ _ _ Hr Hc] _]. unfold flags. by rewrite Hr, Hc.
  - apply bind_ok_inv in H as (m1 & Hm & [= _ <-]). unfold enqueue_waiting in Hm.
    by apply bind_ok_inv in Hm as (a & _ & [= <-]).
  - by injection H as _ <-.
Qed.

(** A run in which the session thread makes [n] steps. *)
Inductive run : nat → @system W → @system W → Prop :=
  | run_nil s : run 0 s s
  | run_session n m pc cs pc' m' s :
      pc ≠ Done → (session_locks pc = true → locked cs = false) → session_step pc m = Ok (pc', m') →
      run n (mk_system m' pc' cs) s → run (S n) (mk_system m pc cs) s
  | run_others n s s' s'' : step s s' → session s' = session s → run n s' s'' → run n s s''.

(** Told to end: the flag stays. *)
Definition ending (s : @system W) : Prop := ready_to_disconnect (shared s) = true.

Lemma step_ending (s s' : @system W) : ending s → step s s' → ending s'.
Proof using Type.
  unfold ending. intros He Hst. destruct Hst as [m pc cs pc' m' Hd _ H|m pc cs i r p p' m' _ _ _ H|m pc cs r|m pc cs _];
    cbn [shared] in *; try done.
  - exact (proj2 (session_step_rank _ _ _ _ H He Hd)).
  - apply api_step_flags in H. by injection H as -> _.
Qed.

Lemma run_rank n (s s' : @system W) : run n s s' → ending s → (n ≤ session_rank (session s))%nat.
Proof using Type.
  induction 1 as [s|n m pc cs pc' m' s Hd Hl H _ IH|n s s' s'' H Hpc _ IH]; intros He; [lia| |].
  - destruct (session_step_rank _ _ _ _ H He Hd) as [Hr He']. cbn [session]. specialize (IH He'). cbn [session] in IH. lia.
  - rewrite <- Hpc. apply IH. by eapply step_ending.
Qed.

(** Alone, it reaches its end, or the step that is not defined. *)
Lemma session_reaches_end k : ∀ s : @system W,
  (session_rank (session s) ≤ k)%nat → system_ok s → ending s → locked (callers s) = false →
  ∃ s', steps s s' ∧ callers s' = callers s ∧
    (session s' = Done ∨
     handles_suback (session s') = true ∧ subs = true ∧ ∃ e, session_step (session s') (shared s') = Fault e).
Proof using Type*.
  induction k as [|k IH]; intros s Hk Hs He Hl.
  { exists s. split; [apply rtc_refl|]. split; [done|]. left. destruct (session s); simpl in Hk; try done; lia. }
  destruct (decide (session_rank (session s) = 0%nat)) as [Hz|Hz].
  { apply IH; try done. lia. }
  assert (Hd : session s ≠ Done) by (intros Hd; by rewrite Hd in Hz).
  destruct (session_step (session s) (shared s)) as [[pc m]|e] eqn:H.
  2:{ exists s. split; [apply rtc_refl|]. split; [done|]. right.
      destruct (handles_suback (session s)) eqn:Hh, subs eqn:Hsubs; try (by split_and!; [..|exists e]); exfalso;
        (destruct (system_session s Hs) as (pc & m & H' & _); [by rewrite ?Hsubs; intros ?; congruence|congruence]). }
  destruct s as [m0 pc0 cs]. cbn [shared session callers] in *.
  destruct (session_step_rank _ _ _ _ H He Hd) as [Hr He'].
  assert (Hst : step (mk_system m0 pc0 cs) (mk_system m pc cs)) by by apply step_session.
  destruct (IH (mk_system m pc cs)) as (s' & Hss & Hcs & Hdone); try done.
  - cbn [session]. lia.
  - eapply step_system_ok; [exact Hs|exact Hst|]. destruct Hs as (_ & _ & _ & Hcs). by apply callers_allowed.
  - exists s'. split; [by eapply rtc_l|done].
Qed.

End safe.

(** * The theorems *)

Section theorems.
Context {W : Type} (srv : server_t W) `{!Broker srv} (count : Z).
Local Abbreviation client := (smqtt_mt_client W).

Lemma reachable_ok m junk m0 (s : @system W) :
  0 ≤ count → up (world m) → zlen junk = MT_BUFFER_SIZE →
  start_session_thread m count MT_BUFFER_SIZE junk srv = Ok m0 →
  steps (mk_system m0 Top []) s → Forall call_fits (callers s).*1 →
  system_ok srv count (existsb awaits_suback (callers s).*1) s.
Proof using Type*.
  intros Hc Hup Hj Hst Hs Hf. eapply steps_system_ok; [|exact Hs|by apply calls_allowed]. by eapply start_system_ok.
Qed.

(** C2. The client is safe, but for one step.  After [start_session_thread], on a
    connection that stays up to a broker that sends packets of the protocol, with
    any calls (ping, publish, subscribe, unsubscribe) whose packets fit and whose
    callbacks are not null where they are called without a check: whatever the
    interleaving and whenever the packets come, the next step of every call is
    defined, and so is the session thread's, unless it handles a SUBACK and a
    subscribe or an unsubscribe was called.  Without those two calls no thread is
    ever at a point where it faults. *)
Theorem no_interleaving_faults m junk m0 (s : @system W) :
  0 ≤ count → up (world m) → zlen junk = MT_BUFFER_SIZE →
  start_session_thread m count MT_BUFFER_SIZE junk srv = Ok m0 →
  steps (mk_system m0 Top []) s → Forall call_fits (callers s).*1 →
  ((∃ pc m', session_step (session s) (shared s) = Ok (pc, m')) ∨
   (handles_suback (session s) = true ∧ existsb awaits_suback (callers s).*1 = true)) ∧
  ∀ i r p, callers s !! i = Some (r, p) → ∃ p' m', api_step r p (shared s) = Ok (p', m').
Proof using Type*.
  intros Hc Hup Hj Hst Hs Hf. pose proof (reachable_ok m junk m0 s Hc Hup Hj Hst Hs Hf) as Hok. split.
  - destruct (handles_suback (session s)) eqn:Hh, (existsb awaits_suback (callers s).*1) eqn:Hsubs; [by right|left..];
      (destruct (system_session srv count _ s Hok) as (pc & m1 & H & _); [|by exists pc, m1]); unfold defined_pc; congruence.
  - intros i r p Hi. destruct (system_call srv count _ s i r p Hok Hi) as (p' & m1 & H & _). by exists p', m1.
Qed.

(** C18. The session thread ends.  Once [signal_disconnect] has set the flag, the
    thread makes at most seven more steps on any schedule.  And on a connection
    that stays up to a conforming broker, with calls that fit, where no call holds
    the mutex: it can go on alone to its end, or, if a subscribe or an unsubscribe
    was called, to a SUBACK on which it faults. *)
Theorem session_thread_ends m junk m0 (s : @system W) :
  0 ≤ count → up (world m) → zlen junk = MT_BUFFER_SIZE →
  start_session_thread m count MT_BUFFER_SIZE junk srv = Ok m0 →
  steps (mk_system m0 Top []) s → Forall call_fits (callers s).*1 →
  ready_to_disconnect (shared s) = true →
  (∀ n s', run n s s' → (n ≤ 7)%nat) ∧
  (locked (callers s) = false →
   ∃ s', steps s s' ∧ callers s' = callers s ∧
     (session s' = Done ∨
      handles_suback (session s') = true ∧ existsb awaits_suback (callers s).*1 = true ∧
      ∃ e, session_step (session s') (shared s') = Fault e)).
Proof using Type*.
  intros Hc Hup Hj Hst Hs Hf He. split.
  - intros n s' Hr. apply run_rank in Hr; [|done]. transitivity (session_rank (session s)); [done|].
    destruct (session s); simpl; lia.
  - intros Hl. eapply session_reaches_end; [reflexivity| |done|done]. by eapply reachable_ok.
Qed.

End theorems.

(** * A broker *)

(** It takes everything and sends the packets of a script. *)
#[export] Program Instance scripted_broker : Broker scripted :=
  {| up w := Forall (λ p, broker_packet p ∧ zlen p ≤ MT_BUFFER_SIZE) w |}.
Next Obligation. intros buffer length w Hw _. by exists SMQTT_NET_OK, w. Qed.
Next Obligation.
  intros buffer w Hw Hb. destruct w as [|p w].
  - exists 0, buffer, []. split; [done|]. split; [done|]. left. done.
  - apply Forall_cons in Hw as [[Hp Hl] Hw]. exists (zlen p), (splice buffer 0 p), w. split; [done|]. split; [done|].
    right. by exists p.
Qed.

(** A connected client of it, and a run of a ping and a publish at QoS 2, with
    the messages the broker sends in between. *)
Definition safe_script : list (list Z) :=
  [mqtt_publish [97] 3 1 false [104; 105]; mqtt_empty PINGRESP; mqtt_ack PUBREC 0 1; mqtt_ack PUBCOMP 0 1].

Definition sample_online : smqtt_mt_client (list (list Z)) :=
  mk_mt true 1 1 0 0 [] [] false empty_queue empty_queue empty_queue (Some 5) 0 scripted safe_script [].

Definition sample_junk : list Z := replicate (Z.to_nat MT_BUFFER_SIZE) 170.

Definition safe_start : smqtt_mt_client (list (list Z)) :=
  match start_session_thread sample_online 10 MT_BUFFER_SIZE sample_junk scripted with
  | Ok m => m
  | Fault _ => sample_online
  end.

Definition safe_schedule (n : nat) : list choice :=
  [New_call (Mt_ping (Some 9) 0); New_call (Mt_publish [98] (Some [99]) 2 true (Some 8) 1)] ++
  repeat (Run_call 0%nat) 5 ++ repeat (Run_call 1%nat) 10 ++ repeat (Run_call 0%nat) 5 ++ repeat Run_session n.

Definition safe_after (cs : list choice) : @system (list (list Z)) :=
  default (mk_system sample_online Top []) (run_schedule cs (mk_system safe_start Top [])).

(** The disconnect comes while a PUBREC is handled. *)
Definition safe_mid : @system (list (list Z)) := safe_after (safe_schedule 15 ++ [Disconnect_signal]).

Lemma safe_script_up : Forall (λ p, broker_packet p ∧ zlen p ≤ MT_BUFFER_SIZE) safe_script.
Proof.
  repeat constructor; try (by vm_compute); lia.
Qed.

(** Without the disconnect: the message arrives, both calls are completed. *)
Example safe_calls :
  calls (shared (safe_after (safe_schedule 23))) =
    [Delivered 5 [97; 0] [104; 105; 0] 1 false 0; Completed 9 0; Completed 8 1].
Proof. vm_compute. reflexivity. Qed.

Lemma safe_mid_reached : steps (mk_system safe_start Top []) safe_mid.
Proof. apply (run_schedule_steps (safe_schedule 15 ++ [Disconnect_signal])). vm_compute. reflexivity. Qed.

Lemma safe_mid_fits : Forall call_fits (callers safe_mid).*1.
Proof.
  assert ((callers safe_mid).*1 = [Mt_ping (Some 9) 0; Mt_publish [98] (Some [99]) 2 true (Some 8) 1]) as ->
    by (vm_compute; reflexivity).
  constructor; [by eexists|]. constructor; [|constructor]. split; [by vm_compute|]. intros _. by eexists.
Qed.

(** The other case of the theorem: after a publish the counters differ, the entry of
    a subscription waits for 2 and its SUBACK carries 1. *)
Definition subscribed_online : smqtt_mt_client (list (list Z)) :=
  mk_mt true 2 1 0 0 [] [] false empty_queue empty_queue empty_queue (Some 5) 0 scripted
    [mqtt_suback 1 [mk_sub_result true 1]] [].

Example subscribe_faults :
  match start_session_thread subscribed_online 10 MT_BUFFER_SIZE sample_junk scripted with
  | Ok m =>
      match run_schedule (New_call (Mt_subscribe 1 [[97]] [1] (Some 3) 4) :: repeat (Run_call 0%nat) 10 ++ repeat Run_session 5)
              (mk_system m Top []) with
      | Some s => handles_suback (session s) = true ∧ session_step (session s) (shared s) = Fault Uninitialised
      | None => False
      end
  | Fault _ => False
  end.
Proof. vm_compute. split; reflexivity. Qed.

Lemma no_interleaving_faults_witness :
  ((∃ pc m', session_step (session safe_mid) (shared safe_mid) = Ok (pc, m')) ∨
   (handles_suback (session safe_mid) = true ∧ existsb awaits_suback (callers safe_mid).*1 = true)) ∧
  ∀ i r p, callers safe_mid !! i = Some (r, p) → ∃ p' m', api_step r p (shared safe_mid) = Ok (p', m').
Proof.
  apply (no_interleaving_faults scripted 10 sample_online sample_junk safe_start).
  - lia.
  - exact safe_script_up.
  - by vm_compute.
  - vm_compute. reflexivity.
  - exact safe_mid_reached.
  - exact safe_mid_fits.
Defined.

Lemma session_thread_ends_witness :
  (∀ n s', run n safe_mid s' → (n ≤ 7)%nat) ∧
  (locked (callers safe_mid) = false →
   ∃ s', steps safe_mid s' ∧ callers s' = callers safe_mid ∧
     (session s' = Done ∨
      handles_suback (session s') = true ∧ existsb awaits_suback (callers safe_mid).*1 = true ∧
      ∃ e, session_step (session s') (shared s') = Fault e)).
Proof.
  apply (session_thread_ends scripted 10 sample_online sample_junk safe_start).
  - lia.
  - exact safe_script_up.
  - by vm_compute.
  - vm_compute. reflexivity.
  - exact safe_mid_reached.
  - exact safe_mid_fits.
  - vm_compute. reflexivity.
Defined.
