(* ===== verification/ClientMtOrder.v ===== *)
(** ClientMtOrder: the send path of the multi-threaded client refines a queue of
    packets.  Whatever the interleaving, the packets of the calls leave in the
    order in which they were queued, each once and unchanged; and a call that has
    its slot returns after a bounded number of its own steps. *)

From stdpp Require Import gmap.
From S2P Require Import Prelude Protocol Size Wire Serialize Deserialize Codec Server Queue ClientProtocol Connection ClientMt ClientMtSession ClientMtSafe.

#[local] Open Scope Z_scope.

(** * The abstract queue

    A packet is what [server_send] is called with: the bytes and their number.
    [outgoing] packets are queued by calls and taken by the session thread. *)
Definition packet_t : Type := list Z * Z.

Inductive event := Queued (p : packet_t) | Sent (p : packet_t).

(** The specification: first in, first out. *)
Inductive fifo_step : list packet_t → option event → list packet_t → Prop :=
  | fifo_stutter ps : fifo_step ps None ps
  | fifo_queued ps p : fifo_step ps (Some (Queued p)) (ps ++ [p])
  | fifo_sent ps p : fifo_step (p :: ps) (Some (Sent p)) ps.

Definition queued_packets (l : list event) : list packet_t :=
  omap (λ e, match e with Queued p => Some p | Sent _ => None end) l.
Definition sent_packets (l : list event) : list packet_t :=
  omap (λ e, match e with Sent p => Some p | Queued _ => None end) l.

Section order.
Context {W : Type} (count : Z).
Local Abbreviation client := (smqtt_mt_client W).

(** * The events of a step *)

Definition slot_packet (m : client) (position : Z) : option packet_t :=
  match get_slot m position with Ok s => Some (buffer s, message_length s) | Fault _ => None end.

(** The session thread sends the slot it took; a call queues its slot. *)
Definition session_event (pc : session_pc) (m : client) : option event :=
  match pc with Sending position => Sent <$> slot_packet m position | _ => None end.
Definition call_event (pc : api_pc) (m : client) : option event :=
  match pc with Queueing position => Queued <$> slot_packet m position | _ => None end.

(** A step and its event. *)
Inductive labelled : @system W → option event → @system W → Prop :=
  | labelled_session m pc cs pc' m' :
      pc ≠ Done → (session_locks pc = true → locked cs = false) → session_step pc m = Ok (pc', m') →
      labelled (mk_system m pc cs) (session_event pc m) (mk_system m' pc' cs)
  | labelled_call m pc cs i r p p' m' :
      cs !! i = Some (r, p) → (∀ st, p ≠ Returned st) → (api_locks r p m = true → locked cs = false) →
      api_step r p m = Ok (p', m') →
      labelled (mk_system m pc cs) (call_event p m) (mk_system m' pc (<[i := (r, p')]> cs))
  | labelled_arrival m pc cs r :
      labelled (mk_system m pc cs) None (mk_system m pc (cs ++ [(r, Start)]))
  | labelled_disconnect m pc cs :
      locked cs = false → labelled (mk_system m pc cs) None (mk_system (signal_disconnect m) pc cs).

(** Runs and their events, in order. *)
Inductive traced : @system W → list event → @system W → Prop :=
  | traced_nil s : traced s [] s
  | traced_step s e s' l s'' : labelled s e s' → traced s' l s'' → traced s (option_list e ++ l) s''.

(** Every step has its event. *)
Lemma labelled_step s e s' : labelled s e s' → step s s'.
Proof using Type. intros []; [by apply step_session|by eapply step_call|apply step_arrival|by apply step_disconnect]. Qed.

Lemma step_labelled s s' : step s s' → ∃ e, labelled s e s'.
Proof using Type.
  intros []; eexists; [by apply labelled_session|by eapply labelled_call|apply labelled_arrival|by apply labelled_disconnect].
Qed.

(** The event of a choice, and of a schedule. *)
Definition choice_event (c : choice) (s : @system W) : option event :=
  match c with
  | Run_session => session_event (session s) (shared s)
  | Run_call i => match callers s !! i with Some (_, p) => call_event p (shared s) | None => None end
  | New_call _ | Disconnect_signal => None
  end.

Fixpoint schedule_events (cs : list choice) (s : @system W) : list event :=
  match cs with
  | [] => []
  | c :: cs => option_list (choice_event c s) ++ match choose c s with Some s' => schedule_events cs s' | None => [] end
  end.

Lemma choose_labelled c (s s' : @system W) : choose c s = Some s' → labelled s (choice_event c s) s'.
Proof using Type.
  destruct c as [|i|r|]; cbn [choice_event].
  - intros (Hd & Hl & pc & m & H & ->)%choose_session_inv. destruct s. by apply labelled_session.
  - intros (r & p & p' & m & Hi & Hp & Hl & H & ->)%choose_call_inv. rewrite Hi. destruct s. by eapply labelled_call.
  - intros [= <-]. destruct s. apply labelled_arrival.
  - cbn [choose]. destruct (locked (callers s)) eqn:Hl; [done|]. intros [= <-]. destruct s. by apply labelled_disconnect.
Qed.

Lemma run_schedule_traced cs : ∀ s s' : @system W, run_schedule cs s = Some s' → traced s (schedule_events cs s) s'.
Proof using Type.
  induction cs as [|c cs IH]; intros s s'; cbn [run_schedule schedule_events]; [intros [= <-]; apply traced_nil|].
  intros (s1 & Hc & Hr)%bind_Some. rewrite Hc. econstructor; [by apply choose_labelled|by apply IH].
Qed.

(** * The abstraction

    The slot the session thread is about to send, then the send queue. *)
Definition sending_slots (pc : session_pc) : list Z := match pc with Sending p => [p] | _ => [] end.

Definition outgoing (s : @system W) (ps : list packet_t) : Prop :=
  ∃ send, holds (send_queue (shared s)) send ∧
    Forall2 (λ p pk, slot_packet (shared s) p = Some pk) (sending_slots (session s) ++ send) ps.

Lemma holds_unique {P} (q : linked P) xs ys : holds q xs → holds q ys → xs = ys.
Proof using Type.
  revert q ys. induction xs as [|x xs IH]; intros q ys Hx Hy;
    destruct (holds_pop _ _ Hx) as (q1 & Hp & Hx'), (holds_pop _ _ Hy) as (q2 & Hp' & Hy');
    rewrite Hp in Hp'; destruct ys as [|y ys]; try done.
  injection Hp' as <- <-. f_equal. by eapply IH.
Qed.

(** A call's slot is not on its way out. *)
Lemma call_slot_apart (s : @system W) i r pc p st send :
  slots_owned count s → callers s !! i = Some (r, pc) → api_claims (r, pc) = [(p, st)] →
  holds (send_queue (shared s)) send → p ∉ sending_slots (session s) ++ send.
Proof using Type.
  intros (free & send' & _ & Hs & Hperm & _) Hi Hc Hsend. rewrite (holds_unique _ _ _ Hs Hsend) in Hperm. clear Hs send'.
  destruct (callers_update _ i _ (r, pc) Hi) as (L & HL & _). rewrite Hc in HL.
  assert (Hnd : NoDup (all_claims free send (session_claims (session s)) (concat (api_claims <$> callers s))).*1)
    by (rewrite Hperm; apply NoDup_seqZ).
  unfold all_claims in Hnd. rewrite HL in Hnd. rewrite !fmap_app, <- !list_fmap_compose in Hnd.
  rewrite !NoDup_app in Hnd. destruct Hnd as (_ & _ & _ & Hsd & _ & Hcl & _). cbn [fmap list_fmap fst] in *.
  intros [Hp|Hp]%elem_of_app.
  - apply (Hcl p); [|apply elem_of_app; left; by left]. destruct (session s); try done; by apply not_elem_of_nil in Hp.
  - apply (Hsd p); [by rewrite list_fmap_id|]. apply elem_of_app. right. apply elem_of_app. left. by left.
Qed.

(** ** Steps that leave the send path alone *)

Lemma outgoing_view (m m' : client) pc pc' cs cs' ps :
  send_queue m' = send_queue m → buffer_slots m' = buffer_slots m → sending_slots pc' = sending_slots pc →
  outgoing (mk_system m pc cs) ps → outgoing (mk_system m' pc' cs') ps.
Proof using Type.
  intros Hq Hb Hp (send & Hs & Hf). exists send. cbn [shared session] in *. rewrite Hq, Hp. split; [done|].
  eapply Forall2_impl; [exact Hf|]. intros p pk. unfold slot_packet, get_slot. by rewrite Hb.
Qed.

Lemma view_fields (m m' : client) :
  slot_view m' = slot_view m → send_queue m' = send_queue m ∧ buffer_slots m' = buffer_slots m.
Proof using Type. by intros [= _ -> ->]. Qed.

(** A write to a slot that is not on its way out. *)
Lemma outgoing_write (m : client) pc cs cs' p s ps :
  0 ≤ p < zlen (buffer_slots m) →
  (∀ send, holds (send_queue m) send → p ∉ sending_slots pc ++ send) →
  outgoing (mk_system m pc cs) ps →
  outgoing (mk_system (with_slots m (<[Z.to_nat p := s]> (buffer_slots m))) pc cs') ps.
Proof using Type.
  intros Hp Hap (send & Hs & Hf). exists send. split; [done|]. cbn [shared session] in *. specialize (Hap send Hs).
  revert Hap Hf. generalize (sending_slots pc ++ send). intros l Hap Hf. revert ps Hf.
  induction l as [|q l IH]; intros ps Hf; inversion Hf; subst; constructor.
  - unfold slot_packet in *. rewrite (get_slot_write _ _ _ _ Hp), decide_False; [done|]. intros ->. apply Hap. by left.
  - apply IH; [|done]. intros Hl. apply Hap. by right.
Qed.

(** ** The simulation *)

Lemma session_simulates (m : client) pc cs pc' m' ps :
  slots_owned count (mk_system m pc cs) → outgoing (mk_system m pc cs) ps → session_step pc m = Ok (pc', m') →
  ∃ ps', outgoing (mk_system m' pc' cs) ps' ∧ fifo_step ps (session_event pc m) ps'.
Proof using Type.
  intros Ho Hout H. destruct pc as [|p|p| |resp|resp found w|w|]; cbn [session_step session_event] in *.
  - exists ps. split; [|constructor]. destruct (ready_to_disconnect m); [by injection H as <- <-|].
    destruct Hout as (send & Hs & Hf). cbn [shared session sending_slots app] in *.
    destruct (holds_pop _ _ Hs) as (q & Hp & Hs'). rewrite Hp, bind_ok in H. injection H as <- <-.
    exists (tl send). split; [done|]. by destruct send.
  - destruct Hout as (send & Hs & Hf). cbn [shared session sending_slots app] in *.
    apply Forall2_cons_inv_l in Hf as (pk & ps' & Hpk & Hf & ->). rewrite Hpk. exists ps'. split; [|constructor].
    apply bind_ok_inv in H as (slot & _ & H). apply bind_ok_inv in H as ([st w] & _ & [= <- <-]). by exists send.
  - exists ps. split; [|constructor]. apply bind_ok_inv in H as (f & _ & [= <- <-]). exact Hout.
  - exists ps. split; [|constructor]. apply bind_ok_inv in H as ([[sz b] w] & _ & H). case_decide; [|by injection H as <- <-].
    apply bind_ok_inv in H as ([resp|] & _ & H); [|done]. by injection H as <- <-.
  - exists ps. split; [|constructor]. destruct (looked_up (type resp)); [|by injection H as <- <-].
    apply bind_ok_inv in H as (id & _ & H). by apply bind_ok_inv in H as ([[f w] a] & _ & [= <- <-]).
  - exists ps. split; [|constructor]. apply act_steady in H as [[Hq Hb]%steady_slots%view_fields Hpc].
    eapply outgoing_view; [done|done| |exact Hout]. by destruct Hpc as [-> | [w' ->]].
  - exists ps. split; [|constructor]. apply bind_ok_inv in H as (m1 & Hm & [= <- <-]). unfold enqueue_waiting in Hm.
    by apply bind_ok_inv in Hm as (a & _ & [= <-]).
  - exists ps. split; [|constructor]. by injection H as <- <-.
Qed.

Lemma call_simulates (m : client) pc cs i r p p' m' ps :
  slots_owned count (mk_system m pc cs) → outgoing (mk_system m pc cs) ps →
  cs !! i = Some (r, p) → api_step r p m = Ok (p', m') →
  ∃ ps', outgoing (mk_system m' pc (<[i := (r, p')]> cs)) ps' ∧ fifo_step ps (call_event p m) ps'.
Proof using Type.
  intros Ho Hout Hi H.
  assert (Htry : ∀ q m1, try_slot m = Ok (q, m1) → outgoing (mk_system m1 pc (<[i := (r, q)]> cs)) ps).
  { intros q m1 Ht. unfold try_slot in Ht. apply bind_ok_inv in Ht as ([o f] & _ & [= <- <-]). exact Hout. }
  assert (Hap : ∀ q st, api_claims (r, p) = [(q, st)] →
    0 ≤ q < zlen (buffer_slots m) ∧ ∀ send, holds (send_queue m) send → q ∉ sending_slots pc ++ send).
  { intros q st Hc. split.
    - destruct (owned_call count (mk_system m pc cs) i r p Ho Hi) as [others Hown]. rewrite Hc in Hown.
      apply owned_slot in Hown as (s & Hs & _). by apply get_slot_inv in Hs as [? _].
    - intros send Hs. by apply (call_slot_apart (mk_system m pc cs) i r p q st send). }
  destruct p as [| |s|s len|s len id|s len|s len w|s len|s len id|s len|s|st]; cbn [api_step call_event] in *;
    try (exists ps; split; [|constructor]).
  - destruct (guard r m); [by injection H as <- <-|by apply Htry].
  - by apply Htry.
  - destruct (Hap s _ eq_refl) as [Hb Hs]. apply bind_ok_inv in H as ([len m1] & Hfill & [= <- <-]). unfold fill in Hfill.
    apply bind_ok_inv in Hfill as (s0 & _ & Hf). apply bind_ok_inv in Hf as ([n b] & _ & [= _ <-]). by eapply outgoing_write.
  - by injection H as <- <-.
  - injection H as <- <-. by destruct id.
  - by injection H as <- <-.
  - apply bind_ok_inv in H as (m1 & Hm & [= <- <-]). destruct w as [w|]; [|by injection Hm as <-].
    unfold enqueue_waiting in Hm. by apply bind_ok_inv in Hm as (a & _ & [= <-]).
  - by injection H as <- <-.
  - injection H as <- <-. by destruct id.
  - destruct (Hap s _ eq_refl) as [Hb Hs]. apply bind_ok_inv in H as (m1 & Hm & [= <- <-]). unfold set_slot_length in Hm.
    apply bind_ok_inv in Hm as (s0 & _ & [= <-]). by eapply outgoing_write.
  - destruct (Hap s _ eq_refl) as [Hb _]. apply bind_ok_inv in H as (m1 & Hm & [= <- <-]). unfold enqueue_for_send in Hm.
    apply bind_ok_inv in Hm as (q & Hp & [= <-]). destruct Hout as (send & Hs & Hf). cbn [shared session] in *.
    destruct (holds_push _ _ s Hs) as (q' & Hp' & Hs'). rewrite Hp in Hp'. injection Hp' as <-.
    destruct (owned_call count (mk_system m pc cs) i r (Queueing s) Ho Hi) as [others Hown].
    apply owned_slot in Hown as (sl & Hsl & _).
    assert (Hpk : slot_packet m s = Some (buffer sl, message_length sl)) by (unfold slot_packet; cbn [shared] in Hsl; by rewrite Hsl).
    rewrite Hpk. exists (ps ++ [(buffer sl, message_length sl)]). split; [|constructor].
    exists (send ++ [s]). split; [done|]. rewrite app_assoc. apply Forall2_app; [done|]. by constructor.
  - by injection H as <- <-.
Qed.

Lemma labelled_simulates s e s' ps :
  slots_owned count s → outgoing s ps → labelled s e s' → ∃ ps', outgoing s' ps' ∧ fifo_step ps e ps'.
Proof using Type.
  intros Ho Hout H. destruct H as [m pc cs pc' m' _ _ H|m pc cs i r p p' m' Hi _ _ H|m pc cs r|m pc cs _].
  - by eapply session_simulates.
  - by eapply call_simulates.
  - exists ps. split; [exact Hout|constructor].
  - exists ps. split; [exact Hout|constructor].
Qed.

Lemma traced_simulates s l s' ps :
  traced s l s' → slots_owned count s → outgoing s ps →
  ∃ ps', outgoing s' ps' ∧ ps ++ queued_packets l = sent_packets l ++ ps'.
Proof using Type.
  intros Ht. revert ps. induction Ht as [s|s e s' l s'' Hl _ IH]; intros ps Ho Hout; [exists ps; by rewrite app_nil_r|].
  destruct (labelled_simulates s e s' ps Ho Hout Hl) as (ps1 & Hout1 & Hf).
  destruct (IH ps1) as (ps' & Hout' & Heq); [by eapply step_owned, labelled_step|done|].
  exists ps'. split; [done|]. unfold queued_packets, sent_packets in *. rewrite !omap_app.
  inversion Hf; subst; cbn [option_list]; [exact Heq|by rewrite <- app_assoc in Heq|].
  exact (f_equal (cons p) Heq).
Qed.

Lemma start_outgoing m size junk srv m0 :
  start_session_thread m count size junk srv = Ok m0 → outgoing (mk_system m0 Top []) [].
Proof using Type.
  unfold start_session_thread. intros H. apply bind_ok_inv in H as (q & _ & [= <-]). exists [].
  split; [apply holds_empty|constructor].
Qed.

Lemma traced_steps s l s' : traced s l s' → steps s s'.
Proof using Type. induction 1 as [|s e s' l s'' H _ IH]; [apply rtc_refl|]. eapply rtc_l; [by eapply labelled_step|done]. Qed.

Lemma traced_app s l s' l' s'' : traced s l s' → traced s' l' s'' → traced s (l ++ l') s''.
Proof using Type. induction 1 as [|s e s1 l s2 H _ IH]; intros H'; [done|]. rewrite <- app_assoc. econstructor; [done|by apply IH]. Qed.

(** C4. First in, first out.  After [start_session_thread], on every run and every
    interleaving: the packets the session thread has sent for the calls, with
    their bytes and lengths, are the first packets the calls have queued, in the
    order in which they were queued; the others are still on their way out.
    Nothing is lost, duplicated, reordered or changed in between. *)
Theorem packets_leave_in_order m size junk srv m0 l s :
  0 ≤ count → start_session_thread m count size junk srv = Ok m0 → traced (mk_system m0 Top []) l s →
  ∃ ps, outgoing s ps ∧ queued_packets l = sent_packets l ++ ps.
Proof using Type.
  intros Hc Hst Ht. destruct (start_owned count m size junk srv Hc) as (m0' & Hst' & Ho).
  rewrite Hst in Hst'. injection Hst' as <-.
  apply (traced_simulates _ _ _ [] Ht Ho). by eapply start_outgoing.
Qed.

End order.

(** * Progress *)

Section progress.
Context {W : Type} (srv : server_t W) `{!Broker srv} (count : Z).
Local Abbreviation client := (smqtt_mt_client W).

(** The steps of the session thread up to its next send, with packets queued. *)
Definition send_distance (pc : session_pc) : nat :=
  match pc with
  | Sending _ => 0 | Top => 1 | Rewait _ => 2 | Found _ _ _ => 3 | Handling _ => 4 | Receiving => 5 | Releasing _ => 6
  | Done => 0
  end.

(** A client that is not told to end goes on. *)
Lemma session_step_running pc (m : client) pc' m' :
  session_step pc m = Ok (pc', m') → ready_to_disconnect m = false → pc ≠ Done →
  ready_to_disconnect m' = false ∧ pc' ≠ Done ∧
  match pc with Sending _ | Top => True | _ => (send_distance pc' < send_distance pc)%nat end.
Proof using Type.
  intros H Hr Hd. destruct pc as [|p|p| |r|r found w|w|]; cbn [session_step] in H; try done.
  - rewrite Hr in H. apply bind_ok_inv in H as ([o q] & _ & [= <- <-]). destruct o; by split_and!.
  - apply bind_ok_inv in H as (sl & _ & H). by apply bind_ok_inv in H as ([st w] & _ & [= <- <-]).
  - apply bind_ok_inv in H as (q & _ & [= <- <-]). split_and!; [done|done|simpl; lia].
  - apply bind_ok_inv in H as ([[sz b] w] & _ & H). case_decide; [|injection H as <- <-; split_and!; [done|done|simpl; lia]].
    apply bind_ok_inv in H as ([r|] & _ & H); [|done]. injection H as <- <-. split_and!; [done|done|simpl; lia].
  - destruct (looked_up (type r)); [|injection H as <- <-; split_and!; [done|done|simpl; lia]].
    apply bind_ok_inv in H as (id & _ & H). apply bind_ok_inv in H as ([[f w] a] & _ & [= <- <-]).
    split_and!; [done|done|simpl; lia].
  - apply act_steady in H as [[= _ _ _ -> _] [->|[w' ->]]]; (split_and!; [done|done|simpl; lia]).
  - apply bind_ok_inv in H as (m1 & Hm & [= <- <-]). unfold enqueue_waiting in Hm.
    apply bind_ok_inv in Hm as (a & _ & [= <-]). split_and!; [done|done|simpl; lia].
Qed.

(** The session thread may run: no call holds the mutex and nobody asked it to end. *)
Definition may_run (s : @system W) : Prop :=
  system_ok srv count false s ∧ locked (callers s) = false ∧ ready_to_disconnect (shared s) = false ∧ session s ≠ Done.

Lemma top_takes (m : client) cs pc' m' p ps :
  session_step Top m = Ok (pc', m') → ready_to_disconnect m = false → outgoing (mk_system m Top cs) (p :: ps) →
  ∃ q, pc' = Sending q.
Proof using Type.
  intros H Hr (send & Hs & Hf). cbn [session_step shared session sending_slots app] in *. rewrite Hr in H.
  destruct (holds_pop _ _ Hs) as (q & Hp & _). rewrite Hp, bind_ok in H. injection H as <- _.
  destruct send as [|x send]; [by inversion Hf|]. by exists x.
Qed.

(** One step of it: nearer to the next send, or the send. *)
Lemma session_runs (s : @system W) p ps :
  may_run s → outgoing s (p :: ps) →
  ∃ s', may_run s' ∧ callers s' = callers s ∧
    ((labelled s (Some (Sent p)) s' ∧ outgoing s' ps) ∨
     (labelled s None s' ∧ outgoing s' (p :: ps) ∧ (send_distance (session s') < send_distance (session s))%nat)).
Proof using Type*.
  intros (Hs & Hl & Hr & Hd) Hout. destruct (system_session srv count false s Hs) as (pc & m & H & _); [done|].
  destruct s as [m0 pc0 cs]. cbn [shared session callers] in *.
  destruct (session_step_running _ _ _ _ H Hr Hd) as (Hr' & Hd' & Hdist).
  assert (Hlab : labelled (mk_system m0 pc0 cs) (session_event pc0 m0) (mk_system m pc cs)) by by apply labelled_session.
  destruct (session_simulates count m0 pc0 cs pc m (p :: ps) (proj1 Hs) Hout H) as (ps' & Hout' & Hf).
  exists (mk_system m pc cs). split.
  { split_and!; try done. eapply step_system_ok; [exact Hs|by eapply labelled_step|].
    destruct Hs as (_ & _ & _ & Hcs). by apply callers_allowed. }
  split; [done|]. cbn [shared session callers].
  destruct pc0 as [|q|q| |r|r f w|w|]; cbn [session_event] in *; try done;
    try (right; inversion Hf; subst ps'; by split).
  - right. inversion Hf; subst ps'. split; [done|]. split; [done|].
    destruct (top_takes _ _ _ _ _ _ H Hr Hout) as [q ->]. simpl. lia.
  - left. destruct Hout as (send & _ & Hpk). cbn [session shared sending_slots app] in Hpk.
    apply Forall2_cons_inv_l in Hpk as (pk & ps1 & Hpk & _ & [= <- <-]). rewrite Hpk in *. cbn [fmap option_fmap option_map] in *.
    inversion Hf; subst ps'. by split.
Qed.

(** The first packet is sent. *)
Lemma first_packet_sent k : ∀ (s : @system W) p ps,
  (send_distance (session s) ≤ k)%nat → may_run s → outgoing s (p :: ps) →
  ∃ s', traced s [Sent p] s' ∧ may_run s' ∧ callers s' = callers s ∧ outgoing s' ps.
Proof using Type*.
  induction k as [|k IH]; intros s p ps Hk Hs Hout;
    destruct (session_runs s p ps Hs Hout) as (s1 & Hs1 & Hcs & [[Hlab Hout1]|(Hlab & Hout1 & Hdist)]).
  - exists s1. split; [|done]. apply (traced_step _ (Some (Sent p)) _ [] _ Hlab), traced_nil.
  - lia.
  - exists s1. split; [|done]. apply (traced_step _ (Some (Sent p)) _ [] _ Hlab), traced_nil.
  - destruct (IH s1 p ps) as (s2 & Ht & Hs2 & Hcs2 & Hout2); [lia|done|done|]. exists s2.
    split; [by apply (traced_step _ None _ [Sent p] _ Hlab)|]. split; [done|]. by rewrite Hcs2.
Qed.

Lemma packets_sent ps : ∀ s : @system W,
  may_run s → outgoing s ps → ∃ s', traced s (Sent <$> ps) s' ∧ callers s' = callers s ∧ outgoing s' [].
Proof using Type*.
  induction ps as [|p ps IH]; intros s Hs Hout; [exists s; split; [apply traced_nil|done]|].
  destruct (first_packet_sent _ s p ps ltac:(reflexivity) Hs Hout) as (s1 & Ht & Hs1 & Hcs & Hout1).
  destruct (IH s1 Hs1 Hout1) as (s2 & Ht2 & Hcs2 & Hout2). exists s2.
  split; [exact (traced_app _ _ _ _ _ Ht Ht2)|]. split; [by rewrite Hcs2|done].
Qed.

(** C21. Queued packets go out.  On a connection that stays up to a conforming
    broker, with pings and publishes that fit and no subscribe or unsubscribe (on
    whose SUBACK the thread may fault): from every reachable state in which no call
    holds the mutex, and the client was not told to end, the session thread alone
    sends every queued packet, in order. *)
Theorem queued_packets_are_sent m junk m0 (s : @system W) ps :
  0 ≤ count → up (world m) → zlen junk = MT_BUFFER_SIZE →
  start_session_thread m count MT_BUFFER_SIZE junk srv = Ok m0 →
  steps (mk_system m0 Top []) s → Forall call_fits (callers s).*1 → existsb awaits_suback (callers s).*1 = false →
  locked (callers s) = false → ready_to_disconnect (shared s) = false → session s ≠ Done → outgoing s ps →
  ∃ s', traced s (Sent <$> ps) s' ∧ callers s' = callers s ∧ outgoing s' [].
Proof using Type*.
  intros Hc Hup Hj Hst Hs Hf Hsubs Hl Hr Hd Hout. apply packets_sent; [|done]. split_and!; [|done..].
  rewrite <- Hsubs. by eapply reachable_ok.
Qed.

(** ** Calls return *)

(** The steps a call with a slot has left. *)
Definition call_distance (pc : api_pc) : nat :=
  match pc with
  | Filling _ => 9 | Counting _ _ => 8 | Storing _ _ _ => 7 | Preparing _ _ => 6 | Waiting _ _ _ => 5
  | Advancing _ _ => 4 | Saving _ _ _ => 3 | Sizing _ _ => 2 | Queueing _ => 1 | Start | Spinning | Returned _ => 0
  end.

Definition has_slot (pc : api_pc) : Prop := match pc with Start | Spinning | Returned _ => False | _ => True end.

Lemma api_step_distance r pc (m : client) pc' m' :
  api_step r pc m = Ok (pc', m') → has_slot pc →
  S (call_distance pc') = call_distance pc ∧ (has_slot pc' ∨ pc' = Returned SMQTT_MT_OK).
Proof using Type.
  intros H Hp. destruct pc as [| |s|s len|s len id|s len|s len w|s len|s len id|s len|s|st]; try done; cbn [api_step] in H;
    repeat match type of H with
    | _ ≫= _ = Ok _ => let y := fresh in apply bind_ok_inv in H as (y & _ & H); try destruct y
    end; injection H as <- <-; (split; [done|]); by (left + right).
Qed.

(** A run in which call [i] makes [n] steps. *)
Inductive call_run (i : nat) : nat → @system W → @system W → Prop :=
  | call_run_nil s : call_run i 0 s s
  | call_run_own n m pc cs r p p' m' s :
      cs !! i = Some (r, p) → (∀ st, p ≠ Returned st) → (api_locks r p m = true → locked cs = false) →
      api_step r p m = Ok (p', m') →
      call_run i n (mk_system m' pc (<[i := (r, p')]> cs)) s → call_run i (S n) (mk_system m pc cs) s
  | call_run_others n s s' s'' :
      step s s' → callers s' !! i = callers s !! i → call_run i n s' s'' → call_run i n s s''.

Lemma call_run_distance i n (s s' : @system W) :
  call_run i n s s' → ∀ r p, callers s !! i = Some (r, p) → has_slot p ∨ p = Returned SMQTT_MT_OK → (n ≤ call_distance p)%nat.
Proof using Type.
  induction 1 as [s|n m pc cs r p p' m' s Hi Hp Hl H _ IH|n s s' s'' _ Hi _ IH]; intros r0 p0 Hi0 Hp0; [lia| |].
  - cbn [callers] in *. rewrite Hi in Hi0. injection Hi0 as <- <-. destruct Hp0 as [Hp0| ->]; [|by destruct (Hp SMQTT_MT_OK)].
    destruct (api_step_distance _ _ _ _ _ H Hp0) as [Hd Hp'].
    assert (n ≤ call_distance p')%nat; [|lia]. apply (IH r p'); [|done].
    by rewrite list_lookup_insert_eq by (by apply lookup_lt_Some in Hi).
  - apply (IH r0); [by rewrite Hi|done].
Qed.

(** Alone, it returns. *)
Lemma call_returns_alone subs k : ∀ (s : @system W) i r p,
  (call_distance p ≤ k)%nat → system_ok srv count subs s → locked (callers s) = false →
  callers s !! i = Some (r, p) → has_slot p ∨ p = Returned SMQTT_MT_OK →
  ∃ s', steps s s' ∧ callers s' !! i = Some (r, Returned SMQTT_MT_OK) ∧ session s' = session s.
Proof using Type*.
  induction k as [|k IH]; intros s i r p Hk Hs Hl Hi Hp; (destruct Hp as [Hp| ->]; [|exists s; split; [apply rtc_refl|done]]).
  { destruct p; simpl in Hk; try done; lia. }
  destruct (system_call srv count subs s i r p Hs Hi) as (p' & m & H & _).
  destruct (api_step_distance _ _ _ _ _ H Hp) as [Hd Hp'].
  destruct s as [m0 pc cs]. cbn [shared session callers] in *.
  assert (Hst : step (mk_system m0 pc cs) (mk_system m pc (<[i := (r, p')]> cs))).
  { eapply step_call; [exact Hi|by intros st ->|done|exact H]. }
  pose proof (lookup_lt_Some _ _ _ Hi) as Hlt.
  destruct (IH (mk_system m pc (<[i := (r, p')]> cs)) i r p') as (s' & Hss & Hr & Hpc).
  - lia.
  - eapply step_system_ok; [exact Hs|exact Hst|]. cbn [callers]. rewrite (requests_update _ _ _ _ _ Hi).
    destruct Hs as (_ & _ & _ & Hcs). by apply callers_allowed.
  - cbn [callers]. apply not_true_is_false. intros (c & Hc & Hsp)%existsb_exists. apply list_elem_of_In in Hc.
    apply not_true_iff_false in Hl. apply Hl, existsb_exists. apply list_elem_of_lookup_1 in Hc as [j Hj].
    destruct (decide (i = j)) as [<-|Hne].
    + rewrite list_lookup_insert_eq in Hj by done. injection Hj as <-. unfold spins in Hsp. cbn in Hsp.
      destruct p'; try done. by destruct Hp' as [?|?].
    + rewrite list_lookup_insert_ne in Hj by done. exists c. split; [|done].
      apply list_elem_of_In. by eapply list_elem_of_lookup_2.
  - cbn [callers]. by rewrite list_lookup_insert_eq.
  - done.
  - exists s'. split; [by eapply rtc_l|done].
Qed.

(** A call that has its slot returns.  On every schedule it makes at most nine more
    steps of its own, whatever the other threads do; and on a connection that stays
    up to a conforming broker, with calls that fit, where no call holds the mutex,
    it can make them: alone it returns [SMQTT_MT_OK]. *)
Theorem call_with_slot_returns m junk m0 (s : @system W) i r p :
  0 ≤ count → up (world m) → zlen junk = MT_BUFFER_SIZE →
  start_session_thread m count MT_BUFFER_SIZE junk srv = Ok m0 →
  steps (mk_system m0 Top []) s → Forall call_fits (callers s).*1 →
  callers s !! i = Some (r, p) → has_slot p →
  (∀ n s', call_run i n s s' → (n ≤ 9)%nat) ∧
  (locked (callers s) = false →
   ∃ s', steps s s' ∧ callers s' !! i = Some (r, Returned SMQTT_MT_OK) ∧ session s' = session s).
Proof using Type*.
  intros Hc Hup Hj Hst Hs Hf Hi Hp. split.
  - intros n s' Hr. apply (call_run_distance i n s s' Hr r p) in Hi; [|by left].
    transitivity (call_distance p); [done|]. destruct p; simpl; lia.
  - intros Hl. eapply call_returns_alone; [reflexivity| |done|exact Hi|by left]. by eapply reachable_ok.
Qed.

End progress.

(** * Witnesses *)

(** The run of [ClientMtSafe]: a ping and a publish, the publish queued first. *)
Definition order_schedule : list choice := safe_schedule 4.

Definition first_out : packet_t :=
  (mqtt_publish [98] 1 2 true [99] ++ drop (length (mqtt_publish [98] 1 2 true [99])) sample_junk,
   zlen (mqtt_publish [98] 1 2 true [99])).

Example order_events :
  sent_packets (schedule_events order_schedule (mk_system safe_start Top [])) = [first_out] ∧
  length (queued_packets (schedule_events order_schedule (mk_system safe_start Top []))) = 2%nat.
Proof. split; vm_compute; reflexivity. Qed.

Lemma order_reached :
  traced (mk_system safe_start Top []) (schedule_events order_schedule (mk_system safe_start Top [])) (safe_after order_schedule).
Proof. apply run_schedule_traced. vm_compute. reflexivity. Qed.

Lemma packets_leave_in_order_witness :
  let l := schedule_events order_schedule (mk_system safe_start Top []) in
  ∃ ps, outgoing (safe_after order_schedule) ps ∧ queued_packets l = sent_packets l ++ ps.
Proof.
  apply (packets_leave_in_order 10 sample_online MT_BUFFER_SIZE sample_junk scripted safe_start).
  - lia.
  - vm_compute. reflexivity.
  - exact order_reached.
Defined.

(** Both packets queued, nothing sent. *)
Definition order_queued : @system (list (list Z)) := safe_after (safe_schedule 0).

Lemma order_queued_reached : steps (mk_system safe_start Top []) order_queued.
Proof. apply (run_schedule_steps (safe_schedule 0)). vm_compute. reflexivity. Qed.

Lemma order_fits (s : @system (list (list Z))) :
  (callers s).*1 = [Mt_ping (Some 9) 0; Mt_publish [98] (Some [99]) 2 true (Some 8) 1] → Forall call_fits (callers s).*1.
Proof.
  intros ->. constructor; [by eexists|]. constructor; [|constructor]. split; [by vm_compute|]. intros _. by eexists.
Qed.

Lemma order_queued_outgoing : ∃ ps, outgoing order_queued ps ∧ length ps = 2%nat.
Proof.
  assert (Hst : start_session_thread sample_online 10 MT_BUFFER_SIZE sample_junk scripted = Ok safe_start)
    by (vm_compute; reflexivity).
  pose proof (start_system_ok scripted 10 false sample_online sample_junk safe_start ltac:(lia) safe_script_up
    ltac:(by vm_compute) Hst) as [Ho _].
  assert (Ht : traced (mk_system safe_start Top []) (schedule_events (safe_schedule 0) (mk_system safe_start Top [])) order_queued)
    by (apply run_schedule_traced; vm_compute; reflexivity).
  destruct (traced_simulates 10 _ _ _ [] Ht Ho (start_outgoing 10 _ _ _ _ _ Hst)) as (ps & Hout & Heq).
  exists ps. split; [done|]. set (l := schedule_events _ _) in Heq.
  assert (Hs : sent_packets l = []) by (vm_compute; reflexivity). rewrite Hs in Heq. cbn [app] in Heq. subst ps.
  vm_compute. reflexivity.
Qed.

Lemma queued_packets_are_sent_witness :
  ∃ ps s', length ps = 2%nat ∧ traced order_queued (Sent <$> ps) s' ∧ callers s' = callers order_queued ∧ outgoing s' [].
Proof.
  destruct order_queued_outgoing as (ps & Hout & Hl).
  destruct (queued_packets_are_sent scripted 10 sample_online sample_junk safe_start order_queued ps) as (s' & H).
  - lia.
  - exact safe_script_up.
  - by vm_compute.
  - vm_compute. reflexivity.
  - exact order_queued_reached.
  - apply order_fits. vm_compute. reflexivity.
  - vm_compute. reflexivity.
  - vm_compute. reflexivity.
  - vm_compute. reflexivity.
  - by vm_compute.
  - exact Hout.
  - by exists ps, s'.
Defined.

(** The ping has its slot. *)
Definition order_call : @system (list (list Z)) := safe_after (take 5 (safe_schedule 0)).

Lemma call_with_slot_returns_witness :
  (∀ n s', call_run 0 n order_call s' → (n ≤ 9)%nat) ∧
  (locked (callers order_call) = false →
   ∃ s', steps order_call s' ∧ callers s' !! 0%nat = Some (Mt_ping (Some 9) 0, Returned SMQTT_MT_OK) ∧
     session s' = session order_call).
Proof.
  apply (call_with_slot_returns scripted 10 sample_online sample_junk safe_start order_call 0 (Mt_ping (Some 9) 0) (Storing 0 2 None)).
  - lia.
  - exact safe_script_up.
  - by vm_compute.
  - vm_compute. reflexivity.
  - apply (run_schedule_steps (take 5 (safe_schedule 0))). vm_compute. reflexivity.
  - apply order_fits. vm_compute. reflexivity.
  - vm_compute. reflexivity.
  - exact I.
Defined.
