(* ===== verification/ClientMtRun.v ===== *)
(** ClientMtRun: whole exchanges of the multi-threaded client.  A call and the
    iterations of the session thread that follow it, from the packet in the slot
    to the callback. *)

From stdpp Require Import gmap.
From S2P Require Import Prelude Protocol Size Wire Serialize Deserialize Codec Server Queue Client ClientProtocol Connection ClientMt ClientMtSession.

#[local] Open Scope Z_scope.

(** * Iterations

    One iteration of [session_thread_loop]: a packet sent and its slot put back,
    if there is one, then a message received and handled. *)
Definition iteration_fuel : nat := 7.

Fixpoint iterate {W} (n : nat) (m : smqtt_mt_client W) : outcome (smqtt_mt_client W) :=
  match n with
  | O => Ok m
  | S n => '(_, m) ← run_session iteration_fuel Top m; iterate n m
  end.

Section run.
Context {W : Type}.
Local Abbreviation client := (smqtt_mt_client W).

Lemma run_session_more k n : ∀ pc (m : client) r,
  run_session n pc m = Ok r → run_session (n + k) pc m = Ok r.
Proof using Type.
  induction n as [|n IH]; intros pc m r H; [done|]. cbn [run_session plus] in *.
  destruct (session_step pc m) as [[pc' m']|]; [|done]. rewrite bind_ok in *. destruct pc'; try done; by apply IH.
Qed.

(** The slots of a client between two iterations. *)
Record pool (m : client) (free send : list Z) : Prop := {
  pool_free : holds (free_queue m) free;
  pool_send : holds (send_queue m) send;
  pool_running : ready_to_disconnect m = false
}.

Lemma pool_settings (m m' : client) free send : settings m' = settings m → pool m free send → pool m' free send.
Proof using Type.
  intros Hs [Hf Hq Hr]. unfold settings in Hs. injection Hs as _ _ _ _ Hf' Hs' Hr' _ _ _.
  split; congruence.
Qed.

(** The slot holds the packet [bs]. *)
Definition slot_holds (m : client) (slot : Z) (bs : list Z) : Prop :=
  ∃ s, get_slot m slot = Ok s ∧ message_length s = zlen bs ∧ zlen bs ≤ zlen (buffer s) ∧
    slice (buffer s) 0 (zlen bs) = bs.

(** An iteration with a packet to send. *)
Lemma iteration_sends (m : client) slot free send bs K n :
  pool m free (slot :: send) → slot_holds m slot bs → sends (server m) bs K (world m) →
  ∃ w f q, K w ∧ run_session (3 + n) Top m =
      run_session n Receiving (with_queues (with_io m (receive_buffer m) w) f q (ack_queue m)) ∧
    pool (with_queues (with_io m (receive_buffer m) w) f q (ack_queue m)) (free ++ [slot]) send.
Proof using Type.
  intros [Hf Hq Hr] (s & Hs & Hl & Hle & Hbs) Hsend.
  destruct (holds_pop _ _ Hq) as (q & Hpop & Hq'). destruct (holds_push _ _ slot Hf) as (f & Hpush & Hf').
  destruct (Hsend (buffer s) Hle Hbs) as (w & Hw & HK). exists w, f, q. split; [done|]. split; [|by split].
  set (m1 := with_queues m (free_queue m) q (ack_queue m)).
  assert (H1 : session_step Top m = Ok (Sending slot, m1)) by (cbn [session_step]; by rewrite Hr, Hpop, bind_ok).
  assert (H2 : session_step (Sending slot) m1 = Ok (Releasing slot, with_io m1 (receive_buffer m) w)).
  { cbn [session_step]. change (get_slot m1 slot) with (get_slot m slot). rewrite Hs, bind_ok.
    change (server m1) with (server m). change (world m1) with (world m). by rewrite Hl, Hw, bind_ok. }
  assert (H3 : session_step (Releasing slot) (with_io m1 (receive_buffer m) w) =
            Ok (Receiving, with_queues (with_io m (receive_buffer m) w) f q (ack_queue m))).
  { cbn [session_step]. change (free_queue (with_io m1 (receive_buffer m) w)) with (free_queue m).
    by rewrite Hpush, bind_ok. }
  cbn [plus]. by rewrite (run_session_step _ _ _ _ _ H1), (run_session_step _ _ _ _ _ H2), (run_session_step _ _ _ _ _ H3).
Qed.

(** An iteration with nothing to send. *)
Lemma iteration_idle (m : client) free n :
  pool m free [] →
  ∃ q, run_session (1 + n) Top m = run_session n Receiving (with_queues m (free_queue m) q (ack_queue m)) ∧
    pool (with_queues m (free_queue m) q (ack_queue m)) free [].
Proof using Type.
  intros [Hf Hq Hr]. destruct (holds_pop _ _ Hq) as (q & Hpop & Hq'). exists q. split; [|by split].
  assert (H1 : session_step Top m = Ok (Receiving, with_queues m (free_queue m) q (ack_queue m)))
    by (cbn [session_step]; by rewrite Hr, Hpop, bind_ok).
  cbn [plus]. by rewrite (run_session_step _ _ _ _ _ H1).
Qed.

(** ** An acknowledgement for the entry at the end *)

Lemma last_waits t id ws (w : waiting_t) :
  Forall (λ w, ¬ waits_for t id w) ws → waits_for t id w →
  list_find (waits_for t id) (ws ++ [w]) = Some (length ws, w).
Proof using Type.
  intros Hws Hw. rewrite list_find_app_r.
  - simpl. by rewrite decide_True by done.
  - apply list_find_None. exact Hws.
Qed.

(** It completes the call. *)
Lemma on_ack_last t id d ctx ws (w : waiting_t) cb :
  t = PINGRESP ∨ t = PUBACK ∨ t = PUBCOMP →
  Forall (λ w, ¬ waits_for t id w) ws → waits_for t id w → callback w = Some cb →
  on_ack t id d ctx (ws ++ [w]) = mk_reaction None [Completed cb (cb_context w)] ws.
Proof using Type.
  intros Ht Hws Hw Hcb. unfold on_ack. rewrite (last_waits t id ws w Hws Hw), Hcb, delete_middle, app_nil_r.
  by destruct Ht as [-> | [-> | ->]].
Qed.

(** A PUBREC: the PUBREL is sent and the call waits on. *)
Lemma on_pubrec_last id d ctx ws (w : waiting_t) :
  Forall (λ w, ¬ waits_for PUBREC id w) ws → waits_for PUBREC id w →
  on_ack PUBREC id d ctx (ws ++ [w]) =
    mk_reaction (Some (mqtt_ack PUBREL 2 id)) [] (ws ++ [mk_waiting PUBCOMP (callback w) (cb_context w) (w_pubcomp id)]).
Proof using Type.
  intros Hws Hw. unfold on_ack. by rewrite (last_waits PUBREC id ws w Hws Hw), delete_middle, app_nil_r.
Qed.

(** The iteration that receives it. *)
Lemma receives_completion (m : client) ws w t id flags cb K :
  t = PINGRESP ∧ id = 0 ∨ t = PUBACK ∨ t = PUBCOMP → 0 ≤ flags < 16 → 0 ≤ id < 256 →
  listening m (ws ++ [w]) → Forall (λ w, ¬ waits_for t id w) ws → waits_for t id w → callback w = Some cb →
  gets (server m) (if decide (t = PINGRESP) then mqtt_empty PINGRESP else mqtt_ack t flags id) K (world m) →
  ∃ m', run_session session_fuel Receiving m = Ok (Top, m') ∧ K (world m') ∧
    calls m' = calls m ++ [Completed cb (cb_context w)] ∧ listening m' ws ∧ settings m' = settings m.
Proof using Type.
  intros Ht Hf Hid Hl Hws Hw Hcb Hg.
  pose proof (on_ack_last t id (msg_callback m) (msg_cb_context m) ws w cb ltac:(tauto) Hws Hw Hcb) as Hr.
  pose proof (session_receives_ack_spec m (ws ++ [w]) t flags id K) as Hack. rewrite Hr in Hack.
  assert (calls_null t id (ws ++ [w]) = false) as Hn.
  { unfold calls_null. rewrite (last_waits t id ws w Hws Hw), Hcb. by destruct t. }
  rewrite Hn in Hack. destruct Hack as (m' & Hrun & HK & Hc & Hl' & Hs); try done.
  - by destruct Ht as [[-> _]|[-> | ->]].
  - intros ->. by destruct Ht as [[_ ?]|[?|?]].
  - by exists m'.
Qed.

Lemma receives_pubrec (m : client) ws w id K :
  0 ≤ id < 256 → listening m (ws ++ [w]) → Forall (λ w, ¬ waits_for PUBREC id w) ws → waits_for PUBREC id w →
  gets (server m) (mqtt_ack PUBREC 0 id) (sends (server m) (mqtt_ack PUBREL 2 id) K) (world m) →
  ∃ m', run_session session_fuel Receiving m = Ok (Top, m') ∧ K (world m') ∧ calls m' = calls m ∧
    listening m' (ws ++ [mk_waiting PUBCOMP (callback w) (cb_context w) (w_pubcomp id)]) ∧ settings m' = settings m.
Proof using Type.
  intros Hid Hl Hws Hw Hg.
  pose proof (on_pubrec_last id (msg_callback m) (msg_cb_context m) ws w Hws Hw) as Hr.
  pose proof (session_receives_ack_spec m (ws ++ [w]) PUBREC 0 id K) as Hack. rewrite Hr in Hack.
  unfold calls_null in Hack. rewrite (last_waits PUBREC id ws w Hws Hw) in Hack.
  destruct Hack as (m' & Hrun & HK & Hc & Hl' & Hs); try done.
  cbn [r_calls] in Hc. rewrite app_nil_r in Hc. by exists m'.
Qed.

(** ** A call *)

(** The packet of a call that fits is in its slot, and what it waits for is the
    last entry. *)
Lemma call_queued r (m : client) ws slot free s bs w :
  guard r m = None → pool m (slot :: free) [] → listening m ws → get_slot m slot = Ok s →
  zlen bs ≤ zlen (buffer s) → zlen bs < 65536 →
  packet r (publish_packet_id m) (subscribe_packet_id m) (buffer s) = writes bs (buffer s) →
  waiting_for r m = Some w → well_formed w →
  ∃ m', mt_call r m = Ok (SMQTT_MT_OK, m') ∧ pool m' free [slot] ∧ listening m' (ws ++ [w]) ∧ slot_holds m' slot bs ∧
    world m' = world m ∧ server m' = server m ∧ calls m' = calls m ∧
    publish_packet_id m' = default (publish_packet_id m) (next_publish_id r m).
Proof using Type.
  intros Hg [Hf Hq Hr] (Hl & Hsz & Hws & Hwf) Hs Hle Hlt Hp Hw Hwell.
  destruct (holds_pop _ _ Hf) as (f & Hpop & Hf'). destruct (holds_push _ _ slot Hq) as (q & Hpush & Hq').
  destruct (waits_push _ _ w Hws) as (a & Ha & Hws').
  rewrite writes_fits in Hp by done. eexists. split.
  { eapply mt_call_result; [done|exact Hpop|exact Hpush| |exact Hs|exact Hp]. rewrite Hw. exact Ha. }
  destruct (get_slot_inv _ _ _ Hs) as [Hb _].
  split; [by split|]. split.
  { split_and!; try done. apply Forall_app. by split; [|constructor]. }
  split; [|done]. exists (mk_slot (u16 (zlen bs)) (bs ++ drop (length bs) (buffer s))).
  split; [|cbn [message_length buffer]; split_and!].
  - change (get_slot (with_slots m (<[Z.to_nat slot := mk_slot (u16 (zlen bs)) (bs ++ drop (length bs) (buffer s))]>
      (buffer_slots m))) slot = Ok (mk_slot (u16 (zlen bs)) (bs ++ drop (length bs) (buffer s)))).
    by rewrite get_slot_write, decide_True.
  - pose proof (zlen_nonneg bs). by rewrite u16_small by lia.
  - by rewrite zlen_overwrite.
  - apply slice_prefix.
Qed.

Lemma mt_call_publish (m : client) topic msg qos retain cb ctx :
  mt_call (Mt_publish topic msg qos retain cb ctx) m = smqtt_mt_publish m topic msg qos retain cb ctx.
Proof using Type. reflexivity. Qed.

Lemma mt_call_ping (m : client) cb ctx : mt_call (Mt_ping cb ctx) m = smqtt_mt_ping m cb ctx.
Proof using Type. reflexivity. Qed.

Lemma mt_call_subscribe (m : client) count topics qoss cb ctx :
  mt_call (Mt_subscribe count topics qoss cb ctx) m = smqtt_mt_subscribe m count topics qoss cb ctx.
Proof using Type. reflexivity. Qed.

(** What a publish waits for first. *)
Definition publish_entry (qos id cb ctx : Z) : waiting_t :=
  if decide (qos = QoS1) then mk_waiting PUBACK (Some cb) ctx (w_puback id)
  else mk_waiting PUBREC (Some cb) ctx (w_pubrec id).

(** The session thread's part. *)
Lemma published (m : client) ws slot free bs qos id cb ctx K :
  qos = QoS1 ∨ qos = QoS2 → 0 ≤ id < 256 →
  pool m free [slot] → listening m (ws ++ [publish_entry qos id cb ctx]) → slot_holds m slot bs →
  (∀ t, Forall (λ w, ¬ waits_for t id w) ws) →
  sends (server m) bs
    (if decide (qos = QoS0) then K
     else if decide (qos = QoS1) then gets (server m) (mqtt_ack PUBACK 0 id) K
     else gets (server m) (mqtt_ack PUBREC 0 id)
            (sends (server m) (mqtt_ack PUBREL 2 id) (gets (server m) (mqtt_ack PUBCOMP 0 id) K))) (world m) →
  ∃ m2, iterate (Z.to_nat qos) m = Ok m2 ∧ K (world m2) ∧ calls m2 = calls m ++ [Completed cb ctx] ∧
    listening m2 ws ∧ pool m2 (free ++ [slot]) [] ∧ publish_packet_id m2 = publish_packet_id m.
Proof using Type.
  intros Hq Hid Hpool Hlis Hslot Hws Hconv.
  destruct (iteration_sends m slot free [] bs _ session_fuel Hpool Hslot Hconv) as (w & f & q & HK & Hrun & Hpool').
  set (m1 := with_queues _ f q _) in *. destruct Hq as [-> | ->]; cbn [decide] in HK.
  - destruct (receives_completion m1 ws (publish_entry QoS1 id cb ctx) PUBACK id 0 cb K) as (m2 & Hr & HK2 & Hc & Hl & Hset);
      try done; [by auto|by split; [|right]|].
    exists m2. change (Z.to_nat QoS1) with 1%nat. cbn [iterate]. unfold iteration_fuel, session_fuel in *.
    change 7%nat with (3 + 4)%nat. rewrite Hrun, Hr, bind_ok. split_and!; try done; [by eapply pool_settings|].
    unfold settings in Hset. by injection Hset.
  - destruct (receives_pubrec m1 ws (publish_entry QoS2 id cb ctx) id _ Hid Hlis (Hws _) ltac:(by split; [|right]) HK)
      as (m2 & Hr & HK2 & Hc & Hl & Hset).
    pose proof (pool_settings _ _ _ _ Hset Hpool') as Hpool2.
    destruct (iteration_idle m2 _ 6 Hpool2) as (q2 & Hrun2 & Hpool3). set (m3 := with_queues m2 _ q2 _) in *.
    destruct (receives_completion m3 ws (mk_waiting PUBCOMP (Some cb) ctx (w_pubcomp id)) PUBCOMP id 0 cb K)
      as (m4 & Hr4 & HK4 & Hc4 & Hl4 & Hset4); try done; [by auto|by split; [|right]| |].
    { change (server m3) with (server m2). unfold settings in Hset. injection Hset as _ _ _ _ _ _ _ _ _ ->. exact HK2. }
    exists m4. change (Z.to_nat QoS2) with 2%nat. cbn [iterate]. unfold iteration_fuel, session_fuel in *.
    change 7%nat with (3 + 4)%nat. rewrite Hrun, Hr, bind_ok. change (3 + 4)%nat with (1 + 6)%nat.
    rewrite Hrun2. change 6%nat with (4 + 2)%nat. rewrite (run_session_more 2 4 _ _ _ Hr4), bind_ok.
    split_and!; try done; [rewrite Hc4; change (calls m3) with (calls m2); by rewrite Hc|by eapply pool_settings|].
    unfold settings in Hset, Hset4. injection Hset4 as _ -> _ _ _ _ _ _ _ _. by injection Hset.
Qed.

(** C3. A publish, from the call to the callback.  With a free slot, nothing queued
    and a broker that follows the handshake of the QoS, [smqtt_mt_publish] at QoS 1
    or 2 returns success at once; then one iteration of the session thread per
    acknowledgement sends the packet, answers a PUBREC by the PUBREL, and calls the
    callback once with its context.  The slot is free again, and what other calls
    wait for is left as it was. *)
Theorem smqtt_mt_publish_completes (m : client) ws slot free s topic msg qos retain cb ctx K :
  connected m = true → pool m (slot :: free) [] → listening m ws → get_slot m slot = Ok s →
  zlen (buffer s) = MT_BUFFER_SIZE → short_string topic → opt_message_ok msg → qos = QoS1 ∨ qos = QoS2 →
  let id := publish_packet_id m in
  0 ≤ id < 256 → zlen (mqtt_publish topic id qos retain (default [] msg)) ≤ MT_BUFFER_SIZE →
  (∀ t, Forall (λ w, ¬ waits_for t id w) ws) →
  publish_conversation (server m) topic msg qos retain id K (world m) →
  ∃ m1 m2, smqtt_mt_publish m topic msg qos retain (Some cb) ctx = Ok (SMQTT_MT_OK, m1) ∧
    iterate (Z.to_nat qos) m1 = Ok m2 ∧ K (world m2) ∧ calls m2 = calls m ++ [Completed cb ctx] ∧
    listening m2 ws ∧ pool m2 (free ++ [slot]) [] ∧ publish_packet_id m2 = id + 1.
Proof using Type.
  intros Hc Hpool Hlis Hs Hb Ht Hmsg Hq id Hid Hl Hws Hconv.
  set (r := Mt_publish topic msg qos retain (Some cb) ctx).
  assert (Hw : waiting_for r m = Some (publish_entry qos id cb ctx)) by by destruct Hq as [-> | ->].
  destruct (call_queued r m ws slot free s (mqtt_publish topic id qos retain (default [] msg)) (publish_entry qos id cb ctx))
    as (m1 & Hcall & Hpool1 & Hlis1 & Hslot & Hworld & Hserver & Hcalls & Hpid); try done.
  { unfold guard. rewrite Hc. by destruct Hq as [-> | ->]. }
  { unfold MT_BUFFER_SIZE in *. lia. } { unfold MT_BUFFER_SIZE in *. lia. }
  { cbn [packet r]. apply make_publish_mqtt; try done. unfold QoS1, QoS2 in Hq. lia. }
  { right. destruct Hq as [-> | ->]; by eexists. }
  assert (Hpid1 : publish_packet_id m1 = id + 1).
  { rewrite Hpid. unfold r, next_publish_id. rewrite decide_True by done. cbn. by rewrite u16_small by (unfold id in *; lia). }
  rewrite <- Hserver, <- Hworld in Hconv. unfold publish_conversation in Hconv.
  destruct (published m1 ws slot free _ qos id cb ctx K Hq Hid Hpool1 Hlis1 Hslot Hws Hconv)
    as (m2 & Hrun & HK & Hc2 & Hl2 & Hp2 & Hpid2).
  exists m1, m2. unfold r in Hcall. rewrite mt_call_publish in Hcall.
  refine (conj Hcall (conj Hrun (conj HK (conj _ (conj Hl2 (conj Hp2 _)))))).

  - by rewrite Hc2, Hcalls.
  - by rewrite Hpid2.
Qed.

(** ** The other calls *)

(** A ping, from the call to the callback. *)
Theorem smqtt_mt_ping_completes (m : client) ws slot free s cb ctx K :
  connected m = true → pool m (slot :: free) [] → listening m ws → get_slot m slot = Ok s →
  zlen (buffer s) = MT_BUFFER_SIZE → Forall (λ w, ¬ waits_for PINGRESP 0 w) ws →
  sends (server m) (mqtt_empty PINGREQ) (gets (server m) (mqtt_empty PINGRESP) K) (world m) →
  ∃ m1 m2, smqtt_mt_ping m (Some cb) ctx = Ok (SMQTT_MT_OK, m1) ∧ iterate 1 m1 = Ok m2 ∧ K (world m2) ∧
    calls m2 = calls m ++ [Completed cb ctx] ∧ listening m2 ws ∧ pool m2 (free ++ [slot]) [].
Proof using Type.
  intros Hc Hpool Hlis Hs Hb Hws Hconv. set (r := Mt_ping (Some cb) ctx). set (w := mk_waiting PINGRESP (Some cb) ctx w_unwritten).
  destruct (call_queued r m ws slot free s (mqtt_empty PINGREQ) w)
    as (m1 & Hcall & Hpool1 & Hlis1 & Hslot & Hworld & Hserver & Hcalls & _); try done.
  { unfold guard. by rewrite Hc. } { by rewrite Hb. } { apply make_empty_mqtt. } { by left. }
  rewrite <- Hserver, <- Hworld in Hconv.
  destruct (iteration_sends m1 slot free [] _ _ session_fuel Hpool1 Hslot Hconv) as (w' & f & q & HK & Hrun & Hpool').
  set (m1' := with_queues _ f q _) in *.
  destruct (receives_completion m1' ws w PINGRESP 0 0 cb K) as (m2 & Hr & HK2 & Hc2 & Hl & Hset); try done; [by left|by split; [|left]|].
  exists m1, m2. rewrite <- mt_call_ping. split; [exact Hcall|]. split.
  { cbn [iterate]. change iteration_fuel with (3 + session_fuel)%nat. by rewrite Hrun, Hr. }
  split_and!; try done; [by rewrite Hc2; change (calls m1') with (calls m1); rewrite Hcalls|by eapply pool_settings].
Qed.

(** C8. A subscription, from the call to the callback.  With a free slot, nothing
    queued, nothing waited for and a broker that answers the SUBSCRIBE, the call
    returns success; where [publish_packet_id] happens to equal the identifier
    sent, one iteration of the session thread sends the packet and calls the
    callback once with the results of the SUBACK, and the slot is free again; where
    it does not, that iteration ends at a pointer that was never set. *)
Theorem smqtt_mt_subscribe_completes (m : client) slot free s tqs results cb ctx K :
  connected m = true → pool m (slot :: free) [] → listening m [] → get_slot m slot = Ok s →
  zlen (buffer s) = MT_BUFFER_SIZE → Forall (λ tq, short_string tq.1 ∧ byte_range tq.2) tqs → zlen tqs < 256 →
  Forall (λ r, 0 ≤ sub_qos r ≤ 2) results → (length results ≤ MAX_TOPICS)%nat →
  let id := subscribe_packet_id m in
  0 ≤ id < 256 → zlen (mqtt_subscribe id tqs) ≤ MT_BUFFER_SIZE →
  sends (server m) (mqtt_subscribe id tqs) (gets (server m) (mqtt_suback id results) K) (world m) →
  ∃ m1, smqtt_mt_subscribe m (zlen tqs) tqs.*1 tqs.*2 (Some cb) ctx = Ok (SMQTT_MT_OK, m1) ∧
    if decide (publish_packet_id m = id) then
      ∃ m2, iterate 1 m1 = Ok m2 ∧ K (world m2) ∧ calls m2 = calls m ++ [Subscribed cb id (normal_result <$> results) ctx] ∧
        listening m2 [] ∧ pool m2 (free ++ [slot]) []
    else iterate 1 m1 = Fault Uninitialised.
Proof using Type.
  intros Hc Hpool Hlis Hs Hb Ht Hn Hres Hlen id Hid Hl Hconv.
  set (r := Mt_subscribe (zlen tqs) tqs.*1 tqs.*2 (Some cb) ctx).
  set (w := mk_waiting SUBACK None ctx (w_suback (Some cb) (publish_packet_id m))).
  assert (Hsize : zlen (concat (mqtt_topic_qos <$> tqs)) < 65536).
  { unfold mqtt_subscribe, mqtt_packet in Hl. autorewrite with zlen in Hl.
    match type of Hl with context [size_bytes ?k] => pose proof (size_bytes_length k) end.
    unfold MT_BUFFER_SIZE in Hl. lia. }
  destruct (call_queued r m [] slot free s (mqtt_subscribe id tqs) w)
    as (m1 & Hcall & Hpool1 & Hlis1 & Hslot & Hworld & Hserver & Hcalls & _); try done.
  { unfold guard. by rewrite Hc. } { by rewrite Hb. } { unfold MT_BUFFER_SIZE in *. lia. }
  { cbn [packet r]. rewrite u8_small by (split; [apply zlen_nonneg|done]). by apply make_subscribe_mqtt. }
  { right. by eexists. }
  rewrite <- Hserver, <- Hworld in Hconv.
  destruct (iteration_sends m1 slot free [] _ _ session_fuel Hpool1 Hslot Hconv) as (w' & f & q & HK & Hrun & Hpool').
  set (m1' := with_queues _ f q _) in *.
  pose proof (session_receives_suback_spec m1' m (zlen tqs) tqs.*1 tqs.*2 cb ctx w [] id results K eq_refl Hlis1 Hid Hres Hlen HK)
    as Hreact.
  exists m1. rewrite <- mt_call_subscribe. split; [exact Hcall|]. cbn [iterate]. change iteration_fuel with (3 + session_fuel)%nat. rewrite Hrun.
  case_decide; [|by rewrite Hreact]. destruct Hreact as (m2 & Hr & HK2 & Hc2 & Hl2 & Hset). exists m2. rewrite Hr, bind_ok.
  split_and!; try done; [by rewrite Hc2; change (calls m1') with (calls m1); rewrite Hcalls|by eapply pool_settings].
Qed.

End run.

(** * A run *)

(** A client with one slot and a broker that follows the handshake of QoS 2. *)
Definition sample_idle (free : linked Z) (script : list (list Z)) : smqtt_mt_client (list (list Z)) :=
  mk_mt true 1 1 1 MT_BUFFER_SIZE (replicate (Z.to_nat MT_BUFFER_SIZE) 0)
    [mk_slot 0 (replicate (Z.to_nat MT_BUFFER_SIZE) 0)] false free empty_queue empty_queue (Some 5) 6 scripted script [].

Definition one_free : linked Z := match push empty_queue 0 with Ok q => q | Fault _ => empty_queue end.

Lemma one_free_holds : holds one_free [0].
Proof. destruct (holds_push empty_queue [] 0 holds_empty) as (q & Hq & Hh). unfold one_free. by rewrite Hq. Qed.

Definition qos2_script : list (list Z) := [mqtt_ack PUBREC 0 1; mqtt_ack PUBCOMP 0 1].

Lemma smqtt_mt_publish_completes_witness :
  let m := sample_idle one_free qos2_script in
  ∃ m1 m2, smqtt_mt_publish m [97] (Some [104; 105]) 2 false (Some 9) 7 = Ok (SMQTT_MT_OK, m1) ∧
    iterate 2 m1 = Ok m2 ∧ finished (world m2) ∧ calls m2 = [Completed 9 7] ∧
    listening m2 [] ∧ pool m2 [0] [] ∧ publish_packet_id m2 = 2.
Proof.
  apply (smqtt_mt_publish_completes (sample_idle one_free qos2_script) [] 0 []
    (mk_slot 0 (replicate (Z.to_nat MT_BUFFER_SIZE) 0)) [97] (Some [104; 105]) 2 false 9 7 finished).
  - reflexivity.
  - split; [exact one_free_holds|apply holds_empty|reflexivity].
  - split; [by vm_compute|]. split; [reflexivity|]. split; [apply (waits_queue_of [])|constructor].
  - reflexivity.
  - by vm_compute.
  - by apply (bool_decide_unpack _); vm_compute.
  - split; [repeat constructor; lia|by vm_compute].
  - by right.
  - cbn. lia.
  - by vm_compute.
  - constructor.
  - apply scripted_sends, scripted_gets, scripted_sends, scripted_gets. reflexivity.
Defined.

Definition subscribed_script : list (list Z) := [mqtt_suback 1 [mk_sub_result true 1]].

Lemma smqtt_mt_subscribe_completes_witness :
  let m := sample_idle one_free subscribed_script in
  ∃ m1, smqtt_mt_subscribe m 1 [[97]] [1] (Some 9) 7 = Ok (SMQTT_MT_OK, m1) ∧
    ∃ m2, iterate 1 m1 = Ok m2 ∧ finished (world m2) ∧ calls m2 = [Subscribed 9 1 [mk_sub_result true 1] 7] ∧
      listening m2 [] ∧ pool m2 [0] [].
Proof.
  apply (smqtt_mt_subscribe_completes (sample_idle one_free subscribed_script) 0 []
    (mk_slot 0 (replicate (Z.to_nat MT_BUFFER_SIZE) 0)) [([97], 1)] [mk_sub_result true 1] 9 7 finished).
  - reflexivity.
  - split; [exact one_free_holds|apply holds_empty|reflexivity].
  - split; [by vm_compute|]. split; [reflexivity|]. split; [apply (waits_queue_of [])|constructor].
  - reflexivity.
  - by vm_compute.
  - by apply (bool_decide_unpack _); vm_compute.
  - by vm_compute.
  - repeat constructor; cbn; lia.
  - cbn. unfold MAX_TOPICS. lia.
  - cbn. lia.
  - by vm_compute.
  - apply scripted_sends, scripted_gets. reflexivity.
Defined.
