(* ===== verification/Main.v ===== *)
(** Main: the command line client, [smqttc/main.c].  The argument vector is
    read by index as the code reads it, [strtoul] and [errno] are those of the C
    library, and [exit] ends the program with what it has printed. *)

From S2P Require Import Prelude Protocol Server Client.
From Stdlib Require Import String.

#[local] Open Scope Z_scope.

(** * Console and exits *)

(** A line of output; [Got] is the message printed with ["%.*s"]. *)
Inductive printed :=
  | Err (text : string)
  | Err_switch (text : string) (sw : Z)
  | Out (text : string)
  | Got (bytes : list Z).

(** A computation that may end the program: [inl] is what was printed before
    [exit(1)]. *)
Definition parsed (A : Type) : Type := outcome (list printed + A).

#[export] Instance parsed_ret : MRet parsed := λ A a, Ok (inr a).
#[export] Instance parsed_bind : MBind parsed := λ A B f m,
  match m with
  | Ok (inr a) => f a
  | Ok (inl out) => Ok (inl out)
  | Fault e => Fault e
  end.

Definition may_fault {A} (m : outcome A) : parsed A :=
  match m with Ok a => Ok (inr a) | Fault e => Fault e end.

Definition usage : list printed := Err <$> [
  "Usage:"%string;
  EmptyString;
  "	smqttc [ -P <message> | -S ] <options> <host>[:<port>] <clientid> <topic>"%string;
  EmptyString;
  "Common options:"%string;
  "	-u <userid>	(default none)"%string;
  "	-p <password>	(default none)"%string;
  "	-k <keep alive seconds>	(default 30)"%string;
  "	-q [ 0 | 1 | 2 ]	(qos: default 0))"%string;
  "	-c	(enable clean session -- default off)"%string;
  "	-W [ 0 | 1 | 2 ] [ Y | N ] <topic> <message>"%string;
  "		last will qos -- 0 (default), 1 or 2"%string;
  "		last will retain -- Y or N (default)"%string;
  "		last will topic and message"%string].

Definition print_usage_and_exit {A} (before : list printed) : parsed A := Ok (inl (before ++ usage)).

(** * The C library *)

Definition ENOMSG : Z := 42.
Definition ERANGE : Z := 34.

Definition isspace (c : Z) : bool := bool_decide (c = 32 ∨ 9 ≤ c ≤ 13).
Definition isdigit (c : Z) : bool := bool_decide (48 ≤ c ≤ 57).

Fixpoint skip_space (s : list Z) : list Z :=
  match s with c :: s' => if isspace c then skip_space s' else s | [] => [] end.

Fixpoint digits_value (s : list Z) (acc : Z) : Z :=
  match s with c :: s' => if isdigit c then digits_value s' (10 * acc + (c - 48)) else acc | [] => acc end.

(** [strtoul(s, NULL, 10)], with [errno] before and after. *)
Definition strtoul (s : list Z) (errno : Z) : Z * Z :=
  let s := skip_space (c_chars s) in
  let '(negative, s) :=
    match s with 45 :: s' => (true, s') | 43 :: s' => (false, s') | _ => (false, s) end in
  let v := digits_value s 0 in
  if decide (v < 2 ^ 64) then (u64 (if negative then - v else v), errno) else (2 ^ 64 - 1, ERANGE).

(** [strstr(s, ":")]: the offset found. *)
Fixpoint find_colon (s : list Z) : option nat :=
  match s with
  | c :: s' => if decide (c = 58) then Some O else S <$> find_colon s'
  | [] => None
  end.

(** [s[i]], the terminator included. *)
Definition char_at (s : list Z) (i : nat) : outcome Z :=
  match c_object s !! i with Some c => Ok c | None => Fault OobRead end.

(** * The arguments *)

(** [argv[i]]: the vector has [argc] strings and a null pointer. *)
Definition argv_at (argv : list (list Z)) (i : nat) : outcome (option (list Z)) :=
  if decide (i ≤ List.length argv)%nat then Ok (argv !! i) else Fault OobRead.

(** [argv[i]] used as a string. *)
Definition arg_string (argv : list (list Z)) (i : nat) : outcome (list Z) :=
  o ← argv_at argv i; match o with Some s => Ok s | None => Fault NullDeref end.

Inductive operation_t := Op_PUBLISH | Op_SUBSCRIBE.

(** The variables of [main] the options set. *)
Record options := mk_options {
  operation : operation_t;
  user : option (list Z);
  pw : option (list Z);
  keep_alive_sec : Z;
  qos : Z;
  clean_session : bool;
  last_will : bool;
  last_will_qos : Z;
  last_will_retain : bool;
  last_will_topic : option (list Z);
  last_will_message : option (list Z);
  publish_message : option (list Z)
}.

Definition initial_options (op : operation_t) (msg : option (list Z)) : options :=
  mk_options op None None 30 QoS0 false false QoS0 false None None msg.

Definition set_user (o : options) (v : option (list Z)) : options :=
  mk_options (operation o) v (pw o) (keep_alive_sec o) (qos o) (clean_session o) (last_will o) (last_will_qos o)
    (last_will_retain o) (last_will_topic o) (last_will_message o) (publish_message o).
Definition set_pw (o : options) (v : option (list Z)) : options :=
  mk_options (operation o) (user o) v (keep_alive_sec o) (qos o) (clean_session o) (last_will o) (last_will_qos o)
    (last_will_retain o) (last_will_topic o) (last_will_message o) (publish_message o).
Definition set_keep_alive (o : options) (v : Z) : options :=
  mk_options (operation o) (user o) (pw o) v (qos o) (clean_session o) (last_will o) (last_will_qos o)
    (last_will_retain o) (last_will_topic o) (last_will_message o) (publish_message o).
Definition set_qos (o : options) (v : Z) : options :=
  mk_options (operation o) (user o) (pw o) (keep_alive_sec o) v (clean_session o) (last_will o) (last_will_qos o)
    (last_will_retain o) (last_will_topic o) (last_will_message o) (publish_message o).
Definition set_clean (o : options) : options :=
  mk_options (operation o) (user o) (pw o) (keep_alive_sec o) (qos o) true (last_will o) (last_will_qos o)
    (last_will_retain o) (last_will_topic o) (last_will_message o) (publish_message o).
Definition set_will (o : options) (q : Z) (retain : bool) (topic msg : option (list Z)) : options :=
  mk_options (operation o) (user o) (pw o) (keep_alive_sec o) (qos o) (clean_session o) true q
    retain topic msg (publish_message o).

(** [ADVANCE_ARG(sw)]: the new value of [arg]. *)
Definition ADVANCE_ARG (argv : list (list Z)) (arg : nat) (sw : Z) : parsed nat :=
  let arg := S arg in
  if decide (List.length argv < arg)%nat
  then print_usage_and_exit [Err_switch "Missing argument to -%c switch" sw]
  else mret arg.

(** [default:] of the switch. *)
Definition unrecognized {A} (sw : Z) : parsed A :=
  print_usage_and_exit [Err_switch "Unrecognized switch %c" sw].

(** [case 'W':] and the default it runs into. *)
Definition parse_will {A} (argv : list (list Z)) (o : options) (arg : nat) (sw : Z) : parsed A :=
  arg ← ADVANCE_ARG argv arg sw;
  v ← may_fault (arg_string argv arg);
  wq ← may_fault (char_at v 0);
  q ← (if decide (wq = 48) then mret (last_will_qos o)
       else if decide (wq = 49) then mret QoS1
       else if decide (wq = 50) then mret QoS2
       else print_usage_and_exit [Err "incorrect QoS argument to -W"]);
  arg ← ADVANCE_ARG argv arg sw;
  v ← may_fault (arg_string argv arg);
  wr ← may_fault (char_at v 0);
  retain ← (if decide (wr = 89) then mret true
            else if decide (wr = 78) then mret (last_will_retain o)
            else print_usage_and_exit [Err "incorrect retain argument to -W"]);
  arg ← ADVANCE_ARG argv arg sw;
  topic ← may_fault (argv_at argv arg);
  arg ← ADVANCE_ARG argv arg sw;
  msg ← may_fault (argv_at argv arg);
  let o := set_will o q retain topic msg in
  unrecognized sw.

(** The body of the option loop, up to its [arg++]; [-q] goes on into [-c], and
    [-W] into the default. *)
Definition parse_switch (argv : list (list Z)) (o : options) (arg : nat) (errno : Z)
    : parsed (options * nat * Z) :=
  s ← may_fault (arg_string argv arg);
  sw ← may_fault (char_at s 1);
  if decide (sw = 117) then
    arg ← ADVANCE_ARG argv arg sw;
    v ← may_fault (argv_at argv arg);
    mret (set_user o v, arg, errno)
  else if decide (sw = 112) then
    arg ← ADVANCE_ARG argv arg sw;
    v ← may_fault (argv_at argv arg);
    mret (set_pw o v, arg, errno)
  else if decide (sw = 107) then
    arg ← ADVANCE_ARG argv arg sw;
    v ← may_fault (arg_string argv arg);
    let '(k, errno) := strtoul v errno in
    if decide (errno ≠ ENOMSG) then print_usage_and_exit [Err "incorrect argument to -k"]
    else mret (set_keep_alive o (u32 k), arg, errno)
  else if decide (sw = 113) then
    arg ← ADVANCE_ARG argv arg sw;
    v ← may_fault (arg_string argv arg);
    q ← may_fault (char_at v 0);
    o ← (if decide (q = 48) then mret o
         else if decide (q = 49) then mret (set_qos o QoS1)
         else if decide (q = 50) then mret (set_qos o QoS2)
         else print_usage_and_exit [Err "incorrect argument to -q"]);
    mret (set_clean o, arg, errno)
  else if decide (sw = 99) then mret (set_clean o, arg, errno)
  else if decide (sw = 87) then
    parse_will argv o arg sw
  else unrecognized sw.

(** [while (arg < argc && argv[arg][0] == '-')] *)
Fixpoint parse_loop (fuel : nat) (argv : list (list Z)) (o : options) (arg : nat) (errno : Z)
    : parsed (options * nat) :=
  if decide (arg < List.length argv)%nat then
    s ← may_fault (arg_string argv arg);
    c ← may_fault (char_at s 0);
    if decide (c = 45) then
      match fuel with
      | O => Fault OutOfFuel
      | S fuel =>
          '(o, arg, errno) ← parse_switch argv o arg errno;
          parse_loop fuel argv o (S arg) errno
      end
    else mret (o, arg)
  else mret (o, arg).

(** What the command line asks for. *)
Record settings := mk_settings {
  s_options : options;
  s_host : list Z;
  s_port : Z;
  s_client_id : list Z;
  s_topic : list Z
}.

(** [main] up to the connection. *)
Definition parse_args (argv : list (list Z)) (errno : Z) : parsed settings :=
  if decide (1 < List.length argv)%nat then
    s ← may_fault (arg_string argv 1);
    '(o, arg) ←
      (if decide (c_chars s = [45; 80]) then
         if decide (List.length argv ≤ 2)%nat then print_usage_and_exit [Err "missing message to publish"]
         else m ← may_fault (argv_at argv 2); mret (initial_options Op_PUBLISH m, 3%nat)
       else if decide (c_chars s = [45; 83]) then mret (initial_options Op_SUBSCRIBE None, 2%nat)
       else print_usage_and_exit []);
    '(o, arg) ← parse_loop (List.length argv) argv o arg errno;
    if decide (List.length argv ≤ arg + 2)%nat then
      print_usage_and_exit [Err "host[:port], client id and topic required after options"]
    else
      host_port ← may_fault (arg_string argv arg);
      let '(host, port) :=
        match find_colon (c_chars host_port) with
        | None => (host_port, 1883)
        | Some pos => (drop pos host_port, u16 (strtoul (drop (S pos) host_port) errno).1)
        end in
      client_id ← may_fault (arg_string argv (arg + 1));
      topic ← may_fault (arg_string argv (arg + 2));
      mret (mk_settings o host port client_id topic)
  else print_usage_and_exit [].

(** * The program *)

Section main.
Context {W : Type}.
Local Abbreviation client := (smqtt_client W).

(** [client->...] in a call: the variable is null where nothing was stored. *)
Definition use_client (c : option client) : M W client :=
  match c with Some c => mret c | None => λ _, Fault NullDeref end.

(** The exit code and the lines printed; no code while the program still runs. *)
Definition run_result : Type := option Z * list printed.

(** [case PUBLISH:] *)
Definition main_publish (c : option client) (a : settings) : M W run_result :=
  c ← use_client c;
  '(stat, c) ← smqtt_publish c (s_topic a) (publish_message (s_options a)) QoS1 false;
  let out := if decide (stat ≠ SMQTT_OK) then Err "publish failed" else Out "Sent message" in
  _ ← smqtt_disconnect c;
  mret (Some 0, [out]).

(** [fprintf(stdout, "Got message [%.*s]", message_size, message)]: at most
    [message_size] characters are read. *)
Definition print_message (r : received) : outcome printed :=
  match out_message r, out_message_size r with
  | Some message, Some message_size =>
      _ ← strncpy_bytes message (Z.to_nat message_size);
      Ok (Got (c_chars (take (Z.to_nat message_size) message)))
  | _, _ => Fault Uninitialised
  end.

(** [fuel] rounds of [while (true)], which ends when a message cannot be received. *)
Fixpoint receive_loop (fuel : nat) (c : client) : M W run_result :=
  match fuel with
  | O => mret (None, [])
  | S fuel =>
      '(stat, r) ← smqtt_get_next_message c;
      if decide (stat ≠ SMQTT_OK) then mret (Some 1, [Err "Failed to retrieve message"]) else
      line ← (λ s, l ← print_message r; Ok (l, s)) : M W printed;
      '(code, out) ← receive_loop fuel c;
      mret (code, line :: out)
  end.

(** [case SUBSCRIBE:] *)
Definition main_subscribe (fuel : nat) (c : option client) (a : settings) : M W run_result :=
  c ← use_client c;
  '(stat, c) ← smqtt_subscribe c 1 [s_topic a] [qos (s_options a)];
  if decide (stat ≠ SMQTT_OK) then mret (Some 1, [Err "Failed to Subscribe"]) else
  '(code, out) ← receive_loop fuel c;
  mret (code, Out "Subscribed" :: out).

(** [network] and [malloc] are those of [smqtt_connect]; the subscriber's loop is
    followed for [fuel] rounds. *)
Definition main (network : server_t W) (malloc : option Z) (fuel : nat) (argv : list (list Z)) (errno : Z)
    : M W run_result := λ s,
  match parse_args argv errno with
  | Fault e => Fault e
  | Ok (inl out) => Ok ((Some 1, out), s)
  | Ok (inr a) =>
      let o := s_options a in
      ('(stat, result) ← smqtt_connect network malloc (s_host a) (s_port a) (s_client_id a) (user o) (pw o)
           (u16 (keep_alive_sec o)) (clean_session o) (last_will o) (last_will_qos o) (last_will_retain o)
           (last_will_topic o) (last_will_message o);
       if decide (stat ≠ SMQTT_OK) then mret (Some 1, [Err "Failed to connect"]) else
       let c := match result with Some (Some c) => Some c | _ => None end in
       match operation o with
       | Op_PUBLISH => main_publish c a
       | Op_SUBSCRIBE => main_subscribe fuel c a
       end) s
  end.

End main.

(** * Reference

    The same command lines read as a list, with no index and no fuel. *)

(** [-q] sets the quality of service and, with it, a clean session. *)
Definition spec_qos (o : options) (v : list Z) : parsed options :=
  let q := hd 0 (c_chars v) in
  if decide (q = 48) then mret (set_clean o)
  else if decide (q = 49) then mret (set_clean (set_qos o QoS1))
  else if decide (q = 50) then mret (set_clean (set_qos o QoS2))
  else print_usage_and_exit [Err "incorrect argument to -q"].

(** [-W]: whatever its arguments are, the program does not go on. *)
Definition spec_will {A} (l : list (list Z)) : parsed A :=
  match l with
  | [] => Fault NullDeref
  | q :: l =>
      if decide (hd 0 (c_chars q) = 48 ∨ hd 0 (c_chars q) = 49 ∨ hd 0 (c_chars q) = 50) then
        match l with
        | [] => Fault NullDeref
        | r :: l =>
            if decide (hd 0 (c_chars r) = 89 ∨ hd 0 (c_chars r) = 78) then
              match l with
              | [] => print_usage_and_exit [Err_switch "Missing argument to -%c switch" 87]
              | _ => unrecognized 87
              end
            else print_usage_and_exit [Err "incorrect retain argument to -W"]
        end
      else print_usage_and_exit [Err "incorrect QoS argument to -W"]
  end.

(** The options of a command line and what follows them.  A missing argument of
    [-k], [-q] or [-W] is a null pointer that is read; of [-u] or [-p], the
    absence of the option. *)
Fixpoint spec_options (o : options) (l : list (list Z)) : parsed (options * list (list Z)) :=
  match l with
  | [] => mret (o, [])
  | s :: l =>
      if decide (hd 0 (c_chars s) = 45) then
        let sw := hd 0 (tl (c_chars s)) in
        if decide (sw = 117) then
          match l with [] => mret (set_user o None, []) | v :: l => spec_options (set_user o (Some v)) l end
        else if decide (sw = 112) then
          match l with [] => mret (set_pw o None, []) | v :: l => spec_options (set_pw o (Some v)) l end
        else if decide (sw = 107) then
          match l with [] => Fault NullDeref | _ => print_usage_and_exit [Err "incorrect argument to -k"] end
        else if decide (sw = 113) then
          match l with [] => Fault NullDeref | v :: l => o ← spec_qos o v; spec_options o l end
        else if decide (sw = 99) then spec_options (set_clean o) l
        else if decide (sw = 87) then spec_will l
        else unrecognized sw
      else mret (o, s :: l)
  end.

Definition spec_operation (l : list (list Z)) : parsed (options * list (list Z)) :=
  match l with
  | s :: l =>
      if decide (c_chars s = [45; 80]) then
        match l with
        | [] => print_usage_and_exit [Err "missing message to publish"]
        | m :: l => mret (initial_options Op_PUBLISH (Some m), l)
        end
      else if decide (c_chars s = [45; 83]) then mret (initial_options Op_SUBSCRIBE None, l)
      else print_usage_and_exit []
  | [] => print_usage_and_exit []
  end.

(** The three arguments after the options. *)
Definition positionals (o : options) (l : list (list Z)) : parsed settings :=
  match l with
  | host_port :: client_id :: topic :: _ =>
      let '(host, port) :=
        match find_colon (c_chars host_port) with
        | None => (host_port, 1883)
        | Some pos => (drop pos host_port, u16 (strtoul (drop (S pos) host_port) 0).1)
        end in
      mret (mk_settings o host port client_id topic)
  | _ => print_usage_and_exit [Err "host[:port], client id and topic required after options"]
  end.

Definition spec_args (argv : list (list Z)) : parsed settings :=
  '(o, l) ← spec_operation (tl argv);
  '(o, l) ← spec_options o l;
  positionals o l.

(** ** The reference is what the code does *)

Section reference.
Variable argv : list (list Z).

(** The rest of the command line for an index. *)
Definition rest {A} (r : A * nat) : A * list (list Z) := (r.1, drop r.2 argv).

Definition parsed_map {A B} (f : A → B) (m : parsed A) : parsed B :=
  match m with Ok (inr a) => Ok (inr (f a)) | Ok (inl out) => Ok (inl out) | Fault e => Fault e end.

Lemma parsed_map_bind {A B C} (f : B → C) (m : parsed A) (k : A → parsed B) :
  parsed_map f (m ≫= k) = m ≫= (λ a, parsed_map f (k a)).
Proof using Type. by destruct m as [[|]|]. Qed.

Lemma arg_null arg : arg = List.length argv → argv_at argv arg = Ok None ∧ arg_string argv arg = Fault NullDeref.
Proof using Type.
  intros ->. unfold arg_string, argv_at. rewrite decide_True by done. by rewrite lookup_ge_None_2 by done.
Qed.

Lemma arg_some arg s : argv !! arg = Some s → argv_at argv arg = Ok (Some s) ∧ arg_string argv arg = Ok s.
Proof using Type.
  intros Hs. unfold arg_string, argv_at. rewrite decide_True by (apply lookup_lt_Some in Hs; lia). by rewrite Hs.
Qed.

Lemma advance_ok arg sw : (arg < List.length argv)%nat → ADVANCE_ARG argv arg sw = mret (S arg).
Proof using Type. intros ?. unfold ADVANCE_ARG. by rewrite decide_False by lia. Qed.

Lemma char_0 s : char_at s 0 = Ok (hd 0 (c_chars s)).
Proof using Type. unfold char_at, c_object. by destruct (c_chars s). Qed.

Lemma char_1 s : hd 0 (c_chars s) = 45 → char_at s 1 = Ok (hd 0 (tl (c_chars s))).
Proof using Type. unfold char_at, c_object. destruct (c_chars s) as [|c [|c' l]]; done. Qed.

(** Reading the next argument: [None] is the null pointer that ends the vector. *)
Lemma drop_rest arg s l :
  drop arg argv = s :: l → argv !! arg = Some s ∧ (arg < List.length argv)%nat ∧ drop (S arg) argv = l.
Proof using Type.
  intros Hd. assert (Hs : argv !! arg = Some s) by (rewrite <- (Nat.add_0_r arg), <- lookup_drop, Hd; done).
  split; [done|]. split; [by apply lookup_lt_Some in Hs|].
  rewrite (drop_S _ _ _ Hs) in Hd. by injection Hd.
Qed.

Lemma drop_end arg : (arg ≤ List.length argv)%nat → drop arg argv = [] → arg = List.length argv.
Proof using Type. intros Hl Hd. apply (f_equal List.length) in Hd. rewrite length_drop in Hd. simpl in Hd. lia. Qed.

(** The argument of a switch. *)
Lemma switch_argument arg sw s l :
  drop arg argv = s :: l →
  ADVANCE_ARG argv arg sw = mret (S arg) ∧
  match l with
  | [] => argv_at argv (S arg) = Ok None ∧ arg_string argv (S arg) = Fault NullDeref ∧ S arg = List.length argv
  | v :: l' => argv_at argv (S arg) = Ok (Some v) ∧ arg_string argv (S arg) = Ok v ∧ drop (S (S arg)) argv = l'
  end.
Proof using Type.
  intros Hd. destruct (drop_rest _ _ _ Hd) as (_ & Hl & Hd'). split; [by apply advance_ok|].
  destruct l as [|v l].
  - apply drop_end in Hd'; [|done]. by destruct (arg_null _ Hd').
  - apply drop_rest in Hd' as (Hv & _ & Hd'). by destruct (arg_some _ _ Hv).
Qed.

(** [parsed] computations in steps. *)
Lemma parsed_ret_bind {A B} (a : A) (f : A → parsed B) : mret a ≫= f = f a.
Proof using Type. done. Qed.
Lemma may_fault_ok {A B} (a : A) (f : A → parsed B) : may_fault (Ok a) ≫= f = f a.
Proof using Type. done. Qed.
Lemma may_fault_fault {A B} e (f : A → parsed B) : may_fault (Fault e) ≫= f = Fault e.
Proof using Type. done. Qed.

Lemma parse_loop_past fuel o arg errno :
  (List.length argv ≤ arg)%nat → parsed_map rest (parse_loop fuel argv o arg errno) = mret (o, []).
Proof using Type.
  intros Hl. assert (Hp : parse_loop fuel argv o arg errno = mret (o, arg))
    by (destruct fuel; cbn [parse_loop]; by rewrite decide_False by lia).
  rewrite Hp. cbn. unfold rest. cbn. by rewrite drop_ge by lia.
Qed.

Ltac argument Hd sw :=
  let Ha := fresh "Ha" in let Hv := fresh "Hv" in
  pose proof (switch_argument _ sw _ _ Hd) as [Ha Hv]; rewrite Ha, ?parsed_ret_bind.

Lemma strtoul_errno v errno k e : errno ≠ ENOMSG → strtoul v errno = (k, e) → e ≠ ENOMSG.
Proof using Type.
  intros He. unfold strtoul. cbv zeta. repeat case_match; intros [= _ <-]; by try done.
Qed.

(** The two checks of [-W], whose results are not used. *)
Lemma check_qos {A} c (a b d : Z) (k : parsed A) :
  (if decide (c = 48) then mret a else if decide (c = 49) then mret b else if decide (c = 50) then mret d
   else print_usage_and_exit [Err "incorrect QoS argument to -W"]) ≫= (λ _, k) =
  if decide (c = 48 ∨ c = 49 ∨ c = 50) then k else print_usage_and_exit [Err "incorrect QoS argument to -W"].
Proof using Type.
  destruct (decide (c = 48 ∨ c = 49 ∨ c = 50)) as [Hc|Hc].
  - repeat case_decide; try done. exfalso. intuition.
  - by rewrite !decide_False by intuition.
Qed.

Lemma check_retain {A} c (a b : bool) (k : parsed A) :
  (if decide (c = 89) then mret a else if decide (c = 78) then mret b
   else print_usage_and_exit [Err "incorrect retain argument to -W"]) ≫= (λ _, k) =
  if decide (c = 89 ∨ c = 78) then k else print_usage_and_exit [Err "incorrect retain argument to -W"].
Proof using Type.
  destruct (decide (c = 89 ∨ c = 78)) as [Hc|Hc].
  - repeat case_decide; try done. exfalso. intuition.
  - by rewrite !decide_False by intuition.
Qed.

Lemma will_reference {A} o arg s l :
  drop arg argv = s :: l → parse_will (A := A) argv o arg 87 = spec_will l.
Proof using Type.
  intros Hd. unfold parse_will, spec_will. argument Hd 87.
  destruct l as [|q l]; destruct Hv as (Hv & Hv' & Hr); rewrite Hv'; [done|].
  rewrite may_fault_ok, char_0, may_fault_ok.
  rewrite check_qos. case_decide; [|done]. apply drop_rest in Hd as (_ & _ & Hd).
  argument Hd 87. destruct l as [|r l]; destruct Hv0 as (Hv0 & Hv0' & Hr0); rewrite Hv0'; [done|].
  rewrite may_fault_ok, char_0, may_fault_ok, check_retain. case_decide; [|done].
  apply drop_rest in Hd as (_ & _ & Hd). argument Hd 87.
  destruct l as [|t l]; destruct Hv1 as (Hv1 & _ & Hr1); rewrite Hv1, may_fault_ok.
  - unfold ADVANCE_ARG. by rewrite decide_True by lia.
  - apply drop_rest in Hd as (_ & _ & Hd). argument Hd 87.
    by destruct l as [|m l]; destruct Hv2 as (Hv2 & _ & _); rewrite Hv2, may_fault_ok.
Qed.

Lemma spec_will_bind {A B} l (k : A → parsed B) : spec_will l ≫= k = spec_will l.
Proof using Type. unfold spec_will. repeat (case_match; try done). Qed.

Lemma parse_loop_reference fuel : ∀ o arg errno,
  errno ≠ ENOMSG → (List.length argv ≤ arg + fuel)%nat →
  parsed_map rest (parse_loop fuel argv o arg errno) = spec_options o (drop arg argv).
Proof using Type.
  induction fuel as [|fuel IH]; intros o arg errno He Hf.
  { rewrite parse_loop_past by lia. by rewrite drop_ge by lia. }
  destruct (drop arg argv) as [|s l] eqn:Hd.
  { apply (f_equal List.length) in Hd. rewrite length_drop in Hd. simpl in Hd. by rewrite parse_loop_past by lia. }
  pose proof (drop_rest _ _ _ Hd) as (Hs & Hl & Hd'). pose proof (arg_some _ _ Hs) as [_ Hstr].
  cbn [parse_loop]. rewrite decide_True by done. rewrite Hstr, may_fault_ok, char_0, may_fault_ok.
  cbn [spec_options]. destruct (decide (hd 0 (c_chars s) = 45)) as [Hc|Hc].
  2:{ cbn. unfold rest. cbn. by rewrite Hd. }
  rewrite parsed_map_bind. unfold parse_switch. rewrite Hstr, may_fault_ok, char_1, may_fault_ok by done.
  set (sw := hd 0 (tl (c_chars s))).
  destruct (decide (sw = 117)) as [Hsw|].
  { argument Hd sw. destruct l as [|v l]; destruct Hv as (Hv & Hv' & Hr); rewrite Hv, may_fault_ok, parsed_ret_bind; cbv beta iota.
    - by rewrite parse_loop_past by lia.
    - rewrite IH by (done || lia). by rewrite Hr. }
  destruct (decide (sw = 112)) as [Hsw|].
  { argument Hd sw. destruct l as [|v l]; destruct Hv as (Hv & Hv' & Hr); rewrite Hv, may_fault_ok, parsed_ret_bind; cbv beta iota.
    - by rewrite parse_loop_past by lia.
    - rewrite IH by (done || lia). by rewrite Hr. }
  destruct (decide (sw = 107)) as [Hsw|].
  { argument Hd sw. destruct l as [|v l]; destruct Hv as (Hv & Hv' & Hr); rewrite Hv'; [done|].
    rewrite may_fault_ok. destruct (strtoul v errno) as [k e] eqn:Hk.
    rewrite decide_True; [done|]. by eapply strtoul_errno. }
  destruct (decide (sw = 113)) as [Hsw|].
  { argument Hd sw. destruct l as [|v l]; destruct Hv as (Hv & Hv' & Hr); rewrite Hv'; [done|].
    rewrite may_fault_ok, char_0, may_fault_ok. unfold spec_qos. cbv zeta.
    repeat case_decide; try done; rewrite !parsed_ret_bind; cbv beta iota; rewrite IH by (done || lia); by rewrite Hr. }
  destruct (decide (sw = 99)) as [Hsw|].
  { rewrite parsed_ret_bind. cbv beta iota. rewrite IH by (done || lia). by rewrite Hd'. }
  destruct (decide (sw = 87)) as [Hsw|]; [|done].
  rewrite Hsw, (will_reference _ _ _ _ Hd). apply spec_will_bind.
Qed.


Lemma parsed_map_then {A B} (m : parsed (A * nat)) m' (k : A * nat → parsed B) k' :
  parsed_map rest m = m' → (∀ o arg, k (o, arg) = k' (o, drop arg argv)) → m ≫= k = m' ≫= k'.
Proof using Type. intros <- Hk. destruct m as [[out|[o arg]]|e]; [done|apply Hk|done]. Qed.

Lemma strtoul_value v e e' : (strtoul v e).1 = (strtoul v e').1.
Proof using Type. unfold strtoul. cbv zeta. by repeat case_match; simplify_eq. Qed.

Lemma positionals_reference errno o arg :
  (if decide (List.length argv ≤ arg + 2)%nat then
     print_usage_and_exit [Err "host[:port], client id and topic required after options"]
   else
     host_port ← may_fault (arg_string argv arg);
     let '(host, port) :=
       match find_colon (c_chars host_port) with
       | None => (host_port, 1883)
       | Some pos => (drop pos host_port, u16 (strtoul (drop (S pos) host_port) errno).1)
       end in
     client_id ← may_fault (arg_string argv (arg + 1));
     topic ← may_fault (arg_string argv (arg + 2));
     mret (mk_settings o host port client_id topic)) = positionals o (drop arg argv).
Proof using Type.
  case_decide as Hl.
  - assert (Hd : (List.length (drop arg argv) ≤ 2)%nat) by (rewrite length_drop; lia).
    by destruct (drop arg argv) as [|? [|? [|? ?]]]; [..|simpl in Hd; lia].
  - destruct (lookup_lt_is_Some_2 argv arg) as [h Hh]; [lia|].
    destruct (lookup_lt_is_Some_2 argv (arg + 1)%nat) as [c Hc]; [lia|].
    destruct (lookup_lt_is_Some_2 argv (arg + 2)%nat) as [t Ht]; [lia|].
    assert (Hd : drop arg argv = h :: c :: t :: drop (S (S (S arg))) argv).
    { rewrite (drop_S _ _ _ Hh). f_equal. rewrite Nat.add_1_r in Hc. rewrite (drop_S _ _ _ Hc). f_equal.
      apply drop_S. by replace (S (S arg)) with (arg + 2)%nat by lia. }
    rewrite Hd. clear Hd.
    destruct (arg_some _ _ Hh) as [_ ->], (arg_some _ _ Hc) as [_ ->], (arg_some _ _ Ht) as [_ ->].
    rewrite may_fault_ok. cbn [positionals]. destruct (find_colon (c_chars h)); [|done].
    by rewrite (strtoul_value _ errno 0).
Qed.

End reference.

Lemma parse_args_spec argv errno : errno ≠ ENOMSG → parse_args argv errno = spec_args argv.
Proof.
  intros He. unfold parse_args, spec_args. destruct argv as [|a0 [|s l]] eqn:Hargv; [done|done|]. rewrite <- Hargv.
  assert (Hlen : List.length argv = S (S (List.length l))) by by rewrite Hargv.
  rewrite decide_True by lia. destruct (arg_some argv 1 s) as [_ Hstr]; [by rewrite Hargv|].
  rewrite Hstr, may_fault_ok. assert (Htl : tl argv = s :: l) by by rewrite Hargv. rewrite Htl. cbn [spec_operation].
  assert (Htail : ∀ o arg l', drop arg argv = l' →
    ('(o, arg) ← parse_loop (List.length argv) argv o arg errno;
     if decide (List.length argv ≤ arg + 2)%nat then
       print_usage_and_exit [Err "host[:port], client id and topic required after options"]
     else
       host_port ← may_fault (arg_string argv arg);
       let '(host, port) :=
         match find_colon (c_chars host_port) with
         | None => (host_port, 1883)
         | Some pos => (drop pos host_port, u16 (strtoul (drop (S pos) host_port) errno).1)
         end in
       client_id ← may_fault (arg_string argv (arg + 1));
       topic ← may_fault (arg_string argv (arg + 2));
       mret (mk_settings o host port client_id topic)) =
    ('(o, l) ← spec_options o l'; positionals o l)).
  { intros o arg l' <-. eapply parsed_map_then; [apply parse_loop_reference; [done|lia]|].
    intros o' arg'. apply positionals_reference. }
  case_decide.
  - destruct l as [|m l]; [by rewrite decide_True by (simpl in Hlen; lia)|].
    rewrite decide_False by (simpl in Hlen; lia).
    destruct (arg_some argv 2 m) as [Hm _]; [by rewrite Hargv|]. rewrite Hm, may_fault_ok, !parsed_ret_bind.
    apply Htail. by rewrite Hargv.
  - case_decide; [|done]. rewrite !parsed_ret_bind. apply Htail. by rewrite Hargv.
Qed.

(** C16. The command line.  Whatever the argument vector, the code that walks it by
    index, with its checks against [argc] and the null pointer at the end, reads
    the command line the reference describes on lists. *)
Theorem parse_args_reference argv errno : errno ≠ ENOMSG → parse_args argv errno = spec_args argv.
Proof. exact (parse_args_spec argv errno). Qed.

(** ** A command line *)

Example strtoul_samples :
  strtoul (chars " 42x") 0 = (42, 0) ∧ strtoul (chars "-1") 0 = (2 ^ 64 - 1, 0) ∧
  strtoul (chars "18446744073709551616") 0 = (2 ^ 64 - 1, ERANGE).
Proof. by vm_compute. Qed.

(** A host with a port keeps the colon and loses the name. *)
Example host_and_port :
  match parse_args (map chars ["smqttc"; "-S"; "10.0.0.1:8883"; "c"; "t"]%string) 0 with
  | Ok (inr a) => s_host a = chars ":8883" ∧ s_port a = 8883
  | _ => False
  end.
Proof. by vm_compute. Qed.

Lemma parse_args_reference_witness :
  parse_args (map chars ["smqttc"; "-P"; "hi"; "-q"; "2"; "-u"; "me"; "localhost"; "c"; "t"]%string) 0 =
  spec_args (map chars ["smqttc"; "-P"; "hi"; "-q"; "2"; "-u"; "me"; "localhost"; "c"; "t"]%string) ∧
  parse_args (map chars ["smqttc"; "-S"; "-q"]%string) 0 = Fault NullDeref.
Proof. split; [apply (parse_args_reference _ 0); by vm_compute|by vm_compute]. Defined.
