(* ===== verification/MainRun.v ===== *)
(** MainRun: what the command line client does: the command lines it accepts,
    and whole runs against a conforming broker. *)

From S2P Require Import Prelude Protocol Size Wire Serialize Deserialize Codec Server Client ClientProtocol Main.
From Stdlib Require Import String.

#[local] Open Scope Z_scope.

(** * Accepted command lines *)

(** What no option changes: [-k] and [-W] never get through. *)
Definition fixed_options (o : options) : Prop :=
  keep_alive_sec o = 30 ∧ last_will o = false ∧ last_will_qos o = QoS0 ∧ last_will_retain o = false ∧
  last_will_topic o = None ∧ last_will_message o = None ∧ (qos o ∈ [QoS0; QoS1; QoS2]) ∧
  (qos o ≠ QoS0 → clean_session o = true).

Lemma spec_qos_fixed o v o' : fixed_options o → spec_qos o v = Ok (inr o') → fixed_options o' ∧ clean_session o' = true.
Proof.
  intros (?&?&?&?&?&?&?&?). unfold spec_qos. cbv zeta. repeat case_decide; intros [= <-]; split; try done;
    split_and!; try done; cbn; auto using list_elem_of_here, list_elem_of_further.
Qed.

Lemma spec_options_fixed n : ∀ o l o' l',
  (List.length l ≤ n)%nat → fixed_options o → spec_options o l = Ok (inr (o', l')) →
  fixed_options o' ∧ operation o' = operation o ∧ publish_message o' = publish_message o.
Proof.
  induction n as [|n IH]; intros o l o' l' Hn Ho; (destruct l as [|s l]; [by intros [= <- <-]|]); [simpl in Hn; lia|].
  simpl in Hn. cbn [spec_options]. cbv zeta. case_decide; [|by intros [= <- <-]].
  case_decide. { destruct l as [|v l]; [by intros [= <- <-]|]. intros H'. simpl in Hn. by apply IH in H'; [|lia|]. }
  case_decide. { destruct l as [|v l]; [by intros [= <- <-]|]. intros H'. simpl in Hn. by apply IH in H'; [|lia|]. }
  case_decide; [by destruct l|].
  case_decide.
  { destruct l as [|v l]; [done|]. simpl in Hn. destruct (spec_qos o v) as [[|o1]|] eqn:Hq; [done| |done]. cbn.
    intros H'. apply IH in H'; [|lia|by eapply spec_qos_fixed]. destruct H' as (? & -> & ->). split; [done|].
    unfold spec_qos, mret, parsed_ret in Hq. cbv zeta in Hq. by repeat case_decide; simplify_eq. }
  case_decide.
  { intros H'. apply IH in H'; [done|lia|]. destruct Ho as (?&?&?&?&?&?&?&?). by split_and!. }
  case_decide; [|done]. unfold spec_will. repeat (case_match; try done).
Qed.

Lemma find_colon_drop s pos : find_colon (c_chars s) = Some pos → ∃ s', drop pos s = 58 :: s'.
Proof.
  revert pos. induction s as [|c s IH]; intros pos; [done|]. cbn [c_chars]. case_decide; [done|].
  cbn [find_colon]. case_decide as Hc; [intros [= <-]; subst c; by exists s|].
  destruct (find_colon (c_chars s)) as [p|]; [|done]. intros [= <-]. by apply IH.
Qed.

(** A host as the positional argument gives it. *)
Definition parsed_host (a : settings) : Prop :=
  (find_colon (c_chars (s_host a)) = None ∧ s_port a = 1883) ∨ ∃ s, s_host a = 58 :: s.

Lemma initial_fixed op m : fixed_options (initial_options op m).
Proof. split_and!; try done. by left. Qed.

Lemma parse_args_fixed argv errno a :
  errno ≠ ENOMSG → parse_args argv errno = Ok (inr a) →
  fixed_options (s_options a) ∧ parsed_host a ∧
  (operation (s_options a) = Op_PUBLISH ↔ is_Some (publish_message (s_options a))).
Proof.
  intros He. rewrite parse_args_spec by done. unfold spec_args.
  destruct (spec_operation (tl argv)) as [[|[o l]]|] eqn:Hop; [done| |done].
  assert (Ho : fixed_options o ∧ (operation o = Op_PUBLISH ↔ is_Some (publish_message o))).
  { unfold spec_operation in Hop. destruct (tl argv) as [|s l']; [done|].
    case_decide; [destruct l' as [|m l']; [done|]|case_decide; [|done]]; injection Hop as <- <-;
      (split; [apply initial_fixed|]); by split; [|try intros [? ?]]. }
  destruct Ho as [Ho Hpub]. cbn [mbind parsed_bind].
  destruct (spec_options o l) as [[|[o' l']]|] eqn:Hopt; [done| |done].
  destruct (spec_options_fixed _ o l o' l' (Nat.le_refl _) Ho Hopt) as (Ho' & Hop' & Hmsg').
  cbn [mbind parsed_bind]. unfold positionals. destruct l' as [|h [|c [|t l']]]; [done..|].
  destruct (find_colon (c_chars h)) as [pos|] eqn:Hc; intros [= <-]; cbn [s_options];
    rewrite Hop', Hmsg'; (split; [done|]; split; [|done]).
  - right. by apply find_colon_drop.
  - by left.
Qed.

(** What no command line can ask for.  Where the arguments are accepted, the
    keep-alive is 30 and there is no last will: [-k] is refused whatever its
    argument, because [errno] is not [ENOMSG], and [-W] runs into the default of
    the switch.  A quality of service other than 0 comes with a clean session.
    A host with a port starts with the colon. *)
Theorem accepted_command_lines argv errno a :
  errno ≠ ENOMSG → parse_args argv errno = Ok (inr a) →
  keep_alive_sec (s_options a) = 30 ∧ last_will (s_options a) = false ∧
  (qos (s_options a) ∈ [QoS0; QoS1; QoS2]) ∧ (qos (s_options a) ≠ QoS0 → clean_session (s_options a) = true) ∧
  ((find_colon (c_chars (s_host a)) = None ∧ s_port a = 1883) ∨ ∃ s, s_host a = 58 :: s).
Proof.
  intros He Ha. destruct (parse_args_fixed argv errno a He Ha) as ((?&?&?&?&?&?&?&?) & Hh & _). by split_and!.
Qed.

(** * Runs against a conforming broker *)

(** The CONNECT of a command line. *)
Definition settings_params (a : settings) : connect_params := {|
  cp_client_id := s_client_id a;
  cp_user := user (s_options a);
  cp_pw := pw (s_options a);
  cp_keep_alive := 30;
  cp_clean := clean_session (s_options a);
  cp_will := None;
  cp_will_qos := 0;
  cp_will_retain := false
|}.

(** Arguments that fit what the library takes. *)
Record settings_ok (a : settings) : Prop := {
  so_client_id : short_string (s_client_id a) ∧ zlen (s_client_id a) < MAX_XLIENT_ID_CHARS;
  so_user : opt_short (user (s_options a));
  so_pw : opt_short (pw (s_options a));
  so_host : nul_free (s_host a) ∧ zlen (s_host a) < MAX_HOSTNAME_CHARS;
  so_topic : short_string (s_topic a);
  so_message : opt_message_ok (publish_message (s_options a));
  so_connect : zlen (mqtt_connect (settings_params a)) ≤ BUFFER_SIZE
}.

Section runs.
Context {W : Type} (srv : server_t W).

Lemma settings_connect_ok a : settings_ok a → connect_ok (settings_params a).
Proof using Type. intros [[? _] ? ? _ _ _ _]. split; try done; cbn; lia. Qed.

(** The connection of [main], in the terms of [connect_with]. *)
Lemma main_connects argv errno a malloc fuel s :
  errno ≠ ENOMSG → parse_args argv errno = Ok (inr a) →
  main srv malloc fuel argv errno s =
    ('(stat, result) ← connect_with srv malloc (s_host a) (s_port a) (settings_params a);
     if decide (stat ≠ SMQTT_OK) then mret (Some 1, [Err "Failed to connect"]) else
     let c := match result with Some (Some c) => Some c | _ => None end in
     match operation (s_options a) with
     | Op_PUBLISH => main_publish c a
     | Op_SUBSCRIBE => main_subscribe fuel c a
     end) s.
Proof using Type.
  intros He Ha. destruct (parse_args_fixed argv errno a He Ha) as ((Hk & Hw & Hq & Hr & Ht & Hm & _) & _ & _).
  unfold main. rewrite Ha. unfold connect_with, settings_params. cbn. by rewrite Hk, Hw, Hq, Hr, Ht, Hm.
Qed.

(** The client a run goes on with. *)
Definition run_client (a : settings) (junk : Z) : smqtt_client W :=
  new_client srv (s_host a) (s_port a) (settings_params a) junk.

(** The connection is accepted, and the operation follows. *)
Lemma main_connected n K junk fuel argv errno a Q :
  errno ≠ ENOMSG → parse_args argv errno = Ok (inr a) → settings_ok a →
  triple (in_conversation n K)
    (match operation (s_options a) with
     | Op_PUBLISH => main_publish (Some (run_client a junk)) a
     | Op_SUBSCRIBE => main_subscribe fuel (Some (run_client a junk)) a
     end) Q →
  triple (in_conversation n (connect_conversation srv (s_host a) (s_port a) (settings_params a) Connection_Accepted K))
    (main srv (Some junk) fuel argv errno) Q.
Proof using Type.
  intros He Ha Hok Hk. pose proof Hok as [[Hid Hidl] _ _ [Hip Hipl] _ _ Hcl].
  intros s Hs. rewrite (main_connects argv errno a (Some junk) fuel s He Ha). revert s Hs.
  eapply triple_bind; [apply connect_result_spec; try done; by apply settings_connect_ok|].
  intros [stat o]. apply triple_pure. rewrite decide_True by done. intros [= -> ->].
  by rewrite decide_False by auto.
Qed.

Lemma main_publishes_spec n K junk fuel argv errno a msg :
  errno ≠ ENOMSG → parse_args argv errno = Ok (inr a) → settings_ok a →
  publish_message (s_options a) = Some msg → zlen (mqtt_publish (s_topic a) 1 1 false msg) ≤ BUFFER_SIZE →
  triple
    (in_conversation n (connect_conversation srv (s_host a) (s_port a) (settings_params a) Connection_Accepted
       (publish_conversation srv (s_topic a) (Some msg) QoS1 false 1
          (sends srv (mqtt_empty DISCONNECT) (closes srv K)))))
    (main srv (Some junk) fuel argv errno)
    (λ r s, r = (Some 0, [Out "Sent message"]) ∧ in_conversation n K s).
Proof using Type.
  intros He Ha Hok Hmsg Hl. destruct (parse_args_fixed argv errno a He Ha) as (_ & _ & Hop).
  apply main_connected; [done..|]. destruct (operation (s_options a)).
  2:{ destruct Hop as [_ Hop]. discriminate Hop. by rewrite Hmsg. }
  unfold main_publish, use_client. apply triple_ret_bind. rewrite Hmsg. pose proof Hok as [_ _ _ _ Ht Hm _].
  rewrite Hmsg in Hm. eapply triple_bind.
  { apply (publish_completes_spec srv (run_client a junk) eq_refl n _ (s_topic a) (Some msg) QoS1 false);
      [done|done|done|unfold QoS1; lia|cbn; lia|done]. }
  intros [stat c]. apply triple_pure. intros [= -> ->]. rewrite decide_False by auto.
  eapply triple_bind; [by apply (disconnect_spec srv)|]. intros st. apply triple_pure. intros _. apply conv_ret.
Qed.

(** Publishing from the command line.  The program connects with the arguments
    given, publishes the message at QoS 1, whatever [-q] said, waits for the
    acknowledgement, disconnects, says so and ends with code 0. *)
Theorem main_publishes n K junk fuel argv errno a msg :
  errno ≠ ENOMSG → parse_args argv errno = Ok (inr a) → settings_ok a →
  publish_message (s_options a) = Some msg → zlen (mqtt_publish (s_topic a) 1 1 false msg) ≤ BUFFER_SIZE →
  triple
    (in_conversation n (connect_conversation srv (s_host a) (s_port a) (settings_params a) Connection_Accepted
       (publish_conversation srv (s_topic a) (Some msg) QoS1 false 1
          (sends srv (mqtt_empty DISCONNECT) (closes srv K)))))
    (main srv (Some junk) fuel argv errno)
    (λ r s, r = (Some 0, [Out "Sent message"]) ∧ in_conversation n K s).
Proof using Type.
  exact (main_publishes_spec n K junk fuel argv errno a msg).
Qed.

(** ** Subscribing *)

(** One message of a broker. *)
Record broker_message := mk_broker_message {
  bm_topic : list Z; bm_msg : list Z; bm_qos : Z; bm_retain : bool; bm_id : Z
}.

Definition broker_message_ok (b : broker_message) : Prop :=
  short_string (bm_topic b) ∧ zlen (bm_msg b) < 65536 ∧ 0 ≤ bm_id b < 256 ∧ 0 ≤ bm_qos b ≤ 2 ∧
  zlen (mqtt_publish (bm_topic b) (bm_id b) (bm_qos b) (bm_retain b) (bm_msg b)) ≤ BUFFER_SIZE.

(** The messages in turn, each acknowledged. *)
Fixpoint messages_conversation (l : list broker_message) (K : W → Prop) : W → Prop :=
  match l with
  | [] => K
  | b :: l =>
      receive_conversation srv (bm_topic b) (bm_msg b) (bm_qos b) (bm_retain b) (bm_id b)
        (messages_conversation l K)
  end.

(** A packet that is not a message. *)
Definition other_packet (p : list Z) : Prop :=
  zlen p ≤ BUFFER_SIZE ∧
  ∀ rest, ∃ resp, deserialize_response (p ++ rest) (zlen p) = Ok (Some resp) ∧ type resp ≠ PUBLISH.

(** The responses [smqtt_get_next_message] does not free. *)
Definition lost_responses (l : list broker_message) : Z :=
  zlen (filter (λ b, bm_qos b = QoS1) l).

Lemma c_chars_idem s : c_chars (c_chars s) = c_chars s.
Proof using Type. apply c_chars_nul_free, nul_free_c_chars. Qed.

Lemma c_chars_zeros s k : c_chars (c_chars s ++ replicate k 0) = c_chars s.
Proof using Type.
  induction s as [|c s IH]; [by destruct k|]. cbn [c_chars]. case_decide; [by destruct k|].
  cbn [app c_chars]. by rewrite decide_False, IH by done.
Qed.

Lemma length_c_chars s : (List.length (c_chars s) ≤ List.length s)%nat.
Proof using Type. induction s as [|c s IH]; [done|]. cbn [c_chars]. case_decide; simpl; lia. Qed.

(** The characters of a message up to a NUL. *)
Lemma print_message_ok id msg : print_message (mk_received id (Some (strncpy_of msg)) (Some (zlen msg))) = Ok (Got (c_chars msg)).
Proof using Type.
  assert (Hl : List.length (strncpy_of msg) = List.length msg)
    by (unfold strncpy_of; rewrite length_app, length_replicate; pose proof (length_c_chars msg); lia).
  unfold print_message. cbn [out_message out_message_size]. unfold zlen. rewrite Nat2Z.id.
  rewrite strncpy_bytes_take, bind_ok, take_ge by lia. unfold strncpy_of. by rewrite c_chars_zeros.
Qed.

Lemma printed_line (P : sys W → Prop) id msg :
  triple P (λ s, l ← print_message (mk_received id (Some (strncpy_of msg)) (Some (zlen msg))); Ok (l, s))
    (λ line s, line = Got (c_chars msg) ∧ P s).
Proof using Type. intros s Hs. rewrite print_message_ok, bind_ok. do 2 eexists. by split. Qed.

Definition printed_messages (l : list broker_message) : list printed := (λ b, Got (c_chars (bm_msg b))) <$> l.

(** A round for each message, then [fuel] more. *)
Lemma receive_loop_spec (c : smqtt_client W) K fuel Q l : server c = Some srv → ∀ n,
  Forall broker_message_ok l →
  triple (in_conversation (n + lost_responses l) K) (receive_loop fuel c) Q →
  triple (in_conversation n (messages_conversation l K)) (receive_loop (List.length l + fuel) c)
    (λ r s, ∃ r', r = (r'.1, printed_messages l ++ r'.2) ∧ Q r' s).
Proof using Type.
  intros Hc. induction l as [|b l IH]; intros n Hl HQ; cbn [List.length plus receive_loop].
  - assert (n + lost_responses [] = n) as Hn by (unfold lost_responses; change (zlen (filter _ [])) with 0; lia).
    rewrite Hn in HQ. intros s Hs. destruct (HQ s Hs) as ([code out] & s' & -> & Hq). exists (code, out), s'.
    split; [done|]. by exists (code, out).
  - apply Forall_cons in Hl as [(Ht & Hm & Hid & Hq & Hb) Hl].
    eapply triple_bind; [by apply (get_next_message_receives_spec srv c Hc)|].
    intros [stat r]. apply triple_pure. intros [= -> ->]. rewrite (decide_False (P := SMQTT_OK ≠ SMQTT_OK)) by auto.
    eapply triple_bind; [by apply printed_line|]. intros line. apply triple_pure. intros ->.
    eapply triple_bind; [apply IH; [done|]|].
    { eapply triple_pre; [exact HQ|]. intros s. unfold lost_responses. rewrite filter_cons. case_decide; [|done].
      rewrite zlen_cons. by replace (n + (1 + zlen (filter (λ b, bm_qos b = QoS1) l)))
        with (n + 1 + zlen (filter (λ b, bm_qos b = QoS1) l)) by lia. }
    intros [code out] s (r & Heq & Hq'). injection Heq as -> ->. eexists _, s. split; [reflexivity|]. by exists r.
Qed.

(** A packet that is not a message ends the loop. *)
Lemma receive_loop_stops (c : smqtt_client W) K fuel n p :
  server c = Some srv → other_packet p →
  triple (in_conversation n (gets srv p K)) (receive_loop (S fuel) c)
    (λ r s, r = (Some 1, [Err "Failed to retrieve message"]) ∧ in_conversation n K s).
Proof using Type.
  intros Hc [Hl Hp]. cbn [receive_loop].
  eapply triple_bind with (Q := λ r s, r = (SMQTT_UNEXPECTED, nothing_received) ∧ in_conversation n K s).
  - unfold smqtt_get_next_message. eapply triple_bind; [by apply (conv_await srv c Hc)|]. intros sz. apply triple_pure.
    intros ->. pose proof (zlen_nonneg p). rewrite (decide_False (P := zlen p < 0)) by lia.
    apply (conv_parse n p (zlen p) K (λ _ resp, type resp ≠ PUBLISH)); [done|]. intros m resp Ht.
    eapply triple_pre with (P' := in_conversation (n + 1) K); [|by intros s [_ ?]].
    destruct (type resp) eqn:E; try done; by apply conv_free, conv_ret.
  - intros [stat r]. apply triple_pure. intros [= -> ->]. rewrite decide_True by done. apply conv_ret.
Qed.

(** Up to the loop. *)
Lemma main_subscribed n K junk fuel argv errno a r s :
  errno ≠ ENOMSG → parse_args argv errno = Ok (inr a) → settings_ok a →
  publish_message (s_options a) = None → 0 ≤ sub_qos r ≤ 2 →
  zlen (mqtt_subscribe 2 [(s_topic a, qos (s_options a))]) ≤ BUFFER_SIZE →
  in_conversation n (connect_conversation srv (s_host a) (s_port a) (settings_params a) Connection_Accepted
    (sends srv (mqtt_subscribe 2 [(s_topic a, qos (s_options a))]) (gets srv (mqtt_suback 2 [r]) K))) s →
  ∃ c s', main srv (Some junk) fuel argv errno s =
      ('(code, out) ← receive_loop fuel c; mret (code, Out "Subscribed" :: out)) s' ∧
    server c = Some srv ∧ in_conversation n K s'.
Proof using Type.
  intros He Ha Hok Hmsg Hr Hl Hs.
  destruct (parse_args_fixed argv errno a He Ha) as ((_ & _ & _ & _ & _ & _ & Hq & _) & _ & Hop).
  pose proof Hok as [[Hid Hidl] _ _ [Hip Hipl] Ht _ Hcl]. rewrite (main_connects argv errno a (Some junk) fuel s He Ha).
  destruct (connect_result_spec srv n _ junk (s_host a) (s_port a) (settings_params a) Connection_Accepted
    (settings_connect_ok a Hok) Hidl Hip Hipl Hcl ltac:(by split; vm_compute) s Hs) as (x & s1 & Hconn & -> & Hs1).
  rewrite M_bind_run, Hconn, bind_ok. rewrite (decide_False (P := connack_status Connection_Accepted ≠ SMQTT_OK)) by auto.
  rewrite (decide_True (P := Connection_Accepted = Connection_Accepted)) by done. destruct (operation (s_options a)).
  { destruct Hop as [Hop _]. destruct Hop as [? Hop]; [done|]. by rewrite Hmsg in Hop. }
  unfold main_subscribe. rewrite M_bind_run. cbn [use_client].
  change (@mret (M W) _ _ ?c s1) with (Ok (c, s1)). rewrite bind_ok.
  destruct (subscribe_completes_spec srv (run_client a junk) eq_refl n K [(s_topic a, qos (s_options a))] [r])
    with (s := s1) as (x & s2 & Hsub & -> & Hs2); [done| |by constructor|unfold MAX_TOPICS; simpl; lia|cbn; lia|done|done|].
  { constructor; [|constructor]. split; [done|]. cbn [snd]. apply list_elem_of_In in Hq. simpl in Hq.
    unfold byte_range, QoS0, QoS1, QoS2 in *. lia. }
  rewrite M_bind_run. cbn [fmap list_fmap fst snd] in Hsub. change (zlen [(s_topic a, qos (s_options a))]) with 1 in Hsub.
  unfold run_client in Hsub. rewrite Hsub, bind_ok.
  rewrite (decide_False (P := SMQTT_OK ≠ SMQTT_OK)) by auto. by eexists _, s2.
Qed.

(** C14. Subscribing from the command line.  With a broker that accepts the
    connection and the subscription and sends messages, the program says that it
    subscribed, prints the messages in order, each up to its first NUL,
    acknowledges each as its quality of service asks, and goes on: after as many
    rounds of its loop as there were messages it has printed these lines and is
    running still. *)
Theorem main_subscribes n K junk argv errno a r l :
  errno ≠ ENOMSG → parse_args argv errno = Ok (inr a) → settings_ok a →
  publish_message (s_options a) = None → 0 ≤ sub_qos r ≤ 2 →
  zlen (mqtt_subscribe 2 [(s_topic a, qos (s_options a))]) ≤ BUFFER_SIZE →
  Forall broker_message_ok l →
  triple
    (in_conversation n (connect_conversation srv (s_host a) (s_port a) (settings_params a) Connection_Accepted
       (sends srv (mqtt_subscribe 2 [(s_topic a, qos (s_options a))])
          (gets srv (mqtt_suback 2 [r]) (messages_conversation l K)))))
    (main srv (Some junk) (List.length l) argv errno)
    (λ res s, res = (None, Out "Subscribed" :: ((λ b, Got (c_chars (bm_msg b))) <$> l)) ∧
       in_conversation (n + lost_responses l) K s).
Proof using Type.
  intros He Ha Hok Hmsg Hr Hl Hms s Hs.
  destruct (main_subscribed n _ junk (List.length l) argv errno a r s He Ha Hok Hmsg Hr Hl Hs) as (c & s' & -> & Hc & Hs').
  revert s' Hs'. rewrite <- (Nat.add_0_r (List.length l)). eapply triple_bind.
  { apply (receive_loop_spec c K 0 (λ r s, r = (None, []) ∧ in_conversation (n + lost_responses l) K s)); [done..|].
    apply conv_ret. }
  intros [code out] s1 (r' & Heq & -> & Hs1). injection Heq as -> ->. cbn [fst snd]. rewrite app_nil_r.
  by eexists _, s1.
Qed.

(** C15. What ends it.  A packet of the broker that is not a PUBLISH, such as a
    PINGRESP, is taken for a failure: after the messages before it the program ends
    with code 1, without unsubscribing or disconnecting. *)
Theorem main_subscriber_stops n K junk fuel argv errno a r l p :
  errno ≠ ENOMSG → parse_args argv errno = Ok (inr a) → settings_ok a →
  publish_message (s_options a) = None → 0 ≤ sub_qos r ≤ 2 →
  zlen (mqtt_subscribe 2 [(s_topic a, qos (s_options a))]) ≤ BUFFER_SIZE →
  Forall broker_message_ok l → other_packet p →
  triple
    (in_conversation n (connect_conversation srv (s_host a) (s_port a) (settings_params a) Connection_Accepted
       (sends srv (mqtt_subscribe 2 [(s_topic a, qos (s_options a))])
          (gets srv (mqtt_suback 2 [r]) (messages_conversation l (gets srv p K))))))
    (main srv (Some junk) (List.length l + S fuel) argv errno)
    (λ res s, res = (Some 1, Out "Subscribed" :: ((λ b, Got (c_chars (bm_msg b))) <$> l) ++ [Err "Failed to retrieve message"]) ∧
       in_conversation (n + lost_responses l) K s).
Proof using Type.
  intros He Ha Hok Hmsg Hr Hl Hms Hp s Hs.
  destruct (main_subscribed n _ junk (List.length l + S fuel) argv errno a r s He Ha Hok Hmsg Hr Hl Hs) as (c & s' & -> & Hc & Hs').
  revert s' Hs'. eapply triple_bind; [apply receive_loop_spec; [done..|by apply receive_loop_stops]|].
  intros [code out] s1 (r' & Heq & -> & Hs1). injection Heq as -> ->. by eexists _, s1.
Qed.

End runs.

(** * Witnesses *)

Definition publish_line : list (list Z) :=
  map chars ["smqttc"; "-P"; "hi"; "-q"; "2"; "localhost"; "c"; "t"]%string.

Definition subscribe_line : list (list Z) :=
  map chars ["smqttc"; "-S"; "-q"; "1"; "localhost"; "c"; "t"]%string.

Definition parsed_settings (argv : list (list Z)) : settings :=
  match parse_args argv 0 with
  | Ok (inr a) => a
  | _ => mk_settings (initial_options Op_PUBLISH None) [] 0 [] []
  end.

Lemma accepted_command_lines_witness :
  parse_args publish_line 0 = Ok (inr (parsed_settings publish_line)) ∧
  keep_alive_sec (s_options (parsed_settings publish_line)) = 30.
Proof.
  split; [by vm_compute|]. by apply (accepted_command_lines publish_line 0 (parsed_settings publish_line)); vm_compute.
Defined.

Lemma settings_ok_publish : settings_ok (parsed_settings publish_line).
Proof. split; try done; by apply (bool_decide_unpack _); vm_compute. Qed.

Lemma settings_ok_subscribe : settings_ok (parsed_settings subscribe_line).
Proof. split; try done; by apply (bool_decide_unpack _); vm_compute. Qed.

Lemma main_publishes_witness :
  ∃ r s, main scripted (Some 77) 0 publish_line 0 (initial_sys [mqtt_connack 0; mqtt_ack PUBACK 0 1]) = Ok (r, s) ∧
    r = (Some 0, [Out "Sent message"]) ∧ in_conversation 0 finished s.
Proof.
  apply (main_publishes scripted 0 finished 77 0 publish_line 0 (parsed_settings publish_line) (chars "hi")).
  - by vm_compute.
  - by vm_compute.
  - exact settings_ok_publish.
  - by vm_compute.
  - by vm_compute.
  - apply in_initial, scripted_opens, scripted_sends, scripted_gets, scripted_sends, scripted_gets, scripted_sends,
      scripted_closes. done.
Defined.

Definition two_messages : list broker_message :=
  [mk_broker_message (chars "t") (chars "one") 0 false 0; mk_broker_message (chars "t") (chars "two") 1 false 9].

Lemma main_subscribes_witness :
  ∃ res s, main scripted (Some 77) 2 subscribe_line 0
      (initial_sys ([mqtt_connack 0; mqtt_suback 2 [mk_sub_result true 1]] ++
                    [mqtt_publish (chars "t") 0 0 false (chars "one"); mqtt_publish (chars "t") 9 1 false (chars "two")]))
      = Ok (res, s) ∧
    res = (None, [Out "Subscribed"; Got (chars "one"); Got (chars "two")]) ∧
    in_conversation 1 finished s.
Proof.
  apply (main_subscribes scripted 0 finished 77 subscribe_line 0 (parsed_settings subscribe_line)
           (mk_sub_result true 1) two_messages).
  - by vm_compute.
  - by vm_compute.
  - exact settings_ok_subscribe.
  - by vm_compute.
  - by vm_compute.
  - by vm_compute.
  - repeat constructor; by vm_compute.
  - apply in_initial, scripted_opens, scripted_sends, scripted_gets, scripted_sends, scripted_gets, scripted_gets, scripted_gets,
      scripted_sends. done.
Defined.

Lemma pingresp_other : other_packet (mqtt_empty PINGRESP).
Proof.
  split; [by vm_compute|]. intros rest. eexists. split; [apply deserialize_mqtt_empty; [by vm_compute|auto]|done].
Qed.

Lemma main_subscriber_stops_witness :
  ∃ res s, main scripted (Some 77) (2 + 1) subscribe_line 0
      (initial_sys ([mqtt_connack 0; mqtt_suback 2 [mk_sub_result true 1]] ++
                    [mqtt_publish (chars "t") 0 0 false (chars "one"); mqtt_publish (chars "t") 9 1 false (chars "two");
                     mqtt_empty PINGRESP]))
      = Ok (res, s) ∧
    res = (Some 1, [Out "Subscribed"; Got (chars "one"); Got (chars "two"); Err "Failed to retrieve message"]) ∧
    in_conversation 1 finished s.
Proof.
  apply (main_subscriber_stops scripted 0 finished 77 0 subscribe_line 0 (parsed_settings subscribe_line)
           (mk_sub_result true 1) two_messages (mqtt_empty PINGRESP)).
  - by vm_compute.
  - by vm_compute.
  - exact settings_ok_subscribe.
  - by vm_compute.
  - by vm_compute.
  - by vm_compute.
  - repeat constructor; by vm_compute.
  - exact pingresp_other.
  - apply in_initial, scripted_opens, scripted_sends, scripted_gets, scripted_sends, scripted_gets, scripted_gets, scripted_gets,
      scripted_sends, scripted_gets. done.
Defined.
