(* ===== verification/MainSafe.v ===== *)
(** MainSafe: memory safety of the command line client.  On any server that keeps
    the laws of the interface, and whatever the peer sends, the program does not
    fault on command lines whose packets fit. *)

From S2P Require Import Prelude Protocol Size Wire Serialize Deserialize Codec Server NetworkServer Client ClientSafe ClientSession ClientProtocol Main MainRun.
From Stdlib Require Import String.

#[local] Open Scope Z_scope.

(** Arguments whose packets fit in the send buffer, and that are not too long for
    [smqtt_connect], which then leaves the client null. *)
Record settings_fit (a : settings) : Prop := {
  sf_client_id : nul_free (s_client_id a) ∧ strlen (s_client_id a) < MAX_XLIENT_ID_CHARS;
  sf_host : strlen (s_host a) < MAX_HOSTNAME_CHARS;
  sf_connect : connect_size (settings_params a) ≤ BUFFER_SIZE;
  sf_publish : 9 + strlen (s_topic a) + opt_len (publish_message (s_options a)) ≤ BUFFER_SIZE;
  sf_subscribe : 7 + topics_size true [s_topic a] ≤ BUFFER_SIZE
}.

Section safe.
Context {W : Type} (srv : server_t W) `{!ServerLaws srv}.

(** ** Receiving *)

Lemma print_message_safe id m size : List.length m = Z.to_nat size → ∃ l, print_message (mk_received id (Some m) (Some size)) = Ok l.
Proof using Type.
  intros Hm. unfold print_message. cbn [out_message out_message_size].
  rewrite strncpy_bytes_take, bind_ok by lia. by eexists.
Qed.

Lemma receive_loop_safe fuel (c : smqtt_client W) : ∀ s,
  server c = Some srv → open srv s → is_ok (receive_loop fuel c s) = true.
Proof using Type*.
  induction fuel as [|fuel IH]; intros s Hc Hs; [done|]. cbn [receive_loop]. rewrite M_bind_run.
  destruct (safe_get_next_message srv c Hc s Hs) as ([st r] & s1 & -> & Hr & Ho). rewrite bind_ok.
  case_decide as Hst; [done|]. assert (st = SMQTT_OK) as -> by by destruct (decide (st = SMQTT_OK)).
  destruct (Hr eq_refl) as (id & m & size & Heq & Hm). cbn [snd] in Heq. subst r.
  destruct (print_message_safe id m size Hm) as [line Hline].
  rewrite M_bind_run, Hline, !bind_ok. rewrite M_bind_run.
  apply (open_if_holds srv) in Ho; [|by left].
  specialize (IH s1 Hc Ho). by destruct (receive_loop fuel c s1) as [[[code out] s2]|e].
Qed.

(** ** Sending *)

Section sending.
Hypothesis Hsend : sends_succeed srv.

Lemma sure_publish (c : smqtt_client W) topic msg :
  server c = Some srv → 9 + strlen topic + opt_len msg ≤ BUFFER_SIZE →
  triple (open srv) (smqtt_publish c topic msg QoS1 false) (λ r s, server r.2 = Some srv ∧ open srv s).
Proof using Type*.
  intros Hc Hk s Hs. destruct (safe_publish srv c topic msg QoS1 false Hc Hk s Hs) as (r & s' & Hr & Hc' & Ho).
  exists r, s'. split; [done|]. split; [done|]. eapply (open_if_holds srv); [by right|exact Ho].
Qed.

Lemma sure_disconnect (c : smqtt_client W) :
  server c = Some srv → triple (open srv) (smqtt_disconnect c) (λ _, buffers_ok).
Proof using Type*.
  intros Hc. unfold smqtt_disconnect. eapply triple_bind; [apply safe_transmit; [done|apply make_empty_ok]|].
  intros st. apply triple_pure. intros _.
  eapply triple_pre; [|intros s Hs; apply (open_if_open srv True); eapply (open_if_holds srv); [by right|exact Hs]].
  eapply triple_bind; [by apply safe_close|]. intros []. apply triple_if; intros _; by apply triple_ret.
Qed.

End sending.

(** ** Connecting *)

Lemma mret_inv {A} (a b : A) (s s' : sys W) : (mret a : M W A) s = Ok (b, s') → a = b.
Proof using Type. by intros [= ->]. Qed.

(** [SMQTT_OK] comes with a client, where the strings are not too long. *)
Lemma connect_ok_client junk ip port p s st r s' :
  strlen (cp_client_id p) < MAX_XLIENT_ID_CHARS → strlen ip < MAX_HOSTNAME_CHARS →
  connect_with srv (Some junk) ip port p s = Ok ((st, r), s') → st = SMQTT_OK → ∃ c, r = Some (Some c).
Proof using Type.
  intros Hid Hip Hc ->. unfold connect_with, smqtt_connect, smqtt_connect_internal in Hc.
  rewrite decide_False in Hc by (unfold MAX_XLIENT_ID_CHARS, MAX_HOSTNAME_CHARS in *; lia).
  repeat match type of Hc with
  | (_ ≫= _) _ = Ok _ => rewrite M_bind_run in Hc; apply bind_ok_inv in Hc as ([? ?] & _ & Hc)
  | (if ?d then _ else _) _ = Ok _ => destruct d
  | (match ?x with Some _ => _ | None => _ end) _ = Ok _ => destruct x
  | (match ?x with _ => _ end) _ = Ok _ => destruct x
  end; apply mret_inv in Hc; pose proof (f_equal fst Hc) as Hst; apply (f_equal snd) in Hc; cbn [fst snd] in Hst, Hc; subst r; try congruence; try (by eexists);
    repeat match type of Hst with (if ?c then _ else _) = _ => destruct c end; by subst.
Qed.

(** ** The program *)

Lemma main_safe_spec junk fuel argv errno a w :
  errno ≠ ENOMSG → parse_args argv errno = Ok (inr a) → settings_fit a → fresh w →
  (operation (s_options a) = Op_PUBLISH → sends_succeed srv) →
  is_ok (main srv (Some junk) fuel argv errno (initial_sys w)) = true.
Proof using Type*.
  intros He Ha [[Hid Hidl] Hhost Hconn Hpub Hsub] Hf Hsend. rewrite (main_connects srv argv errno a (Some junk) fuel _ He Ha).
  rewrite M_bind_run. unfold connect_with.
  destruct (safe_connect srv (Some junk) (s_host a) (s_port a) (settings_params a) Hconn Hid (initial_sys w))
    as ([st r] & s1 & Hrun & Hb & Hr); [split; [apply initial_buffers_ok|done]|].
  rewrite Hrun, bind_ok. case_decide as Hst; [done|].
  assert (st = SMQTT_OK) as -> by by destruct (decide (st = SMQTT_OK)).
  destruct (connect_ok_client junk (s_host a) (s_port a) (settings_params a) _ _ _ _ Hidl Hhost Hrun eq_refl) as [c ->]. cbn [snd] in Hr.
  destruct Hr as (Hc & _ & Hl). assert (Ho : open srv s1) by by split.
  destruct (operation (s_options a)) eqn:Hop.
  - unfold main_publish. cbn [use_client].
    destruct (sure_publish (Hsend eq_refl) c (s_topic a) (publish_message (s_options a)) Hc Hpub s1 Ho)
      as ([st' c'] & s2 & Hp & Hc' & Ho').
    rewrite M_bind_run. change (@mret (M W) _ _ ?c s1) with (Ok (c, s1)). rewrite bind_ok, M_bind_run, Hp, bind_ok.
    destruct (sure_disconnect (Hsend eq_refl) c' Hc' s2 Ho') as (st'' & s3 & Hd & _).
    rewrite M_bind_run, Hd, bind_ok. done.
  - unfold main_subscribe. cbn [use_client].
    rewrite M_bind_run. change (@mret (M W) _ _ ?c s1) with (Ok (c, s1)). rewrite bind_ok.
    destruct (safe_subscribe srv c [(s_topic a, qos (s_options a))] Hc Hsub s1 Ho) as ([st' c'] & s2 & Hs & Hc' & Ho').
    rewrite M_bind_run. cbn [fmap list_fmap fst snd] in Hs. change (zlen [(s_topic a, qos (s_options a))]) with 1 in Hs.
    rewrite Hs, bind_ok. case_decide as Hst'; [done|]. rewrite M_bind_run.
    assert (st' = SMQTT_OK) as -> by by destruct (decide (st' = SMQTT_OK)).
    apply (open_if_holds srv) in Ho'; [|by left].
    pose proof (receive_loop_safe fuel c' s2 Hc' Ho') as Hloop. by destruct (receive_loop fuel c' s2) as [[[code out] s3]|e].
Qed.

(** C7. Memory safety of the command line client.  On any server that keeps the
    laws of the interface, with any bytes from the peer, a command line that is
    accepted and whose packets fit makes the program end or go on receiving, for
    as many rounds of its loop as one likes, and never fault; for [-P], where
    sends succeed. *)
Theorem main_safe junk fuel argv errno a w :
  errno ≠ ENOMSG → parse_args argv errno = Ok (inr a) → settings_fit a → fresh w →
  (operation (s_options a) = Op_PUBLISH → sends_succeed srv) →
  is_ok (main srv (Some junk) fuel argv errno (initial_sys w)) = true.
Proof using Type*. exact (main_safe_spec junk fuel argv errno a w). Qed.

(** What does not fit crashes it.  A client identifier of 24 characters or more, or a
    host of 100 or more, is refused by [smqtt_connect] with [SMQTT_OK] and no
    client: the program then dereferences the null pointer, whatever the server. *)
Theorem main_long_strings_crash junk fuel argv errno a s :
  errno ≠ ENOMSG → parse_args argv errno = Ok (inr a) →
  MAX_XLIENT_ID_CHARS ≤ strlen (s_client_id a) ∨ MAX_HOSTNAME_CHARS ≤ strlen (s_host a) →
  main srv (Some junk) fuel argv errno s = Fault NullDeref.
Proof using Type.
  intros He Ha Hl. rewrite (main_connects srv argv errno a (Some junk) fuel s He Ha).
  assert (Hc : connect_with srv (Some junk) (s_host a) (s_port a) (settings_params a) s = Ok ((SMQTT_OK, None), s)).
  { unfold connect_with, smqtt_connect, smqtt_connect_internal. cbn [cp_client_id settings_params].
    rewrite decide_True; [done|]. unfold MAX_XLIENT_ID_CHARS, MAX_HOSTNAME_CHARS in *. lia. }
  rewrite M_bind_run, Hc, bind_ok. rewrite decide_False by auto. cbv zeta. by destruct (operation (s_options a)).
Qed.

End safe.

(** * Witnesses *)

Lemma settings_fit_subscribe : settings_fit (parsed_settings subscribe_line).
Proof. split; apply (bool_decide_unpack _); vm_compute; exact I. Qed.

(** Over TCP, with a peer that accepts the connection and the subscription and then
    sends garbage. *)
Lemma main_safe_witness :
  is_ok (main create_network_server (Some 77) 20 subscribe_line 0
    (initial_sys (mk_net (Some new_impl) (mk_tcp (mqtt_connack 0 ++ mqtt_suback 2 [mk_sub_result true 1] ++ [48; 200; 1; 255; 255]) [] 100)))) = true.
Proof.
  apply (main_safe create_network_server 77 20 subscribe_line 0 (parsed_settings subscribe_line)).
  - by vm_compute.
  - by vm_compute.
  - exact settings_fit_subscribe.
  - by split; [eexists|].
  - intros Hop. vm_compute in Hop. discriminate Hop.
Defined.

Definition long_line : list (list Z) :=
  map chars ["smqttc"; "-P"; "hi"; "localhost"; "abcdefghijklmnopqrstuvwxyz"; "t"]%string.

Lemma main_long_strings_crash_witness :
  main scripted (Some 77) 0 long_line 0 (initial_sys []) = Fault NullDeref.
Proof.
  apply (main_long_strings_crash scripted 77 0 long_line 0 (parsed_settings long_line)).
  - by vm_compute.
  - by vm_compute.
  - left. by vm_compute.
Defined.
