(* ===== verification/ClientTcp.v ===== *)
(** ClientTcp: the blocking client over TCP.  The conversations of
    [ClientProtocol] are had with [create_network_server] on a byte stream of which
    every read is whole ([WholeReads]: the code needs it and POSIX does not promise
    it), so the results of the operations and of the command line client hold down
    to the bytes on the socket. *)

From S2P Require Import Prelude Protocol Size Wire Serialize Deserialize Codec Server NetworkServer Client ClientProtocol Main MainRun.
From Stdlib Require Import String.

#[local] Open Scope Z_scope.

(** * A connection that works

    [written o] is what the peer has been sent.  In a [healthy] state the calls
    succeed and a [send] of at most [BUFFER_SIZE] bytes takes them all. *)
Class Duplex (OS : Type) `{Os OS, !Stream OS} := {
  written : OS → list Z;
  healthy : OS → Prop;
  same_traffic (o o' : OS) : Prop := healthy o' ∧ pending o' = pending o ∧ written o' = written o;
  duplex_socket o : healthy o → 0 ≤ (os_socket o).1 < FD_SETSIZE ∧ same_traffic o (os_socket o).2;
  duplex_connect fd a o : healthy o → 0 ≤ (os_connect fd a o).1 ∧ same_traffic o (os_connect fd a o).2;
  duplex_setsockopt fd t o : healthy o → same_traffic o (os_setsockopt fd t o).2;
  duplex_close fd o : healthy o → same_traffic o (os_close fd o);
  duplex_select nfds fds tv o :
    healthy o → healthy (os_select nfds fds tv o).2 ∧ written (os_select nfds fds tv o).2 = written o;
  duplex_recv fd n o :
    healthy o → healthy (os_recv fd n o).2 ∧ written (os_recv fd n o).2 = written o;
  duplex_send fd bs o :
    healthy o → zlen bs ≤ BUFFER_SIZE →
    (os_send fd bs o).1 = zlen bs ∧ healthy (os_send fd bs o).2 ∧
    pending (os_send fd bs o).2 = pending o ∧ written (os_send fd bs o).2 = written o ++ bs
}.

Section tcp.
Context {OS : Type} `{Os OS, !OsLaws OS, !Stream OS, !WholeReads OS, !Duplex OS}.
Local Abbreviation net := (net_state OS).
Local Abbreviation srv := create_network_server.

(** The connection is up, [inn] is still to come and [out] was sent. *)
Definition wire (inn out : list Z) (w : net) : Prop :=
  net_live w ∧ healthy (os w) ∧ pending (os w) = inn ∧ written (os w) = out.

(** Before and after: no socket. *)
Definition unopened (inn out : list Z) (w : net) : Prop :=
  net_fresh w ∧ healthy (os w) ∧ pending (os w) = inn ∧ written (os w) = out.
Definition closed (out : list Z) (w : net) : Prop :=
  impl w = None ∧ healthy (os w) ∧ written (os w) = out.

(** ** The conversations *)

Lemma wire_opens ip port inn out (K : net → Prop) w :
  (∀ w', wire inn out w' → K w') → unopened inn out w → opens srv ip port K w.
Proof using Type*.
  intros HK ([[i Hi] _] & Hh & Hp & Hw). unfold opens, server_connect. cbn [srv_connect create_network_server].
  unfold network_connect, deref_impl. rewrite Hi, bind_ok.
  destruct (duplex_socket (os w) Hh) as [Hfd (Hh1 & Hp1 & Hw1)].
  destruct (os_socket (os w)) as [fd o1]. cbn [fst snd] in *. rewrite decide_False by lia. cbv zeta.
  destruct (duplex_connect fd (AF_INET, htons (u16 port), inet_addr ip) o1 Hh1) as [Hr (Hh2 & Hp2 & Hw2)].
  destruct (os_connect fd _ o1) as [r o2]. cbn [fst snd] in *. rewrite decide_False by lia.
  change (u16 30000) with 30000. rewrite decide_True by lia. unfold SetSocketTimeout. cbv zeta.
  destruct (duplex_setsockopt fd (Z.quot 30000 1000, Z.rem 30000 1000 * 1000) o2 Hh2) as (Hh3 & Hp3 & Hw3).
  eexists. split; [reflexivity|]. apply HK. split; [exists (mk_impl (Some fd) (Some (AF_INET, htons (u16 port), inet_addr ip)) (read_fds i)), fd; by split|].
  cbn [os]. split_and!; congruence.
Qed.

Lemma wire_sends bs inn out (K : net → Prop) w :
  2 ≤ zlen bs ≤ BUFFER_SIZE → (∀ w', wire inn (out ++ bs) w' → K w') → wire inn out w → sends srv bs K w.
Proof using Type*.
  intros Hl HK (Hlive & Hh & Hp & Hw) b Hlb Hb. destruct Hlive as (i & fd & Hi & Hs & Hfd).
  destruct (duplex_send fd bs (os w) Hh ltac:(lia)) as (Hr & Hh' & Hp' & Hw').
  unfold server_send. cbn [srv_send create_network_server].
  destruct (os_send fd bs (os w)) as [r o] eqn:Hsend. cbn [fst snd] in *.
  rewrite (network_send_outcomes b (zlen bs) w i fd r o Hi Hs);
    [|lia|unfold BUFFER_SIZE in *; lia|by rewrite Hb|lia].
  rewrite decide_False by lia. eexists. split; [reflexivity|]. apply HK. split; [by exists i, fd|].
  cbn [os]. split_and!; congruence.
Qed.

Lemma keeps_written w inn out sz b n b' w' :
  wire inn out w → network_receive b n w = Ok (sz, b', w') → healthy (os w') ∧ written (os w') = out.
Proof using Type*.
  intros (_ & Hh & _ & Hw) Hr.
  apply (network_receive_keeps (λ o, healthy o ∧ written o = out)) in Hr; [done| | |done].
  - intros nfds fds tv o [Ho <-]. by apply duplex_select.
  - intros fd k o [Ho <-]. by apply duplex_recv.
Qed.

Lemma wire_gets t flags bd inn out (K : net → Prop) w :
  zlen bd < 128 → (∀ w', wire inn out w' → K w') → wire (mqtt_packet t flags bd ++ inn) out w →
  gets srv (mqtt_packet t flags bd) K w.
Proof using Type*.
  intros Hp HK Hw b Hb. pose proof Hw as (Hlive & _ & Hpend & _).
  destruct (network_receive_packet b BUFFER_SIZE w (t, flags, bd) inn Hlive Hp Hpend) as (w' & Hr & Hlive' & Hp');
    [rewrite Hb; by vm_compute|].
  exists w'. split; [exact Hr|]. apply HK. split; [done|].
  destruct (keeps_written _ _ _ _ _ _ _ _ Hw Hr). by split_and!.
Qed.

Lemma wire_closes inn out (K : net → Prop) w :
  (∀ w', closed out w' → K w') → wire inn out w → closes srv K w.
Proof using Type*.
  intros HK ((i & fd & Hi & Hs & Hfd) & Hh & Hp & Hw). unfold closes, server_disconnect.
  cbn [srv_disconnect create_network_server]. unfold network_disconnect, deref_impl, get_socket.
  rewrite Hi, bind_ok, Hs, bind_ok. eexists _, _. split; [reflexivity|]. apply HK.
  destruct (duplex_close fd (os w) Hh) as (Hh' & _ & Hw'). split; [done|]. cbn [os free_impl]. split; [done|congruence].
Qed.

(** ** Publishing *)

(** What the broker answers to a publish and what the client sends. *)
Definition publish_replies (qos id : Z) : list Z :=
  if decide (qos = QoS0) then []
  else if decide (qos = QoS1) then mqtt_ack PUBACK 0 id
  else mqtt_ack PUBREC 0 id ++ mqtt_ack PUBCOMP 0 id.

Definition publish_sent (topic msg : list Z) (qos : Z) (retain : bool) (id : Z) : list Z :=
  mqtt_publish topic id qos retain msg ++ (if decide (qos = QoS2) then mqtt_ack PUBREL 2 id else []).

Lemma wire_publish topic msg qos retain id inn out (K : net → Prop) w :
  0 ≤ qos ≤ 2 → zlen (mqtt_publish topic id qos retain (default [] msg)) ≤ BUFFER_SIZE →
  (∀ w', wire inn (out ++ publish_sent topic (default [] msg) qos retain id) w' → K w') →
  wire (publish_replies qos id ++ inn) out w → publish_conversation srv topic msg qos retain id K w.
Proof using Type*.
  intros Hq Hl HK Hw. unfold publish_conversation, publish_replies, publish_sent in *.
  assert (Hp : 2 ≤ zlen (mqtt_publish topic id qos retain (default [] msg))) by apply zlen_mqtt_packet.
  destruct (decide (qos = QoS0)) as [->|]; [|destruct (decide (qos = QoS1)) as [->|]].
  - rewrite app_nil_r in HK. eapply wire_sends; [by split|exact HK|exact Hw].
  - rewrite app_nil_r in HK. eapply wire_sends; [by split| |exact Hw]. intros w1 Hw1.
    eapply wire_gets; [done|exact HK|exact Hw1].
  - rewrite (decide_True (P := qos = QoS2)) in HK by (unfold QoS0, QoS1, QoS2 in *; lia).
    eapply wire_sends; [by split| |exact Hw]. intros w1 Hw1. rewrite <- app_assoc in Hw1.
    eapply wire_gets; [done| |exact Hw1]. intros w2 Hw2.
    eapply wire_sends; [done| |exact Hw2]. intros w3 Hw3. rewrite <- app_assoc in Hw3.
    eapply wire_gets; [done|exact HK|exact Hw3].
Qed.

Lemma in_conversation_mono n (K K' : net → Prop) s :
  (∀ w, K w → K' w) → in_conversation n K s → in_conversation n K' s.
Proof using Type. intros HK (?&?&?&?). split_and!; auto. Qed.

Lemma over_wire {A} n (K K' : net → Prop) (m : M net A) Q :
  (∀ w, K w → K' w) → triple (in_conversation n K') m Q → triple (in_conversation n K) m Q.
Proof using Type. intros HK Hm. eapply triple_pre; [exact Hm|]. intros s. by apply in_conversation_mono. Qed.

(** Publishing over TCP, with whole reads.  Where the stream starts with the handshake of the QoS
    the call returns [SMQTT_OK]: exactly the handshake has been taken from the
    stream, and exactly the PUBLISH packet, and at QoS 2 the PUBREL, was sent. *)
Theorem tcp_publish (c : smqtt_client net) n topic msg qos retain inn out :
  server c = Some srv → connected c = true → short_string topic → opt_message_ok msg → 0 ≤ qos ≤ 2 →
  0 ≤ publish_packet_id c < 255 →
  let id := if decide (qos = QoS0) then publish_packet_id c else publish_packet_id c + 1 in
  zlen (mqtt_publish topic id qos retain (default [] msg)) ≤ BUFFER_SIZE →
  triple (in_conversation n (wire (publish_replies qos id ++ inn) out))
    (smqtt_publish c topic msg qos retain)
    (λ r s, r = (SMQTT_OK, set_publish_id c id) ∧
            in_conversation n (wire inn (out ++ publish_sent topic (default [] msg) qos retain id)) s).
Proof using Type*.
  intros Hc Hconn Ht Hm Hq Hid id Hl. eapply over_wire; [|by apply (publish_completes_spec srv c Hc)].
  intros w. by apply wire_publish.
Qed.

(** * The command line client *)

(** C6. Publishing from the command line, down to the socket.  With a broker that
    accepts the connection and acknowledges the message, on a connection whose
    calls succeed and whose reads are whole ([WholeReads], [healthy]): the program
    sends a CONNECT, a PUBLISH at QoS 1 and a DISCONNECT made of its arguments, and
    nothing else, closes the socket, prints that it sent the message, and that
    only, and ends with code 0. *)
Theorem tcp_main_publishes n junk fuel argv errno a msg inn out :
  errno ≠ ENOMSG → parse_args argv errno = Ok (inr a) → settings_ok a →
  publish_message (s_options a) = Some msg → zlen (mqtt_publish (s_topic a) 1 1 false msg) ≤ BUFFER_SIZE →
  triple
    (in_conversation n (unopened (mqtt_connack Connection_Accepted ++ mqtt_ack PUBACK 0 1 ++ inn) out))
    (main srv (Some junk) fuel argv errno)
    (λ r s, r = (Some 0, [Out "Sent message"]) ∧
       in_conversation n (closed (out ++ mqtt_connect (settings_params a) ++
         mqtt_publish (s_topic a) 1 1 false msg ++ mqtt_empty DISCONNECT)) s).
Proof using Type*.
  intros He Ha Hok Hmsg Hl. eapply over_wire; [|by apply (main_publishes_spec srv n _ junk fuel argv errno a msg)].
  intros w Hw. eapply wire_opens; [|exact Hw]. intros w1 Hw1.
  eapply wire_sends; [split; [apply zlen_mqtt_packet|apply (so_connect _ Hok)]| |exact Hw1]. intros w2 Hw2.
  eapply wire_gets; [done| |exact Hw2]. cbn [decide]. intros w3 Hw3.
  eapply (wire_publish _ (Some msg) QoS1); [unfold QoS1; lia|done| |exact Hw3]. intros w4 Hw4.
  eapply wire_sends; [done| |exact Hw4]. intros w5 Hw5. eapply wire_closes; [|exact Hw5]. intros w6.
  unfold publish_sent. rewrite (decide_False (P := QoS1 = QoS2)), app_nil_r by done. cbn [default]. by rewrite <- !app_assoc.
Qed.

(** * After the broker has closed the connection

    The end of the stream is not reported, and the receive buffer keeps the last
    packet. *)

Lemma small_deserialize t flags bd rest length :
  zlen bd < 128 → 1 ≤ length →
  deserialize_response (mqtt_packet t flags bd ++ rest) length =
    deserialize_response (mqtt_packet t flags bd ++ rest) (zlen (mqtt_packet t flags bd)).
Proof using Type.
  intros Hbd Hl. unfold deserialize_response. destruct (buf_read _ 0) as [b0|]; [|done]. rewrite !bind_ok.
  pose proof (zlen_nonneg bd). pose proof (zlen_mqtt_packet t flags bd).
  assert (Hat : at_off (mqtt_packet t flags bd ++ rest) 1 (size_bytes (zlen bd) ++ bd ++ rest)).
  { unfold mqtt_packet. cbn [app]. rewrite <- app_assoc.
    pose proof (at_off_0 ((16 * message_type_val t + flags) :: size_bytes (zlen bd) ++ bd ++ rest)) as Hat.
    by apply at_off_cons in Hat as [_ Hat]. }
  assert (Hsz : zlen (size_bytes (zlen bd)) = 1) by by rewrite size_bytes_small by lia.
  assert (Hlim : 0 ≤ zlen bd < size_limit) by (unfold size_limit; lia).
  by rewrite !(decode_size_digits _ _ _ _ _ Hlim Hat) by lia.
Qed.

Definition message_packet (b : broker_message) : list Z :=
  mqtt_publish (bm_topic b) (bm_id b) (bm_qos b) (bm_retain b) (bm_msg b).

(** A message at QoS 0 in one packet with a one-byte size. *)
Definition plain_message (b : broker_message) : Prop :=
  broker_message_ok b ∧ bm_qos b = QoS0 ∧ 2 + zlen (bm_topic b) + zlen (bm_msg b) < 128.

Definition got_message (b : broker_message) : smqtt_status_t * received :=
  (SMQTT_OK, mk_received None (Some (strncpy_of (bm_msg b))) (Some (zlen (bm_msg b)))).

Lemma plain_bytes (b : broker_message) :
  plain_message b →
  message_packet b =
    mqtt_packet PUBLISH (Z.b2z (bm_retain b)) (mqtt_string (bm_topic b) ++ bm_msg b) ∧
  0 ≤ zlen (mqtt_string (bm_topic b) ++ bm_msg b) < 128.
Proof using Type.
  intros (_ & Hq & Hb). pose proof (zlen_nonneg (bm_topic b)). pose proof (zlen_nonneg (bm_msg b)).
  unfold message_packet, mqtt_publish. rewrite Hq, decide_False by (unfold QoS0, QoS1; lia).
  split; [done|]. autorewrite with zlen. lia.
Qed.

(** The message is copied and its response freed; the receive buffer stays. *)
Lemma copy_free (m : list Z) n K p msg :
  slice m p (zlen msg) = msg →
  triple (λ s, receive_buffer s = m ∧ in_conversation (n + 1) K s)
    (a ← copy_message p (zlen msg); _ ← free_response; mret a : M net (list Z))
    (λ a s, a = strncpy_of msg ∧ receive_buffer s = m ∧ in_conversation n K s).
Proof using Type.
  intros Hmsg s [Hm Hs]. destruct (conv_copy (n + 1) K m p msg Hmsg s (conj Hm Hs)) as (a & s' & Hc & -> & Hs').
  assert (s' = s) as -> by (unfold copy_message in Hc; by apply bind_ok_inv in Hc as (bs & _ & [= _ <-])).
  rewrite M_bind_run, Hc, bind_ok. eexists _, _. split; [reflexivity|]. split; [done|]. split; [done|].
  destruct Hs as (Hsb & Hrb & Hn & Hw). refine (conj Hsb (conj Hrb (conj _ Hw))). cbn [responses]. lia.
Qed.

(** Whatever size the receive reports, the message at the start of the buffer is
    returned, and stays there. *)
Lemma get_next_message_plain (c : smqtt_client net) b n K P sz :
  plain_message b → 1 ≤ sz →
  triple P (await c) (λ z s, z = sz ∧ received_packet (message_packet b) n K s) →
  triple P (smqtt_get_next_message c) (λ r s, r = got_message b ∧ received_packet (message_packet b) n K s).
Proof using Type.
  intros Hb Hsz Hawait. unfold smqtt_get_next_message. eapply triple_bind; [exact Hawait|].
  intros z. apply triple_pure. intros ->. rewrite (decide_False (P := sz < 0)) by lia.
  destruct (plain_bytes b Hb) as [Hbytes Hlen]. pose proof Hb as ((Ht & Hm & Hid & Hq & Hl) & Hq0 & _).
  apply (conv_parse n (message_packet b) sz K (λ m resp, (∃ rest, m = message_packet b ++ rest) ∧
           ∃ d, resp = {| type := PUBLISH; body := publish_data d |} ∧
             publish_reads m d (bm_topic b) (bm_id b) QoS0 (bm_retain b) (bm_msg b))).
  { intros rest. rewrite <- Hq0.
    destruct (deserialize_mqtt_publish (bm_topic b) (bm_id b) (bm_qos b) (bm_retain b) (bm_msg b) rest
      (zlen (message_packet b))) as (d & Hd & Hr & _); [done..|]. eexists. split; [|split; [by eexists|by exists d]].
    rewrite <- Hd. fold (message_packet b). rewrite Hbytes. apply small_deserialize; lia. }
  intros m resp [[rest Hrest] (d & -> & Hq' & _ & Hp' & _ & _ & Hs' & Hm')]. cbn [type body].
  rewrite Hs' in *. rewrite Hq', Hp'. intros s Hs.
  destruct (copy_free m n K (pub_message d) (bm_msg b) Hm' s Hs) as (a & s' & Hrun & -> & Hm2 & Hs2).
  rewrite M_bind_run in Hrun. apply bind_ok_inv in Hrun as ([a s1] & Hcopy & Hrun). rewrite M_bind_run, Hcopy, bind_ok.
  injection Hrun as -> <-. rewrite (decide_False (P := QoS0 >= QoS1)) by (unfold QoS0, QoS1; lia).
  rewrite decide_True by done. eexists _, _. split; [reflexivity|]. split; [done|]. split; [|exact Hs2].
  exists rest. exact (eq_trans Hm2 Hrest).
Qed.

Lemma await_closed (c : smqtt_client net) b n out :
  server c = Some srv → plain_message b →
  triple (received_packet (message_packet b) n (wire [] out)) (await c)
    (λ sz s, sz = 2 ∧ received_packet (message_packet b) n (wire [] out) s).
Proof using Type*.
  intros Hc Hb s [[rest Hrest] (Hs & Hr & Hn & Hw)]. unfold await, get_server. rewrite Hc, bind_ok.
  destruct (plain_bytes b Hb) as [Hbytes Hlen]. set (bd := mqtt_string _ ++ _) in *.
  pose proof Hw as (Hlive & _ & Hp & _). unfold server_receive. cbn [srv_receive create_network_server].
  destruct (network_receive_eof_at (receive_buffer s) BUFFER_SIZE (world s) (zlen bd))
    as (w' & Hrecv & Hlive' & Hp'); [done|done| |unfold byte_range; lia|rewrite Hr; by vm_compute|].
  - rewrite Hrest, Hbytes. unfold mqtt_packet. rewrite size_bytes_small by lia. cbn [app].
    match goal with |- buf_read ?l 1 = _ => pose proof (at_off_0 l) as Hat end.
    apply at_off_cons in Hat as [_ Hat]. by apply at_off_cons in Hat as [Hat _].
  - rewrite Hrecv, bind_ok. eexists _, _. split; [reflexivity|]. split; [done|]. split; [by eexists|].
    refine (conj Hs (conj Hr (conj Hn _))). destruct (keeps_written _ _ _ _ _ _ _ _ Hw Hrecv). by split_and!.
Qed.

(** ** The stream of a subscriber *)

Definition message_packets (l : list broker_message) : list Z := List.concat (message_packet <$> l).

Lemma await_message (c : smqtt_client net) b l n out :
  server c = Some srv → plain_message b →
  triple (in_conversation n (wire (message_packets (b :: l)) out)) (await c)
    (λ sz s, sz = zlen (message_packet b) ∧ received_packet (message_packet b) n (wire (message_packets l) out) s).
Proof using Type*.
  intros Hc Hb. eapply over_wire; [|apply (conv_await srv c Hc); apply Hb]. intros w Hw.
  destruct (plain_bytes b Hb) as [Hbytes Hlen]. fold (message_packet b).
  change (message_packets (b :: l)) with (message_packet b ++ message_packets l) in Hw. rewrite Hbytes in Hw |- *.
  eapply wire_gets; [lia|by intros w' Hw'|exact Hw].
Qed.

(** [n] calls in turn. *)
Fixpoint next_messages (n : nat) (c : smqtt_client net) : M net (list (smqtt_status_t * received)) :=
  match n with
  | O => mret []
  | S n => r ← smqtt_get_next_message c; rs ← next_messages n c; mret (r :: rs)
  end.

Lemma next_messages_closed (c : smqtt_client net) b n out k :
  server c = Some srv → plain_message b →
  triple (received_packet (message_packet b) n (wire [] out)) (next_messages k c)
    (λ rs s, rs = replicate k (got_message b) ∧ received_packet (message_packet b) n (wire [] out) s).
Proof using Type*.
  intros Hc Hb. induction k as [|k IH]; cbn [next_messages replicate]; [by apply triple_ret|].
  eapply triple_bind; [apply (get_next_message_plain c b n (wire [] out) _ 2 Hb); [lia|by apply await_closed]|].
  intros r. apply triple_pure. intros ->. eapply triple_bind; [exact IH|]. intros rs. apply triple_pure. intros ->.
  by apply triple_ret.
Qed.

Lemma next_messages_stream (c : smqtt_client net) b l n out k :
  server c = Some srv → plain_message b → Forall plain_message l →
  triple (received_packet (message_packet b) n (wire (message_packets l) out)) (next_messages (List.length l + k) c)
    (λ rs s, rs = (got_message <$> l) ++ replicate k (got_message (default b (last l))) ∧
             received_packet (message_packet (default b (last l))) n (wire [] out) s).
Proof using Type*.
  intros Hc. revert b. induction l as [|b' l IH]; intros b Hb Hl.
  { by apply next_messages_closed. }
  apply Forall_cons in Hl as [Hb' Hl]. cbn [List.length plus next_messages].
  eapply triple_bind.
  { eapply triple_pre; [apply (get_next_message_plain c b' n (wire (message_packets l) out) _ (zlen (message_packet b')) Hb')|
      intros s [_ Hs]; exact Hs]; [|by apply await_message].
    destruct (plain_bytes b' Hb') as [-> _]. pose proof (zlen_mqtt_packet PUBLISH (Z.b2z (bm_retain b')) (mqtt_string (bm_topic b') ++ bm_msg b')). lia. }
  intros r. apply triple_pure. intros ->. eapply triple_bind; [by apply IH|].
  intros rs. apply triple_pure. intros ->. apply triple_ret. intros s Hs.
  assert (default b (last (b' :: l)) = default b' (last l)) as ->; [|by split].
  destruct l as [|x l]; [done|]. cbn [last]. destruct (last (x :: l)) eqn:E; [done|]. by apply last_None in E.
Qed.

Lemma subscriber_replays_spec (c : smqtt_client net) n b l out k :
  server c = Some srv → plain_message b → Forall plain_message l →
  triple (in_conversation n (wire (message_packets (b :: l)) out)) (next_messages (S (List.length l) + k) c)
    (λ rs s, rs = (got_message <$> b :: l) ++ replicate k (got_message (default b (last l))) ∧
             in_conversation n (wire [] out) s).
Proof using Type*.
  intros Hc Hb Hl. cbn [plus next_messages]. eapply triple_bind.
  { apply (get_next_message_plain c b n (wire (message_packets l) out) _ (zlen (message_packet b)) Hb);
      [|by apply await_message]. destruct (plain_bytes b Hb) as [-> _].
    pose proof (zlen_mqtt_packet PUBLISH (Z.b2z (bm_retain b)) (mqtt_string (bm_topic b) ++ bm_msg b)). lia. }
  intros r. apply triple_pure. intros ->. eapply triple_bind; [by apply next_messages_stream|].
  intros rs. apply triple_pure. intros ->. apply triple_ret. by intros s [_ Hs].
Qed.

(** A subscriber does not notice that the broker has gone, on a connection whose
    reads are whole.  Where the stream is
    messages at QoS 0, each of less than 128 bytes, and then ends, the calls
    return the messages in turn and, however often the call is repeated, the last
    one again: with [SMQTT_OK], and nothing sent. *)
Theorem tcp_subscriber_replays (c : smqtt_client net) n b l out k :
  server c = Some srv → plain_message b → Forall plain_message l →
  triple (in_conversation n (wire (message_packets (b :: l)) out)) (next_messages (S (List.length l) + k) c)
    (λ rs s, rs = (got_message <$> b :: l) ++ replicate k (got_message (default b (last l))) ∧
             in_conversation n (wire [] out) s).
Proof using Type*. exact (subscriber_replays_spec c n b l out k). Qed.

(** ** The subscriber *)

Definition got_line (b : broker_message) : printed := Got (c_chars (bm_msg b)).

(** [k] rounds that receive messages print them. *)
Lemma receive_loop_messages (c : smqtt_client net) k bs : ∀ s s',
  next_messages k c s = Ok (got_message <$> bs, s') → receive_loop k c s = Ok ((None, got_line <$> bs), s').
Proof using Type.
  revert bs. induction k as [|k IH]; intros bs s s' Hn; cbn [next_messages receive_loop] in *.
  - injection Hn as Hbs <-. symmetry in Hbs. apply fmap_nil_inv in Hbs as ->. done.
  - rewrite M_bind_run in Hn. apply bind_ok_inv in Hn as ([r s1] & Hr & Hn).
    rewrite M_bind_run in Hn. apply bind_ok_inv in Hn as ([rs s2] & Hrs & Hn). injection Hn as Hbs <-.
    destruct bs as [|b bs]; [done|]. injection Hbs as -> ->.
    rewrite M_bind_run, Hr, bind_ok. unfold got_message at 1. cbv beta iota.
    rewrite decide_False by auto. rewrite M_bind_run, print_message_ok, !bind_ok.
    rewrite M_bind_run, (IH bs s1 s2 Hrs), bind_ok. done.
Qed.

(** C22. The command line subscriber never ends and never stops printing.  With a
    broker that accepts the connection and the subscription, sends messages and
    goes away, on a connection whose calls succeed and whose reads are whole
    ([WholeReads], [healthy]) and with messages at QoS 0 of less than 128 bytes:
    the program prints the messages in order and then the last of them again and
    again: as many times as one likes, [k], and it is still running. *)
Theorem tcp_main_subscriber_never_ends n junk argv errno a r b l out k :
  errno ≠ ENOMSG → parse_args argv errno = Ok (inr a) → settings_ok a →
  publish_message (s_options a) = None → 0 ≤ sub_qos r ≤ 2 →
  zlen (mqtt_subscribe 2 [(s_topic a, qos (s_options a))]) ≤ BUFFER_SIZE →
  plain_message b → Forall plain_message l →
  triple
    (in_conversation n (unopened (mqtt_connack Connection_Accepted ++ mqtt_suback 2 [r] ++ message_packets (b :: l)) out))
    (main srv (Some junk) (S (List.length l) + k) argv errno)
    (λ res s, res = (None, Out "Subscribed" :: (got_line <$> b :: l) ++ replicate k (got_line (default b (last l)))) ∧
       in_conversation n (wire [] (out ++ mqtt_connect (settings_params a) ++
         mqtt_subscribe 2 [(s_topic a, qos (s_options a))])) s).
Proof using Type*.
  intros He Ha Hok Hmsg Hr Hl Hb Hls s Hs.
  set (out' := out ++ mqtt_connect (settings_params a) ++ mqtt_subscribe 2 [(s_topic a, qos (s_options a))]).
  destruct (main_subscribed srv n (wire (message_packets (b :: l)) out') junk (S (List.length l) + k) argv errno a r s)
    as (c & s' & Hrun & Hc & Hs'); [done..| |].
  - revert Hs. apply in_conversation_mono. intros w Hw. eapply wire_opens; [|exact Hw]. intros w1 Hw1.
    eapply wire_sends; [split; [apply zlen_mqtt_packet|apply (so_connect _ Hok)]| |exact Hw1]. intros w2 Hw2.
    eapply wire_gets; [done| |exact Hw2]. cbn [decide]. intros w3 Hw3.
    eapply wire_sends; [split; [apply zlen_mqtt_packet|done]| |exact Hw3]. intros w4 Hw4.
    eapply wire_gets; [done| |exact Hw4]. intros w5 Hw5. unfold out'. by rewrite app_assoc.
  - rewrite Hrun, M_bind_run.
    destruct (subscriber_replays_spec c n b l out' k Hc Hb Hls s' Hs') as (rs & s2 & Hn & -> & Hs2).
    rewrite <- fmap_replicate, <- fmap_app in Hn. apply receive_loop_messages in Hn. rewrite Hn, bind_ok.
    eexists _, s2. split; [reflexivity|]. split; [|done]. by rewrite fmap_app, fmap_replicate.
Qed.

End tcp.

(** * The concrete operating system *)

Lemma slice_all (bs : list Z) n : zlen bs ≤ n → slice bs 0 n = bs.
Proof. intros Hn. unfold slice, zlen in *. change (Z.to_nat 0) with 0%nat. rewrite drop_0, take_ge by lia. done. Qed.

#[export] Instance tcp_duplex : Duplex tcp.
Proof.
  refine {| written o := outbox o; healthy o := BUFFER_SIZE ≤ send_limit o |}; try done.
  - intros ? fds ? o Ho. simpl. by case_decide.
  - intros ? bs o Ho Hl. simpl. rewrite decide_False by (unfold BUFFER_SIZE in *; lia). cbn [fst snd send_limit outbox].
    rewrite Z.min_l by lia. by rewrite slice_all.
Defined.

(** A process before it connects; a connected client. *)
Definition before (inn : list Z) : sys (net_state tcp) := initial_sys (mk_net (Some new_impl) (mk_tcp inn [] 2000)).
Definition online (inn : list Z) : sys (net_state tcp) := initial_sys (connected_to inn 2000).

Lemma byte_values inn : bytes inn → u8 <$> inn = inn.
Proof. induction 1 as [|x inn Hx _ IH]; [done|]. cbn. rewrite u8_small by done. by f_equal. Qed.

Lemma before_unopened inn : bytes inn → in_conversation 0 (unopened inn []) (before inn).
Proof.
  intros Hb%byte_values. refine (conj eq_refl (conj eq_refl (conj eq_refl (conj _ (conj _ (conj Hb eq_refl)))))); [by split; [eexists|]|].
  by vm_compute.
Qed.

Definition net_client : smqtt_client (net_state tcp) := mk_client [49] [97] 1883 true 0 1 0 (Some create_network_server).

Lemma online_wire inn : bytes inn → in_conversation 0 (wire inn []) (online inn).
Proof.
  intros Hb%byte_values. refine (conj eq_refl (conj eq_refl (conj eq_refl (conj (connected_live _ _) (conj _ (conj Hb eq_refl)))))).
  by vm_compute.
Qed.

Lemma tcp_publish_witness :
  ∃ r s, smqtt_publish net_client [97] (Some [104; 105]) 2 false (online (publish_replies 2 1 ++ [7])) = Ok (r, s) ∧
    r = (SMQTT_OK, set_publish_id net_client 1) ∧
    in_conversation 0 (wire [7] ([] ++ publish_sent [97] [104; 105] 2 false 1)) s.
Proof.
  apply (tcp_publish net_client 0 [97] (Some [104; 105]) 2 false [7] []).
  - done.
  - done.
  - by apply (bool_decide_unpack _); vm_compute.
  - split; [repeat constructor; lia|by vm_compute].
  - lia.
  - split; by vm_compute.
  - by vm_compute.
  - apply online_wire. by apply (bool_decide_unpack _); vm_compute.
Defined.

Lemma tcp_main_publishes_witness :
  let a := parsed_settings publish_line in
  ∃ r s, main create_network_server (Some 77) 0 publish_line 0
      (before (mqtt_connack Connection_Accepted ++ mqtt_ack PUBACK 0 1 ++ [])) = Ok (r, s) ∧
    r = (Some 0, [Out "Sent message"]) ∧
    in_conversation 0 (closed ([] ++ mqtt_connect (settings_params a) ++
      mqtt_publish (s_topic a) 1 1 false (chars "hi") ++ mqtt_empty DISCONNECT)) s.
Proof.
  apply (tcp_main_publishes 0 77 0 publish_line 0 (parsed_settings publish_line) (chars "hi") [] []).
  - by vm_compute.
  - by vm_compute.
  - exact settings_ok_publish.
  - by vm_compute.
  - by vm_compute.
  - apply before_unopened. by apply (bool_decide_unpack _); vm_compute.
Defined.

Definition one_message : broker_message := mk_broker_message (chars "t") (chars "one") QoS0 false 0.

Lemma one_message_plain : plain_message one_message.
Proof. split; [|by split; vm_compute]. by apply (bool_decide_unpack _); vm_compute. Qed.

Lemma tcp_subscriber_replays_witness :
  ∃ rs s, next_messages 3 net_client (online (message_packets [one_message])) = Ok (rs, s) ∧
    rs = [got_message one_message; got_message one_message; got_message one_message] ∧
    in_conversation 0 (wire [] []) s.
Proof.
  apply (tcp_subscriber_replays net_client 0 one_message [] [] 2).
  - done.
  - exact one_message_plain.
  - constructor.
  - apply online_wire. by apply (bool_decide_unpack _); vm_compute.
Defined.

Lemma tcp_main_subscriber_never_ends_witness :
  let a := parsed_settings subscribe_line in
  ∃ res s, main create_network_server (Some 77) (1 + 50) subscribe_line 0
      (before (mqtt_connack Connection_Accepted ++ mqtt_suback 2 [mk_sub_result true 1] ++ message_packets [one_message])) =
      Ok (res, s) ∧
    res = (None, Out "Subscribed" :: Got (chars "one") :: replicate 50 (Got (chars "one"))) ∧
    in_conversation 0 (wire [] ([] ++ mqtt_connect (settings_params a) ++ mqtt_subscribe 2 [(s_topic a, qos (s_options a))])) s.
Proof.
  apply (tcp_main_subscriber_never_ends 0 77 subscribe_line 0 (parsed_settings subscribe_line)
           (mk_sub_result true 1) one_message [] [] 50).
  - by vm_compute.
  - by vm_compute.
  - exact settings_ok_subscribe.
  - by vm_compute.
  - by vm_compute.
  - by vm_compute.
  - exact one_message_plain.
  - constructor.
  - apply before_unopened. by apply (bool_decide_unpack _); vm_compute.
Defined.
