(* ===== verification/Callbacks.v ===== *)
(** Callbacks: the monitor of [test_mt/client.c] that hands what the session
    thread's callbacks receive to another thread.  It has a single slot, a flag
    [done], a mutex and a condition variable; the threads run their calls in any
    interleaving. *)

From S2P Require Import Prelude Protocol.

#[local] Open Scope Z_scope.

(** * State *)

(** The union of [cb_state_t]. *)
Inductive cb_response :=
  | cb_unwritten
  | subscription_response (topic_count : Z) (results : list sub_result)
  | message_response (topic msg : list Z) (qos : Z) (retain : bool).

(** The calls on a [cb_state_t]; [Read_response] is the caller's own look at the
    union between [wait_for_cb] and [release_cb]. *)
Inductive cb_call :=
  | Request_cb
  | Subscribe_cb (topic_count : Z) (results : list sub_result)
  | Message_cb (topic msg : list Z) (qos : Z) (retain : bool)
  | Wait_for_cb
  | Read_response
  | Release_cb.

(** Where a thread stands in its call.  [Testing], [Acting] and [Leaving] hold the
    mutex; [Sleeping] is inside [pthread_cond_wait], [Woken] on its way out. *)
Inductive cb_pc := Writing | Reading | Entering | Testing | Sleeping | Woken | Acting | Leaving.

#[export] Instance cb_pc_eq_dec : EqDecision cb_pc.
Proof. solve_decision. Defined.

(** A thread: the calls it still makes, the first of them in progress. *)
Abbreviation thread := (list cb_call * cb_pc)%type.

(** [cb_state_t], the threads, and what was read so far. *)
Record cb_state := mk_cb_state {
  lock : option nat;
  done : bool;
  response : cb_response;
  threads : list thread;
  got : list cb_response
}.

Definition start_pc (calls : list cb_call) : cb_pc :=
  match calls with Subscribe_cb _ _ :: _ => Writing | Read_response :: _ => Reading | _ => Entering end.

Definition new_thread (calls : list cb_call) : thread := (calls, start_pc calls).

(** [create_cb_state] *)
Definition create_cb_state (programs : list (list cb_call)) : cb_state :=
  mk_cb_state None false cb_unwritten (new_thread <$> programs) [].

(** * Steps *)

(** The condition of the [while] around [pthread_cond_wait]. *)
Definition must_wait (c : cb_call) (done : bool) : bool :=
  match c with
  | Request_cb | Subscribe_cb _ _ | Message_cb _ _ _ _ => done
  | Wait_for_cb => negb done
  | _ => false
  end.

(** [pthread_cond_broadcast] *)
Definition wake (t : thread) : thread := (t.1, match t.2 with Sleeping => Woken | pc => pc end).

(** What the call does with the mutex held: the flag and the union afterwards,
    and whether it broadcasts. *)
Definition notify_cb_state (response : cb_response) : bool * cb_response * bool := (true, response, true).
Definition message_cb (topic msg : list Z) (qos : Z) (retain : bool) : bool * cb_response * bool :=
  (true, message_response topic msg qos retain, true).
Definition wait_for_cb (done : bool) (response : cb_response) : bool * cb_response * bool := (done, response, false).
Definition release_cb (response : cb_response) : bool * cb_response * bool := (false, response, true).

Definition acts (c : cb_call) (done : bool) (response : cb_response) : bool * cb_response * bool :=
  match c with
  | Request_cb | Subscribe_cb _ _ => notify_cb_state response
  | Message_cb topic msg qos retain => message_cb topic msg qos retain
  | Wait_for_cb => wait_for_cb done response
  | Read_response => (done, response, false)
  | Release_cb => release_cb response
  end.

Definition set_thread (s : cb_state) (l : option nat) (i : nat) (t : thread) : cb_state :=
  mk_cb_state l (done s) (response s) (<[i := t]> (threads s)) (got s).

(** One step of thread [i], where it can make one. *)
Definition cb_step (i : nat) (s : cb_state) : option cb_state :=
  match threads s !! i with
  | Some (c :: calls, pc) =>
      match pc with
      | Writing =>
          match c with
          | Subscribe_cb n rs =>
              Some (mk_cb_state (lock s) (done s) (subscription_response n rs)
                      (<[i := (c :: calls, Entering)]> (threads s)) (got s))
          | _ => None
          end
      | Reading =>
          Some (mk_cb_state (lock s) (done s) (response s) (<[i := new_thread calls]> (threads s))
                  (got s ++ [response s]))
      | Entering | Woken =>
          match lock s with None => Some (set_thread s (Some i) i (c :: calls, Testing)) | Some _ => None end
      | Testing =>
          if must_wait c (done s) then Some (set_thread s None i (c :: calls, Sleeping))
          else Some (set_thread s (lock s) i (c :: calls, Acting))
      | Sleeping => Some (set_thread s (lock s) i (c :: calls, Woken))
      | Acting =>
          let '(d, r, broadcast) := acts c (done s) (response s) in
          let ts := if broadcast : bool then wake <$> threads s else threads s in
          Some (mk_cb_state (lock s) d r (<[i := (c :: calls, Leaving)]> ts) (got s))
      | Leaving => Some (set_thread s None i (new_thread calls))
      end
  | _ => None
  end.

(** A step nobody asked for: [pthread_cond_wait] may return by itself. *)
Definition spurious (i : nat) (s : cb_state) : bool :=
  match threads s !! i with Some (_ :: _, Sleeping) => true | _ => false end.

Inductive cb_steps : cb_state → cb_state → Prop :=
  | cb_refl s : cb_steps s s
  | cb_next i s s' s'' : cb_step i s = Some s' → cb_steps s' s'' → cb_steps s s''.

(** An execution: whose turn it is. *)
Fixpoint cb_run (order : list nat) (s : cb_state) : option cb_state :=
  match order with
  | [] => Some s
  | i :: order => s' ← cb_step i s; cb_run order s'
  end.

Lemma cb_run_steps order : ∀ s s', cb_run order s = Some s' → cb_steps s s'.
Proof.
  induction order as [|i order IH]; intros s s'; cbn [cb_run]; [intros [= <-]; constructor|].
  intros (s1 & Hs & Hr)%bind_Some. eapply cb_next; [exact Hs|by apply IH].
Qed.

(** * One producer, one consumer

    As in the tests: the session thread delivers messages to [message_cb], another
    thread waits, looks and releases. *)

Definition message : Type := list Z * list Z * Z * bool.

Definition deliver (m : message) : cb_call := let '(topic, msg, qos, retain) := m in Message_cb topic msg qos retain.
Definition as_response (m : message) : cb_response :=
  let '(topic, msg, qos, retain) := m in message_response topic msg qos retain.

Fixpoint consume (n : nat) : list cb_call :=
  match n with O => [] | S n => Wait_for_cb :: Read_response :: Release_cb :: consume n end.

Definition handoff (msgs : list message) (n : nat) : cb_state := create_cb_state [consume n; deliver <$> msgs].

(** ** The invariant *)

Definition locks (t : thread) : bool :=
  match t with (_ :: _, (Testing | Acting | Leaving)) => true | _ => false end.

(** The consumer: the rounds it still has to read, and whether the slot holds
    what it has read. *)
Inductive consumer (d : bool) : thread → nat → bool → Prop :=
  | co_end : consumer d ([], Entering) 0 false
  | co_wait k pc :
      pc = Entering ∨ pc = Testing ∨ pc = Woken → consumer d (consume (S k), pc) (S k) false
  | co_sleep k : d = false → consumer d (consume (S k), Sleeping) (S k) false
  | co_waited k pc : d = true → pc = Acting ∨ pc = Leaving → consumer d (consume (S k), pc) (S k) false
  | co_read k : d = true → consumer d (Read_response :: Release_cb :: consume k, Reading) (S k) false
  | co_release k pc :
      d = true → pc = Entering ∨ pc = Testing ∨ pc = Acting → consumer d (Release_cb :: consume k, pc) k true
  | co_released k : d = false → consumer d (Release_cb :: consume k, Leaving) k false.

(** The producer: the messages it still has to put into the slot. *)
Inductive producer (d : bool) : thread → list message → Prop :=
  | pr_end : producer d ([], Entering) []
  | pr_wait m l pc :
      pc = Entering ∨ pc = Testing ∨ pc = Woken → producer d (deliver <$> m :: l, pc) (m :: l)
  | pr_sleep m l : d = true → producer d (deliver <$> m :: l, Sleeping) (m :: l)
  | pr_act m l : d = false → producer d (deliver <$> m :: l, Acting) (m :: l)
  | pr_left m l : producer d (deliver <$> m :: l, Leaving) l.

(** The message in the slot that was not read yet. *)
Definition pending (taken : bool) (s : cb_state) : list cb_response :=
  if done s && negb taken then [response s] else [].

Definition held_by (t0 t1 : thread) : option nat :=
  if locks t0 then Some 0%nat else if locks t1 then Some 1%nat else None.

Record hand_inv (msgs : list message) (n : nat) (s : cb_state) (t0 t1 : thread) (k : nat) (taken : bool)
    (left : list message) : Prop := {
  hi_threads : threads s = [t0; t1];
  hi_consumer : consumer (done s) t0 k taken;
  hi_producer : producer (done s) t1 left;
  hi_lock : lock s = held_by t0 t1;
  hi_excl : locks t0 && locks t1 = false;
  hi_rounds : (List.length (got s) + k = n)%nat;
  hi_data : got s ++ pending taken s ++ (as_response <$> left) = as_response <$> msgs
}.

Definition handing (msgs : list message) (n : nat) (s : cb_state) : Prop :=
  ∃ t0 t1 k taken left, hand_inv msgs n s t0 t1 k taken left.

Lemma start_consumer d k : consumer d (new_thread (consume k)) k false.
Proof. destruct k; [apply co_end|]. apply co_wait. by left. Qed.

Lemma start_producer d l : producer d (new_thread (deliver <$> l)) l.
Proof. destruct l as [|m l]; [apply pr_end|]. cbn. destruct m as [[[? ?] ?] ?]. apply pr_wait. by left. Qed.

Lemma start_not_locked calls : locks (new_thread calls) = false.
Proof. by destruct calls as [|[]]. Qed.

Lemma handoff_handing msgs n : handing msgs n (handoff msgs n).
Proof.
  eexists _, _, n, false, msgs. split; [reflexivity|apply start_consumer|apply start_producer| | |done|done].
  - unfold held_by. by rewrite !start_not_locked.
  - by rewrite start_not_locked.
Qed.

(** What the other thread's steps do to a thread. *)
Lemma producer_released t left : producer true t left → locks t = false → producer false (wake t) left ∧ locks (wake t) = false.
Proof.
  intros H Hl. inversion H as [|m l pc Hpc|m l Hd|m l Hd|m l]; subst; try done; cbn.
  - split; [apply pr_end|done].
  - destruct Hpc as [-> | [-> | ->]]; (split; [apply pr_wait; auto|done]).
  - split; [apply pr_wait; auto|done].
Qed.

Lemma consumer_filled t k taken :
  consumer false t k taken → locks t = false → taken = false ∧ consumer true (wake t) k false ∧ locks (wake t) = false.
Proof.
  intros H Hl. inversion H as [|k' pc Hpc|k' Hd|k' pc Hd Hpc|k' Hd|k' pc Hd Hpc|k' Hd]; subst; try done; cbn.
  - split_and!; [done|apply co_end|done].
  - destruct Hpc as [-> | [-> | ->]]; (split_and!; [done|apply co_wait; auto|done]).
  - split_and!; [done|apply co_wait; auto|done].
Qed.

(** ** The steps keep it *)

Lemma held_none t0 t1 : held_by t0 t1 = None → locks t0 = false ∧ locks t1 = false.
Proof. unfold held_by. by destruct (locks t0), (locks t1). Qed.

(** The data of an invariant state does not depend on where the threads stand. *)
Lemma hand_move msgs n s t0 t1 k taken left t0' t1' l :
  hand_inv msgs n s t0 t1 k taken left →
  consumer (done s) t0' k taken → producer (done s) t1' left → l = held_by t0' t1' → locks t0' && locks t1' = false →
  handing msgs n (mk_cb_state l (done s) (response s) [t0'; t1'] (got s)).
Proof. intros [] ????. by exists t0', t1', k, taken, left. Qed.

(** The ways a thread moves without touching the slot. *)
Ltac moves H Hinv :=
  unfold set_thread in H; injection H as <-; rewrite ?(hi_threads _ _ _ _ _ _ _ _ Hinv);
  cbn [insert list_insert];
  eapply (hand_move _ _ _ _ _ _ _ _ _ _ _ Hinv).

Lemma consumer_step msgs n s t0 t1 k taken left s' :
  hand_inv msgs n s t0 t1 k taken left → cb_step 0 s = Some s' → handing msgs n s'.
Proof.
  intros Hinv H. pose proof Hinv as [Ht Hc Hp Hl He Hr Hd]. unfold cb_step in H. rewrite Ht in H. cbn [lookup list_lookup] in H.
  inversion Hc as [|k' pc Hpc|k' Hdn|k' pc Hdn Hpc|k' Hdn|k' pc Hdn Hpc|k' Hdn]; subst t0 k taken; cbn [consume] in H; try done.
  - assert (Henter : match lock s with
        None => Some (set_thread s (Some 0%nat) 0 (consume (S k'), Testing)) | Some _ => None end = Some s' → handing msgs n s').
    { clear H. rewrite Hl. destruct (held_by _ t1) eqn:Hh; [done|]. intros H. apply held_none in Hh as [_ Hh].
      moves H Hinv; [apply co_wait; auto|done|done|by rewrite Hh]. }
    destruct Hpc as [-> | [-> | ->]]; [by apply Henter| |by apply Henter].
    cbn [locks consume] in He. rewrite andb_true_l in He.
    cbn [must_wait] in H. destruct (done s) eqn:Hdn; cbn [negb] in H.
    + moves H Hinv; rewrite ?Hdn; [by apply co_waited; auto|done| |done]. rewrite Hl. done.
    + moves H Hinv; rewrite ?Hdn; [by apply co_sleep|done| |done]. unfold held_by. by rewrite He.
  - moves H Hinv; [apply co_wait; auto|done|done|done].
  - destruct Hpc as [-> | ->]; cbn [locks consume] in He; rewrite andb_true_l in He.
    + moves H Hinv; [by apply co_waited; auto|done|done|done].
    + moves H Hinv; [by apply co_read|done| |done]. unfold held_by. cbn. by rewrite He.
  - injection H as <-. exists (new_thread (Release_cb :: consume k')), t1, k', true, left. split; cbn [lock done response threads got].
    + done.
    + by apply co_release; auto.
    + done.
    + done.
    + done.
    + rewrite length_app. simpl. lia.
    + rewrite <- Hd. unfold pending. cbn. rewrite Hdn. cbn. by rewrite <- app_assoc.
  - assert (Henter : match lock s with
        None => Some (set_thread s (Some 0%nat) 0 (Release_cb :: consume k', Testing)) | Some _ => None end = Some s' → handing msgs n s').
    { clear H. rewrite Hl. destruct (held_by _ t1) eqn:Hh; [done|]. intros H. apply held_none in Hh as [_ Hh].
      moves H Hinv; [apply co_release; auto|done|done|by rewrite Hh]. }
    destruct Hpc as [-> | [-> | ->]]; [by apply Henter| |].
    + moves H Hinv; [apply co_release; auto|done|done|done].
    + cbn [locks] in He. rewrite andb_true_l in He. rewrite Hdn in Hp.
      destruct (producer_released _ _ Hp He) as [Hp' He']. injection H as <-.
      exists (Release_cb :: consume k', Leaving), (wake t1), k', false, left. split; cbn [lock done response threads got];
        [done|by apply co_released|done|by rewrite Hl|by rewrite He'|done|]. rewrite <- Hd. unfold pending. by rewrite Hdn.
  - cbn [locks] in He. rewrite andb_true_l in He. moves H Hinv; [by apply start_consumer|done| |].
    + unfold held_by. by rewrite start_not_locked, He.
    + by rewrite start_not_locked.
Qed.

Lemma producer_step msgs n s t0 t1 k taken left s' :
  hand_inv msgs n s t0 t1 k taken left → cb_step 1 s = Some s' → handing msgs n s'.
Proof.
  intros Hinv H. pose proof Hinv as [Ht Hc Hp Hl He Hr Hd]. unfold cb_step in H. rewrite Ht in H. cbn [lookup list_lookup] in H.
  inversion Hp as [|m l pc Hpc|m l Hdn|m l Hdn|m l]; subst t1 left; destruct_and?; try done;
    destruct m as [[[topic msg] qos] retain]; cbn [fmap list_fmap deliver] in H.
  - assert (Henter : match lock s with
        None => Some (set_thread s (Some 1%nat) 1 (deliver <$> (topic, msg, qos, retain) :: l, Testing)) | Some _ => None end = Some s' → handing msgs n s').
    { clear H. rewrite Hl. destruct (held_by t0 _) eqn:Hh; [done|]. intros H. apply held_none in Hh as [Hh _].
      moves H Hinv; [done|apply (pr_wait _ (topic, msg, qos, retain)); auto| |by rewrite Hh]. unfold held_by. by rewrite Hh. }
    destruct Hpc as [-> | [-> | ->]]; [by apply Henter| |by apply Henter].
    cbn [locks fmap list_fmap] in He. rewrite andb_true_r in He.
    cbn [must_wait] in H. destruct (done s) eqn:Hdn.
    + moves H Hinv; rewrite ?Hdn; [done|by apply (pr_sleep _ (topic, msg, qos, retain))| |by rewrite He]. unfold held_by. by rewrite He.
    + moves H Hinv; rewrite ?Hdn; [done|by apply (pr_act _ (topic, msg, qos, retain))| |by rewrite He]. by rewrite Hl.
  - moves H Hinv; [done|apply (pr_wait _ (topic, msg, qos, retain)); auto| |by rewrite andb_false_r]. by rewrite Hl.
  - cbn [locks fmap list_fmap] in He. rewrite andb_true_r in He. rewrite Hdn in Hc.
    destruct (consumer_filled _ _ _ Hc He) as (-> & Hc' & He'). injection H as <-.
    exists (wake t0), (deliver <$> (topic, msg, qos, retain) :: l, Leaving), k, false, l. split;
      cbn [lock done response threads got]; [done|done|apply (pr_left true (topic, msg, qos, retain))| | |done|].
    + rewrite Hl. unfold held_by. by rewrite He, He'.
    + by rewrite He'.
    + rewrite <- Hd. unfold pending. by rewrite Hdn.
  - cbn [locks fmap list_fmap] in He. rewrite andb_true_r in He.
    moves H Hinv; [done|apply start_producer| |by rewrite He]. unfold held_by. by rewrite He, start_not_locked.
Qed.

Lemma handing_step msgs n s i s' : handing msgs n s → cb_step i s = Some s' → handing msgs n s'.
Proof.
  intros (t0 & t1 & k & taken & left & Hinv) H. destruct i as [|[|i]].
  - by eapply consumer_step.
  - by eapply producer_step.
  - unfold cb_step in H. by rewrite (hi_threads _ _ _ _ _ _ _ _ Hinv) in H.
Qed.

Lemma handing_steps msgs n s s' : handing msgs n s → cb_steps s s' → handing msgs n s'.
Proof. intros Hs H. induction H as [|i s s1 s' H _ IH]; [done|]. apply IH. by eapply handing_step. Qed.

(** ** It ends *)

(** What is left to do; a broadcast costs less than the call that makes it. *)
Definition pc_work (pc : cb_pc) : nat :=
  match pc with
  | Leaving | Reading => 1 | Acting | Sleeping => 4 | Testing => 5 | Entering | Woken => 6 | Writing => 7
  end.

Definition thread_work (t : thread) : nat :=
  match t with ([], _) => 0 | (_ :: calls, pc) => 8 * List.length calls + pc_work pc end.

Definition work (s : cb_state) : nat := list_sum (thread_work <$> threads s).

Definition finished (s : cb_state) : Prop := Forall (λ t : thread, t.1 = []) (threads s).

Lemma start_work c calls : (thread_work (new_thread calls) < thread_work (c :: calls, Leaving))%nat.
Proof.
  unfold new_thread, thread_work, pc_work. destruct calls as [|c' calls]; simpl; [lia|]. destruct c'; simpl; lia.
Qed.

Lemma wake_work t : (thread_work (wake t) ≤ thread_work t + 2)%nat.
Proof. destruct t as [[|c calls] pc]; simpl; [lia|]. destruct pc; simpl; lia. Qed.

(** What a step of one thread does to its own work, and to the other's. *)
Lemma step_work i s s' t0 t1 :
  threads s = [t0; t1] → cb_step i s = Some s' → spurious i s = false → (work s' < work s)%nat.
Proof.
  intros Ht H Hsp. unfold work. rewrite Ht. unfold cb_step, spurious in *. rewrite Ht in H, Hsp.
  assert (Hmain : ∀ c calls pc, [t0; t1] !! i = Some (c :: calls, pc) →
    ∃ t', (threads s' = <[i := t']> [t0; t1] ∧ (thread_work t' < thread_work (c :: calls, pc))%nat) ∨
          (threads s' = <[i := t']> (wake <$> [t0; t1]) ∧ (thread_work t' + 2 < thread_work (c :: calls, pc))%nat)).
  { intros c calls pc Hi. rewrite Hi in H, Hsp. pose proof (start_work c calls) as Hstart.
    destruct pc; try done.
    - destruct c; try done. injection H as <-. eexists. left. split; [done|]. simpl. lia.
    - injection H as <-. eexists. left. split; [done|]. unfold thread_work in *. simpl in *. lia.
    - destruct (lock s); [done|]. unfold set_thread in H. rewrite Ht in H. injection H as <-. eexists. left. split; [done|]. simpl. lia.
    - destruct (must_wait c (done s)); unfold set_thread in H; rewrite Ht in H; injection H as <-; eexists; left;
        (split; [done|]; simpl; lia).
    - destruct (lock s); [done|]. unfold set_thread in H. rewrite Ht in H. injection H as <-. eexists. left. split; [done|]. simpl. lia.
    - destruct (acts c (done s) (response s)) as [[d r] b]. injection H as <-. eexists. destruct b; [right|left];
        (split; [done|]; simpl; lia).
    - unfold set_thread in H. rewrite Ht in H. injection H as <-. eexists. left. by split. }
  destruct ([t0; t1] !! i) as [[[|c calls] pc]|] eqn:Hi; [done| |done].
  destruct (Hmain c calls pc eq_refl) as (t' & [[-> Hw]|[-> Hw]]);
    pose proof (wake_work t0); pose proof (wake_work t1); (destruct i as [|[|i]]; [| |done]); injection Hi as ->;
    cbn [insert list_insert fmap list_fmap list_sum foldr] in *; lia.
Qed.

(** Who can move. *)
Definition can_step (i : nat) (s : cb_state) : Prop := is_Some (cb_step i s) ∧ spurious i s = false.

Lemma locked_moves i s t : threads s !! i = Some t → locks t = true → can_step i s.
Proof.
  intros Hi Hl. unfold can_step, cb_step, spurious. rewrite Hi. destruct t as [[|c calls] pc]; [done|].
  destruct pc; try done.
  - by destruct (must_wait c (done s)).
  - by destruct (acts c (done s) (response s)) as [[d r] b].
Qed.

Lemma enterer_moves i s c calls pc :
  threads s !! i = Some (c :: calls, pc) → lock s = None → pc = Entering ∨ pc = Woken → can_step i s.
Proof.
  intros Hi Hl Hpc. unfold can_step, cb_step, spurious. rewrite Hi, Hl. destruct Hpc as [-> | ->]; (split; [by eexists|done]).
Qed.

(** A thread that cannot move with the mutex free has ended or sleeps. *)
Lemma idle_consumer s t k taken :
  threads s !! 0%nat = Some t → consumer (done s) t k taken → lock s = None → locks t = false → ¬ can_step 0 s →
  (t.1 = [] ∧ k = 0%nat ∧ taken = false) ∨ (done s = false ∧ (0 < k)%nat ∧ taken = false).
Proof.
  intros Hi Hc Hl Hk Hno.
  inversion Hc as [|k' pc Hpc|k' Hd|k' pc Hd Hpc|k' Hd|k' pc Hd Hpc|k' Hd]; subst; try done.
  - by left.
  - destruct Hpc as [-> | [-> | ->]]; [|done|]; destruct Hno; eapply enterer_moves; [exact Hi|done|auto|exact Hi|done|auto].
  - right. split; [done|]. split; [lia|done].
  - by destruct Hpc as [-> | ->].
  - destruct Hno. unfold can_step, cb_step, spurious. rewrite Hi. (split; [by eexists|done]).
  - destruct Hpc as [-> | [-> | ->]]; try done. destruct Hno. eapply enterer_moves; [exact Hi|done|auto].
Qed.

Lemma idle_producer s t left :
  threads s !! 1%nat = Some t → producer (done s) t left → lock s = None → locks t = false → ¬ can_step 1 s →
  (t.1 = [] ∧ left = []) ∨ (done s = true ∧ left ≠ []).
Proof.
  intros Hi Hp Hl Hk Hno. inversion Hp as [|m l pc Hpc|m l Hd|m l Hd|m l]; subst; try done.
  - by left.
  - destruct Hpc as [-> | [-> | ->]]; [|done|]; destruct Hno; eapply enterer_moves; [exact Hi|done|auto|exact Hi|done|auto].
  - by right.
Qed.

Lemma handing_ends msgs s :
  handing msgs (List.length msgs) s → (∀ i, ¬ can_step i s) → got s = as_response <$> msgs ∧ finished s.
Proof.
  intros (t0 & t1 & k & taken & left & [Ht Hc Hp Hl He Hr Hd]) Hno.
  assert (H0 : threads s !! 0%nat = Some t0) by by rewrite Ht.
  assert (H1 : threads s !! 1%nat = Some t1) by by rewrite Ht.
  assert (Hk0 : locks t0 = false) by (destruct (locks t0) eqn:E; [by destruct (Hno 0%nat (locked_moves _ _ _ H0 E))|done]).
  assert (Hk1 : locks t1 = false) by (destruct (locks t1) eqn:E; [by destruct (Hno 1%nat (locked_moves _ _ _ H1 E))|done]).
  unfold held_by in Hl. rewrite Hk0, Hk1 in Hl.
  pose proof (f_equal List.length Hd) as Hlen. rewrite !length_app, !length_fmap in Hlen. unfold pending in *.
  destruct (idle_consumer s t0 k taken H0 Hc Hl Hk0 (Hno 0%nat)) as [(Ht0 & -> & ->)|(Hdn & Hk & ->)];
    destruct (idle_producer s t1 left H1 Hp Hl Hk1 (Hno 1%nat)) as [[Ht1 ->]|[Hdn' Hleft]].
  - destruct (done s && negb false); [simpl in Hlen; lia|]. rewrite fmap_nil, !app_nil_r in Hd.
    split; [exact Hd|]. unfold finished. rewrite Ht. by repeat constructor.
  - destruct left as [|m left]; [done|]. simpl in Hlen. lia.
  - rewrite Hdn in Hlen. simpl in Hlen. lia.
  - congruence.
Qed.

(** C38. Nothing is lost in the hand-over.  Whatever the interleaving of the thread
    that delivers messages and the one that waits for them, what was read is the
    first messages delivered, in order, and at most one more is in the slot: no
    message is overwritten, skipped or read twice. *)
Theorem handoff_in_order msgs n s :
  cb_steps (handoff msgs n) s →
  ∃ slot rest, (List.length slot ≤ 1)%nat ∧ got s ++ slot ++ rest = as_response <$> msgs.
Proof.
  intros Hs. destruct (handing_steps _ _ _ _ (handoff_handing msgs n) Hs) as (t0 & t1 & k & taken & left & [_ _ _ _ _ _ Hd]).
  exists (pending taken s), (as_response <$> left). split; [|done]. unfold pending. case_match; simpl; lia.
Qed.

(** C39. The hand-over ends.  With as many rounds of [wait_for_cb] and [release_cb] as
    messages, every step but a spurious wakeup leaves less to do, and where no
    other step is possible both threads are through and every message was read:
    no wakeup is lost and the threads never wait for each other. *)
Theorem handoff_ends msgs s :
  cb_steps (handoff msgs (List.length msgs)) s →
  (∀ i s', cb_step i s = Some s' → spurious i s = false → (work s' < work s)%nat) ∧
  ((∀ i s', cb_step i s = Some s' → spurious i s = true) →
   got s = as_response <$> msgs ∧ Forall (λ t : thread, t.1 = []) (threads s)).
Proof.
  intros Hs. pose proof (handing_steps _ _ _ _ (handoff_handing msgs _) Hs) as Hh. split.
  - intros i s' H Hsp. destruct Hh as (t0 & t1 & k & taken & left & Hinv).
    eapply step_work; [by apply (hi_threads _ _ _ _ _ _ _ _ Hinv)|done|done].
  - intros Hsp. apply handing_ends; [done|]. intros i [[s' H] Hf]. by rewrite (Hsp i s' H) in Hf.
Qed.

(** * Runs *)

Definition two_msgs : list message := [([116; 0], [49; 0], 0, false); ([116; 0], [50; 0], 1, false)].

(** The producer fills the slot and, as it is full, sleeps; the consumer reads,
    releases and wakes it. *)
Definition filled_order : list nat := [1; 1; 1; 1; 1; 1]%nat.
Definition read_order : list nat := repeat 0%nat 9.

Definition run_of (order : list nat) : cb_state :=
  default (create_cb_state []) (cb_run order (handoff two_msgs 2)).

Example producer_sleeps :
  threads (run_of filled_order) = [(consume 2, Entering); (deliver <$> drop 1 two_msgs, Sleeping)].
Proof. vm_compute. reflexivity. Qed.

Lemma handoff_in_order_witness :
  ∃ slot rest, (List.length slot ≤ 1)%nat ∧ got (run_of (filled_order ++ read_order)) ++ slot ++ rest = as_response <$> two_msgs.
Proof.
  apply (handoff_in_order two_msgs 2 (run_of (filled_order ++ read_order))).
  apply (cb_run_steps (filled_order ++ read_order)). vm_compute. reflexivity.
Defined.

(** Both threads to their ends. *)
Definition whole_order : list nat := filled_order ++ read_order ++ repeat 1%nat 4 ++ repeat 0%nat 9.

Lemma handoff_ends_witness :
  got (run_of whole_order) = as_response <$> two_msgs ∧
  Forall (λ t : thread, t.1 = []) (threads (run_of whole_order)).
Proof.
  apply (handoff_ends two_msgs (run_of whole_order)).
  - apply (cb_run_steps whole_order). vm_compute. reflexivity.
  - intros [|[|i]] s' H; vm_compute in H; discriminate H.
Defined.

(** [subscribe_cb] writes the union before it waits for the slot: a message that
    was not read yet is gone. *)
Theorem subscribe_cb_overwrites n rs topic msg qos retain :
  cb_run [1; 1; 1; 1; 1; 0; 0; 0; 0]%nat
    (create_cb_state [[Wait_for_cb; Read_response]; [Message_cb topic msg qos retain; Subscribe_cb n rs]]) =
  Some (mk_cb_state None true (subscription_response n rs)
          [([Read_response], Reading); ([Subscribe_cb n rs], Entering)] []).
Proof. reflexivity. Qed.
