(* ===== verification/Runner.v ===== *)
(** Runner: the test runner of [libtest/runner.c] and the assertion macros of
    [libtest/test_macros.h]. *)

From S2P Require Import Prelude.
From Stdlib Require Import String.

#[local] Open Scope Z_scope.

(** * Results *)

(** [e] is not initialised by [init_result]. *)
Record test_result_t := mk_result { success : bool; line : Z; e : option string }.

Definition init_result : test_result_t := mk_result true 0 None.

(** The macros, at a line and for the text of an expression (below [MAX_TEXT]
    characters). *)
Definition ASSERT_TRUE (at_line : Z) (text : string) (expr : bool) (result : test_result_t) : test_result_t :=
  if success result && negb expr then mk_result false at_line (Some text) else result.

Definition ASSERT_FALSE (at_line : Z) (text : string) (expr : bool) (result : test_result_t) : test_result_t :=
  if success result && expr then mk_result false at_line (Some text) else result.

(** Text between quotation marks. *)
Definition quoted (s : string) : string := String (Ascii.ascii_of_nat 34) (s ++ String (Ascii.ascii_of_nat 34) EmptyString).

(** The lines printed. *)
Inductive test_output :=
  | Test_line (number : Z) (name : string) (pass : bool)
  | Failure_line (at_line : Z)
  | Failure_condition (text : string)
  | All_passed (test_count : Z)
  | Some_failed (fail_count test_count : Z)
  | No_tests_skipped.

Section runner.
(** What the tests act on. *)
Context {W : Type}.

Record test_definition_t := mk_test { name : string; function : option (W → test_result_t * W) }.

(** [tests[i]] *)
Definition get_test (tests : list test_definition_t) (i : Z) : outcome test_definition_t :=
  if decide (0 ≤ i) then match tests !! Z.to_nat i with Some t => Ok t | None => Fault OobRead end else Fault OobRead.

(** The body of the loop: the lines printed, [fail_count] and the world. *)
Definition run_test (i : Z) (test_name : string) (f : W → test_result_t * W) (fail_count : Z) (w : W)
    : outcome (list test_output * Z * W) :=
  let '(result, w) := f w in
  let out := [Test_line (i + 1) test_name (success result)] in
  if success result then Ok (out, fail_count, w)
  else match e result with
       | None => Fault Uninitialised
       | Some text => Ok (out ++ [Failure_line (line result); Failure_condition text], u16 (fail_count + 1), w)
       end.

(** [for (uint8_t i = 0; i < test_count && tests[i].function != NULL; i++)] *)
Fixpoint run_loop (fuel : nat) (tests : list test_definition_t) (test_count i fail_count : Z) (w : W)
    : outcome (list test_output * Z * W) :=
  match fuel with
  | O => Fault OutOfFuel
  | S fuel =>
      if decide (i < test_count) then
        t ← get_test tests i;
        match function t with
        | None => Ok ([], fail_count, w)
        | Some f =>
            '(out, fail_count, w) ← run_test i (name t) f fail_count w;
            '(rest, fail_count, w) ← run_loop fuel tests test_count (u8 (i + 1)) fail_count w;
            Ok (out ++ rest, fail_count, w)
        end
      else Ok ([], fail_count, w)
  end.

(** The value returned, the lines printed. *)
Definition run_tests (fuel : nat) (tests : list test_definition_t) (test_count : Z) (w : W)
    : outcome (Z * list test_output * W) :=
  '(out, fail_count, w) ← run_loop fuel tests test_count 0 0 w;
  let summary := if decide (fail_count = 0) then All_passed test_count else Some_failed fail_count test_count in
  Ok (0, out ++ [summary; No_tests_skipped], w).

(** * Specification

    The tests up to the count or the first one without a function, one after
    the other. *)
Fixpoint runnable (l : list test_definition_t) : list (string * (W → test_result_t * W)) :=
  match l with
  | [] => []
  | t :: l => match function t with Some f => (name t, f) :: runnable l | None => [] end
  end.

Fixpoint run_each (l : list (string * (W → test_result_t * W))) (i fail_count : Z) (w : W)
    : outcome (list test_output * Z * W) :=
  match l with
  | [] => Ok ([], fail_count, w)
  | (test_name, f) :: l =>
      '(out, fail_count, w) ← run_test i test_name f fail_count w;
      '(rest, fail_count, w) ← run_each l (i + 1) fail_count w;
      Ok (out ++ rest, fail_count, w)
  end.

Definition to_run (tests : list test_definition_t) (test_count : Z) :=
  runnable (take (Z.to_nat test_count) tests).

Lemma run_loop_spec tests test_count : ∀ n fuel i fail_count w,
  test_count ≤ zlen tests → 0 ≤ i →
  let l := runnable (drop (Z.to_nat i) (take (Z.to_nat test_count) tests)) in
  List.length l = n → i + Z.of_nat n < 256 → (n < fuel)%nat →
  run_loop fuel tests test_count i fail_count w = run_each l i fail_count w.
Proof using Type.
  induction n as [|n IH]; intros fuel i fail_count w Hc Hi l Hn Hb Hf; (destruct fuel as [|fuel]; [lia|]); cbn [run_loop].
  - case_decide as Hlt; [|by rewrite (nil_length_inv _ Hn)].
    destruct (lookup_lt_is_Some_2 tests (Z.to_nat i)) as [t Ht]; [unfold zlen in Hc; lia|].
    unfold get_test. rewrite decide_True, Ht, bind_ok by done. unfold l in *.
    rewrite (drop_S _ t) in * by (rewrite lookup_take_lt by lia; done). cbn [runnable] in *.
    destruct (function t); [done|]. done.
  - case_decide as Hlt.
    2:{ unfold l in Hn. rewrite drop_ge in Hn by (rewrite length_take; lia). done. }
    destruct (lookup_lt_is_Some_2 tests (Z.to_nat i)) as [t Ht]; [unfold zlen in Hc; lia|].
    unfold get_test. rewrite decide_True, Ht, bind_ok by done. unfold l in *.
    rewrite (drop_S _ t) in * by (rewrite lookup_take_lt by lia; done). cbn [runnable] in *.
    destruct (function t) as [f|]; [|done]. cbn [run_each]. cbn [List.length] in Hn.
    destruct (run_test i (name t) f fail_count w) as [[[out fc] w']|]; [|done]. rewrite !bind_ok.
    unfold u8. rewrite Z.mod_small by lia.
    replace (S (Z.to_nat i)) with (Z.to_nat (i + 1)) in * by lia.
    rewrite (IH fuel (i + 1) fc w') by (done || lia). done.
Qed.

(** A test whose result can be printed: it comes from the macros. *)
Definition reports (t : test_definition_t) : Prop :=
  ∃ f, function t = Some f ∧ ∀ w, success (f w).1 = true ∨ is_Some (e (f w).1).

Lemma run_test_ok t i fail_count w f :
  function t = Some f → reports t → ∃ r, run_test i (name t) f fail_count w = Ok r.
Proof using Type.
  intros Hf (f' & Hf' & Hr). rewrite Hf in Hf'. injection Hf' as <-. unfold run_test. specialize (Hr w).
  destruct (f w) as [r w']. cbn [fst] in Hr. destruct (success r); [by eexists|]. destruct Hr as [|[text ->]]; [done|by eexists].
Qed.

Lemma run_loop_wraps tests test_count fuel : ∀ i fail_count w,
  256 ≤ test_count ≤ zlen tests → Forall reports (take 256 tests) → 0 ≤ i < 256 →
  run_loop fuel tests test_count i fail_count w = Fault OutOfFuel.
Proof using Type.
  induction fuel as [|fuel IH]; intros i fail_count w Hc Ht Hi; [done|]. cbn [run_loop]. rewrite decide_True by lia.
  destruct (lookup_lt_is_Some_2 tests (Z.to_nat i)) as [t Hti]; [unfold zlen in Hc; lia|].
  unfold get_test. rewrite decide_True, Hti, bind_ok by lia.
  assert (Hr : reports t) by (apply (Forall_lookup_1 reports _ (Z.to_nat i) t Ht); by rewrite lookup_take_lt by lia).
  pose proof Hr as (f & Hf & _). rewrite Hf. destruct (run_test_ok t i fail_count w f Hf Hr) as [[[out fc] w'] ->].
  rewrite bind_ok. by rewrite (IH (u8 (i + 1))) by (done || apply u8_range).
Qed.

(** The runner runs every test.  Where fewer than 256 tests come before the
    count or the first test without a function, [run_tests] runs each of them
    once, in order, prints its line (and, where it failed, the failure), counts
    the failures, and ends; it returns 0 whether or not a test failed. *)
Theorem run_tests_runs_each fuel tests test_count w :
  test_count ≤ zlen tests → (List.length (to_run tests test_count) < 256)%nat →
  (List.length (to_run tests test_count) < fuel)%nat →
  run_tests fuel tests test_count w =
    ('(out, fail_count, w) ← run_each (to_run tests test_count) 0 0 w;
     Ok (0, out ++ [if decide (fail_count = 0) then All_passed test_count else Some_failed fail_count test_count;
                    No_tests_skipped], w)).
Proof using Type.
  intros Hc Hl Hf. unfold run_tests.
  by rewrite (run_loop_spec tests test_count (List.length (to_run tests test_count)) fuel 0 0 w) by (done || lia).
Qed.

(** The runner's counter has eight bits.  With 256 tests or more it starts over
    at the first test, and never ends. *)
Theorem run_tests_never_ends fuel tests test_count w :
  256 ≤ test_count ≤ zlen tests → Forall reports (take 256 tests) →
  run_tests fuel tests test_count w = Fault OutOfFuel.
Proof using Type. intros Hc Ht. unfold run_tests. by rewrite run_loop_wraps by (done || lia). Qed.

End runner.

(** * Examples *)

(** The first assertion that fails is the one reported. *)
Example first_failure a b line1 line2 text1 text2 :
  ASSERT_TRUE line2 text2 b (ASSERT_TRUE line1 text1 a init_result) =
    if a then if b then init_result else mk_result false line2 (Some text2) else mk_result false line1 (Some text1).
Proof. by destruct a, b. Qed.

Definition counting (pass : bool) (n : nat) : test_result_t * nat :=
  (ASSERT_TRUE 7 "n == 0" pass init_result, S n).
Definition sample_tests : list (@test_definition_t nat) :=
  [mk_test "first" (Some (counting true)); mk_test "second" (Some (counting false)); mk_test "none" None;
   mk_test "not run" (Some (counting true))].

Lemma run_tests_runs_each_witness :
  run_tests 5 sample_tests 4 0%nat =
    Ok (0, [Test_line 1 "first" true; Test_line 2 "second" false; Failure_line 7; Failure_condition "n == 0";
            Some_failed 1 4; No_tests_skipped], 2%nat).
Proof.
  rewrite (run_tests_runs_each 5 sample_tests 4 0%nat); [by vm_compute|by vm_compute|simpl; lia|simpl; lia].
Defined.

Lemma run_tests_never_ends_witness :
  run_tests 1000 (replicate 256 (mk_test "t" (Some (counting true)))) 256 0%nat = Fault OutOfFuel.
Proof.
  apply (run_tests_never_ends 1000 (replicate 256 (mk_test "t" (Some (counting true)))) 256 0%nat).
  - by vm_compute.
  - apply Forall_take, Forall_replicate. eexists. split; [reflexivity|]. intros w. by left.
Defined.
