(* ===== verification/TestCodec.v ===== *)
(** TestCodec: the tests of the codec, [test/encoding.c] and [test/serialization.c],
    and that they pass whatever their buffers hold before. *)

From S2P Require Import Prelude Runner Protocol Size Wire Serialize Deserialize Codec.
From Stdlib Require Import String.

#[local] Open Scope Z_scope.

(** [libtest/test_macros.h]. *)
Definition BUFFER_SIZE : Z := 1024.

(** * What the tests use *)

(** The macros of [Runner], with a condition that may fault: it is evaluated while
    nothing has failed. *)
Definition ASSERT_TRUE (at_line : Z) (text : string) (expr : outcome bool) (result : test_result_t) : outcome test_result_t :=
  if success result then b ← expr; Ok (Runner.ASSERT_TRUE at_line text b result) else Ok result.
Definition ASSERT_FALSE (at_line : Z) (text : string) (expr : outcome bool) (result : test_result_t) : outcome test_result_t :=
  if success result then b ← expr; Ok (Runner.ASSERT_FALSE at_line text b result) else Ok result.

(** [strncmp] on two objects. *)
Fixpoint strncmp (s1 s2 : list Z) (n : nat) {struct n} : outcome Z :=
  match n with
  | O => Ok 0
  | S n =>
      match s1, s2 with
      | a :: s1, b :: s2 => if decide (a ≠ b) then Ok (a - b) else if decide (a = 0) then Ok 0 else strncmp s1 s2 n
      | _, _ => Fault OobRead
      end
  end.

(** [strncmp(p, text, size) == 0] with [p] a pointer into the buffer. *)
Definition same_text (buffer : list Z) (p : Z) (text : list Z) (size : Z) : outcome bool :=
  c ← strncmp (drop (Z.to_nat p) buffer) (c_object text) (Z.to_nat size); Ok (bool_decide (c = 0)).

(** Members of [message]; to read one of a member of the union that was not
    written is left undefined, as is a member nobody wrote. *)
Definition deref (message : option response_t) : outcome response_t :=
  match message with Some r => Ok r | None => Fault NullDeref end.
Definition initialised {A} (o : option A) : outcome A := match o with Some a => Ok a | None => Fault Uninitialised end.

Definition has_type (message : option response_t) (t : message_type_t) : outcome bool :=
  r ← deref message; Ok (bool_decide (type r = t)).
Definition connect_body (message : option response_t) : outcome connect_data_t :=
  r ← deref message; match body r with connect_data d => Ok d | _ => Fault Uninitialised end.
Definition connack_type (message : option response_t) : outcome Z :=
  r ← deref message; match body r with connack_data t => Ok t | _ => Fault Uninitialised end.
Definition publish_body (message : option response_t) : outcome publish_data_t :=
  r ← deref message; match body r with publish_data d => Ok d | _ => Fault Uninitialised end.
Definition packet_id_of (message : option response_t) : outcome Z :=
  r ← deref message;
  match body r with unsubscribe_data p _ => Ok p | b => initialised (body_packet_id b) end.
Definition topics_of (message : option response_t) : outcome (list topic_entry) :=
  r ← deref message; match body r with subscribe_data _ l | unsubscribe_data _ l => Ok l | _ => Fault Uninitialised end.
Definition results_of (message : option response_t) : outcome (list sub_result) :=
  r ← deref message; match body r with suback_data _ l => Ok l | _ => Fault Uninitialised end.
Definition topic_at (message : option response_t) (i : nat) : outcome topic_entry := l ← topics_of message; initialised (l !! i).
Definition result_at (message : option response_t) (i : nat) : outcome sub_result := l ← results_of message; initialised (l !! i).
(** [topic_count] of the three. *)
Definition entries (message : option response_t) : outcome Z :=
  r ← deref message;
  match body r with
  | subscribe_data _ l | unsubscribe_data _ l => Ok (zlen l)
  | suback_data _ l => Ok (zlen l)
  | _ => Fault Uninitialised
  end.

(** * Tests

    [stack] and [buffer] are what the local array holds at the start. *)

(** ** [test/encoding.c] *)

Definition fill_buffer (buffer : list Z) : outcome (list Z) :=
  buffer ← buf_write buffer 0 0xFF;
  buffer ← buf_write buffer 1 0xFF;
  buffer ← buf_write buffer 2 0xFF;
  buf_write buffer 3 0xFF.

Definition test_length_encoding (stack : list Z) : outcome test_result_t :=
  let result := init_result in
  let buffer := take 4 stack in
  buffer ← fill_buffer buffer;
  '(ret, used, buffer) ← encode_size 0 buffer 0;
  result ← ASSERT_TRUE 34 "ret" (Ok ret) result;
  result ← ASSERT_TRUE 35 "buffer[0] == 0" (b ← buf_read buffer 0; Ok (bool_decide (b = 0))) result;
  result ← ASSERT_TRUE 36 "used == 1" (Ok (bool_decide (used = 1))) result;
  buffer ← fill_buffer buffer;
  '(ret, used, buffer) ← encode_size 127 buffer 0;
  result ← ASSERT_TRUE 41 "ret" (Ok ret) result;
  result ← ASSERT_TRUE 42 "buffer[0] == 0x7F" (b ← buf_read buffer 0; Ok (bool_decide (b = 0x7F))) result;
  result ← ASSERT_TRUE 43 "used == 1" (Ok (bool_decide (used = 1))) result;
  buffer ← fill_buffer buffer;
  '(ret, used, buffer) ← encode_size 128 buffer 0;
  result ← ASSERT_TRUE 48 "ret" (Ok ret) result;
  result ← ASSERT_TRUE 49 "buffer[0] == 0x80" (b ← buf_read buffer 0; Ok (bool_decide (b = 0x80))) result;
  result ← ASSERT_TRUE 50 "buffer[1] == 0x01" (b ← buf_read buffer 1; Ok (bool_decide (b = 0x01))) result;
  result ← ASSERT_TRUE 51 "used == 2" (Ok (bool_decide (used = 2))) result;
  buffer ← fill_buffer buffer;
  '(ret, used, buffer) ← encode_size 16383 buffer 0;
  result ← ASSERT_TRUE 56 "ret" (Ok ret) result;
  result ← ASSERT_TRUE 57 "buffer[0] == 0xFF" (b ← buf_read buffer 0; Ok (bool_decide (b = 0xFF))) result;
  result ← ASSERT_TRUE 58 "buffer[1] == 0x7F" (b ← buf_read buffer 1; Ok (bool_decide (b = 0x7F))) result;
  result ← ASSERT_TRUE 59 "used == 2" (Ok (bool_decide (used = 2))) result;
  buffer ← fill_buffer buffer;
  '(ret, used, buffer) ← encode_size 16384 buffer 0;
  result ← ASSERT_TRUE 64 "ret" (Ok ret) result;
  result ← ASSERT_TRUE 65 "buffer[0] == 0x80" (b ← buf_read buffer 0; Ok (bool_decide (b = 0x80))) result;
  result ← ASSERT_TRUE 66 "buffer[1] == 0x80" (b ← buf_read buffer 1; Ok (bool_decide (b = 0x80))) result;
  result ← ASSERT_TRUE 67 "buffer[2] == 0x01" (b ← buf_read buffer 2; Ok (bool_decide (b = 0x01))) result;
  result ← ASSERT_TRUE 68 "used == 3" (Ok (bool_decide (used = 3))) result;
  buffer ← fill_buffer buffer;
  '(ret, used, buffer) ← encode_size 2097151 buffer 0;
  result ← ASSERT_TRUE 73 "ret" (Ok ret) result;
  result ← ASSERT_TRUE 74 "buffer[0] == 0xFF" (b ← buf_read buffer 0; Ok (bool_decide (b = 0xFF))) result;
  result ← ASSERT_TRUE 75 "buffer[1] == 0xFF" (b ← buf_read buffer 1; Ok (bool_decide (b = 0xFF))) result;
  result ← ASSERT_TRUE 76 "buffer[2] == 0x7F" (b ← buf_read buffer 2; Ok (bool_decide (b = 0x7F))) result;
  result ← ASSERT_TRUE 77 "used == 3" (Ok (bool_decide (used = 3))) result;
  buffer ← fill_buffer buffer;
  '(ret, used, buffer) ← encode_size 2097152 buffer 0;
  result ← ASSERT_TRUE 82 "ret" (Ok ret) result;
  result ← ASSERT_TRUE 83 "buffer[0] == 0x80" (b ← buf_read buffer 0; Ok (bool_decide (b = 0x80))) result;
  result ← ASSERT_TRUE 84 "buffer[1] == 0x80" (b ← buf_read buffer 1; Ok (bool_decide (b = 0x80))) result;
  result ← ASSERT_TRUE 85 "buffer[2] == 0x80" (b ← buf_read buffer 2; Ok (bool_decide (b = 0x80))) result;
  result ← ASSERT_TRUE 86 "buffer[3] == 0x01" (b ← buf_read buffer 3; Ok (bool_decide (b = 0x01))) result;
  result ← ASSERT_TRUE 87 "used == 4" (Ok (bool_decide (used = 4))) result;
  buffer ← fill_buffer buffer;
  '(ret, used, buffer) ← encode_size 268435455 buffer 0;
  result ← ASSERT_TRUE 92 "ret" (Ok ret) result;
  result ← ASSERT_TRUE 93 "buffer[0] == 0xFF" (b ← buf_read buffer 0; Ok (bool_decide (b = 0xFF))) result;
  result ← ASSERT_TRUE 94 "buffer[1] == 0xFF" (b ← buf_read buffer 1; Ok (bool_decide (b = 0xFF))) result;
  result ← ASSERT_TRUE 95 "buffer[2] == 0xFF" (b ← buf_read buffer 2; Ok (bool_decide (b = 0xFF))) result;
  result ← ASSERT_TRUE 96 "buffer[3] == 0x7F" (b ← buf_read buffer 3; Ok (bool_decide (b = 0x7F))) result;
  result ← ASSERT_TRUE 97 "used == 4" (Ok (bool_decide (used = 4))) result;
  Ok result.

Definition test_length_decoding (stack : list Z) : outcome test_result_t :=
  let result := init_result in
  let buffer_1 := [0x00] in
  let size := 1 in
  '(ret, written, used) ← decode_size buffer_1 0 0; let size := default size written in
  result ← ASSERT_TRUE 116 "ret" (Ok ret) result;
  result ← ASSERT_TRUE 117 "size == 0" (Ok (bool_decide (size = 0))) result;
  result ← ASSERT_TRUE 118 "used == 1" (Ok (bool_decide (used = 1))) result;
  let buffer_2 := [0x7F] in
  let size := 0 in
  '(ret, written, used) ← decode_size buffer_2 0 0; let size := default size written in
  result ← ASSERT_TRUE 124 "ret" (Ok ret) result;
  result ← ASSERT_TRUE 125 "size == 127" (Ok (bool_decide (size = 127))) result;
  result ← ASSERT_TRUE 126 "used == 1" (Ok (bool_decide (used = 1))) result;
  let buffer_3 := [0x80; 0x01] in
  let size := 0 in
  '(ret, written, used) ← decode_size buffer_3 0 1; let size := default size written in
  result ← ASSERT_TRUE 132 "ret" (Ok ret) result;
  result ← ASSERT_TRUE 133 "size == 128" (Ok (bool_decide (size = 128))) result;
  result ← ASSERT_TRUE 134 "used == 2" (Ok (bool_decide (used = 2))) result;
  let buffer_4 := [0xFF; 0x7F] in
  let size := 0 in
  '(ret, written, used) ← decode_size buffer_4 0 1; let size := default size written in
  result ← ASSERT_TRUE 140 "ret" (Ok ret) result;
  result ← ASSERT_TRUE 141 "size == 16383" (Ok (bool_decide (size = 16383))) result;
  result ← ASSERT_TRUE 142 "used == 2" (Ok (bool_decide (used = 2))) result;
  let buffer_5 := [0x80; 0x80; 0x01] in
  let size := 0 in
  '(ret, written, used) ← decode_size buffer_5 0 2; let size := default size written in
  result ← ASSERT_TRUE 148 "ret" (Ok ret) result;
  result ← ASSERT_TRUE 149 "size == 16384" (Ok (bool_decide (size = 16384))) result;
  result ← ASSERT_TRUE 150 "used == 3" (Ok (bool_decide (used = 3))) result;
  let buffer_6 := [0xFF; 0xFF; 0x7F] in
  let size := 0 in
  '(ret, written, used) ← decode_size buffer_6 0 2; let size := default size written in
  result ← ASSERT_TRUE 156 "ret" (Ok ret) result;
  result ← ASSERT_TRUE 157 "size == 2097151" (Ok (bool_decide (size = 2097151))) result;
  result ← ASSERT_TRUE 158 "used == 3" (Ok (bool_decide (used = 3))) result;
  let buffer_7 := [0x80; 0x80; 0x80; 0x01] in
  let size := 0 in
  '(ret, written, used) ← decode_size buffer_7 0 3; let size := default size written in
  result ← ASSERT_TRUE 164 "ret" (Ok ret) result;
  result ← ASSERT_TRUE 165 "size == 2097152" (Ok (bool_decide (size = 2097152))) result;
  result ← ASSERT_TRUE 166 "used == 4" (Ok (bool_decide (used = 4))) result;
  let buffer_8 := [0xFF; 0xFF; 0xFF; 0x7F] in
  let size := 0 in
  '(ret, written, used) ← decode_size buffer_8 0 3; let size := default size written in
  result ← ASSERT_TRUE 172 "ret" (Ok ret) result;
  result ← ASSERT_TRUE 173 "size == 268435455" (Ok (bool_decide (size = 268435455))) result;
  result ← ASSERT_TRUE 174 "used == 4" (Ok (bool_decide (used = 4))) result;
  Ok result.

(** ** [test/serialization.c] *)

Definition test_connect_message_v3 (buffer : list Z) : outcome test_result_t :=
  let result := init_result in
  let keep_alive_sec := 30 in
  '(send_size, buffer) ←
    make_connect_message buffer BUFFER_SIZE (chars "foo") None None keep_alive_sec false false QoS0 false None None;
  result ← ASSERT_TRUE 28 "send_size >= 0" (Ok (bool_decide (send_size >= 0))) result;
  message ← deserialize_response buffer send_size;
  result ← ASSERT_TRUE 31 "message->type == CONNECT" (has_type message CONNECT) result;
  result ← ASSERT_TRUE 32 "message->body.connect_data.version == 3u"
    (d ← connect_body message; Ok (bool_decide (version d = 3))) result;
  result ← ASSERT_FALSE 33 "message->body.connect_data.has_clean" (d ← connect_body message; Ok (has_clean d)) result;
  result ← ASSERT_FALSE 34 "message->body.connect_data.has_user" (d ← connect_body message; Ok (has_user d)) result;
  result ← ASSERT_FALSE 35 "message->body.connect_data.has_pw" (d ← connect_body message; Ok (has_pw d)) result;
  result ← ASSERT_FALSE 36 "message->body.connect_data.has_will" (d ← connect_body message; Ok (has_will d)) result;
  result ← ASSERT_TRUE 37 "message->body.connect_data.keep_alive == keep_alive_sec"
    (d ← connect_body message; Ok (bool_decide (keep_alive d = keep_alive_sec))) result;
  d ← connect_body message; let name_ := name d in
  d ← connect_body message; let name_size_ := name_size d in
  result ← ASSERT_TRUE 40 "name_size == 6" (Ok (bool_decide (name_size_ = 6))) result;
  result ← ASSERT_TRUE 41 ("strncmp(name, " ++ quoted "MQIsdp" ++ ", name_size) == 0")
    (same_text buffer name_ (chars "MQIsdp") name_size_) result;
  Ok result.

Definition test_connect_message_the_works_v3 (buffer : list Z) : outcome test_result_t :=
  let result := init_result in
  let keep_alive_sec := 30 in
  '(send_size, buffer) ←
    make_connect_message buffer BUFFER_SIZE (chars "foo") (Some (chars "fred")) (Some (chars "mysecret"))
      keep_alive_sec true true QoS2 true (Some (chars "willtopic")) (Some (chars "willmsg"));
  result ← ASSERT_TRUE 60 "send_size >= 0" (Ok (bool_decide (send_size >= 0))) result;
  message ← deserialize_response buffer send_size;
  result ← ASSERT_TRUE 63 "message->type == CONNECT" (has_type message CONNECT) result;
  result ← ASSERT_TRUE 64 "message->body.connect_data.version == 3u"
    (d ← connect_body message; Ok (bool_decide (version d = 3))) result;
  result ← ASSERT_TRUE 65 "message->body.connect_data.has_clean" (d ← connect_body message; Ok (has_clean d)) result;
  result ← ASSERT_TRUE 67 "message->body.connect_data.has_user" (d ← connect_body message; Ok (has_user d)) result;
  d ← connect_body message; user_ ← initialised (user d);
  d ← connect_body message; user_size_ ← initialised (user_size d);
  result ← ASSERT_TRUE 70 "user_size == 4" (Ok (bool_decide (user_size_ = 4))) result;
  result ← ASSERT_TRUE 71 ("strncmp(user, " ++ quoted "fred" ++ ", user_size) == 0")
    (same_text buffer user_ (chars "fred") user_size_) result;
  result ← ASSERT_TRUE 73 "message->body.connect_data.has_pw" (d ← connect_body message; Ok (has_pw d)) result;
  d ← connect_body message; pw_ ← initialised (pw d);
  d ← connect_body message; pw_size_ ← initialised (pw_size d);
  result ← ASSERT_TRUE 76 "pw_size == 8" (Ok (bool_decide (pw_size_ = 8))) result;
  result ← ASSERT_TRUE 77 ("strncmp(pw, " ++ quoted "mysecret" ++ ", pw_size) == 0")
    (same_text buffer pw_ (chars "mysecret") pw_size_) result;
  result ← ASSERT_TRUE 79 "message->body.connect_data.has_will" (d ← connect_body message; Ok (has_will d)) result;
  result ← ASSERT_TRUE 80 "message->body.connect_data.will_retain"
    (d ← connect_body message; Ok (will_retain d)) result;
  result ← ASSERT_TRUE 81 "message->body.connect_data.will_qos == QoS2"
    (d ← connect_body message; Ok (bool_decide (will_qos d = QoS2))) result;
  d ← connect_body message; will_topic_ ← initialised (will_topic d);
  d ← connect_body message; will_topic_size_ ← initialised (will_topic_size d);
  result ← ASSERT_TRUE 84 "will_topic_size == 9" (Ok (bool_decide (will_topic_size_ = 9))) result;
  result ← ASSERT_TRUE 85 ("strncmp(will_topic, " ++ quoted "willtopic" ++ ", will_topic_size) == 0")
    (same_text buffer will_topic_ (chars "willtopic") will_topic_size_) result;
  d ← connect_body message; will_message_ ← initialised (will_message d);
  d ← connect_body message; will_message_size_ ← initialised (will_message_size d);
  result ← ASSERT_TRUE 88 "will_message_size == 7" (Ok (bool_decide (will_message_size_ = 7))) result;
  result ← ASSERT_TRUE 89 ("strncmp(will_message, " ++ quoted "willmsg" ++ ", will_message_size) == 0")
    (same_text buffer will_message_ (chars "willmsg") will_message_size_) result;
  result ← ASSERT_TRUE 91 "message->body.connect_data.keep_alive == keep_alive_sec"
    (d ← connect_body message; Ok (bool_decide (keep_alive d = keep_alive_sec))) result;
  d ← connect_body message; let name_ := name d in
  d ← connect_body message; let name_size_ := name_size d in
  result ← ASSERT_TRUE 94 "name_size == 6" (Ok (bool_decide (name_size_ = 6))) result;
  result ← ASSERT_TRUE 95 ("strncmp(name, " ++ quoted "MQIsdp" ++ ", name_size) == 0")
    (same_text buffer name_ (chars "MQIsdp") name_size_) result;
  Ok result.

Definition test_connect_message_mixed_v3 (buffer : list Z) : outcome test_result_t :=
  let result := init_result in
  let keep_alive_sec := 30 in
  '(send_size, buffer) ←
    make_connect_message buffer BUFFER_SIZE (chars "foo") None (Some (chars "mysecret"))
      keep_alive_sec false true QoS2 false (Some (chars "willtopic")) (Some (chars "willmsg"));
  result ← ASSERT_TRUE 114 "send_size >= 0" (Ok (bool_decide (send_size >= 0))) result;
  message ← deserialize_response buffer send_size;
  result ← ASSERT_TRUE 117 "message->type == CONNECT" (has_type message CONNECT) result;
  result ← ASSERT_TRUE 118 "message->body.connect_data.version == 3u"
    (d ← connect_body message; Ok (bool_decide (version d = 3))) result;
  result ← ASSERT_FALSE 119 "message->body.connect_data.has_clean"
    (d ← connect_body message; Ok (has_clean d)) result;
  result ← ASSERT_FALSE 121 "message->body.connect_data.has_user" (d ← connect_body message; Ok (has_user d)) result;
  result ← ASSERT_TRUE 123 "message->body.connect_data.has_pw" (d ← connect_body message; Ok (has_pw d)) result;
  d ← connect_body message; pw_ ← initialised (pw d);
  d ← connect_body message; pw_size_ ← initialised (pw_size d);
  result ← ASSERT_TRUE 126 "pw_size == 8" (Ok (bool_decide (pw_size_ = 8))) result;
  result ← ASSERT_TRUE 127 ("strncmp(pw, " ++ quoted "mysecret" ++ ", pw_size) == 0")
    (same_text buffer pw_ (chars "mysecret") pw_size_) result;
  result ← ASSERT_TRUE 129 "message->body.connect_data.has_will" (d ← connect_body message; Ok (has_will d)) result;
  result ← ASSERT_FALSE 130 "message->body.connect_data.will_retain"
    (d ← connect_body message; Ok (will_retain d)) result;
  result ← ASSERT_TRUE 131 "message->body.connect_data.will_qos == QoS2"
    (d ← connect_body message; Ok (bool_decide (will_qos d = QoS2))) result;
  d ← connect_body message; will_topic_ ← initialised (will_topic d);
  d ← connect_body message; will_topic_size_ ← initialised (will_topic_size d);
  result ← ASSERT_TRUE 134 "will_topic_size == 9" (Ok (bool_decide (will_topic_size_ = 9))) result;
  result ← ASSERT_TRUE 135 ("strncmp(will_topic, " ++ quoted "willtopic" ++ ", will_topic_size) == 0")
    (same_text buffer will_topic_ (chars "willtopic") will_topic_size_) result;
  d ← connect_body message; will_message_ ← initialised (will_message d);
  d ← connect_body message; will_message_size_ ← initialised (will_message_size d);
  result ← ASSERT_TRUE 138 "will_message_size == 7" (Ok (bool_decide (will_message_size_ = 7))) result;
  result ← ASSERT_TRUE 139 ("strncmp(will_message, " ++ quoted "willmsg" ++ ", will_message_size) == 0")
    (same_text buffer will_message_ (chars "willmsg") will_message_size_) result;
  result ← ASSERT_TRUE 141 "message->body.connect_data.keep_alive == keep_alive_sec"
    (d ← connect_body message; Ok (bool_decide (keep_alive d = keep_alive_sec))) result;
  d ← connect_body message; let name_ := name d in
  d ← connect_body message; let name_size_ := name_size d in
  result ← ASSERT_TRUE 144 "name_size == 6" (Ok (bool_decide (name_size_ = 6))) result;
  result ← ASSERT_TRUE 145 ("strncmp(name, " ++ quoted "MQIsdp" ++ ", name_size) == 0")
    (same_text buffer name_ (chars "MQIsdp") name_size_) result;
  Ok result.

Definition test_connect_message_will_v3 (buffer : list Z) : outcome test_result_t :=
  let result := init_result in
  let keep_alive_sec := 30 in
  '(send_size, buffer) ←
    make_connect_message buffer BUFFER_SIZE (chars "foo") None None
      keep_alive_sec false true QoS2 false (Some (chars "willtopic")) (Some (chars "willmsg"));
  result ← ASSERT_TRUE 164 "send_size >= 0" (Ok (bool_decide (send_size >= 0))) result;
  message ← deserialize_response buffer send_size;
  result ← ASSERT_TRUE 167 "message->type == CONNECT" (has_type message CONNECT) result;
  result ← ASSERT_TRUE 168 "message->body.connect_data.version == 3u"
    (d ← connect_body message; Ok (bool_decide (version d = 3))) result;
  result ← ASSERT_FALSE 169 "message->body.connect_data.has_clean"
    (d ← connect_body message; Ok (has_clean d)) result;
  result ← ASSERT_FALSE 171 "message->body.connect_data.has_user" (d ← connect_body message; Ok (has_user d)) result;
  result ← ASSERT_FALSE 172 "message->body.connect_data.has_pw" (d ← connect_body message; Ok (has_pw d)) result;
  result ← ASSERT_TRUE 174 "message->body.connect_data.has_will" (d ← connect_body message; Ok (has_will d)) result;
  result ← ASSERT_FALSE 175 "message->body.connect_data.will_retain"
    (d ← connect_body message; Ok (will_retain d)) result;
  result ← ASSERT_TRUE 176 "message->body.connect_data.will_qos == QoS2"
    (d ← connect_body message; Ok (bool_decide (will_qos d = QoS2))) result;
  d ← connect_body message; will_topic_ ← initialised (will_topic d);
  d ← connect_body message; will_topic_size_ ← initialised (will_topic_size d);
  result ← ASSERT_TRUE 179 "will_topic_size == 9" (Ok (bool_decide (will_topic_size_ = 9))) result;
  result ← ASSERT_TRUE 180 ("strncmp(will_topic, " ++ quoted "willtopic" ++ ", will_topic_size) == 0")
    (same_text buffer will_topic_ (chars "willtopic") will_topic_size_) result;
  d ← connect_body message; will_message_ ← initialised (will_message d);
  d ← connect_body message; will_message_size_ ← initialised (will_message_size d);
  result ← ASSERT_TRUE 183 "will_message_size == 7" (Ok (bool_decide (will_message_size_ = 7))) result;
  result ← ASSERT_TRUE 184 ("strncmp(will_message, " ++ quoted "willmsg" ++ ", will_message_size) == 0")
    (same_text buffer will_message_ (chars "willmsg") will_message_size_) result;
  result ← ASSERT_TRUE 186 "message->body.connect_data.keep_alive == keep_alive_sec"
    (d ← connect_body message; Ok (bool_decide (keep_alive d = keep_alive_sec))) result;
  d ← connect_body message; let name_ := name d in
  d ← connect_body message; let name_size_ := name_size d in
  result ← ASSERT_TRUE 189 "name_size == 6" (Ok (bool_decide (name_size_ = 6))) result;
  result ← ASSERT_TRUE 190 ("strncmp(name, " ++ quoted "MQIsdp" ++ ", name_size) == 0")
    (same_text buffer name_ (chars "MQIsdp") name_size_) result;
  Ok result.

Definition test_connack_message_v3 (buffer : list Z) : outcome test_result_t :=
  let result := init_result in
  '(send_size, buffer) ← make_connack_message buffer BUFFER_SIZE Connection_Accepted;
  result ← ASSERT_TRUE 205 "send_size >= 0" (Ok (bool_decide (send_size >= 0))) result;
  message ← deserialize_response buffer send_size;
  result ← ASSERT_TRUE 208 "message->type == CONNACK" (has_type message CONNACK) result;
  result ← ASSERT_TRUE 209 "message->body.connack_data.type == Connection_Accepted"
    (c ← connack_type message; Ok (bool_decide (c = Connection_Accepted))) result;
  Ok result.

Definition test_disconnect_message (buffer : list Z) : outcome test_result_t :=
  let result := init_result in
  '(send_size, buffer) ← make_disconnect_message buffer BUFFER_SIZE ;
  result ← ASSERT_TRUE 223 "send_size >= 0" (Ok (bool_decide (send_size >= 0))) result;
  message ← deserialize_response buffer send_size;
  result ← ASSERT_TRUE 226 "message->type == DISCONNECT" (has_type message DISCONNECT) result;
  Ok result.

Definition test_publish_message_v3 (buffer : list Z) : outcome test_result_t :=
  let result := init_result in
  '(send_size, buffer) ← make_publish_message buffer BUFFER_SIZE (chars "boo") 55 QoS2 false (Some (chars "hello"));
  result ← ASSERT_TRUE 241 "send_size >= 0" (Ok (bool_decide (send_size >= 0))) result;
  message ← deserialize_response buffer send_size;
  result ← ASSERT_TRUE 244 "message->type == PUBLISH" (has_type message PUBLISH) result;
  result ← ASSERT_TRUE 245 "message->body.publish_data.qos == QoS2"
    (d ← publish_body message; Ok (bool_decide (pub_qos d = QoS2))) result;
  result ← ASSERT_TRUE 246 "message->body.publish_data.retain == false"
    (d ← publish_body message; Ok (bool_decide (pub_retain d = false))) result;
  result ← ASSERT_TRUE 247 "message->body.publish_data.packet_id == 55"
    (d ← publish_body message; Ok (bool_decide (pub_packet_id d = 55))) result;
  d ← publish_body message; let topic_ := pub_topic d in
  d ← publish_body message; let topic_size_ := pub_topic_size d in
  result ← ASSERT_TRUE 250 "topic_size == 3" (Ok (bool_decide (topic_size_ = 3))) result;
  result ← ASSERT_TRUE 251 ("strncmp(topic, " ++ quoted "boo" ++ ", topic_size) == 0")
    (same_text buffer topic_ (chars "boo") topic_size_) result;
  d ← publish_body message; let content_ := pub_message d in
  d ← publish_body message; let content_size_ := pub_message_size d in
  result ← ASSERT_TRUE 254 ("strncmp(content, " ++ quoted "hello" ++ ", content_size) == 0")
    (same_text buffer content_ (chars "hello") content_size_) result;
  result ← ASSERT_TRUE 255 "content_size == 5" (Ok (bool_decide (content_size_ = 5))) result;
  Ok result.

Definition test_publish_message_retain_v3 (buffer : list Z) : outcome test_result_t :=
  let result := init_result in
  '(send_size, buffer) ← make_publish_message buffer BUFFER_SIZE (chars "boo") 55 QoS2 true (Some (chars "hello"));
  result ← ASSERT_TRUE 270 "send_size >= 0" (Ok (bool_decide (send_size >= 0))) result;
  message ← deserialize_response buffer send_size;
  result ← ASSERT_TRUE 273 "message->type == PUBLISH" (has_type message PUBLISH) result;
  result ← ASSERT_TRUE 274 "message->body.publish_data.qos == QoS2"
    (d ← publish_body message; Ok (bool_decide (pub_qos d = QoS2))) result;
  result ← ASSERT_TRUE 275 "message->body.publish_data.retain == true"
    (d ← publish_body message; Ok (bool_decide (pub_retain d = true))) result;
  result ← ASSERT_TRUE 276 "message->body.publish_data.packet_id == 55"
    (d ← publish_body message; Ok (bool_decide (pub_packet_id d = 55))) result;
  d ← publish_body message; let topic_ := pub_topic d in
  d ← publish_body message; let topic_size_ := pub_topic_size d in
  result ← ASSERT_TRUE 279 "topic_size == 3" (Ok (bool_decide (topic_size_ = 3))) result;
  result ← ASSERT_TRUE 280 ("strncmp(topic, " ++ quoted "boo" ++ ", topic_size) == 0")
    (same_text buffer topic_ (chars "boo") topic_size_) result;
  d ← publish_body message; let content_ := pub_message d in
  d ← publish_body message; let content_size_ := pub_message_size d in
  result ← ASSERT_TRUE 283 ("strncmp(content, " ++ quoted "hello" ++ ", content_size) == 0")
    (same_text buffer content_ (chars "hello") content_size_) result;
  result ← ASSERT_TRUE 284 "content_size == 5" (Ok (bool_decide (content_size_ = 5))) result;
  Ok result.

Definition test_puback_message_v3 (buffer : list Z) : outcome test_result_t :=
  let result := init_result in
  '(send_size, buffer) ← make_puback_message buffer BUFFER_SIZE 77;
  result ← ASSERT_TRUE 299 "send_size >= 0" (Ok (bool_decide (send_size >= 0))) result;
  message ← deserialize_response buffer send_size;
  result ← ASSERT_TRUE 302 "message->type == PUBACK" (has_type message PUBACK) result;
  result ← ASSERT_TRUE 303 "message->body.puback_data.packet_id == 77"
    (p ← packet_id_of message; Ok (bool_decide (p = 77))) result;
  Ok result.

Definition test_subscribe_message_v3 (buffer : list Z) : outcome test_result_t :=
  let result := init_result in
  let topic1 := chars "topic1" in
  let topic2 := chars "longer/topic2" in
  let topics := [topic1; topic2] in
  let qoss := [QoS2; QoS1] in
  '(send_size, buffer) ← make_subscribe_message buffer BUFFER_SIZE 88 2 topics qoss;
  result ← ASSERT_TRUE 323 "send_size >= 0" (Ok (bool_decide (send_size >= 0))) result;
  message ← deserialize_response buffer send_size;
  result ← ASSERT_TRUE 326 "message->type == SUBSCRIBE" (has_type message SUBSCRIBE) result;
  result ← ASSERT_TRUE 328 "message->body.subscribe_data.packet_id == 88"
    (p ← packet_id_of message; Ok (bool_decide (p = 88))) result;
  result ← ASSERT_TRUE 329 "message->body.subscribe_data.topic_count == 2"
    (n ← entries message; Ok (bool_decide (n = 2))) result;
  result ← ASSERT_TRUE 331 "message->body.subscribe_data.topic_lengths[0] == strlen(topic1)"
    (e ← topic_at message 0; Ok (bool_decide (topic_length e = strlen topic1))) result;
  result ← ASSERT_TRUE 332 "strncmp(message->body.subscribe_data.topics[0], topic1, strlen(topic1)) == 0"
    (e ← topic_at message 0; same_text buffer (topic_ptr e) topic1 (strlen topic1)) result;
  result ← ASSERT_TRUE 333 "message->body.subscribe_data.qoss[0] == QoS2"
    (e ← topic_at message 0; q ← initialised (topic_qos e); Ok (bool_decide (q = QoS2))) result;
  result ← ASSERT_TRUE 335 "message->body.subscribe_data.topic_lengths[1] == strlen(topic2)"
    (e ← topic_at message 1; Ok (bool_decide (topic_length e = strlen topic2))) result;
  result ← ASSERT_TRUE 336 "strncmp(message->body.subscribe_data.topics[1], topic2, strlen(topic2)) == 0"
    (e ← topic_at message 1; same_text buffer (topic_ptr e) topic2 (strlen topic2)) result;
  result ← ASSERT_TRUE 337 "message->body.subscribe_data.qoss[1] == QoS1"
    (e ← topic_at message 1; q ← initialised (topic_qos e); Ok (bool_decide (q = QoS1))) result;
  Ok result.

Definition test_unsubscribe_message_v3 (buffer : list Z) : outcome test_result_t :=
  let result := init_result in
  let topic1 := chars "topic1" in
  let topic2 := chars "longer/topic2" in
  let topics := [topic1; topic2] in
  '(send_size, buffer) ← make_unsubscribe_message buffer BUFFER_SIZE 88 2 topics;
  result ← ASSERT_TRUE 357 "send_size >= 0" (Ok (bool_decide (send_size >= 0))) result;
  message ← deserialize_response buffer send_size;
  result ← ASSERT_TRUE 360 "message->type == UNSUBSCRIBE" (has_type message UNSUBSCRIBE) result;
  result ← ASSERT_TRUE 361 "message->body.unsubscribe_data.packet_id == 88"
    (p ← packet_id_of message; Ok (bool_decide (p = 88))) result;
  result ← ASSERT_TRUE 362 "message->body.unsubscribe_data.topic_count == 2"
    (n ← entries message; Ok (bool_decide (n = 2))) result;
  result ← ASSERT_TRUE 364 "message->body.unsubscribe_data.topic_lengths[0] == strlen(topic1)"
    (e ← topic_at message 0; Ok (bool_decide (topic_length e = strlen topic1))) result;
  result ← ASSERT_TRUE 365 "strncmp(message->body.unsubscribe_data.topics[0], topic1, strlen(topic1)) == 0"
    (e ← topic_at message 0; same_text buffer (topic_ptr e) topic1 (strlen topic1)) result;
  result ← ASSERT_TRUE 367 "message->body.unsubscribe_data.topic_lengths[1] == strlen(topic2)"
    (e ← topic_at message 1; Ok (bool_decide (topic_length e = strlen topic2))) result;
  result ← ASSERT_TRUE 368 "strncmp(message->body.unsubscribe_data.topics[1], topic2, strlen(topic2)) == 0"
    (e ← topic_at message 1; same_text buffer (topic_ptr e) topic2 (strlen topic2)) result;
  Ok result.

Definition test_suback_message_v3 (buffer : list Z) : outcome test_result_t :=
  let result := init_result in
  let success := [true] in
  let qoss := [QoS2] in
  '(send_size, buffer) ← make_suback_message buffer BUFFER_SIZE 99 1 success qoss;
  result ← ASSERT_TRUE 386 "send_size >= 0" (Ok (bool_decide (send_size >= 0))) result;
  message ← deserialize_response buffer send_size;
  result ← ASSERT_TRUE 389 "message->type == SUBACK" (has_type message SUBACK) result;
  result ← ASSERT_TRUE 390 "message->body.suback_data.packet_id == 99"
    (p ← packet_id_of message; Ok (bool_decide (p = 99))) result;
  result ← ASSERT_TRUE 391 "message->body.suback_data.topic_count == 1"
    (n ← entries message; Ok (bool_decide (n = 1))) result;
  result ← ASSERT_TRUE 392 "message->body.suback_data.success[0]"
    (r ← result_at message 0; Ok (sub_success r)) result;
  result ← ASSERT_TRUE 393 "message->body.suback_data.qoss[0] == QoS2"
    (r ← result_at message 0; Ok (bool_decide (sub_qos r = QoS2))) result;
  Ok result.

Definition test_suback_message_mixed_v3 (buffer : list Z) : outcome test_result_t :=
  let result := init_result in
  let success := [true; false; true; true] in
  let qoss := [QoS2; QoS0; QoS1; QoS0] in
  '(send_size, buffer) ← make_suback_message buffer BUFFER_SIZE 99 4 success qoss;
  result ← ASSERT_TRUE 411 "send_size >= 0" (Ok (bool_decide (send_size >= 0))) result;
  message ← deserialize_response buffer send_size;
  result ← ASSERT_TRUE 414 "message->type == SUBACK" (has_type message SUBACK) result;
  result ← ASSERT_TRUE 415 "message->body.suback_data.packet_id == 99"
    (p ← packet_id_of message; Ok (bool_decide (p = 99))) result;
  result ← ASSERT_TRUE 416 "message->body.suback_data.topic_count == 4"
    (n ← entries message; Ok (bool_decide (n = 4))) result;
  result ← ASSERT_TRUE 418 "message->body.suback_data.success[0]"
    (r ← result_at message 0; Ok (sub_success r)) result;
  result ← ASSERT_TRUE 419 "message->body.suback_data.qoss[0] == QoS2"
    (r ← result_at message 0; Ok (bool_decide (sub_qos r = QoS2))) result;
  result ← ASSERT_TRUE 421 "message->body.suback_data.success[1] == false"
    (r ← result_at message 1; Ok (bool_decide (sub_success r = false))) result;
  result ← ASSERT_TRUE 423 "message->body.suback_data.success[2]"
    (r ← result_at message 2; Ok (sub_success r)) result;
  result ← ASSERT_TRUE 424 "message->body.suback_data.qoss[2] == QoS1"
    (r ← result_at message 2; Ok (bool_decide (sub_qos r = QoS1))) result;
  result ← ASSERT_TRUE 426 "message->body.suback_data.success[3]"
    (r ← result_at message 3; Ok (sub_success r)) result;
  result ← ASSERT_TRUE 427 "message->body.suback_data.qoss[3] == QoS0"
    (r ← result_at message 3; Ok (bool_decide (sub_qos r = QoS0))) result;
  Ok result.

(** In the order of [test_definitions.txt]. *)
Definition codec_tests : list (string * (list Z → outcome test_result_t)) :=
  [("test_length_encoding", test_length_encoding); ("test_length_decoding", test_length_decoding);
   ("test_connect_message_v3", test_connect_message_v3);
   ("test_connect_message_the_works_v3", test_connect_message_the_works_v3);
   ("test_connect_message_mixed_v3", test_connect_message_mixed_v3);
   ("test_connect_message_will_v3", test_connect_message_will_v3);
   ("test_connack_message_v3", test_connack_message_v3); ("test_disconnect_message", test_disconnect_message);
   ("test_publish_message_v3", test_publish_message_v3);
   ("test_publish_message_retain_v3", test_publish_message_retain_v3);
   ("test_puback_message_v3", test_puback_message_v3); ("test_subscribe_message_v3", test_subscribe_message_v3);
   ("test_suback_message_v3", test_suback_message_v3);
   ("test_suback_message_mixed_v3", test_suback_message_mixed_v3);
   ("test_unsubscribe_message_v3", test_unsubscribe_message_v3)]%string.

Lemma below_strncmp s1 s2 rest n : below (strncmp s1 s2 n) (strncmp (s1 ++ rest) s2 n).
Proof.
  revert s1 s2. induction n as [|n IH]; intros s1 s2; [exact (below_refl (Ok 0))|]. destruct s1 as [|a s1]; [intros d [=]|].
  destruct s2 as [|b s2]; [intros d [=]|]. cbn [strncmp app]. case_decide; [apply below_refl|].
  case_decide; [apply below_refl|apply IH].
Qed.

Lemma below_text m rest p text n : below (same_text m p text n) (same_text (m ++ rest) p text n).
Proof. unfold same_text. rewrite drop_app. apply below_bind; [apply below_strncmp|intros c; apply below_refl]. Qed.
#[local] Hint Resolve below_response below_text : below.

Lemma below_assert at_line text (e e' : outcome bool) r :
  below e e' → below (ASSERT_TRUE at_line text e r) (ASSERT_TRUE at_line text e' r).
Proof. intros He. unfold ASSERT_TRUE. destruct (success r); [|apply below_refl]. apply below_bind; [done|intros b; apply below_refl]. Qed.

Lemma below_assert_false at_line text (e e' : outcome bool) r :
  below e e' → below (ASSERT_FALSE at_line text e r) (ASSERT_FALSE at_line text e' r).
Proof. intros He. unfold ASSERT_FALSE. destruct (success r); [|apply below_refl]. apply below_bind; [done|intros b; apply below_refl]. Qed.

(** * They pass *)

Lemma fill_buffer_ok stack : 4 ≤ zlen stack → fill_buffer (take 4 stack) = Ok [0xFF; 0xFF; 0xFF; 0xFF].
Proof.
  intros Hl. do 4 (destruct stack as [|? stack]; [by autorewrite with zlen in Hl|]). cbn [take]. vm_compute. reflexivity.
Qed.

(** A packet written over the start of the buffer. *)
Lemma over_stack bs stack : zlen stack = BUFFER_SIZE → zlen bs ≤ BUFFER_SIZE →
  ∃ rest, writes bs stack = Ok (zlen bs, bs ++ rest).
Proof. intros Hs Hb. exists (drop (List.length bs) stack). rewrite writes_fits by lia. done. Qed.

(** The call of a serializer writes its packet; on that alone the rest is
    evaluated. *)
Ltac below_test :=
  repeat first [progress below | apply below_assert | apply below_assert_false].

Ltac on_stack H :=
  cbv zeta; rewrite H;
  [ match goal with
    | Hs : zlen ?stack = BUFFER_SIZE |- context [writes ?bs ?stack] =>
        let rest := fresh "rest" in
        destruct (over_stack bs stack Hs) as [rest ->]; [by vm_compute|];
        rewrite bind_ok; cbv beta iota;
        match goal with
        | |- ?o = Ok ?a =>
            match (eval pattern (bs ++ rest) in o) with
            | ?f _ => refine ((_ : below (f bs) (f (bs ++ rest))) a _); cbv beta; [below_test|vm_compute; reflexivity]
            end
        end
    end
  | try lia; try (apply (bool_decide_unpack _); vm_compute; exact I);
    try (split; apply (bool_decide_unpack _); vm_compute; exact I).. ].

Definition sample_params (user pw : option (list Z)) (clean retain : bool) (qos : Z) (will : option (list Z * list Z)) : connect_params := {|
  cp_client_id := chars "foo"; cp_user := user; cp_pw := pw; cp_keep_alive := 30; cp_clean := clean;
  cp_will_qos := qos; cp_will_retain := retain; cp_will := will |}.

#[local] Instance opt_short_dec s : Decision (opt_short s).
Proof. destruct s; apply _. Defined.

Lemma make_connect_plain user pw clean retain qos stack :
  connect_ok (sample_params user pw clean retain qos None) →
  make_connect_message stack BUFFER_SIZE (chars "foo") user pw 30 clean false qos retain None None =
    writes (mqtt_connect (sample_params user pw clean retain qos None)) stack.
Proof. apply (make_connect_mqtt (sample_params user pw clean retain qos None) stack BUFFER_SIZE). Qed.

Lemma make_connect_will user pw clean retain qos t m stack :
  connect_ok (sample_params user pw clean retain qos (Some (t, m))) →
  make_connect_message stack BUFFER_SIZE (chars "foo") user pw 30 clean true qos retain (Some t) (Some m) =
    writes (mqtt_connect (sample_params user pw clean retain qos (Some (t, m)))) stack.
Proof. apply (make_connect_mqtt (sample_params user pw clean retain qos (Some (t, m))) stack BUFFER_SIZE). Qed.

(** The topic lists of the tests. *)
Definition sample_topics : list (list Z * Z) := [(chars "topic1", QoS2); (chars "longer/topic2", QoS1)].
Definition sample_results : list sub_result :=
  [mk_sub_result true QoS2; mk_sub_result false QoS0; mk_sub_result true QoS1; mk_sub_result true QoS0].

Ltac sample_list H := apply H; first [lia | apply (bool_decide_unpack _); vm_compute; exact I].

Lemma make_subscribe_sample stack :
  make_subscribe_message stack BUFFER_SIZE 88 2 [chars "topic1"; chars "longer/topic2"] [QoS2; QoS1] =
    writes (mqtt_subscribe 88 sample_topics) stack.
Proof. sample_list (make_subscribe_mqtt stack BUFFER_SIZE 88 sample_topics). Qed.
Lemma make_unsubscribe_sample stack :
  make_unsubscribe_message stack BUFFER_SIZE 88 2 [chars "topic1"; chars "longer/topic2"] =
    writes (mqtt_unsubscribe 88 sample_topics.*1) stack.
Proof. sample_list (make_unsubscribe_mqtt stack BUFFER_SIZE 88 sample_topics.*1). Qed.
Lemma make_suback_sample stack :
  make_suback_message stack BUFFER_SIZE 99 4 [true; false; true; true] [QoS2; QoS0; QoS1; QoS0] =
    writes (mqtt_suback 99 sample_results) stack.
Proof. sample_list (make_suback_mqtt stack BUFFER_SIZE 99 sample_results). Qed.
Lemma make_suback_single stack :
  make_suback_message stack BUFFER_SIZE 99 1 [true] [QoS2] = writes (mqtt_suback 99 [mk_sub_result true QoS2]) stack.
Proof. sample_list (make_suback_mqtt stack BUFFER_SIZE 99 [mk_sub_result true QoS2]). Qed.

(** Every test of the codec passes, whatever its array holds at the start. *)
Lemma codec_tests_pass stack : zlen stack = BUFFER_SIZE → Forall (λ t, t.2 stack = Ok init_result) codec_tests.
Proof.
  intros Hs. unfold codec_tests. repeat apply Forall_cons_2; [..|apply Forall_nil_2]; cbn [snd].
  - unfold test_length_encoding. cbv zeta. rewrite !fill_buffer_ok by (rewrite Hs; done). vm_compute. reflexivity.
  - vm_compute. reflexivity.
  - unfold test_connect_message_v3. on_stack make_connect_plain.
  - unfold test_connect_message_the_works_v3. on_stack make_connect_will.
  - unfold test_connect_message_mixed_v3. on_stack make_connect_will.
  - unfold test_connect_message_will_v3. on_stack make_connect_will.
  - unfold test_connack_message_v3. on_stack make_connack_mqtt.
  - unfold test_disconnect_message. on_stack (proj2 (proj2 (make_empty_mqtt stack BUFFER_SIZE))).
  - unfold test_publish_message_v3. on_stack make_publish_mqtt.
  - unfold test_publish_message_retain_v3. on_stack make_publish_mqtt.
  - unfold test_puback_message_v3. on_stack (λ H, proj1 (make_acks_mqtt stack BUFFER_SIZE 77 H)).
  - unfold test_subscribe_message_v3. on_stack make_subscribe_sample.
  - unfold test_suback_message_v3. on_stack make_suback_single.
  - unfold test_suback_message_mixed_v3. on_stack make_suback_sample.
  - unfold test_unsubscribe_message_v3. on_stack make_unsubscribe_sample.
Qed.
