(* ===== verification/TestClient.v ===== *)
(** TestClient: the tests of the blocking client, [test/client.c], and the test
    program [test/main.c] that runs them after those of [TestCodec]. *)

From S2P Require Import Prelude Runner Protocol Size Wire Serialize Deserialize Codec Server TestCodec Client ClientProtocol.
From Stdlib Require Import String.

#[local] Open Scope Z_scope.

(** * What the tests use *)

(** A test has up to two clients, each with a connection of its own to one broker,
    whose world is [W]. *)
Inductive connection := First | Second.

Section tests.
Context {W : Type} (srv : connection → server_t W).

(** [server_host] of [main.c]; what the block of each client holds where nothing
    is written ([smqtt_connect_internal]). *)
Variables (server_host : list Z) (junk : connection → Z).

Local Abbreviation client := (option (smqtt_client W)).

Definition lift {A} (o : outcome A) : M W A := λ s, a ← o; Ok (a, s).

(** The client variable starts as null. *)
Definition connect (w : connection) (client_id : list Z) (user pw : option (list Z)) (last_will_and_testament : bool)
    (will_qos : Z) (will_retain : bool) (will_topic will_message : option (list Z)) : M W (smqtt_status_t * client) :=
  '(status, r) ← smqtt_connect_internal (srv w) (Some (junk w)) REMOTE_SERVER server_host 1883 client_id user pw 30 true
       last_will_and_testament will_qos will_retain will_topic will_message;
  mret (status, match r with Some c => c | None => None end).

Definition connect_user1 (w : connection) (client_id : string) : M W (smqtt_status_t * client) :=
  connect w (chars client_id) (Some (chars "user1")) (Some (chars "password1")) false QoS0 false None None.

(** A call on a client variable. *)
Definition the_client (c : client) : M W (smqtt_client W) := match c with Some c => mret c | None => λ _, Fault NullDeref end.

Definition publish (c : client) (topic : list Z) (msg : option (list Z)) (qos : Z) (retain : bool) : M W (smqtt_status_t * client) :=
  c ← the_client c; '(status, c) ← smqtt_publish c topic msg qos retain; mret (status, Some c).
Definition subscribe (c : client) (topic_count : Z) (topics : list (list Z)) (qoss : list Z) : M W (smqtt_status_t * client) :=
  c ← the_client c; '(status, c) ← smqtt_subscribe c topic_count topics qoss; mret (status, Some c).
Definition unsubscribe (c : client) (topic_count : Z) (topics : list (list Z)) : M W (smqtt_status_t * client) :=
  c ← the_client c; '(status, c) ← smqtt_unsubscribe c topic_count topics; mret (status, Some c).
Definition ping (c : client) : M W smqtt_status_t := c ← the_client c; smqtt_ping c.
Definition disconnect (c : client) : M W smqtt_status_t := c ← the_client c; smqtt_disconnect c.
Definition drop_client (c : client) : M W smqtt_status_t := c ← the_client c; mqtt_drop c.

(** [packet_id], [message] and [message_size]: [None] where nothing is written, or
    null. *)
Record message_vars := mk_vars { packet_id : Z; message : option (list Z); message_size : option Z }.

Definition written {A} (new old : option A) : option A := match new with Some a => Some a | None => old end.

Definition get_next_message (c : client) (v : message_vars) : M W (smqtt_status_t * message_vars) :=
  c ← the_client c;
  '(status, r) ← smqtt_get_next_message c;
  mret (status, mk_vars (default (packet_id v) (out_packet_id r)) (written (out_message r) (message v))
                  (written (out_message_size r) (message_size v))).

(** Assertions. *)
Definition ASSERT_TRUE (at_line : Z) (text : string) (expr : outcome bool) (result : test_result_t) : M W test_result_t :=
  lift (TestCodec.ASSERT_TRUE at_line text expr result).

Definition status_is (status expected : smqtt_status_t) : outcome bool := Ok (bool_decide (status = expected)).
Definition is_null (c : client) : outcome bool := Ok (match c with None => true | Some _ => false end).
Definition size_is (v : message_vars) (text : list Z) : outcome bool :=
  n ← initialised (message_size v); Ok (bool_decide (n = strlen text)).
Definition text_is (v : message_vars) (text : list Z) : outcome bool :=
  n ← initialised (message_size v); m ← initialised (message v);
  c ← strncmp (c_object text) m (Z.to_nat n); Ok (bool_decide (c = 0)).

Definition elt (topics : list (list Z)) (i : nat) : list Z := default [] (topics !! i).

(** * Tests *)

Definition test_no_auth_v3 : M W test_result_t :=
  let result := init_result in
  '(status, client1) ← connect First (chars "test_client_1") None None false QoS0 false None None;
  result ← ASSERT_TRUE 21 "status == SMQTT_NOT_AUTHORIZED" (status_is status SMQTT_NOT_AUTHORIZED) result;
  result ← ASSERT_TRUE 22 "client1 == NULL" (is_null client1) result;
  mret result.

Definition test_bad_auth_v3 : M W test_result_t :=
  let result := init_result in
  '(status, client1) ←
    connect First (chars "test_client_1") (Some (chars "Fred")) (Some (chars "Secret")) false QoS0 false None None;
  result ← ASSERT_TRUE 40 "status == SMQTT_NOT_AUTHORIZED" (status_is status SMQTT_NOT_AUTHORIZED) result;
  result ← ASSERT_TRUE 41 "client1 == NULL" (is_null client1) result;
  mret result.

Definition test_basic_v3_qos0 : M W test_result_t :=
  let result := init_result in
  let topics := [chars "test_topic"] in
  let qoss := [QoS0] in
  '(status, client1) ← connect_user1 First "test_client_1";
  result ← ASSERT_TRUE 62 "status == SMQTT_OK" (status_is status SMQTT_OK) result;
  '(status, client2) ← connect_user1 Second "test_client_2";
  result ← ASSERT_TRUE 71 "status == SMQTT_OK" (status_is status SMQTT_OK) result;
  '(status, client2) ← subscribe client2 1 topics qoss;
  result ← ASSERT_TRUE 74 "status == SMQTT_OK" (status_is status SMQTT_OK) result;
  let message1 := chars "hello1" in
  '(status, client1) ← publish client1 (elt topics 0) (Some message1) QoS0 false;
  result ← ASSERT_TRUE 78 "status == SMQTT_OK" (status_is status SMQTT_OK) result;
  let v := mk_vars 0 None None in
  '(status, v) ← get_next_message client2 v;
  result ← ASSERT_TRUE 84 "status == 0" (status_is status SMQTT_OK) result;
  result ← ASSERT_TRUE 85 "packet_id == 0" (Ok (bool_decide (packet_id v = 0))) result;
  result ← ASSERT_TRUE 86 "message_size == strlen(message1)" (size_is v message1) result;
  result ← ASSERT_TRUE 87 "strncmp(message1, message, message_size) == 0" (text_is v message1) result;
  _ ← disconnect client1;
  _ ← disconnect client2;
  mret result.

Definition test_message_backlog_v3_qos0 : M W test_result_t :=
  let result := init_result in
  let topics := [chars "test_topic"] in
  let qoss := [QoS0] in
  '(status, client1) ← connect_user1 First "test_client_1";
  result ← ASSERT_TRUE 111 "status == SMQTT_OK" (status_is status SMQTT_OK) result;
  '(status, client2) ← connect_user1 Second "test_client_2";
  result ← ASSERT_TRUE 118 "status == SMQTT_OK" (status_is status SMQTT_OK) result;
  '(status, client2) ← subscribe client2 1 topics qoss;
  result ← ASSERT_TRUE 121 "status == SMQTT_OK" (status_is status SMQTT_OK) result;
  let message1 := chars "hello1" in
  '(status, client1) ← publish client1 (elt topics 0) (Some message1) QoS0 false;
  result ← ASSERT_TRUE 125 "status == SMQTT_OK" (status_is status SMQTT_OK) result;
  let message2 := chars "longhello2" in
  '(status, client1) ← publish client1 (elt topics 0) (Some message2) QoS0 false;
  result ← ASSERT_TRUE 129 "status == SMQTT_OK" (status_is status SMQTT_OK) result;
  let v := mk_vars 0 None None in
  '(status, v) ← get_next_message client2 v;
  result ← ASSERT_TRUE 135 "status == SMQTT_OK" (status_is status SMQTT_OK) result;
  result ← ASSERT_TRUE 136 "packet_id == 0" (Ok (bool_decide (packet_id v = 0))) result;
  result ← ASSERT_TRUE 137 "message_size == strlen(message1)" (size_is v message1) result;
  result ← ASSERT_TRUE 138 "strncmp(message1, message, message_size) == 0" (text_is v message1) result;
  let v := mk_vars 0 (message v) (message_size v) in
  let v := mk_vars (packet_id v) None (message_size v) in
  '(status, v) ← get_next_message client2 v;
  result ← ASSERT_TRUE 143 "status == SMQTT_OK" (status_is status SMQTT_OK) result;
  result ← ASSERT_TRUE 144 "packet_id == 0" (Ok (bool_decide (packet_id v = 0))) result;
  result ← ASSERT_TRUE 145 "message_size == strlen(message2)" (size_is v message2) result;
  result ← ASSERT_TRUE 146 "strncmp(message2, message, message_size) == 0" (text_is v message2) result;
  _ ← disconnect client1;
  _ ← disconnect client2;
  mret result.

Definition test_basic_v3_qos1 : M W test_result_t :=
  let result := init_result in
  let topics := [chars "test_topic"] in
  let qoss := [QoS1] in
  '(status, client1) ← connect_user1 First "test_client_1";
  result ← ASSERT_TRUE 170 "status == SMQTT_OK" (status_is status SMQTT_OK) result;
  '(status, client2) ← connect_user1 Second "test_client_2";
  result ← ASSERT_TRUE 177 "status == SMQTT_OK" (status_is status SMQTT_OK) result;
  '(status, client2) ← subscribe client2 1 topics qoss;
  result ← ASSERT_TRUE 180 "status == SMQTT_OK" (status_is status SMQTT_OK) result;
  let message1 := chars "hello1" in
  '(status, client1) ← publish client1 (elt topics 0) (Some message1) QoS1 false;
  result ← ASSERT_TRUE 184 "status == SMQTT_OK" (status_is status SMQTT_OK) result;
  let v := mk_vars 0 None None in
  '(status, v) ← get_next_message client2 v;
  result ← ASSERT_TRUE 190 "status == SMQTT_OK" (status_is status SMQTT_OK) result;
  result ← ASSERT_TRUE 191 "packet_id == 1" (Ok (bool_decide (packet_id v = 1))) result;
  result ← ASSERT_TRUE 192 "message_size == strlen(message1)" (size_is v message1) result;
  result ← ASSERT_TRUE 193 "strncmp(message1, message, message_size) == 0" (text_is v message1) result;
  _ ← disconnect client1;
  _ ← disconnect client2;
  mret result.

Definition test_basic_v3_qos2_qos2 : M W test_result_t :=
  let result := init_result in
  let topics := [chars "test_topic"] in
  let qoss := [QoS2] in
  '(status, client1) ← connect_user1 First "test_client_1";
  result ← ASSERT_TRUE 217 "status == SMQTT_OK" (status_is status SMQTT_OK) result;
  '(status, client2) ← connect_user1 Second "test_client_2";
  result ← ASSERT_TRUE 224 "status == SMQTT_OK" (status_is status SMQTT_OK) result;
  '(status, client2) ← subscribe client2 1 topics qoss;
  result ← ASSERT_TRUE 227 "status == SMQTT_OK" (status_is status SMQTT_OK) result;
  let message1 := chars "hello1" in
  '(status, client1) ← publish client1 (elt topics 0) (Some message1) QoS2 false;
  result ← ASSERT_TRUE 231 "status == SMQTT_OK" (status_is status SMQTT_OK) result;
  let v := mk_vars 0 None None in
  '(status, v) ← get_next_message client2 v;
  result ← ASSERT_TRUE 237 "status == SMQTT_OK" (status_is status SMQTT_OK) result;
  result ← ASSERT_TRUE 238 "packet_id == 1" (Ok (bool_decide (packet_id v = 1))) result;
  result ← ASSERT_TRUE 239 "message_size == strlen(message1)" (size_is v message1) result;
  result ← ASSERT_TRUE 240 "strncmp(message1, message, message_size) == 0" (text_is v message1) result;
  let message2 := chars "longhello2" in
  '(status, client1) ← publish client1 (elt topics 0) (Some message2) QoS2 false;
  result ← ASSERT_TRUE 244 "status == SMQTT_OK" (status_is status SMQTT_OK) result;
  let v := mk_vars 0 (message v) (message_size v) in
  '(status, v) ← get_next_message client2 v;
  result ← ASSERT_TRUE 248 "status == SMQTT_OK" (status_is status SMQTT_OK) result;
  result ← ASSERT_TRUE 249 "packet_id == 2" (Ok (bool_decide (packet_id v = 2))) result;
  result ← ASSERT_TRUE 250 "message_size == strlen(message2)" (size_is v message2) result;
  result ← ASSERT_TRUE 251 "strncmp(message2, message, message_size) == 0" (text_is v message2) result;
  _ ← disconnect client1;
  _ ← disconnect client2;
  mret result.

Definition test_ping_v3 : M W test_result_t :=
  let result := init_result in
  '(status, client1) ← connect_user1 First "test_client_1";
  result ← ASSERT_TRUE 273 "status == SMQTT_OK" (status_is status SMQTT_OK) result;
  status ← ping client1;
  result ← ASSERT_TRUE 276 "status == SMQTT_OK" (status_is status SMQTT_OK) result;
  status ← ping client1;
  result ← ASSERT_TRUE 279 "status == SMQTT_OK" (status_is status SMQTT_OK) result;
  _ ← disconnect client1;
  mret result.

Definition test_unsubscribe_v3 : M W test_result_t :=
  let result := init_result in
  '(status, client1) ← connect_user1 First "test_client_1";
  result ← ASSERT_TRUE 297 "status == SMQTT_OK" (status_is status SMQTT_OK) result;
  let topic1 := chars "topic1" in
  let topic2 := chars "longer/topic2" in
  let topics := [topic1; topic2] in
  let qoss := [QoS2; QoS2] in
  '(status, client1) ← subscribe client1 2 topics qoss;
  result ← ASSERT_TRUE 306 "status == 0" (status_is status SMQTT_OK) result;
  '(status, client1) ← unsubscribe client1 2 topics;
  result ← ASSERT_TRUE 309 "status == 0" (status_is status SMQTT_OK) result;
  _ ← disconnect client1;
  mret result.

Definition test_pubsub_retain_v3 : M W test_result_t :=
  let result := init_result in
  let topics := [chars "test_topic"] in
  let qoss := [QoS2] in
  '(status, client1) ← connect_user1 First "test_client_1";
  result ← ASSERT_TRUE 330 "status == SMQTT_OK" (status_is status SMQTT_OK) result;
  let message1 := chars "hello1" in
  '(status, client1) ← publish client1 (elt topics 0) (Some message1) QoS2 true;
  result ← ASSERT_TRUE 334 "status == 0" (status_is status SMQTT_OK) result;
  '(status, client2) ← connect_user1 Second "test_client_2";
  result ← ASSERT_TRUE 341 "status == SMQTT_OK" (status_is status SMQTT_OK) result;
  '(status, client2) ← subscribe client2 1 topics qoss;
  result ← ASSERT_TRUE 344 "status == SMQTT_OK" (status_is status SMQTT_OK) result;
  let v := mk_vars 0 None None in
  '(status, v) ← get_next_message client2 v;
  result ← ASSERT_TRUE 350 "status == SMQTT_OK" (status_is status SMQTT_OK) result;
  result ← ASSERT_TRUE 351 "packet_id == 1" (Ok (bool_decide (packet_id v = 1))) result;
  result ← ASSERT_TRUE 352 "message_size == strlen(message1)" (size_is v message1) result;
  result ← ASSERT_TRUE 353 "strncmp(message1, message, message_size) == 0" (text_is v message1) result;
  '(status, client1) ← publish client1 (elt topics 0) None QoS2 true;
  result ← ASSERT_TRUE 357 "status == 0" (status_is status SMQTT_OK) result;
  _ ← disconnect client1;
  _ ← disconnect client2;
  mret result.

Definition test_pubsub_will_v3 : M W test_result_t :=
  let result := init_result in
  let topics := [chars "willtopic"] in
  let qoss := [QoS2] in
  '(status, client1) ←
    connect First (chars "will_client") (Some (chars "user1")) (Some (chars "password1")) true QoS2 false (Some (chars "willtopic")) (Some (chars "willmessage"));
  result ← ASSERT_TRUE 382 "status == SMQTT_OK" (status_is status SMQTT_OK) result;
  '(status, client1) ← publish client1 (elt topics 0) None QoS2 true;
  result ← ASSERT_TRUE 386 "status == 0" (status_is status SMQTT_OK) result;
  '(status, client2) ← connect_user1 Second "test_client_2";
  '(status, client2) ← subscribe client2 1 topics qoss;
  result ← ASSERT_TRUE 395 "status == SMQTT_OK" (status_is status SMQTT_OK) result;
  _ ← drop_client client1;
  let v := mk_vars 0 None None in
  '(status, v) ← get_next_message client2 v;
  result ← ASSERT_TRUE 407 "status == 0" (status_is status SMQTT_OK) result;
  result ← ASSERT_TRUE 408 "packet_id == 1" (Ok (bool_decide (packet_id v = 1))) result;
  result ← ASSERT_TRUE 409 ("message_size == strlen(" ++ quoted "willmessage" ++ ")")
    (size_is v (chars "willmessage")) result;
  result ← ASSERT_TRUE 410 ("strncmp(" ++ quoted "willmessage" ++ ", message, message_size) == 0") (text_is v (chars "willmessage")) result;
  _ ← disconnect client2;
  mret result.

Definition test_pubsub_will_retained_v3 : M W test_result_t :=
  let result := init_result in
  let topics := [chars "willtopic"] in
  let qoss := [QoS2] in
  '(stat, client1) ←
    connect First (chars "will_client") (Some (chars "user1")) (Some (chars "password1")) true QoS2 true (Some (chars "willtopic")) (Some (chars "willmessage"));
  '(status, client1) ← publish client1 (elt topics 0) None QoS2 true;
  result ← ASSERT_TRUE 436 "status == 0" (status_is status SMQTT_OK) result;
  '(stat, client2) ← connect_user1 Second "test_client_2";
  _ ← drop_client client1;
  '(status, client2) ← subscribe client2 1 topics qoss;
  result ← ASSERT_TRUE 449 "status == 0" (status_is status SMQTT_OK) result;
  let v := mk_vars 0 None None in
  '(status, v) ← get_next_message client2 v;
  result ← ASSERT_TRUE 457 "status == 0" (status_is status SMQTT_OK) result;
  result ← ASSERT_TRUE 458 "packet_id == 1" (Ok (bool_decide (packet_id v = 1))) result;
  result ← ASSERT_TRUE 459 ("message_size == strlen(" ++ quoted "willmessage" ++ ")")
    (size_is v (chars "willmessage")) result;
  result ← ASSERT_TRUE 460 ("strncmp(" ++ quoted "willmessage" ++ ", message, message_size) == 0") (text_is v (chars "willmessage")) result;
  _ ← disconnect client2;
  mret result.

(** In the order of [test_definitions.txt]. *)
Definition client_tests : list (string * M W test_result_t) :=
  [("test_no_auth_v3", test_no_auth_v3); ("test_bad_auth_v3", test_bad_auth_v3);
   ("test_basic_v3_qos0", test_basic_v3_qos0); ("test_message_backlog_v3_qos0", test_message_backlog_v3_qos0);
   ("test_basic_v3_qos1", test_basic_v3_qos1); ("test_basic_v3_qos2_qos2", test_basic_v3_qos2_qos2);
   ("test_ping_v3", test_ping_v3); ("test_unsubscribe_v3", test_unsubscribe_v3);
   ("test_pubsub_retain_v3", test_pubsub_retain_v3); ("test_pubsub_will_v3", test_pubsub_will_v3);
   ("test_pubsub_will_retained_v3", test_pubsub_will_retained_v3)]%string.

(** * [test/main.c] *)

(** What [all_tests] names; [stack] is what the array of a codec test holds. *)
Definition named_tests (stack : string → list Z) : list (string * M W test_result_t) :=
  ((λ t, (t.1, lift (t.2 (stack t.1)))) <$> codec_tests) ++ client_tests.

(** With the entry that ends it. *)
Definition all_tests (stack : string → list Z) : list (string * option (M W test_result_t)) :=
  ((λ t, (t.1, Some t.2)) <$> named_tests stack) ++ [(EmptyString, None)].

(** The lines of a test are those of [run_tests] ([Runner.run_test]). *)
Fixpoint main_loop (fuel : nat) (tests : list (string * option (M W test_result_t))) (test_count i fail_count : Z)
    : M W (list test_output * Z) :=
  match fuel with
  | O => λ _, Fault OutOfFuel
  | S fuel =>
      if decide (i < test_count) then
        match tests !! Z.to_nat i with
        | None => λ _, Fault OobRead
        | Some (_, None) => mret ([], fail_count)
        | Some (test_name, Some f) =>
            result ← f;
            '(out, fail_count, _) ← lift (run_test i test_name (λ _, (result, tt)) fail_count tt);
            '(rest, fail_count) ← main_loop fuel tests test_count (u8 (i + 1)) fail_count;
            mret ((out ++ rest)%list, fail_count)
        end
      else mret ([], fail_count)
  end.

Definition run_all (fuel : nat) (stack : string → list Z) : M W (Z * list test_output) :=
  let tests := all_tests stack in
  let test_count := zlen tests in
  '(out, fail_count) ← main_loop fuel tests test_count 0 0;
  let summary := if decide (fail_count = 0) then All_passed test_count else Some_failed fail_count test_count in
  mret (0, (out ++ [summary; No_tests_skipped])%list).


(** * What passes between the clients and the broker *)

Inductive exchange :=
  | Opened (w : connection)
  | Sent (w : connection) (packet : list Z)
  | Got (w : connection) (packet : list Z)
  | Closed (w : connection).

(** The conversation ([ClientProtocol]) of a list of exchanges. *)
Fixpoint talk (l : list exchange) (K : W → Prop) : W → Prop :=
  match l with
  | [] => K
  | Opened w :: l => opens (srv w) server_host 1883 (talk l K)
  | Sent w p :: l => sends (srv w) p (talk l K)
  | Got w p :: l => gets (srv w) p (talk l K)
  | Closed w :: l => closes (srv w) (talk l K)
  end.

Lemma talk_app l l' K : talk (l ++ l') K = talk l (talk l' K).
Proof using Type. induction l as [|[] l IH]; cbn [app talk]; [done|by rewrite IH..]. Qed.

Definition params (client_id : list Z) (user pw : option (list Z)) (will_qos : Z) (will_retain : bool)
    (will : option (list Z * list Z)) : connect_params := {|
  cp_client_id := client_id; cp_user := user; cp_pw := pw; cp_keep_alive := 30; cp_clean := true;
  cp_will_qos := will_qos; cp_will_retain := will_retain; cp_will := will |}.

Definition connects (w : connection) (p : connect_params) : list exchange :=
  [Opened w; Sent w (mqtt_connect p); Got w (mqtt_connack Connection_Accepted)].
Definition refused (w : connection) (p : connect_params) (code : Z) : list exchange :=
  [Opened w; Sent w (mqtt_connect p); Got w (mqtt_connack code); Closed w].
Definition user1 (client_id : string) : connect_params :=
  params (chars client_id) (Some (chars "user1")) (Some (chars "password1")) QoS0 false None.

(** The handshake of a quality of service: with the broker, and for a message of
    the broker. *)
Definition publishes (w : connection) (topic msg : list Z) (qos : Z) (retain : bool) (id : Z) : list exchange :=
  Sent w (mqtt_publish topic id qos retain msg) ::
    (if decide (qos = QoS0) then []
     else if decide (qos = QoS1) then [Got w (mqtt_ack PUBACK 0 id)]
     else [Got w (mqtt_ack PUBREC 0 id); Sent w (mqtt_ack PUBREL 2 id); Got w (mqtt_ack PUBCOMP 0 id)]).
Definition receives (w : connection) (topic msg : list Z) (qos : Z) (retain : bool) (id : Z) : list exchange :=
  Got w (mqtt_publish topic id qos retain msg) ::
    (if decide (qos = QoS0) then []
     else if decide (qos = QoS1) then [Sent w (mqtt_ack PUBACK 0 id)]
     else [Sent w (mqtt_ack PUBREC 0 id); Got w (mqtt_ack PUBREL 2 id); Sent w (mqtt_ack PUBCOMP 0 id)]).
Definition subscribes (w : connection) (id : Z) (tqs : list (list Z * Z)) (results : list sub_result) : list exchange :=
  [Sent w (mqtt_subscribe id tqs); Got w (mqtt_suback id results)].
Definition unsubscribes (w : connection) (id : Z) (topics : list (list Z)) : list exchange :=
  [Sent w (mqtt_unsubscribe id topics); Got w (mqtt_ack UNSUBACK 0 id)].
Definition pings (w : connection) : list exchange := [Sent w (mqtt_empty PINGREQ); Got w (mqtt_empty PINGRESP)].
Definition leaves (w : connection) : list exchange := [Sent w (mqtt_empty DISCONNECT); Closed w].

(** ** A rule for each call *)

(** Between two calls: [n] responses allocated, the exchanges to come. *)
Local Abbreviation before n l K := (in_conversation n (talk l K)).

Lemma rule_bind {A B} n l l' K (m : M W A) (r : A) n' (f : A → M W B) Q :
  triple (in_conversation n (talk l (talk l' K))) m (λ a s, a = r ∧ in_conversation n' (talk l' K) s) →
  triple (before n' l' K) (f r) Q →
  triple (before n (l ++ l') K) (m ≫= f) Q.
Proof using Type.
  intros Hm Hf. rewrite talk_app. eapply triple_bind; [exact Hm|]. intros a. apply triple_pure. by intros ->.
Qed.

(** Calls on a client wrap those of [Client]. *)
Lemma rule_call {A B} n l l' K (m : M W A) (g : A → B) (r : A) n' {C} (f : B → M W C) Q :
  triple (in_conversation n (talk l (talk l' K))) m (λ a s, a = r ∧ in_conversation n' (talk l' K) s) →
  triple (before n' l' K) (f (g r)) Q →
  triple (before n (l ++ l') K) ((a ← m; mret (g a)) ≫= f) Q.
Proof using Type.
  intros Hm Hf. eapply rule_bind; [|exact Hf]. eapply triple_bind; [exact Hm|]. intros a. apply triple_pure.
  intros ->. apply triple_ret. done.
Qed.

Hypothesis Hhost : nul_free server_host ∧ zlen server_host < MAX_HOSTNAME_CHARS.

Definition connected_as (w : connection) (p : connect_params) : smqtt_client W := new_client (srv w) server_host 1883 p (junk w).

Lemma rule_connect {B} w client_id user pw will_qos will_retain will l K n (f : smqtt_status_t * option (smqtt_client W) → M W B) Q :
  let p := params client_id user pw will_qos will_retain will in
  connect_ok p ∧ zlen client_id < MAX_XLIENT_ID_CHARS ∧ zlen (mqtt_connect p) ≤ BUFFER_SIZE →
  triple (before n l K) (f (SMQTT_OK, Some (connected_as w p))) Q →
  triple (before n (connects w p ++ l) K)
    (connect w client_id user pw (is_some will) will_qos will_retain (fst <$> will) (snd <$> will) ≫= f) Q.
Proof using Hhost.
  intros p (Hp & Hid & Hl) Hf. eapply rule_bind; [|exact Hf]. destruct Hhost as [Hh1 Hh2]. unfold connect.
  eapply triple_bind; [by apply (connect_result_spec (srv w) n (talk l K) (junk w) server_host 1883 p Connection_Accepted)|].
  intros a. apply triple_pure. intros ->. by apply triple_ret.
Qed.

Lemma rule_refused {B} w client_id user pw l K n (f : smqtt_status_t * option (smqtt_client W) → M W B) Q :
  let p := params client_id user pw QoS0 false None in
  connect_ok p ∧ zlen client_id < MAX_XLIENT_ID_CHARS ∧ zlen (mqtt_connect p) ≤ BUFFER_SIZE →
  triple (before n l K) (f (SMQTT_NOT_AUTHORIZED, None)) Q →
  triple (before n (refused w p Connection_Refused_not_authorized ++ l) K)
    (connect w client_id user pw false QoS0 false None None ≫= f) Q.
Proof using Hhost.
  intros p (Hp & Hid & Hl) Hf. eapply rule_bind; [|exact Hf]. destruct Hhost as [Hh1 Hh2]. unfold connect.
  eapply triple_bind; [by apply (connect_result_spec (srv w) n (talk l K) (junk w) server_host 1883 p Connection_Refused_not_authorized)|].
  intros a. apply triple_pure. intros ->. by apply triple_ret.
Qed.

Section calls.
Context {B : Type} (w : connection) (c : smqtt_client W) (l : list exchange) (K : W → Prop) (n : Z) (Q : B → sys W → Prop).
Hypothesis Hc : server c = Some (srv w) ∧ connected c = true.

Lemma rule_publish topic msg qos retain id (f : smqtt_status_t * option (smqtt_client W) → M W B) :
  id = (if decide (qos = QoS0) then publish_packet_id c else publish_packet_id c + 1) →
  short_string topic ∧ opt_message_ok msg ∧ 0 ≤ qos ≤ 2 ∧ 0 ≤ publish_packet_id c < 255 ∧
    zlen (mqtt_publish topic id qos retain (default [] msg)) ≤ BUFFER_SIZE →
  triple (before n l K) (f (SMQTT_OK, Some (set_publish_id c id))) Q →
  triple (before n (publishes w topic (default [] msg) qos retain id ++ l) K) (publish (Some c) topic msg qos retain ≫= f) Q.
Proof using Hc.
  intros Hid (Ht & Hm & Hq & Hp & Hl) Hf. destruct Hc as [Hs Hcc]. eapply rule_bind; [|exact Hf].
  unfold publish. cbn [the_client]. apply triple_ret_bind. subst id.
  eapply triple_bind.
  - eapply triple_pre; [by apply (publish_completes_spec (srv w) c Hs n (talk l K) topic msg qos retain)|].
    intros s. unfold publish_conversation, publishes. cbn [talk]. by destruct (decide (qos = QoS0)), (decide (qos = QoS1)).
  - intros a. apply triple_pure. intros ->. by apply triple_ret.
Qed.

Lemma rule_subscribe id tqs results (f : smqtt_status_t * option (smqtt_client W) → M W B) :
  id = subscribe_packet_id c + 1 →
  Forall (λ tq, short_string tq.1 ∧ byte_range tq.2) tqs ∧ Forall (λ r, 0 ≤ sub_qos r ≤ 2) results ∧
    (List.length results ≤ MAX_TOPICS)%nat ∧ 0 ≤ subscribe_packet_id c < 255 ∧ zlen (mqtt_subscribe id tqs) ≤ BUFFER_SIZE →
  triple (before n l K) (f (SMQTT_OK, Some (set_subscribe_id c id))) Q →
  triple (before n (subscribes w id tqs results ++ l) K) (subscribe (Some c) (zlen tqs) tqs.*1 tqs.*2 ≫= f) Q.
Proof using Hc.
  intros -> (Ht & Hr & Hn & Hp & Hl) Hf. destruct Hc as [Hs Hcc]. eapply rule_bind; [|exact Hf].
  unfold subscribe. cbn [the_client]. apply triple_ret_bind.
  eapply triple_bind; [by apply (subscribe_completes_spec (srv w) c Hs n (talk l K) tqs results)|].
  intros a. apply triple_pure. intros ->. by apply triple_ret.
Qed.

Lemma rule_unsubscribe id topics (f : smqtt_status_t * option (smqtt_client W) → M W B) :
  id = unsubscribe_packet_id c + 1 →
  Forall short_string topics ∧ 0 ≤ unsubscribe_packet_id c < 255 ∧ zlen (mqtt_unsubscribe id topics) ≤ BUFFER_SIZE →
  triple (before n l K) (f (SMQTT_OK, Some (set_unsubscribe_id c id))) Q →
  triple (before n (unsubscribes w id topics ++ l) K) (unsubscribe (Some c) (zlen topics) topics ≫= f) Q.
Proof using Hc.
  intros -> (Ht & Hp & Hl) Hf. destruct Hc as [Hs Hcc]. eapply rule_bind; [|exact Hf].
  unfold unsubscribe. cbn [the_client]. apply triple_ret_bind.
  eapply triple_bind; [by apply (smqtt_unsubscribe_completes (srv w) c Hs n (talk l K) topics)|].
  intros a. apply triple_pure. intros ->. by apply triple_ret.
Qed.

Lemma rule_ping (f : smqtt_status_t → M W B) :
  triple (before n l K) (f SMQTT_OK) Q → triple (before n (pings w ++ l) K) (ping (Some c) ≫= f) Q.
Proof using Hc.
  intros Hf. destruct Hc as [Hs Hcc]. eapply rule_bind; [|exact Hf]. unfold ping. cbn [the_client]. apply triple_ret_bind.
  by apply (smqtt_ping_completes (srv w) c Hs n (talk l K)).
Qed.

Lemma rule_disconnect (f : smqtt_status_t → M W B) :
  triple (before n l K) (f SMQTT_OK) Q → triple (before n (leaves w ++ l) K) (disconnect (Some c) ≫= f) Q.
Proof using Hc.
  intros Hf. destruct Hc as [Hs Hcc]. eapply rule_bind; [|exact Hf]. unfold disconnect. cbn [the_client].
  apply triple_ret_bind. by apply (disconnect_spec (srv w) c Hs n (talk l K)).
Qed.

Lemma rule_drop (f : smqtt_status_t → M W B) :
  triple (before n l K) (f SMQTT_OK) Q → triple (before n ([Closed w] ++ l) K) (drop_client (Some c) ≫= f) Q.
Proof using Hc.
  intros Hf. destruct Hc as [Hs Hcc]. eapply rule_bind; [|exact Hf]. unfold drop_client. cbn [the_client].
  apply triple_ret_bind. unfold mqtt_drop. apply (conv_close (srv w) c Hs), conv_ret.
Qed.

Lemma rule_receive topic msg qos retain id v (f : smqtt_status_t * message_vars → M W B) :
  short_string topic ∧ zlen msg < 65536 ∧ 0 ≤ id < 256 ∧ 0 ≤ qos ≤ 2 ∧
    zlen (mqtt_publish topic id qos retain msg) ≤ BUFFER_SIZE →
  triple (before (if decide (qos = QoS1) then n + 1 else n) l K)
    (f (SMQTT_OK, mk_vars (if decide (qos >= QoS1 ∧ id ≠ 0) then id else packet_id v) (Some (strncpy_of msg)) (Some (zlen msg)))) Q →
  triple (before n (receives w topic msg qos retain id ++ l) K) (get_next_message (Some c) v ≫= f) Q.
Proof using Hc.
  intros (Ht & Hm & Hid & Hq & Hl) Hf. destruct Hc as [Hs Hcc]. eapply rule_bind; [|exact Hf].
  unfold get_next_message. cbn [the_client]. apply triple_ret_bind. eapply triple_bind.
  - eapply triple_pre; [by apply (get_next_message_receives_spec (srv w) c Hs n (talk l K) topic msg qos retain id)|].
    intros s. unfold receive_conversation, receives. cbn [talk]. by destruct (decide (qos = QoS0)), (decide (qos = QoS1)).
  - intros a. apply triple_pure. intros ->. apply triple_ret. intros s Hs'. split; [|exact Hs'].
    cbn [out_packet_id out_message out_message_size written]. by repeat case_decide.
Qed.

End calls.

Lemma rule_assert {B} at_line text expr (f : test_result_t → M W B) P Q :
  expr = Ok true → triple P (f init_result) Q → triple P (ASSERT_TRUE at_line text expr init_result ≫= f) Q.
Proof using Type. intros -> Hf. by apply (triple_ret_bind init_result f). Qed.

(** * The tests pass *)

(** What a test and the broker say, and the number of responses the test loses. *)
Record expectation := mk_expectation { traffic : list (list exchange); lost : Z }.

Definition passes (t : M W test_result_t) (e : expectation) : Prop :=
  ∀ n K, triple (before n (List.concat (traffic e)) K) t (λ r s, r = init_result ∧ in_conversation (n + lost e) K s).

Definition topic : list Z := chars "test_topic".
Definition granted (qos : Z) : list sub_result := [mk_sub_result true qos].
Definition will_params (will_retain : bool) : connect_params :=
  params (chars "will_client") (Some (chars "user1")) (Some (chars "password1")) QoS2 will_retain
    (Some (chars "willtopic", chars "willmessage")).

(** What every test of [test/client.c] and its broker say: one conversation for each
    of them, the one the test asks for.  The identifiers 1 and 2 of the messages the
    broker delivers are those the assertions compare with; the identifier of the
    UNSUBSCRIBE is one more than what the uninitialised member holds. *)
Definition expected : list expectation := [
  mk_expectation [refused First (params (chars "test_client_1") None None QoS0 false None) Connection_Refused_not_authorized] 0;
  mk_expectation [refused First (params (chars "test_client_1") (Some (chars "Fred")) (Some (chars "Secret")) QoS0 false None)
    Connection_Refused_not_authorized] 0;
  mk_expectation [connects First (user1 "test_client_1"); connects Second (user1 "test_client_2");
    subscribes Second 2 [(topic, QoS0)] (granted QoS0); publishes First topic (chars "hello1") QoS0 false 0;
    receives Second topic (chars "hello1") QoS0 false 0; leaves First; leaves Second] 0;
  mk_expectation [connects First (user1 "test_client_1"); connects Second (user1 "test_client_2");
    subscribes Second 2 [(topic, QoS0)] (granted QoS0); publishes First topic (chars "hello1") QoS0 false 0;
    publishes First topic (chars "longhello2") QoS0 false 0; receives Second topic (chars "hello1") QoS0 false 0;
    receives Second topic (chars "longhello2") QoS0 false 0; leaves First; leaves Second] 0;
  mk_expectation [connects First (user1 "test_client_1"); connects Second (user1 "test_client_2");
    subscribes Second 2 [(topic, QoS1)] (granted QoS1); publishes First topic (chars "hello1") QoS1 false 1;
    receives Second topic (chars "hello1") QoS1 false 1; leaves First; leaves Second] 1;
  mk_expectation [connects First (user1 "test_client_1"); connects Second (user1 "test_client_2");
    subscribes Second 2 [(topic, QoS2)] (granted QoS2); publishes First topic (chars "hello1") QoS2 false 1;
    receives Second topic (chars "hello1") QoS2 false 1; publishes First topic (chars "longhello2") QoS2 false 2;
    receives Second topic (chars "longhello2") QoS2 false 2; leaves First; leaves Second] 0;
  mk_expectation [connects First (user1 "test_client_1"); pings First; pings First; leaves First] 0;
  mk_expectation [connects First (user1 "test_client_1");
    subscribes First 2 [(chars "topic1", QoS2); (chars "longer/topic2", QoS2)] [mk_sub_result true QoS2; mk_sub_result true QoS2];
    unsubscribes First (junk First + 1) [chars "topic1"; chars "longer/topic2"]; leaves First] 0;
  mk_expectation [connects First (user1 "test_client_1"); publishes First topic (chars "hello1") QoS2 true 1;
    connects Second (user1 "test_client_2"); subscribes Second 2 [(topic, QoS2)] (granted QoS2);
    receives Second topic (chars "hello1") QoS2 true 1; publishes First topic [] QoS2 true 2; leaves First; leaves Second] 0;
  mk_expectation [connects First (will_params false); publishes First (chars "willtopic") [] QoS2 true 1;
    connects Second (user1 "test_client_2"); subscribes Second 2 [(chars "willtopic", QoS2)] (granted QoS2);
    [Closed First]; receives Second (chars "willtopic") (chars "willmessage") QoS2 false 1; leaves Second] 0;
  mk_expectation [connects First (will_params true); publishes First (chars "willtopic") [] QoS2 true 1;
    connects Second (user1 "test_client_2"); [Closed First]; subscribes Second 2 [(chars "willtopic", QoS2)] (granted QoS2);
    receives Second (chars "willtopic") (chars "willmessage") QoS2 true 1; leaves Second] 0 ].

Hypothesis Hjunk : 0 ≤ junk First < 255.

(** Side conditions on concrete arguments. *)
Ltac evaluated :=
  split_and?; first
    [ apply (bool_decide_unpack _); vm_compute; exact I
    | split; apply (bool_decide_unpack _); vm_compute; exact I
    | apply Hjunk ].

(** The next call of the test, by its rule. *)
Ltac client_step :=
  lazymatch goal with
  | |- triple _ (ASSERT_TRUE _ _ _ _ ≫= _) _ => apply rule_assert; [vm_compute; reflexivity|]
  | |- triple (before _ (refused _ _ _ ++ _) _) _ _ => eapply rule_refused; [evaluated|]
  | |- triple _ (connect _ _ _ _ false _ _ _ _ ≫= _) _ => eapply (rule_connect _ _ _ _ _ _ None); [evaluated|]
  | |- triple _ (connect _ _ _ _ true _ _ (Some ?t) (Some ?m) ≫= _) _ =>
      eapply (rule_connect _ _ _ _ _ _ (Some (t, m))); [evaluated|]
  | |- triple _ (ping _ ≫= _) _ => apply rule_ping; [by split|]
  | |- triple _ (disconnect _ ≫= _) _ => apply rule_disconnect; [by split|]
  | |- triple _ (drop_client _ ≫= _) _ => apply rule_drop; [by split|]
  | |- triple _ (publish (Some ?c) ?t ?m ?q ?r ≫= _) _ =>
      eapply (rule_publish _ c _ _ _ _ (conj eq_refl eq_refl) t m q r); [reflexivity|evaluated|]
  | |- triple (before _ (subscribes ?w ?id ?tqs ?rs ++ _) _) (subscribe (Some ?c) _ _ _ ≫= _) _ =>
      eapply (rule_subscribe w c _ _ _ _ (conj eq_refl eq_refl) id tqs rs); [reflexivity|evaluated|]
  | |- triple (before _ (unsubscribes ?w ?id ?ts ++ _) _) (unsubscribe (Some ?c) _ _ ≫= _) _ =>
      eapply (rule_unsubscribe w c _ _ _ _ (conj eq_refl eq_refl) id ts); [reflexivity|evaluated|]
  | |- triple (before _ (receives ?w ?t ?m ?q ?r ?id ++ _) _) (get_next_message (Some ?c) _ ≫= _) _ =>
      eapply (rule_receive w c _ _ _ _ (conj eq_refl eq_refl) t m q r id); [evaluated|]
  end; cbv beta match zeta.


Lemma client_tests_pass : Forall2 (λ t e, passes t.2 e) client_tests expected.
Proof using Hhost Hjunk.
  unfold client_tests, expected. repeat apply Forall2_cons_2; [..|apply Forall2_nil_2];
    intros n K; cbn [snd traffic lost List.concat];
    match goal with |- triple _ ?t _ => unfold t end; unfold connect_user1; cbv zeta.
  all: repeat client_step.
  all: apply triple_ret; intros s Hs; split; [done|]; by rewrite ?Z.add_0_r.


Qed.

Lemma codec_passes stack t :
  (∀ name, zlen (stack name) = TestCodec.BUFFER_SIZE) → t ∈ codec_tests →
  passes (lift (t.2 (stack t.1))) (mk_expectation [] 0).
Proof using Type.
  intros Hs Ht n K s HK. pose proof (codec_tests_pass (stack t.1) (Hs _)) as Hp. rewrite Forall_forall in Hp.
  exists init_result, s. unfold lift. rewrite (Hp t Ht), bind_ok. cbn [lost]. by rewrite Z.add_0_r.
Qed.

(** Every test of the program. *)
Definition all_expected : list expectation := replicate (List.length codec_tests) (mk_expectation [] 0) ++ expected.

Lemma named_tests_pass stack :
  (∀ name, zlen (stack name) = TestCodec.BUFFER_SIZE) → Forall2 (λ t e, passes t.2 e) (named_tests stack) all_expected.
Proof using Hhost Hjunk.
  intros Hs. apply Forall2_app; [|apply client_tests_pass]. apply Forall2_fmap_l, Forall2_replicate_r; [done|].
  apply Forall_forall. intros t Ht. by apply codec_passes.
Qed.

(** ** The loop *)

Definition all_traffic (es : list expectation) : list exchange := es ≫= (λ e, List.concat (traffic e)).
Definition all_lost (es : list expectation) : Z := foldr (λ e n, lost e + n) 0 es.

Fixpoint pass_lines (i : Z) (tests : list (string * M W test_result_t)) : list test_output :=
  match tests with [] => [] | t :: l => Test_line (i + 1) t.1 true :: pass_lines (i + 1) l end.

Lemma main_loop_passes before_ l es fuel n K :
  let tests := before_ ++ ((λ t, (t.1, Some t.2)) <$> l) ++ [(EmptyString, None)] in
  zlen tests < 256 → (List.length l < fuel)%nat → Forall2 (λ t e, passes t.2 e) l es →
  triple (before n (all_traffic es) K) (main_loop fuel tests (zlen tests) (zlen before_) 0)
    (λ r s, r = (pass_lines (zlen before_) l, 0) ∧ in_conversation (n + all_lost es) K s).
Proof using Type.
  cbv zeta. intros Hl Hf Hp. revert before_ fuel n Hl Hf. induction Hp as [|t e l es Ht _ IH]; intros before_ fuel n Hl Hf.
  all: destruct fuel as [|fuel]; [by apply Nat.nlt_0_r in Hf|]; cbn [main_loop]; rewrite decide_True
    by (rewrite zlen_app; unfold zlen; rewrite ?length_app, ?length_cons; cbn [List.length]; lia).
  all: rewrite (lookup_app_r before_) by (unfold zlen; lia); replace (Z.to_nat (zlen before_) - List.length before_)%nat with 0%nat by (unfold zlen; lia).
  - cbn. apply triple_ret. intros s Hs. split; [done|]. by rewrite Z.add_0_r.
  - cbn [fmap list_fmap app lookup list_lookup fst snd]. unfold all_traffic. rewrite bind_cons, talk_app.
    eapply triple_bind; [apply Ht|]. intros r. apply triple_pure. intros ->.
    apply (triple_ret_bind ([Test_line (zlen before_ + 1) t.1 true], 0, tt)). cbv beta match.
    assert (Hu : u8 (zlen before_ + 1) = zlen (before_ ++ [(t.1, Some t.2)])).
    { rewrite zlen_app. apply u8_small. clear IH. unfold byte_range, zlen in *.
      rewrite !length_app, length_fmap in Hl. cbn [List.length] in *. lia. }
    rewrite Hu. specialize (IH (before_ ++ [(t.1, Some t.2)]) fuel (n + lost e)). rewrite <- app_assoc in IH.
    eapply triple_bind; [apply IH; [done|cbn in Hf; lia]|].
    intros r. apply triple_pure. intros ->. apply triple_ret. intros s Hs. rewrite zlen_app. split; [done|].
    cbn [all_lost foldr]. by rewrite Z.add_assoc.
Qed.

(** The program, with the server of its test broker. *)
Lemma run_all_passes fuel stack n K :
  (∀ name, zlen (stack name) = TestCodec.BUFFER_SIZE) → (27 ≤ fuel)%nat →
  triple (before n (all_traffic all_expected) K) (run_all fuel stack)
    (λ r s, r = (0, pass_lines 0 (named_tests stack) ++ [All_passed 27; No_tests_skipped]) ∧ in_conversation (n + 1) K s).
Proof using Hhost Hjunk.
  intros Hs Hf. unfold run_all. cbv zeta. eapply triple_bind.
  - apply (main_loop_passes [] (named_tests stack) all_expected fuel n K); [done|cbn; lia|by apply named_tests_pass].
  - intros r. apply triple_pure. intros ->. apply triple_ret. done.
Qed.

End tests.

(** [server_host] is the argument, where there is one. *)
Definition get_server_host (argv : list (list Z)) : list Z :=
  match argv with _ :: host :: _ => host | _ => chars "127.0.0.1" end.

(** The code returned and the lines printed, the first with the host. *)
Definition main {W} (srv : connection → server_t W) (junk : connection → Z) (fuel : nat) (stack : string → list Z)
    (argv : list (list Z)) : M W (Z * list Z * list test_output) :=
  '(code, out) ← run_all srv (get_server_host argv) junk fuel stack;
  mret (code, get_server_host argv, out).

(** C5. The test program passes, if its broker says in each test what the test is
    written for ([all_expected]: one conversation for each test, in which the broker
    refuses and accepts the connections, grants what is asked, acknowledges
    everything and delivers the messages at once, in order and with the identifiers
    1 and 2 the assertions compare with), and if the member
    [unsubscribe_packet_id], which nobody initialises, holds less than 255 in the
    first client of [test_unsubscribe_v3].  On any server that carries that
    conversation, for any host that fits and any other uninitialised memory: the
    program returns 0 and says of each of its 26 tests that it passed; it then says
    that 27 have.  One response is lost. *)
Theorem main_reports {W} (srv : connection → server_t W) junk fuel stack argv n K :
  nul_free (get_server_host argv) ∧ zlen (get_server_host argv) < MAX_HOSTNAME_CHARS →
  0 ≤ junk First < 255 → (∀ name, zlen (stack name) = TestCodec.BUFFER_SIZE) → (27 ≤ fuel)%nat →
  triple (in_conversation n (talk srv (get_server_host argv) (all_traffic (all_expected junk)) K))
    (main srv junk fuel stack argv)
    (λ r s, r = (0, get_server_host argv,
                 pass_lines 0 (named_tests srv (get_server_host argv) junk stack) ++ [All_passed 27; No_tests_skipped]) ∧
            in_conversation (n + 1) K s).
Proof.
  intros Hh Hj Hs Hf. unfold main. eapply triple_bind; [by apply run_all_passes|].
  intros r. apply triple_pure. intros ->. by apply triple_ret.
Qed.

(** ** With the scripted broker *)

Definition broker_packets (l : list exchange) : list (list Z) := omap (λ x, match x with Got _ p => Some p | _ => None end) l.

Lemma scripted_talk host l (K : list (list Z) → Prop) w : K w → talk (λ _, scripted) host l K (broker_packets l ++ w).
Proof.
  intros HK. induction l as [|[] l IH]; cbn [talk broker_packets omap list_omap app]; [done|..].
  - by apply scripted_opens.
  - by apply scripted_sends.
  - by apply scripted_gets.
  - by apply scripted_closes.
Qed.

Lemma main_reports_witness :
  let script := broker_packets (all_traffic (all_expected (λ _, 7))) ++ [] in
  ∃ r s, main (λ _, scripted) (λ _, 7) 27 (λ _, replicate 1024 170) [] (initial_sys script) = Ok (r, s) ∧
    r = (0, chars "127.0.0.1", pass_lines 0 (named_tests (λ _, scripted) (chars "127.0.0.1") (λ _, 7) (λ _, replicate 1024 170)) ++
            [All_passed 27; No_tests_skipped]) ∧
    in_conversation (0 + 1) finished s.
Proof.
  apply (main_reports (λ _, scripted) (λ _, 7) 27 (λ _, replicate 1024 170) [] 0 finished).
  - split; [|by vm_compute]. apply (bool_decide_unpack _). vm_compute. exact I.
  - lia.
  - intros name. by vm_compute.
  - lia.
  - apply in_initial, scripted_talk. done.
Defined.

(** The names it prints. *)
Example main_prints :
  pass_lines 0 (named_tests (λ _, scripted) [] (λ _, 7) (λ _, [])) =
    imap (λ i name, Test_line (Z.of_nat i + 1) name true)
      ["test_length_encoding"; "test_length_decoding"; "test_connect_message_v3"; "test_connect_message_the_works_v3";
       "test_connect_message_mixed_v3"; "test_connect_message_will_v3"; "test_connack_message_v3";
       "test_disconnect_message"; "test_publish_message_v3"; "test_publish_message_retain_v3"; "test_puback_message_v3";
       "test_subscribe_message_v3"; "test_suback_message_v3"; "test_suback_message_mixed_v3";
       "test_unsubscribe_message_v3"; "test_no_auth_v3"; "test_bad_auth_v3"; "test_basic_v3_qos0";
       "test_message_backlog_v3_qos0"; "test_basic_v3_qos1"; "test_basic_v3_qos2_qos2"; "test_ping_v3";
       "test_unsubscribe_v3"; "test_pubsub_retain_v3"; "test_pubsub_will_v3"; "test_pubsub_will_retained_v3"]%string.
Proof. reflexivity. Qed.
