(* ===== verification/TestMt.v ===== *)
(** TestMt: the tests of the multi-threaded client, [test_mt/client.c], as
    programs over what they do to the outside: calls of the client, the monitors
    of [Callbacks], and the assertions of [Runner]. *)

From S2P Require Import Prelude Protocol Server Runner Connection ClientMt Callbacks.
From Stdlib Require Import String.

#[local] Open Scope Z_scope.

(** * Programs *)

(** What a test asks for.  A client is the number of a successful connect; a
    [cb_state_t] and a callback are addresses. *)
Inductive test_op :=
  | Connect (mode : server_mode_t) (server_ip : list Z) (port : Z) (client_id : list Z) (user pw : option (list Z))
      (keep_alive_sec : Z) (clean_session last_will_and_testament : bool) (will_qos : Z) (will_retain : bool)
      (will_topic will_message : option (list Z)) (msg_callback : option Z) (msg_cb_context : Z)
  | Call (client : nat) (r : request)
  | Disconnect (client : nat)
  | New_state
  | Wait (state : Z)
  | Release (state : Z)
  | Look (state : Z)
  | Sleep (msec : Z).

(** What it gets: from [Connect] the status, and the client where the variable
    is written. *)
Definition answer (o : test_op) : Type :=
  match o with
  | Connect _ _ _ _ _ _ _ _ _ _ _ _ _ _ _ => smqtt_mt_status_t * option nat
  | Call _ _ | Disconnect _ => smqtt_mt_status_t
  | New_state => Z
  | Wait _ => bool
  | Look _ => cb_response
  | Release _ | Sleep _ => unit
  end.

Inductive test (A : Type) : Type :=
  | Ret (a : A)
  | Crash (f : fault)
  | Do (o : test_op) (k : answer o → test A).
Arguments Ret {A} _. Arguments Crash {A} _. Arguments Do {A} _ _.

#[export] Instance test_ret : MRet test := @Ret.
#[export] Instance test_bind : MBind test := λ A B f,
  fix bind (t : test A) : test B :=
    match t with Ret a => f a | Crash e => Crash e | Do o k => Do o (λ a, bind (k a)) end.

Definition ask (o : test_op) : test (answer o) := Do o Ret.

(** ** The calls the tests make *)

(** Addresses.  The tests' monitors are numbered from 1. *)
Definition NULL : Z := 0.
Definition request_cb : Z := 1.
Definition subscribe_cb : Z := 2.
Definition message_cb : Z := 3.

Definition smqtt_mt_connect_internal (mode : server_mode_t) (server_ip : list Z) (port : Z) (client_id : list Z)
    (user pw : option (list Z)) (keep_alive_sec : Z) (clean_session last_will_and_testament : bool) (will_qos : Z)
    (will_retain : bool) (will_topic will_message : option (list Z)) (msg_callback : option Z) (msg_cb_context : Z)
    : test (smqtt_mt_status_t * option nat) :=
  ask (Connect mode server_ip port client_id user pw keep_alive_sec clean_session last_will_and_testament will_qos
         will_retain will_topic will_message msg_callback msg_cb_context).

(** The connect of all tests. *)
Definition connect_v3 (client_id : string) (msg_callback : option Z) (msg_cb_context : Z)
    : test (smqtt_mt_status_t * option nat) :=
  smqtt_mt_connect_internal REMOTE_SERVER (chars "127.0.0.1") 1883 (chars client_id)
    (Some (chars "user1")) (Some (chars "password1")) 30 true false QoS0 false None None msg_callback msg_cb_context.

(** A call on a client variable: the functions read members of the client first. *)
Definition with_client {A} (client : option nat) (f : nat → test A) : test A :=
  match client with Some c => f c | None => Crash NullDeref end.

Definition smqtt_mt_ping (client : option nat) (timeout_msec : Z) (callback : option Z) (cb_context : Z) : test smqtt_mt_status_t :=
  with_client client (λ c, ask (Call c (Mt_ping callback cb_context))).
Definition smqtt_mt_publish (client : option nat) (topic msg : list Z) (qos : Z) (retain : bool) (callback : option Z)
    (cb_context : Z) : test smqtt_mt_status_t :=
  with_client client (λ c, ask (Call c (Mt_publish topic (Some msg) qos retain callback cb_context))).
Definition smqtt_mt_subscribe (client : option nat) (topic_count : Z) (topics : list (list Z)) (qoss : list Z)
    (callback : option Z) (cb_context : Z) : test smqtt_mt_status_t :=
  with_client client (λ c, ask (Call c (Mt_subscribe topic_count topics qoss callback cb_context))).
Definition smqtt_mt_disconnect (client : option nat) : test smqtt_mt_status_t :=
  with_client client (λ c, ask (Disconnect c)).

Definition create_cb_state : test Z := ask New_state.
Definition wait_for_cb (state : Z) : test bool := ask (Wait state).
Definition release_cb (state : Z) : test unit := ask (Release state).

(** [select] without descriptors, for the time given. *)
Definition test_sleep (msec : Z) : test unit := ask (Sleep msec).

(** ** Assertions *)

(** The condition is evaluated while nothing has failed. *)
Definition ASSERT_TRUE (at_line : Z) (text : string) (expr : test bool) (result : test_result_t) : test test_result_t :=
  if success result then b ← expr; mret (Runner.ASSERT_TRUE at_line text b result) else mret result.

Definition is_ok_status (status : smqtt_mt_status_t) : test bool := mret (bool_decide (status = SMQTT_MT_OK)).
Definition not_null (client : option nat) : test bool := mret (match client with Some _ => true | None => false end).
Definition equals {A} `{EqDecision A} (x : test A) (y : A) : test bool := a ← x; mret (bool_decide (a = y)).
(** [!strcmp(...)] *)
Definition strequals (x : test (list Z)) (y : list Z) : test bool := s ← x; mret (bool_decide (c_chars s = c_chars y)).

(** [state->subscription_response...]: an array element nobody wrote is indeterminate. *)
Definition topic_count (state : Z) : test Z :=
  r ← ask (Look state); match r with subscription_response n _ => mret n | _ => Crash Uninitialised end.
Definition result_at (state : Z) (i : nat) : test sub_result :=
  r ← ask (Look state);
  match r with
  | subscription_response _ rs => match rs !! i with Some x => mret x | None => Crash Uninitialised end
  | _ => Crash Uninitialised
  end.
Definition success_at (state : Z) (i : nat) : test bool := x ← result_at state i; mret (sub_success x).
Definition qos_at (state : Z) (i : nat) : test Z := x ← result_at state i; mret (sub_qos x).

(** [state->message_response...] *)
Definition message_topic (state : Z) : test (list Z) :=
  r ← ask (Look state); match r with message_response topic _ _ _ => mret topic | _ => Crash Uninitialised end.
Definition message_text (state : Z) : test (list Z) :=
  r ← ask (Look state); match r with message_response _ msg _ _ => mret msg | _ => Crash Uninitialised end.
Definition message_qos (state : Z) : test Z :=
  r ← ask (Look state); match r with message_response _ _ qos _ => mret qos | _ => Crash Uninitialised end.
Definition message_retain (state : Z) : test bool :=
  r ← ask (Look state); match r with message_response _ _ _ retain => mret retain | _ => Crash Uninitialised end.

(** [topics[i]] *)
Definition elt (topics : list (list Z)) (i : nat) : list Z := default [] (topics !! i).

(** * The tests *)

Definition test_connect_disconnect_v3 : test test_result_t :=
  let result := init_result in
  '(status, client1) ← connect_v3 "test_client_1" None NULL;
  result ← ASSERT_TRUE 138 "status == SMQTT_MT_OK" (is_ok_status status) result;
  result ← ASSERT_TRUE 139 "client1 != NULL" (not_null client1) result;
  status ← smqtt_mt_disconnect client1;
  result ← ASSERT_TRUE 142 "status == SMQTT_MT_OK" (is_ok_status status) result;
  mret result.

Definition test_ping_v3 : test test_result_t :=
  let result := init_result in
  '(status, client1) ← connect_v3 "test_client_1" None NULL;
  result ← ASSERT_TRUE 160 "status == SMQTT_MT_OK" (is_ok_status status) result;
  result ← ASSERT_TRUE 161 "client1 != NULL" (not_null client1) result;
  state1 ← create_cb_state;
  state2 ← create_cb_state;
  status ← smqtt_mt_ping client1 500 (Some request_cb) state1;
  result ← ASSERT_TRUE 167 "status == SMQTT_MT_OK" (is_ok_status status) result;
  status ← smqtt_mt_ping client1 500 (Some request_cb) state2;
  result ← ASSERT_TRUE 170 "status == SMQTT_MT_OK" (is_ok_status status) result;
  got_callback_before_timeout ← wait_for_cb state1;
  result ← ASSERT_TRUE 173 "got_callback_before_timeout" (mret got_callback_before_timeout) result;
  got_callback_before_timeout ← wait_for_cb state2;
  result ← ASSERT_TRUE 176 "got_callback_before_timeout" (mret got_callback_before_timeout) result;
  status ← smqtt_mt_disconnect client1;
  result ← ASSERT_TRUE 179 "status == SMQTT_MT_OK" (is_ok_status status) result;
  mret result.

Definition test_publish_qos0_v3 : test test_result_t :=
  let result := init_result in
  '(status, client1) ← connect_v3 "test_client_1" None NULL;
  result ← ASSERT_TRUE 197 "status == SMQTT_MT_OK" (is_ok_status status) result;
  result ← ASSERT_TRUE 198 "client1 != NULL" (not_null client1) result;
  status ← smqtt_mt_publish client1 (chars "test_topic") (chars "hello") QoS0 false None NULL;
  result ← ASSERT_TRUE 202 "status == SMQTT_MT_OK" (is_ok_status status) result;
  _ ← test_sleep 100;
  status ← smqtt_mt_disconnect client1;
  result ← ASSERT_TRUE 207 "status == SMQTT_MT_OK" (is_ok_status status) result;
  mret result.

Definition test_publish_qos1_v3 : test test_result_t :=
  let result := init_result in
  '(status, client1) ← connect_v3 "test_client_1" None NULL;
  state1 ← create_cb_state;
  state2 ← create_cb_state;
  result ← ASSERT_TRUE 228 "status == SMQTT_MT_OK" (is_ok_status status) result;
  result ← ASSERT_TRUE 229 "client1 != NULL" (not_null client1) result;
  status ← smqtt_mt_publish client1 (chars "test_topic") (chars "hello") QoS1 false (Some request_cb) state1;
  result ← ASSERT_TRUE 233 "status == SMQTT_MT_OK" (is_ok_status status) result;
  status ← smqtt_mt_publish client1 (chars "test_topic") (chars "hello") QoS1 false (Some request_cb) state2;
  result ← ASSERT_TRUE 237 "status == SMQTT_MT_OK" (is_ok_status status) result;
  got_callback_before_timeout ← wait_for_cb state1;
  result ← ASSERT_TRUE 240 "got_callback_before_timeout" (mret got_callback_before_timeout) result;
  got_callback_before_timeout ← wait_for_cb state2;
  result ← ASSERT_TRUE 243 "got_callback_before_timeout" (mret got_callback_before_timeout) result;
  status ← smqtt_mt_disconnect client1;
  result ← ASSERT_TRUE 246 "status == SMQTT_MT_OK" (is_ok_status status) result;
  mret result.

Definition test_publish_qos2_v3 : test test_result_t :=
  let result := init_result in
  '(status, client1) ← connect_v3 "test_client_1" None NULL;
  state1 ← create_cb_state;
  state2 ← create_cb_state;
  result ← ASSERT_TRUE 267 "status == SMQTT_MT_OK" (is_ok_status status) result;
  result ← ASSERT_TRUE 268 "client1 != NULL" (not_null client1) result;
  status ← smqtt_mt_publish client1 (chars "test_topic") (chars "hello") QoS2 false (Some request_cb) state1;
  result ← ASSERT_TRUE 272 "status == SMQTT_MT_OK" (is_ok_status status) result;
  status ← smqtt_mt_publish client1 (chars "test_topic") (chars "hello") QoS2 false (Some request_cb) state2;
  result ← ASSERT_TRUE 276 "status == SMQTT_MT_OK" (is_ok_status status) result;
  got_callback_before_timeout ← wait_for_cb state1;
  result ← ASSERT_TRUE 279 "got_callback_before_timeout" (mret got_callback_before_timeout) result;
  got_callback_before_timeout ← wait_for_cb state2;
  result ← ASSERT_TRUE 282 "got_callback_before_timeout" (mret got_callback_before_timeout) result;
  status ← smqtt_mt_disconnect client1;
  result ← ASSERT_TRUE 285 "status == SMQTT_MT_OK" (is_ok_status status) result;
  mret result.

Definition test_subscribe_simple_v3 : test test_result_t :=
  let result := init_result in
  '(status, client1) ← connect_v3 "test_client_1" None NULL;
  state1 ← create_cb_state;
  result ← ASSERT_TRUE 305 "status == SMQTT_MT_OK" (is_ok_status status) result;
  result ← ASSERT_TRUE 306 "client1 != NULL" (not_null client1) result;
  let topics := [chars "test_topic"] in
  let qoss := [QoS1] in
  status ← smqtt_mt_subscribe client1 1 topics qoss (Some subscribe_cb) state1;
  result ← ASSERT_TRUE 312 "status == SMQTT_MT_OK" (is_ok_status status) result;
  got_callback_before_timeout ← wait_for_cb state1;
  result ← ASSERT_TRUE 315 "got_callback_before_timeout" (mret got_callback_before_timeout) result;
  result ← ASSERT_TRUE 316 "state1->subscription_response.topic_count == 1" (equals (topic_count state1) 1) result;
  result ← ASSERT_TRUE 317 "state1->subscription_response.success[0]" (success_at state1 0) result;
  result ← ASSERT_TRUE 318 "state1->subscription_response.qoss[0] == QoS1" (equals (qos_at state1 0) QoS1) result;
  status ← smqtt_mt_disconnect client1;
  result ← ASSERT_TRUE 322 "status == SMQTT_MT_OK" (is_ok_status status) result;
  mret result.

Definition test_subscribe_multiple_v3 : test test_result_t :=
  let result := init_result in
  '(status, client1) ← connect_v3 "test_client_1" None NULL;
  state1 ← create_cb_state;
  result ← ASSERT_TRUE 342 "status == SMQTT_MT_OK" (is_ok_status status) result;
  result ← ASSERT_TRUE 343 "client1 != NULL" (not_null client1) result;
  let topics := [chars "test_topic_1"; chars "test_topic_2"; chars "test_topic_3"] in
  let qoss := [QoS1; QoS2; QoS0] in
  status ← smqtt_mt_subscribe client1 3 topics qoss (Some subscribe_cb) state1;
  result ← ASSERT_TRUE 349 "status == SMQTT_MT_OK" (is_ok_status status) result;
  got_callback_before_timeout ← wait_for_cb state1;
  result ← ASSERT_TRUE 352 "got_callback_before_timeout" (mret got_callback_before_timeout) result;
  result ← ASSERT_TRUE 353 "state1->subscription_response.topic_count == 3" (equals (topic_count state1) 3) result;
  result ← ASSERT_TRUE 354 "state1->subscription_response.success[0]" (success_at state1 0) result;
  result ← ASSERT_TRUE 355 "state1->subscription_response.qoss[0] == QoS1" (equals (qos_at state1 0) QoS1) result;
  result ← ASSERT_TRUE 356 "state1->subscription_response.success[1]" (success_at state1 1) result;
  result ← ASSERT_TRUE 357 "state1->subscription_response.qoss[1] == QoS2" (equals (qos_at state1 1) QoS2) result;
  result ← ASSERT_TRUE 358 "state1->subscription_response.success[2]" (success_at state1 2) result;
  result ← ASSERT_TRUE 359 "state1->subscription_response.qoss[2] == QoS0" (equals (qos_at state1 2) QoS0) result;
  status ← smqtt_mt_disconnect client1;
  result ← ASSERT_TRUE 362 "status == SMQTT_MT_OK" (is_ok_status status) result;
  mret result.

Definition test_pub_sub_qos0_v3 : test test_result_t :=
  let result := init_result in
  '(status, publisher) ← connect_v3 "pub_client_1" None NULL;
  result ← ASSERT_TRUE 379 "status == SMQTT_MT_OK" (is_ok_status status) result;
  result ← ASSERT_TRUE 380 "publisher != NULL" (not_null publisher) result;
  sub_state ← create_cb_state;
  sub_msg_state ← create_cb_state;
  '(status, subscriber) ← connect_v3 "sub_client_1" (Some message_cb) sub_msg_state;
  result ← ASSERT_TRUE 393 "status == SMQTT_MT_OK" (is_ok_status status) result;
  result ← ASSERT_TRUE 394 "subscriber != NULL" (not_null subscriber) result;
  let topics := [chars "test_topic_1"] in
  let qoss := [QoS0] in
  status ← smqtt_mt_subscribe subscriber 1 topics qoss (Some subscribe_cb) sub_state;
  result ← ASSERT_TRUE 403 "status == SMQTT_MT_OK" (is_ok_status status) result;
  got_callback_before_timeout ← wait_for_cb sub_state;
  result ← ASSERT_TRUE 406 "got_callback_before_timeout" (mret got_callback_before_timeout) result;
  result ← ASSERT_TRUE 407 "sub_state->subscription_response.topic_count == 1" (equals (topic_count sub_state) 1) result;
  result ← ASSERT_TRUE 408 "sub_state->subscription_response.success[0]" (success_at sub_state 0) result;
  status ← smqtt_mt_publish publisher (elt topics 0) (chars "hello") QoS0 false None NULL;
  result ← ASSERT_TRUE 414 "status == SMQTT_MT_OK" (is_ok_status status) result;
  got_callback_before_timeout ← wait_for_cb sub_msg_state;
  result ← ASSERT_TRUE 418 "got_callback_before_timeout" (mret got_callback_before_timeout) result;
  result ← ASSERT_TRUE 419 "!strcmp(sub_msg_state->message_response.topic, topics[0])" (strequals (message_topic sub_msg_state) (elt topics 0)) result;
  result ← ASSERT_TRUE 420 ("!strcmp(sub_msg_state->message_response.msg, " ++ quoted "hello" ++ ")") (strequals (message_text sub_msg_state) (chars "hello")) result;
  result ← ASSERT_TRUE 421 "sub_msg_state->message_response.qos == QoS0" (equals (message_qos sub_msg_state) QoS0) result;
  result ← ASSERT_TRUE 422 "sub_msg_state->message_response.retain == false" (equals (message_retain sub_msg_state) false) result;
  _ ← release_cb sub_msg_state;
  status ← smqtt_mt_disconnect publisher;
  result ← ASSERT_TRUE 428 "status == SMQTT_MT_OK" (is_ok_status status) result;
  status ← smqtt_mt_disconnect subscriber;
  result ← ASSERT_TRUE 431 "status == SMQTT_MT_OK" (is_ok_status status) result;
  mret result.

Definition test_pub_sub_qos1_v3 : test test_result_t :=
  let result := init_result in
  '(status, publisher) ← connect_v3 "pub_client_1" None NULL;
  result ← ASSERT_TRUE 448 "status == SMQTT_MT_OK" (is_ok_status status) result;
  result ← ASSERT_TRUE 449 "publisher != NULL" (not_null publisher) result;
  pub_state ← create_cb_state;
  sub_state ← create_cb_state;
  sub_msg_state ← create_cb_state;
  '(status, subscriber) ← connect_v3 "sub_client_1" (Some message_cb) sub_msg_state;
  result ← ASSERT_TRUE 463 "status == SMQTT_MT_OK" (is_ok_status status) result;
  result ← ASSERT_TRUE 464 "subscriber != NULL" (not_null subscriber) result;
  let topics := [chars "test_topic_1"] in
  let qoss := [QoS1] in
  status ← smqtt_mt_subscribe subscriber 1 topics qoss (Some subscribe_cb) sub_state;
  result ← ASSERT_TRUE 473 "status == SMQTT_MT_OK" (is_ok_status status) result;
  got_callback_before_timeout ← wait_for_cb sub_state;
  result ← ASSERT_TRUE 476 "got_callback_before_timeout" (mret got_callback_before_timeout) result;
  result ← ASSERT_TRUE 477 "sub_state->subscription_response.topic_count == 1" (equals (topic_count sub_state) 1) result;
  result ← ASSERT_TRUE 478 "sub_state->subscription_response.success[0]" (success_at sub_state 0) result;
  status ← smqtt_mt_publish publisher (elt topics 0) (chars "hello") QoS1 false (Some request_cb) pub_state;
  result ← ASSERT_TRUE 484 "status == SMQTT_MT_OK" (is_ok_status status) result;
  got_callback_before_timeout ← wait_for_cb pub_state;
  result ← ASSERT_TRUE 487 "got_callback_before_timeout" (mret got_callback_before_timeout) result;
  got_callback_before_timeout ← wait_for_cb sub_msg_state;
  result ← ASSERT_TRUE 491 "got_callback_before_timeout" (mret got_callback_before_timeout) result;
  result ← ASSERT_TRUE 492 "!strcmp(sub_msg_state->message_response.topic, topics[0])" (strequals (message_topic sub_msg_state) (elt topics 0)) result;
  result ← ASSERT_TRUE 493 ("!strcmp(sub_msg_state->message_response.msg, " ++ quoted "hello" ++ ")") (strequals (message_text sub_msg_state) (chars "hello")) result;
  result ← ASSERT_TRUE 494 "sub_msg_state->message_response.qos == QoS1" (equals (message_qos sub_msg_state) QoS1) result;
  result ← ASSERT_TRUE 495 "sub_msg_state->message_response.retain == false" (equals (message_retain sub_msg_state) false) result;
  _ ← release_cb sub_msg_state;
  status ← smqtt_mt_disconnect publisher;
  result ← ASSERT_TRUE 501 "status == SMQTT_MT_OK" (is_ok_status status) result;
  status ← smqtt_mt_disconnect subscriber;
  result ← ASSERT_TRUE 504 "status == SMQTT_MT_OK" (is_ok_status status) result;
  mret result.

Definition test_pub_sub_qos2_v3 : test test_result_t :=
  let result := init_result in
  '(status, publisher) ← connect_v3 "pub_client_1" None NULL;
  result ← ASSERT_TRUE 521 "status == SMQTT_MT_OK" (is_ok_status status) result;
  result ← ASSERT_TRUE 522 "publisher != NULL" (not_null publisher) result;
  pub_state ← create_cb_state;
  sub_state ← create_cb_state;
  sub_msg_state ← create_cb_state;
  '(status, subscriber) ← connect_v3 "sub_client_1" (Some message_cb) sub_msg_state;
  result ← ASSERT_TRUE 536 "status == SMQTT_MT_OK" (is_ok_status status) result;
  result ← ASSERT_TRUE 537 "subscriber != NULL" (not_null subscriber) result;
  let topics := [chars "test_topic_1"] in
  let qoss := [QoS2] in
  status ← smqtt_mt_subscribe subscriber 1 topics qoss (Some subscribe_cb) sub_state;
  result ← ASSERT_TRUE 546 "status == SMQTT_MT_OK" (is_ok_status status) result;
  got_callback_before_timeout ← wait_for_cb sub_state;
  result ← ASSERT_TRUE 549 "got_callback_before_timeout" (mret got_callback_before_timeout) result;
  result ← ASSERT_TRUE 550 "sub_state->subscription_response.topic_count == 1" (equals (topic_count sub_state) 1) result;
  result ← ASSERT_TRUE 551 "sub_state->subscription_response.success[0]" (success_at sub_state 0) result;
  status ← smqtt_mt_publish publisher (elt topics 0) (chars "hello") QoS2 false (Some request_cb) pub_state;
  result ← ASSERT_TRUE 557 "status == SMQTT_MT_OK" (is_ok_status status) result;
  got_callback_before_timeout ← wait_for_cb pub_state;
  result ← ASSERT_TRUE 560 "got_callback_before_timeout" (mret got_callback_before_timeout) result;
  got_callback_before_timeout ← wait_for_cb sub_msg_state;
  result ← ASSERT_TRUE 564 "got_callback_before_timeout" (mret got_callback_before_timeout) result;
  result ← ASSERT_TRUE 565 "!strcmp(sub_msg_state->message_response.topic, topics[0])" (strequals (message_topic sub_msg_state) (elt topics 0)) result;
  result ← ASSERT_TRUE 566 ("!strcmp(sub_msg_state->message_response.msg, " ++ quoted "hello" ++ ")") (strequals (message_text sub_msg_state) (chars "hello")) result;
  result ← ASSERT_TRUE 567 "sub_msg_state->message_response.qos == QoS2" (equals (message_qos sub_msg_state) QoS2) result;
  result ← ASSERT_TRUE 568 "sub_msg_state->message_response.retain == false" (equals (message_retain sub_msg_state) false) result;
  _ ← release_cb sub_msg_state;
  status ← smqtt_mt_disconnect publisher;
  result ← ASSERT_TRUE 574 "status == SMQTT_MT_OK" (is_ok_status status) result;
  status ← smqtt_mt_disconnect subscriber;
  result ← ASSERT_TRUE 577 "status == SMQTT_MT_OK" (is_ok_status status) result;
  mret result.

Definition test_pub_sub_qos_mixed_v3 : test test_result_t :=
  let result := init_result in
  '(status, publisher) ← connect_v3 "pub_client_1" None NULL;
  result ← ASSERT_TRUE 594 "status == SMQTT_MT_OK" (is_ok_status status) result;
  result ← ASSERT_TRUE 595 "publisher != NULL" (not_null publisher) result;
  pub_state_2 ← create_cb_state;
  pub_state_3 ← create_cb_state;
  sub_state ← create_cb_state;
  sub_msg_state ← create_cb_state;
  '(status, subscriber) ← connect_v3 "sub_client_1" (Some message_cb) sub_msg_state;
  result ← ASSERT_TRUE 610 "status == SMQTT_MT_OK" (is_ok_status status) result;
  result ← ASSERT_TRUE 611 "subscriber != NULL" (not_null subscriber) result;
  let topics := [chars "test_topic_1"] in
  let qoss := [QoS2] in
  status ← smqtt_mt_subscribe subscriber 1 topics qoss (Some subscribe_cb) sub_state;
  result ← ASSERT_TRUE 620 "status == SMQTT_MT_OK" (is_ok_status status) result;
  got_callback_before_timeout ← wait_for_cb sub_state;
  result ← ASSERT_TRUE 623 "got_callback_before_timeout" (mret got_callback_before_timeout) result;
  result ← ASSERT_TRUE 624 "sub_state->subscription_response.topic_count == 1" (equals (topic_count sub_state) 1) result;
  result ← ASSERT_TRUE 625 "sub_state->subscription_response.success[0]" (success_at sub_state 0) result;
  status ← smqtt_mt_publish publisher (elt topics 0) (chars "hello1") QoS0 false None NULL;
  result ← ASSERT_TRUE 631 "status == SMQTT_MT_OK" (is_ok_status status) result;
  status ← smqtt_mt_publish publisher (elt topics 0) (chars "hello2") QoS1 false (Some request_cb) pub_state_2;
  result ← ASSERT_TRUE 634 "status == SMQTT_MT_OK" (is_ok_status status) result;
  status ← smqtt_mt_publish publisher (elt topics 0) (chars "hello3") QoS2 false (Some request_cb) pub_state_3;
  result ← ASSERT_TRUE 637 "status == SMQTT_MT_OK" (is_ok_status status) result;
  got_callback_before_timeout ← wait_for_cb pub_state_2;
  result ← ASSERT_TRUE 641 "got_callback_before_timeout" (mret got_callback_before_timeout) result;
  got_callback_before_timeout ← wait_for_cb pub_state_3;
  result ← ASSERT_TRUE 643 "got_callback_before_timeout" (mret got_callback_before_timeout) result;
  got_callback_before_timeout ← wait_for_cb sub_msg_state;
  result ← ASSERT_TRUE 647 "got_callback_before_timeout" (mret got_callback_before_timeout) result;
  result ← ASSERT_TRUE 648 "!strcmp(sub_msg_state->message_response.topic, topics[0])" (strequals (message_topic sub_msg_state) (elt topics 0)) result;
  result ← ASSERT_TRUE 649 ("!strcmp(sub_msg_state->message_response.msg, " ++ quoted "hello1" ++ ")") (strequals (message_text sub_msg_state) (chars "hello1")) result;
  result ← ASSERT_TRUE 650 "sub_msg_state->message_response.qos == QoS0" (equals (message_qos sub_msg_state) QoS0) result;
  result ← ASSERT_TRUE 651 "sub_msg_state->message_response.retain == false" (equals (message_retain sub_msg_state) false) result;
  _ ← release_cb sub_msg_state;
  got_callback_before_timeout ← wait_for_cb sub_msg_state;
  result ← ASSERT_TRUE 655 "got_callback_before_timeout" (mret got_callback_before_timeout) result;
  result ← ASSERT_TRUE 656 "!strcmp(sub_msg_state->message_response.topic, topics[0])" (strequals (message_topic sub_msg_state) (elt topics 0)) result;
  result ← ASSERT_TRUE 657 ("!strcmp(sub_msg_state->message_response.msg, " ++ quoted "hello2" ++ ")") (strequals (message_text sub_msg_state) (chars "hello2")) result;
  result ← ASSERT_TRUE 658 "sub_msg_state->message_response.qos == QoS1" (equals (message_qos sub_msg_state) QoS1) result;
  result ← ASSERT_TRUE 659 "sub_msg_state->message_response.retain == false" (equals (message_retain sub_msg_state) false) result;
  _ ← release_cb sub_msg_state;
  got_callback_before_timeout ← wait_for_cb sub_msg_state;
  result ← ASSERT_TRUE 663 "got_callback_before_timeout" (mret got_callback_before_timeout) result;
  result ← ASSERT_TRUE 664 "!strcmp(sub_msg_state->message_response.topic, topics[0])" (strequals (message_topic sub_msg_state) (elt topics 0)) result;
  result ← ASSERT_TRUE 665 ("!strcmp(sub_msg_state->message_response.msg, " ++ quoted "hello3" ++ ")") (strequals (message_text sub_msg_state) (chars "hello3")) result;
  result ← ASSERT_TRUE 666 "sub_msg_state->message_response.qos == QoS2" (equals (message_qos sub_msg_state) QoS2) result;
  result ← ASSERT_TRUE 667 "sub_msg_state->message_response.retain == false" (equals (message_retain sub_msg_state) false) result;
  _ ← release_cb sub_msg_state;
  status ← smqtt_mt_disconnect publisher;
  result ← ASSERT_TRUE 673 "status == SMQTT_MT_OK" (is_ok_status status) result;
  status ← smqtt_mt_disconnect subscriber;
  result ← ASSERT_TRUE 676 "status == SMQTT_MT_OK" (is_ok_status status) result;
  mret result.

(** [test_definitions.txt] *)
Definition all_tests : list (string * test test_result_t) :=
  [("test_connect_disconnect_v3", test_connect_disconnect_v3); ("test_ping_v3", test_ping_v3);
   ("test_publish_qos0_v3", test_publish_qos0_v3); ("test_publish_qos1_v3", test_publish_qos1_v3);
   ("test_publish_qos2_v3", test_publish_qos2_v3); ("test_subscribe_simple_v3", test_subscribe_simple_v3);
   ("test_subscribe_multiple_v3", test_subscribe_multiple_v3); ("test_pub_sub_qos0_v3", test_pub_sub_qos0_v3);
   ("test_pub_sub_qos1_v3", test_pub_sub_qos1_v3); ("test_pub_sub_qos2_v3", test_pub_sub_qos2_v3);
   ("test_pub_sub_qos_mixed_v3", test_pub_sub_qos_mixed_v3)]%string.
