(* ===== verification/TestMtRun.v ===== *)
(** TestMtRun: the tests of [TestMt] in action: the test's thread, the clients it
    connects, each with its session thread, and the monitors, in any interleaving. *)

From S2P Require Import Prelude Protocol Size Wire Serialize Deserialize Codec Server Queue ClientProtocol Runner Connection ClientMt ClientMtSession ClientMtConnect ClientMtSafe Callbacks TestMt.
From Stdlib Require Import String.

#[local] Open Scope Z_scope.

(** * State *)

(** A client: the system of its session thread and the calls on it, the number of
    callbacks that have returned, and whether [subscribe_cb] has written its
    response already. *)
Record station (W : Type) := mk_station { threads_of : @system W; returned : nat; responded : bool }.
Arguments mk_station {W} _ _ _.
Arguments threads_of {W} _. Arguments returned {W} _. Arguments responded {W} _.

(** A [cb_state_t]; its mutex is held for the length of a call ([Callbacks] has
    the steps in between). *)
Record cb_slot := mk_cb_slot { full : bool; content : cb_response }.

(** Everything: the test's thread and the call it waits for, the clients, the
    monitors, the connections the broker will accept or refuse, and the two
    buffers of [smqttc_mt.c]. *)
Record arena (W : Type) := mk_arena {
  program : test test_result_t;
  calling : option nat;
  stations : list (station W);
  states : list cb_slot;
  connections : list W;
  buffers : list Z * list Z
}.
Arguments mk_arena {W} _ _ _ _ _ _.
Arguments program {W} _. Arguments calling {W} _. Arguments stations {W} _.
Arguments states {W} _. Arguments connections {W} _. Arguments buffers {W} _.

Section arena.
Context {W : Type} (srv : server_t W) (junk : list Z).
Local Abbreviation arena := (arena W).

Definition with_program (x : arena) (t : test test_result_t) : arena :=
  mk_arena t None (stations x) (states x) (connections x) (buffers x).
Definition with_station (x : arena) (c : nat) (s : station W) : arena :=
  mk_arena (program x) (calling x) (<[c := s]> (stations x)) (states x) (connections x) (buffers x).
Definition with_states (x : arena) (l : list cb_slot) : arena :=
  mk_arena (program x) (calling x) (stations x) l (connections x) (buffers x).

(** ** Steps

    A move of a thread has no result where the thread has to wait, and a [Fault]
    where what it does is not defined. *)
Definition proceed {A B} (o : outcome A) (k : A → option (outcome B)) : option (outcome B) :=
  match o with Ok a => k a | Fault e => Some (Fault e) end.

(** What a pointer points to. *)
Definition target {A} (o : option A) : outcome A := match o with Some a => Ok a | None => Fault NullDeref end.

(** ** Monitors *)

Definition state_at (l : list cb_slot) (p : Z) : option cb_slot :=
  if decide (1 ≤ p) then l !! Z.to_nat (p - 1) else None.
Definition set_state (l : list cb_slot) (p : Z) (s : cb_slot) : list cb_slot := <[Z.to_nat (p - 1) := s]> l.

(** A call on a monitor, where it need not wait. *)
Definition monitor_call (c : cb_call) (s : cb_slot) : option cb_slot :=
  if must_wait c (full s) then None
  else let '(d, r, _) := acts c (full s) (content s) in Some (mk_cb_slot d r).

Definition on_state (x : arena) (p : Z) (c : cb_call) (k : arena → arena) : option (outcome arena) :=
  proceed (target (state_at (states x) p)) (λ s,
    s' ← monitor_call c s; Some (Ok (k (with_states x (set_state (states x) p s'))))).

(** The callback of an event and the monitor it gets. *)
Definition callback_of (e : call_event) : option (Z * cb_call) :=
  match e with
  | Completed cb ctx => if decide (cb = request_cb) then Some (ctx, Request_cb) else None
  | Subscribed cb _ rs ctx => if decide (cb = subscribe_cb) then Some (ctx, Subscribe_cb (zlen rs) rs) else None
  | Delivered cb topic msg qos retain ctx =>
      if decide (cb = message_cb) then Some (ctx, Message_cb topic msg qos retain) else None
  end.

(** ** Moves *)

Inductive move := Test_thread | Session_thread (c : nat) | Call_thread (c i : nat) | Callback_return (c : nat).

(** The test's thread. *)
Definition connect_move (x : arena) (mode : server_mode_t) (server_ip : list Z) (port : Z) (client_id : list Z)
    (user pw : option (list Z)) (keep_alive_sec : Z) (clean_session last_will_and_testament : bool) (will_qos : Z)
    (will_retain : bool) (will_topic will_message : option (list Z)) (msg_callback : option Z) (msg_cb_context : Z)
    (k : smqtt_mt_status_t * option nat → test test_result_t) : option (outcome arena) :=
  match connections x with
  | [] => None
  | w :: ws =>
      proceed (ClientMtConnect.smqtt_mt_connect_internal srv true junk mode server_ip port client_id user pw keep_alive_sec
              clean_session last_will_and_testament will_qos will_retain will_topic will_message msg_callback
              msg_cb_context (mk_globals (buffers x).1 (buffers x).2 w)) (λ r,
        match r with
        | (st, Some m, g) =>
            Some (Ok (mk_arena (k (st, Some (List.length (stations x)))) None
                    (stations x ++ [mk_station (mk_system m Top []) 0 false]) (states x) ws
                    (mt_send_buffer g, mt_receive_buffer g)))
        | (st, None, g) =>
            Some (Ok (mk_arena (k (st, None)) None (stations x) (states x) ws (mt_send_buffer g, mt_receive_buffer g)))
        end)
  end.

(** A call is a thread of the client's system until it returns. *)
Definition call_move (x : arena) (c : nat) (r : request) (k : smqtt_mt_status_t → test test_result_t)
    : option (outcome arena) :=
  proceed (target (stations x !! c)) (λ s,
    match calling x with
    | None =>
        t ← choose (New_call r) (threads_of s);
        Some (Ok (mk_arena (program x) (Some (List.length (callers (threads_of s))))
                (<[c := mk_station t (returned s) (responded s)]> (stations x)) (states x) (connections x) (buffers x)))
    | Some i =>
        match callers (threads_of s) !! i with
        | Some (_, Returned st) => Some (Ok (with_program x (k st)))
        | _ => None
        end
    end).

(** The signal, and once the session thread has ended the rest of the function. *)
Definition disconnect_move (x : arena) (c : nat) (k : smqtt_mt_status_t → test test_result_t) : option (outcome arena) :=
  proceed (target (stations x !! c)) (λ s,
    let t := threads_of s in
    if ready_to_disconnect (shared t) then
      match session t with
      | Done =>
          proceed (ClientMtConnect.smqtt_mt_disconnect (shared t)
                  (mk_globals (buffers x).1 (buffers x).2 (world (shared t)))) (λ '(st, g),
            Some (Ok (mk_arena (k st) None (stations x) (states x) (connections x) (mt_send_buffer g, mt_receive_buffer g))))
      | _ => None
      end
    else
      t' ← choose Disconnect_signal t;
      Some (Ok (with_station x c (mk_station t' (returned s) (responded s))))).

Definition test_move (x : arena) : option (outcome arena) :=
  match program x with
  | Ret _ => None
  | Crash e => Some (Fault e)
  | Do (Connect mode ip port id user pw keep clean lw wq wr wt wm cb ctx) k =>
      connect_move x mode ip port id user pw keep clean lw wq wr wt wm cb ctx k
  | Do (Call c r) k => call_move x c r k
  | Do (Disconnect c) k => disconnect_move x c k
  | Do New_state k =>
      Some (Ok (mk_arena (k (Z.of_nat (S (List.length (states x))))) None (stations x)
              (states x ++ [mk_cb_slot false cb_unwritten]) (connections x) (buffers x)))
  | Do (Wait p) k => on_state x p Wait_for_cb (λ y, with_program y (k true))
  | Do (Release p) k => on_state x p Release_cb (λ y, with_program y (k tt))
  | Do (Look p) k => proceed (target (state_at (states x) p)) (λ s, Some (Ok (with_program x (k (content s)))))
  | Do (Sleep _) k => Some (Ok (with_program x (k tt)))
  end.

(** A session thread goes on when its callbacks have returned. *)
Definition callbacks_done (s : station W) : bool :=
  bool_decide (returned s = List.length (calls (shared (threads_of s)))).

(** The fault of a thread that could move. *)
Definition thread_fault (what : choice) (t : @system W) : option fault :=
  let m := shared t in
  let cs := callers t in
  match what with
  | Run_session =>
      if session_locks (session t) && locked cs then None
      else match session_step (session t) m with Fault e => Some e | Ok _ => None end
  | Run_call i =>
      match cs !! i with
      | Some (r, p) =>
          if api_locks r p m && locked cs then None
          else match api_step r p m with Fault e => Some e | Ok _ => None end
      | None => None
      end
  | New_call _ | Disconnect_signal => None
  end.

Definition system_move (x : arena) (c : nat) (what : choice) : option (outcome arena) :=
  s ← stations x !! c;
  match choose what (threads_of s) with
  | Some t => Some (Ok (with_station x c (mk_station t (returned s) (responded s))))
  | None => Fault <$> thread_fault what (threads_of s)
  end.

(** The callback a session thread is in.  Another function than the three of the
    test program is a pointer it never passed. *)
Definition callback_move (x : arena) (c : nat) : option (outcome arena) :=
  s ← stations x !! c;
  e ← calls (shared (threads_of s)) !! returned s;
  proceed (target (callback_of e)) (λ '(p, call),
    match call, responded s with
    | Subscribe_cb n rs, false =>
        proceed (target (state_at (states x) p)) (λ slot,
          Some (Ok (with_station (with_states x (set_state (states x) p (mk_cb_slot (full slot) (subscription_response n rs)))) c
                (mk_station (threads_of s) (returned s) true))))
    | _, _ => on_state x p call (λ y, with_station y c (mk_station (threads_of s) (S (returned s)) false))
    end).

Definition make_move (v : move) (x : arena) : option (outcome arena) :=
  match v with
  | Test_thread => test_move x
  | Session_thread c => s ← stations x !! c; if callbacks_done s then system_move x c Run_session else None
  | Call_thread c i => system_move x c (Run_call i)
  | Callback_return c => callback_move x c
  end.

(** An execution: who moves.  It ends with the first fault; there is none where a
    thread is to move that has to wait. *)
Fixpoint execute (l : list move) (x : arena) : option (outcome arena) :=
  match l with [] => Some (Ok x) | v :: l => o ← make_move v x; proceed o (execute l) end.

Definition start (t : test test_result_t) (ws : list W) (b : list Z * list Z) : arena := mk_arena t None [] [] ws b.

(** Every thread in turn, until the test disconnects. *)
Definition disconnects (t : test test_result_t) : bool := match t with Do (Disconnect _) _ => true | _ => false end.

Definition try_move (o : outcome arena) (v : move) : outcome arena := x ← o; default (Ok x) (make_move v x).

Definition turn (x : arena) : outcome arena :=
  foldl try_move (Ok x)
    (Test_thread :: List.concat (imap (λ c s, [Call_thread c (pred (List.length (callers (threads_of s)))); Callback_return c; Session_thread c])
       (stations x))).

Fixpoint drive (fuel : nat) (x : arena) : outcome arena :=
  match fuel with
  | O => Ok x
  | S fuel => if disconnects (program x) then Ok x else x ← turn x; drive fuel x
  end.

End arena.

(** The result a test would have if its disconnects answered [SMQTT_MT_OK]; they
    do not answer at all ([no_test_returns]). *)
Fixpoint after_disconnects (t : test test_result_t) : option test_result_t :=
  match t with
  | Ret r => Some r
  | Crash _ => None
  | Do o k =>
      match o return (answer o → option test_result_t) → option test_result_t with
      | Disconnect _ => λ f, f SMQTT_MT_OK
      | _ => λ _, None
      end (λ a, after_disconnects (k a))
  end.

(** * No test returns *)

(** Every way to an end passes by a disconnect, whatever the test is told. *)
Fixpoint ends_by_disconnect {A} (t : test A) : Prop :=
  match t with
  | Ret _ => False
  | Crash _ => True
  | Do o k => match o with Disconnect _ => True | _ => ∀ a, ends_by_disconnect (k a) end
  end.

Lemma disconnect_bind {A B} (t : test A) (f : A → test B) : (∀ a, ends_by_disconnect (f a)) → ends_by_disconnect (t ≫= f).
Proof. intros Hf. induction t as [a|e|o k IH]; [by apply Hf|done|]. cbn. by destruct o. Qed.

Lemma disconnect_here {B} client (f : smqtt_mt_status_t → test B) : ends_by_disconnect (smqtt_mt_disconnect client ≫= f).
Proof. by destruct client. Qed.

Lemma tests_disconnect t : t ∈ all_tests.*2 → ends_by_disconnect t.
Proof.
  intros Ht. unfold all_tests in Ht. cbn [fmap list_fmap snd] in Ht. rewrite !elem_of_cons in Ht.
  destruct_or! Ht; [subst t..|by apply not_elem_of_nil in Ht];
    match goal with |- ends_by_disconnect ?t => unfold t end; cbv zeta;
    repeat first [apply disconnect_here | apply disconnect_bind; first [intros [? ?] | intros ?]].
Qed.

Section returns.
Context {W : Type} (srv : server_t W) (junk : list Z).

Lemma proceed_ok {A B} (o : outcome A) (k : A → option (outcome B)) b :
  proceed o k = Some (Ok b) → ∃ a, o = Ok a ∧ k a = Some (Ok b).
Proof using Type. destruct o as [a|]; [|done]. by exists a. Qed.

Lemma on_state_program (x y : arena W) p c k :
  on_state x p c k = Some (Ok y) → ∃ l, y = k (with_states x l).
Proof using Type.
  unfold on_state. intros (s & _ & H)%proceed_ok. apply bind_Some in H as (s' & _ & [= <-]). by eexists.
Qed.

Lemma system_move_program (x y : arena W) c what : system_move x c what = Some (Ok y) → program y = program x.
Proof using Type.
  unfold system_move. intros (s & _ & H)%bind_Some. destruct (choose _ _); [by injection H as <-|].
  by destruct (thread_fault _ _).
Qed.

(** The end is as far as before. *)
Lemma make_move_disconnect v (x y : arena W) :
  ends_by_disconnect (program x) → make_move srv junk v x = Some (Ok y) → ends_by_disconnect (program y).
Proof using Type.
  intros Hx H. destruct v as [|c|c i|c]; cbn [make_move] in H.
  - unfold test_move in H. destruct (program x) as [r|e|o k] eqn:Hp; [done..|].
    destruct o as [mode ip port id user pw keep clean lw wq wr wt wm cb ctx|c r|c| |p|p|p|msec]; cbn in Hx.
    + unfold connect_move in H. destruct (connections x) as [|w ws]; [done|].
      apply proceed_ok in H as ([[st [m|]] g] & _ & H); injection H as <-; apply Hx.
    + unfold call_move in H. apply proceed_ok in H as (s & _ & H). destruct (calling x) as [i|].
      * destruct (callers (threads_of s) !! i) as [[r' p]|]; [|done]. destruct p; try done. injection H as <-. apply Hx.
      * apply bind_Some in H as (t & _ & [= <-]). cbn [program]. by rewrite Hp.
    + unfold disconnect_move in H. apply proceed_ok in H as (s & _ & H).
      destruct (ready_to_disconnect _); [by destruct (session _)|]. apply bind_Some in H as (t & _ & [= <-]).
      cbn [program with_station]. by rewrite Hp.
    + injection H as <-. apply Hx.
    + apply on_state_program in H as [l ->]. apply Hx.
    + apply on_state_program in H as [l ->]. apply Hx.
    + apply proceed_ok in H as (s & _ & [= <-]). apply Hx.
    + injection H as <-. apply Hx.
  - apply bind_Some in H as (s & _ & H). destruct (callbacks_done s); [|done]. by rewrite (system_move_program _ _ _ _ H).
  - by rewrite (system_move_program _ _ _ _ H).
  - unfold callback_move in H. apply bind_Some in H as (s & _ & H). apply bind_Some in H as (e & _ & H).
    apply proceed_ok in H as ([p call] & _ & H).
    destruct call; try (by apply on_state_program in H as [l ->]).
    destruct (responded s); [by apply on_state_program in H as [l ->]|]. by apply proceed_ok in H as (slot & _ & [= <-]).
Qed.

(** C23. No test of the multi-threaded client returns by defined behaviour.  On
    every interleaving and with any broker: every test comes to a disconnect first,
    and [smqtt_mt_disconnect] uses the missing result of [join_session_thread]. *)
Theorem no_test_returns t ws b l (x : arena W) r :
  t ∈ all_tests.*2 → execute srv junk l (start t ws b) = Some (Ok x) → program x ≠ Ret r.
Proof using Type.
  intros Ht H Hr. assert (ends_by_disconnect (program x)) as Hd; [|by rewrite Hr in Hd].
  assert (Hs : ends_by_disconnect (program (start t ws b))) by by apply tests_disconnect.
  revert Hs H. generalize (start t ws b). clear Hr Ht. induction l as [|v l IH]; intros y Hs H; [by injection H as <-|].
  cbn [execute] in H. apply bind_Some in H as (o & Ho & H). apply proceed_ok in H as (z & -> & H).
  eapply IH; [|exact H]. by eapply make_move_disconnect.
Qed.

End returns.

(** * Runs with a broker

    It answers a packet with the first answer of its script that is for the packet's
    type, once. *)
Definition reacting : Type := list (message_type_t * list (list Z)) * list (list Z).

Definition react (buffer : list Z) (w : reacting) : reacting :=
  match buffer with
  | [] => w
  | b :: _ =>
      match list_find (λ a, Z.shiftr b 4 = message_type_val a.1) w.1 with
      | Some (i, (_, replies)) => (delete i w.1, (w.2 ++ replies)%list)
      | None => w
      end
  end.

Definition reactive : server_t reacting := {|
  srv_connect _ _ _ w := Ok (SMQTT_NET_OK, w);
  srv_send buffer _ w := Ok (SMQTT_NET_OK, react buffer w);
  srv_receive buffer _ w :=
    match w.2 with
    | p :: out => Ok (zlen p, splice buffer 0 p, (w.1, out))
    | [] => Ok (0, buffer, w)
    end;
  srv_disconnect w := Ok (SMQTT_NET_OK, w)
|}.

Definition sample_arena (t : test test_result_t) (scripts : list (list (message_type_t * list (list Z)))) : arena reacting :=
  start t ((., []) <$> scripts) (sample_junk, sample_junk).

Definition final (t : test test_result_t) (scripts : list (list (message_type_t * list (list Z)))) : option test_result_t :=
  match drive reactive sample_junk 120 (sample_arena t scripts) with
  | Ok x => after_disconnects (program x)
  | Fault _ => None
  end.

Definition hello (text : string) (qos id : Z) : list Z := mqtt_publish (chars "test_topic_1") id qos false (chars text).
Definition granted (qoss : list Z) : list Z := mqtt_suback 1 (mk_sub_result true <$> qoss).
Definition accepted : message_type_t * list (list Z) := (CONNECT, [mqtt_connack 0]).
Definition at_qos1 (id : Z) : message_type_t * list (list Z) := (PUBLISH, [mqtt_ack PUBACK 0 id]).

Definition scripts : list (list (list (message_type_t * list (list Z)))) :=
  [ [[accepted]];
    [[accepted; (PINGREQ, [mqtt_empty PINGRESP]); (PINGREQ, [mqtt_empty PINGRESP])]];
    [[accepted]];
    [[accepted; at_qos1 1; at_qos1 2]];
    [[accepted; (PUBLISH, [mqtt_ack PUBREC 0 1]); (PUBLISH, [mqtt_ack PUBREC 0 2]); (PUBREL, [mqtt_ack PUBCOMP 0 1]);
      (PUBREL, [mqtt_ack PUBCOMP 0 2])]];
    [[accepted; (SUBSCRIBE, [granted [QoS1]])]];
    [[accepted; (SUBSCRIBE, [granted [QoS1; QoS2; QoS0]])]];
    [[accepted]; [accepted; (SUBSCRIBE, [granted [QoS0]; hello "hello" QoS0 0])]];
    [[accepted; at_qos1 1]; [accepted; (SUBSCRIBE, [granted [QoS1]; hello "hello" QoS1 1])]];
    [[accepted; (PUBLISH, [mqtt_ack PUBREC 0 1]); (PUBREL, [mqtt_ack PUBCOMP 0 1])];
     [accepted; (SUBSCRIBE, [granted [QoS2]; hello "hello" QoS2 1]); (PUBREC, [mqtt_ack PUBREL 2 1])]];
    [[accepted; (PUBLISH, []); at_qos1 1; (PUBLISH, [mqtt_ack PUBREC 0 2]); (PUBREL, [mqtt_ack PUBCOMP 0 2])];
     [accepted; (SUBSCRIBE, [granted [QoS2]; hello "hello1" QoS0 0; hello "hello2" QoS1 1; hello "hello3" QoS2 2]);
      (PUBACK, []); (PUBREC, [mqtt_ack PUBREL 2 2])]]
  ].

(** With a broker that answers as the protocol asks, every test gets to its
    disconnects without a fault and without a failed assertion; 120 rounds of all
    threads are enough. *)
Example all_tests_disconnect :
  zip_with (λ t s, final t.2 s) all_tests scripts = replicate 11 (Some init_result).
Proof. vm_compute. reflexivity. Qed.

(** * A schedule

    The ping test up to its disconnect: it connects, makes its two calls and waits;
    the session thread sends and receives, and each callback lets a wait return. *)
Definition ping_moves : list move :=
  replicate 4 Test_thread ++ replicate 10 (Call_thread 0 0) ++ replicate 2 Test_thread ++ replicate 10 (Call_thread 0 1) ++
  [Test_thread] ++ replicate 6 (Session_thread 0) ++ [Callback_return 0; Test_thread] ++
  replicate 6 (Session_thread 0) ++ [Callback_return 0; Test_thread].

Definition ping_start : arena (list (list Z)) :=
  start test_ping_v3 [[mqtt_connack 0; mqtt_empty PINGRESP; mqtt_empty PINGRESP]] (sample_junk, sample_junk).

Definition ping_end : arena (list (list Z)) :=
  match execute scripted sample_junk ping_moves ping_start with Some (Ok x) => x | _ => ping_start end.

Lemma ping_executes : execute scripted sample_junk ping_moves ping_start = Some (Ok ping_end).
Proof.
  unfold ping_end.
  assert (H : match execute scripted sample_junk ping_moves ping_start with Some (Ok _) => true | _ => false end = true)
    by (vm_compute; reflexivity).
  by destruct (execute scripted sample_junk ping_moves ping_start) as [[]|].
Qed.

(** From there the signal, the end of the session thread, and the fault. *)
Example ping_disconnect_faults :
  execute scripted sample_junk (ping_moves ++ [Test_thread; Session_thread 0; Test_thread]) ping_start =
    Some (Fault Uninitialised).
Proof. vm_compute. reflexivity. Qed.

Lemma no_test_returns_witness : disconnects (program ping_end) = true ∧ program ping_end ≠ Ret init_result.
Proof.
  split; [vm_compute; reflexivity|].
  apply (no_test_returns scripted sample_junk test_ping_v3
    [[mqtt_connack 0; mqtt_empty PINGRESP; mqtt_empty PINGRESP]] (sample_junk, sample_junk) ping_moves ping_end).
  - right. left.
  - apply ping_executes.
Defined.
